(* ===== verification/_CoqProject ===== *)
-Q . S2P
Prelude.v
Text.v
Ip.v
Outbound.v
Http.v
Domains.v
CryptoApi.v
Crypto.v
Splitter.v
FakeTls.v
Config.v
Cli.v
CliPrint.v
Limits.v
WsClient.v
Dialing.v
Tls.v
Pool.v
Session.v
Bridge.v
Join.v
Report.v
Routing.v
Handler.v
Check.v
Server.v
Timed.v
Banner.v
Main.v
System.v
EndToEnd.v
Android.v
AndroidJni.v
