(* ===== verification/Prelude.v ===== *)
(** * tg-ws-proxy-rs: a verification library

    tg-ws-proxy is a local MTProto proxy: Telegram clients connect to it, and it
    carries their traffic to Telegram's data centres inside WebSockets (or, when
    those are blocked, through Cloudflare, other MTProto proxies or plain TCP).
    This library models the program's own logic, as written under [src/src/],
    and proves what makes it correct.

    ** The program

    A client's TCP connection is handled by [proxy.rs]
    ([handle_client_with_runtime]).  It reads the client's 64-byte obfuscated
    init, directly or out of a FakeTLS handshake ([faketls.rs]); [crypto.rs]
    finds the secret it was made with, recovers DC, traffic class and transport,
    makes the relay init for Telegram and the four AES-CTR ciphers.  A ladder of
    upstreams is walked ([select_upstream]): a pooled or fresh WebSocket to the
    DC ([pool.rs], [ws_client.rs]), a Cloudflare Worker tunnel, a Cloudflare
    proxied domain, upstream MTProto proxies, plain TCP; cooldown maps remember
    what failed.  The bridge then moves bytes both ways; towards Telegram's own
    WebSocket the stream is cut into one message per MTProto packet
    ([splitter.rs]).  [config.rs] holds the tables and parsers all of them use;
    [limits.rs] derives the connection cap from the descriptor limit.

    Around that, [server.rs] starts the process (settings, default Cloudflare
    domains from [default_domains], validation, bind) and runs the accept loop;
    [outbound/] decides for every TCP connection whether it goes directly or
    through an HTTP or SOCKS5 proxy; [check.rs] probes what is configured
    ([--check]); the Android crate starts and stops the server from Kotlin.

    ** Files

    - Prelude: bytes, machine integers, slices, and [run], the outcome of code
      that can panic ([Panic]) or whose loop is run on fuel ([OutOfFuel]); its
      monad notation, the tactics [case_test], [boolify] and [len], the hint
      database [tgws].
    - Text: what the program uses of Rust strings: UTF-8 validation, characters,
      trimming, splitting, decimal printing and parsing.
    - Ip: addresses as the standard library reads and prints them.
    - Outbound ([outbound/config.rs], [outbound/connector.rs]): proxy settings,
      the [NO_PROXY] list, connects; every request made to the network is part
      of the result.  The crates for URLs, percent-encoding and networks are the
      class [OutboundCrates], TCP and the proxy handshakes the class [Sockets].
    - Http ([default_domains/http.rs]): the HTTPS client, reading a stream that
      arrives in pieces of any size; classes [HttpParser] (httparse) and
      [TlsClient].
    - Domains ([default_domains.rs]): the decoder and the fetch of the list.
    - CryptoApi: the crates for AES-256-CTR, SHA-256 and HMAC-SHA256, as the
      class [Crypto] with the laws [CryptoLaws]; [toy_crypto] is an executable
      instance.
    - Crypto ([crypto.rs]): [parse_handshake], [generate_relay_init],
      [generate_client_handshake], [build_connection_ciphers], secret layout.
      Random bytes are drawn from a tape, an argument.
    - Splitter ([splitter.rs]): [MsgSplitter] with its fields, the mutable
      buffer and the cipher as loop state; [framing] is the specification of the
      three MTProto transports.
    - FakeTls ([faketls.rs]): ClientHello construction, signing, parsing;
      ServerHello; records.
    - Config ([config.rs]): DC tables, parsers, normalisation, tier pinning, link
      secret; the [hex] crate is the class [Hex] with [HexLaws].
    - Cli ([config.rs]): the [#[arg(..)]] table: flag, variable, default and parser
      of every field; what clap makes of an argument vector is the class [Clap].
    - CliPrint ([config.rs]): a configuration spelled as arguments and variables
      ([args_of], [env_of]); class [ClapSpelling].
    - Limits ([limits.rs]): the connection cap.
    - WsClient ([ws_client.rs]): host names, cooldown maps, the Cloudflare domain
      iterator, and every dial with all its parameters.  The class [Network]
      answers the n-th dial of the process: TCP connect, TLS and HTTP upgrade,
      and the time they took.  [net] is the file's process-wide state.
    - Dialing ([ws_client.rs], [outbound/connector.rs]): [outbound_network], the
      instance of [Network] made from [Outbound.connect]; what is left outside is
      the class [WsUpgrade]; the public dialling functions.
    - Tls ([ws_client.rs]): [tls_upgrade], the instance of [WsUpgrade]: the upgrade
      request, the TLS name, the two shared client configurations with their
      session stores as a step relation, the no-op verifier.  The TLS and
      WebSocket protocols are the class [Rustls].
    - Pool ([pool.rs]): [WsPool] with the two idle maps and two reservation sets;
      the spawned tasks are data, and the step relation [pool_step] interleaves
      client calls, task phases and warm-up.  Its parameter [asked] is the
      Cloudflare targets that callers ask spares for: any target, or those that
      the configuration leads to ([cf_asked]).
    - Session ([proxy.rs]): [tcp] connections, [accept_inbound_faketls],
      [PendingData], [ClientReader], [ClientWriter], [connect_mtproto_upstream].
    - Bridge ([proxy.rs]): [bridge_ws], [bridge_relay], [bridge_tcp], as what each
      direction does with the bytes.
    - Join ([proxy.rs]): the same directions as tasks that advance one awaited
      operation at a time and can be cut off in the middle of it (class [Task]),
      and [join_bridge] as the step relation [join_step].
    - Report ([proxy.rs]): the line a session leaves in the log: [UploadCounter],
      [log_session_closed], and [human_bytes] with its rounding.
    - Routing ([proxy.rs]): the ladder over [world], the state shared by all
      connections; [others] of the class [Outside] is what the other tasks do to
      it around each await, and [OutsideLaws] limits that to the pool's own
      operations, over the targets [asked].
    - Handler ([proxy.rs]): [handle_client], which composes all of the above.
    - Check ([check.rs]): the probes and the report; sockets and streams are the
      class [ProbeIO].
    - Server ([server.rs], [runtime.rs], [main.rs]): [startup] as a function of the
      system (class [Host]), the accept loop as the step relation [loop_step],
      exit codes.
    - Timed ([proxy.rs], [server.rs]): a client's bytes on a clock ([client]), the
      handshake timeout ([timeout_handshake], [timed_setup]), when a client's task
      ends ([task_end]), and the accept loop with time ([clock_step]).
    - Banner ([server.rs]): the warnings and the banner as log lines.
    - Main ([main.rs]): [main], from the argument vector to the exit code, with the
      log set-up (class [LogHost]).
    - System: the process as a whole, [system_step]: any number of clients over one
      shared [world], under the permits of the accept loop, each permit given back
      by a run of [handle_client] that returns or panics.  [proc_step] is what a
      task does to the shared state between two awaits, and a client whose
      environment moves by such steps moves by them too (class [ProcessOutside]),
      which closes the assumption [Routing] makes about the other tasks.
    - EndToEnd: the binary, its link, the process and a client, composed.
    - Android ([android.rs]): the locked state with its poisoning, the calls from
      Kotlin and the ends of the worker threads as steps; the log writer.
    - AndroidJni ([android.rs]): the callbacks into Kotlin with their re-entry
      guard, thread attachment, class caching, the log filter, the worker's
      reports; the jni crate and the JVM are the class [Jni].

    ** What the theorems show

    - EndToEnd: a client that uses the link of a bare start gets the session it
      asks for, among any other clients ([announced_link_works]).
    - System: from every state the process can reach, in any interleaving, a
      client that holds a permit is served until its stream ends
      ([clients_served]), no cooldown that a client's run leaves is longer than
      its setting ([cooldowns_end]), and descriptors stay within the limit but
      for the Cloudflare spares, which are counted ([process_within_limits]).
    - Main and Cli: the binary on every command line and the reason for every exit
      code ([main_outcomes]), what it does when nothing is given
      ([bare_start_serves]), that every setting is read from the flag or variable
      it is written to ([cli_roundtrip]), and what an empty secret opens
      ([empty_secret_accepts]); how [--check-listener] ends ([listener_check_exit]).
    - Tls: who is at the other end of a WebSocket ([ws_peer_verified]).
    - Banner: no credential of another proxy is logged ([banner_hides_credentials]).
    - Handler: on arbitrary bytes a client is served until its stream ends, with
      no panic but for one DC index ([handle_client_total]), and a genuine one gets the session it asked for
      ([client_setup_ready]).
    - Timed: at whatever pace the bytes arrive, the wait for the handshake is over
      by the timeout, and a handshake that came in time is treated as Handler
      says of the whole stream ([handshake_deadline]); a slot taken without a
      handshake comes back by then ([handshake_slot_returned]); one taken by a
      rejected client need not come back at all ([rejected_clients_starve]).
    - Report: the counts in the log are what the sockets took, but for the chunk
      that was in flight in the direction cut off, and the figures are right to a
      tenth of their unit ([session_reported]).
    - Bridge: end to end, Telegram decrypts what the client encrypted, one
      message per packet where its endpoint wants that, and the client decrypts
      Telegram's answer, over each kind of upstream, to a plain or a FakeTLS
      client, also when a connection breaks ([ws_upload_packets],
      [ws_upload_tunnel], [ws_download_delivers], [tcp_bridge_delivers],
      [relay_delivers]).
    - Join: with the directions interleaved in any order a session ends, is never
      stuck, and what it delivers is what the end-to-end theorems say, whole for
      the direction that closed it and a prefix for the other
      ([ws_session_joined], [relay_session_joined]).
    - Server: start-up is decided exactly ([startup_decides]); permits are never
      lost or doubled ([accept_loop_bound]); exit codes ([check_mode_exit]).
    - Check: the verdict ([check_verdict_exact]) and what a passing one has seen
      of each target ([check_evidence]); the own-listener probe against the
      handler's handshake code ([listener_probe_meets]).
    - Outbound and Dialing: settings never panic and are well-formed
      ([outbound_config_typed]), which targets bypass the proxy
      ([no_proxy_decides]), which requests are made ([connect_route]),
      credentials stay out of messages ([credentials_hidden]); proxied dials
      cool nothing down ([proxied_edges_never_cool]).
    - Http and Domains: the client ends on any bytes ([https_get_total]) and
      receives a body exactly ([http_body_exact]); the decoder is the inverse of
      the obfuscation ([domain_codec_exact]), also end to end
      ([default_domains_published]), with a list in every case
      ([default_domains_available]).
    - Android: one worker at a time ([android_single_worker]); what a bad secret
      does ([android_bad_secret]); the log writer ([log_lines_cut_independent]);
      forwarding a line never re-enters itself ([jni_forwarding_safe]); what the
      application hears of a worker ([worker_reports_once]) and which filter is in
      force ([log_filter_follows]).
    - Routing: the ladder ends and yields an upstream ([select_upstream_total])
      with the framing its tier promises, dialled for the client's DC and class
      with the host name, path and SNI of the tier ([select_upstream_sound]); the cooldowns of the direct rung
      ([direct_ws_outcome]).
    - Session and FakeTls: untrusted bytes never panic the parser, only
      authenticated ClientHellos are answered, both roles of the handshake work
      together, streams survive any cutting into records, drain and record
      loops are decided exactly.
    - Pool: in every interleaving, one refill per bucket, descriptors within the
      budget, and pooled connections dialled as their bucket promises, with the
      host name of the bucket's DC except where balancing pools the bare zone; [get]
      returns the freshest usable one; warm-up covers exactly the direct tier.
    - Crypto and Splitter: round trips of the inits, mirror-image ciphers,
      refinement of [framing], independence of how reads are cut, totality.
    - WsClient, Config, Limits: edge selection, the Cloudflare connects, the
      iterator against a plain walk; lookups that agree, argument splitting,
      flag expansion, link secrets; the cap.

    Where a class stands for code outside the repository, the theorems hold for
    every instance that satisfies the stated laws, and each has a witness over
    executable instances ([toy_crypto], [plain_hex], [demo_network],
    [demo_outside], [demo_crates], [demo_sockets], [demo_tls], [demo_parser],
    [demo_upgrade], [demo_probes], [demo_host], [plain_clap], [demo_rustls],
    [demo_log], [demo_jni]).

    ** Fuel and bounds

    Loops that are not structural run on fuel, and the totality theorems show
    that the fuel the definitions pass is enough.  Reading loops use the number
    of bytes still to arrive, since each pass consumes a byte or ends
    ([client_measure], [init_loop], [read_appdata_loop]); the splitter's loop the
    length of the buffer; the rejection loops of the inits the length of the
    tape, with [random_ok] saying that the tape holds a usable draw; the domain
    iterator the number of domains left, and its client twice the number of
    domains, because each is retried at most once; the HTTP loops the bytes still
    to arrive, since every pass reads one or moves past a line or a chunk.  A
    joined session is bounded by the steps of its two directions.  The clock of
    Timed needs no fuel: a handshake can only be over at an instant of the
    client's schedule, of which there are finitely many.  A callback into Kotlin
    nests at most once, which is the fuel [call_static] passes.
    Integers the code keeps at a width are wrapped, checked or saturated as in
    the source; [usize_max] is a parameter, at least 2^32 - 1 where framing
    depends on it.

    ** Choices of the model

    - A timeout of a dial is an outcome of [Network].  A client that stalls is one
      whose stream ends, except in Timed, where its bytes carry the instants at
      which they arrive.  Reading them takes no time there, a byte that arrives at
      the very instant of the timeout counts as in time, and writing the
      ServerHello does not block.
    - [f64] is used for byte counts only: whole numbers rounded to 53 bits, ties
      to even, over powers of 1024; printing to one decimal rounds ties to even.
    - A failed write leaves the connection as it was: bytes of it that the peer
      may still have received are not counted.
    - A connect that dials several times is one step for the other tasks; they
      run before and after it.
    - In Bridge and Handler each direction of a bridge is run to its end; Join
      relates this to the interleaved session in which one direction is
      cancelled.  A write counts once its await has completed; the one that is
      cut off leaves any part of its bytes with the socket, a WebSocket message is
      sent or not.
    - The domains of a dial are plain host names: the TLS name is the host of the
      request's URL, which differs from the domain when that has a port.
    - Dials of the handler go through the class [Network]; Dialing shows that the
      outbound connector is such a network.
    - A read of the HTTP client that times out is a read that fails.
    - Arithmetic overflow panics, as in a build with overflow checks.  Instants
      and the byte counts of a session do not overflow; debug assertions are left
      out.
    - Log lines other than the banner and that of a closed session are left out;
      the elapsed time in the latter is a text.
    - A TLS session ticket joins the store when its handshake ends; handshakes of
      one configuration do not overlap.

    ** Not modelled

    The thin wrappers over modelled functions ([proxy::handle_client], [server::run],
    [OutboundConnector::from_config], the getters of [Runtime]) and code compiled
    only for tests; the installation of the crypto provider; [examples/memtest.rs],
    a measuring harness; [lib.rs] and [outbound/mod.rs] are module lists. *)
From stdpp Require Export base list numbers option.
From Stdlib Require Export ZArith Lia.

Local Open Scope Z_scope.

(** ** Bytes

    A byte is a [Z]; a buffer ([&[u8]], [Vec<u8>], [[u8; N]]) is a list of
    them.  [bytes_ok] is the type invariant of such a buffer. *)
Abbreviation bytes := (list Z).

Definition byte_ok (b : Z) : Prop := 0 <= b < 256.

Abbreviation bytes_ok := (Forall byte_ok).

#[export] Instance byte_ok_dec b : Decision (byte_ok b).
Proof. unfold byte_ok. apply _. Defined.

(** [a ^ b] over two buffers of the same length. *)
Definition xor_bytes (a b : bytes) : bytes := zip_with Z.lxor a b.

(** [x as uN] / wrap-around at [w] bits. *)
Definition wrap (w z : Z) : Z := z mod 2 ^ w.

(** The signed reading of a [w]-bit pattern. *)
Definition swrap (w z : Z) : Z := (z + 2 ^ (w - 1)) mod 2 ^ w - 2 ^ (w - 1).

(** [uN::to_le_bytes] / [from_le_bytes] and the big-endian pair. *)
Fixpoint le_bytes (n : nat) (z : Z) : bytes :=
  match n with
  | O => []
  | S n => z mod 256 :: le_bytes n (z / 256)
  end.

Fixpoint from_le (l : bytes) : Z :=
  match l with
  | [] => 0
  | b :: l => b + 256 * from_le l
  end.

Definition be_bytes (n : nat) (z : Z) : bytes := reverse (le_bytes n z).
Definition from_be (l : bytes) : Z := from_le (reverse l).

(** [&l[a..b]] for indices known to be in range. *)
Definition slice {A} (a b : nat) (l : list A) : list A := take (b - a) (drop a l).

(** [l[off..off + new.len()].copy_from_slice(new)] for a range known to fit. *)
Definition splice {A} (off : nat) (new l : list A) : list A :=
  take off l ++ new ++ drop (off + length new) l.

(** ** Runs

    The outcome of code that can panic (a slice or index out of range, an
    underflowing subtraction, [expect] on [None]) or whose loop is run with
    fuel. *)
Inductive run (A : Type) : Type :=
| Done (a : A)
| Panic
| OutOfFuel.
Arguments Done {A} a.
Arguments Panic {A}.
Arguments OutOfFuel {A}.

Definition run_bind {A B} (m : run A) (k : A -> run B) : run B :=
  match m with
  | Done a => k a
  | Panic => Panic
  | OutOfFuel => OutOfFuel
  end.

Declare Scope run_scope.
Delimit Scope run_scope with run.
Notation "'let!' x ':=' m 'in' k" := (run_bind m (fun x => k))
  (at level 10, x pattern, m at level 100, k at level 200) : run_scope.

(** [l[i]] and [&l[a..b]], with the panics. *)
Definition index {A} (l : list A) (i : nat) : run A :=
  match l !! i with Some x => Done x | None => Panic end.

Definition slice_run {A} (a b : nat) (l : list A) : run (list A) :=
  if (a <=? b)%nat && (b <=? length l)%nat then Done (slice a b l) else Panic.

(** [a - b] on [usize]: a panic in a checked build, so never allowed to
    underflow. *)
Definition usize_sub (a b : Z) : run Z := if b <=? a then Done (a - b) else Panic.

(** ** Automation *)
Create HintDb tgws.

(** Split the first test the goal or a hypothesis is stuck on. *)
Ltac case_test :=
  match goal with
  | |- context [if ?b then _ else _] => destruct b eqn:?
  | H : context [if ?b then _ else _] |- _ => destruct b eqn:?
  end.

(** Turn boolean comparisons in the context into propositions. *)
Ltac boolify :=
  repeat match goal with
  | H : (_ && _)%bool = true |- _ => apply andb_true_iff in H as [??]
  | H : (_ || _)%bool = false |- _ => apply orb_false_iff in H as [??]
  | H : negb _ = true |- _ => apply negb_true_iff in H
  | H : negb _ = false |- _ => apply negb_false_iff in H
  | H : (_ <=? _)%nat = true |- _ => apply Nat.leb_le in H
  | H : (_ <=? _)%nat = false |- _ => apply Nat.leb_gt in H
  | H : (_ <? _)%nat = true |- _ => apply Nat.ltb_lt in H
  | H : (_ <? _)%nat = false |- _ => apply Nat.ltb_ge in H
  | H : (_ =? _)%nat = true |- _ => apply Nat.eqb_eq in H
  | H : (_ =? _)%nat = false |- _ => apply Nat.eqb_neq in H
  | H : (_ <=? _) = true |- _ => apply Z.leb_le in H
  | H : (_ <=? _) = false |- _ => apply Z.leb_gt in H
  | H : (_ <? _) = true |- _ => apply Z.ltb_lt in H
  | H : (_ <? _) = false |- _ => apply Z.ltb_ge in H
  | H : (_ =? _) = true |- _ => apply Z.eqb_eq in H
  | H : (_ =? _) = false |- _ => apply Z.eqb_neq in H
  | H : bool_decide _ = true |- _ => apply bool_decide_eq_true in H
  | H : bool_decide _ = false |- _ => apply bool_decide_eq_false in H
  end.

(** Push [length] through the list operations and finish with [lia]. *)
Ltac len :=
  rewrite ?length_app, ?length_take, ?length_drop, ?length_reverse,
    ?length_replicate, ?length_zip_with in *; simpl length in *; lia.

(** ** Lemmas on bytes *)
Lemma length_xor_bytes a b : length a = length b -> length (xor_bytes a b) = length a.
Proof. intros. unfold xor_bytes. rewrite length_zip_with. lia. Qed.

Lemma xor_bytes_involutive a b :
  length a = length b -> xor_bytes (xor_bytes a b) b = a.
Proof.
  revert b. induction a as [|x a IH]; intros [|y b] Hl; simplify_eq/=; [done|].
  f_equal; [|by apply IH].
  by rewrite Z.lxor_assoc, Z.lxor_nilpotent, Z.lxor_0_r.
Qed.

Lemma xor_bytes_comm a b : xor_bytes a b = xor_bytes b a.
Proof.
  revert b. induction a as [|x a IH]; intros [|y b]; simpl; try done.
  by rewrite Z.lxor_comm, IH.
Qed.

Lemma xor_bytes_zeros n a : length a = n -> xor_bytes (replicate n 0) a = a.
Proof. revert n. induction a; intros [|n]; simpl; intros; simplify_eq; f_equal; auto. Qed.

Lemma xor_bytes_app a1 a2 b1 b2 :
  length a1 = length b1 -> xor_bytes (a1 ++ a2) (b1 ++ b2) = xor_bytes a1 b1 ++ xor_bytes a2 b2.
Proof. intros. apply zip_with_app. done. Qed.

Lemma log2_byte x : byte_ok x -> Z.log2 x < 8.
Proof.
  unfold byte_ok. intros. destruct (Z.eq_dec x 0) as [->|]; [done|].
  apply Z.log2_lt_pow2; lia.
Qed.

Lemma lxor_byte_ok a b : byte_ok a -> byte_ok b -> byte_ok (Z.lxor a b).
Proof.
  intros Ha Hb. pose proof (log2_byte a Ha). pose proof (log2_byte b Hb).
  unfold byte_ok in *.
  assert (0 <= Z.lxor a b) by (apply Z.lxor_nonneg; lia).
  split; [done|].
  destruct (Z.eq_dec (Z.lxor a b) 0) as [->|]; [lia|].
  apply Z.log2_lt_pow2 with (b := 8); [lia|].
  eapply Z.le_lt_trans; [apply Z.log2_lxor; lia|]. lia.
Qed.

Lemma xor_bytes_ok a b : bytes_ok a -> bytes_ok b -> bytes_ok (xor_bytes a b).
Proof.
  intros Ha. revert b. induction Ha as [|x a Hx Ha IH]; intros b Hb; [constructor|].
  destruct Hb as [|y b Hy Hb]; simpl; constructor; auto using lxor_byte_ok.
Qed.

Lemma length_le_bytes n z : length (le_bytes n z) = n.
Proof. revert z. induction n; simpl; auto. Qed.

Lemma length_be_bytes n z : length (be_bytes n z) = n.
Proof. unfold be_bytes. by rewrite length_reverse, length_le_bytes. Qed.

Lemma le_bytes_ok n z : bytes_ok (le_bytes n z).
Proof.
  revert z. induction n; simpl; constructor; auto.
  unfold byte_ok. apply Z.mod_pos_bound. lia.
Qed.

Lemma be_bytes_ok n z : bytes_ok (be_bytes n z).
Proof. apply Forall_reverse, le_bytes_ok. Qed.

Lemma from_le_bytes n z : from_le (le_bytes n z) = z mod 256 ^ Z.of_nat n.
Proof.
  revert z. induction n as [|n IH]; intros z; simpl le_bytes; simpl from_le.
  - by rewrite Z.mod_1_r.
  - rewrite IH, Nat2Z.inj_succ, Z.pow_succ_r by lia.
    rewrite Z.rem_mul_r by (try apply Z.pow_pos_nonneg; lia). lia.
Qed.

Lemma from_be_bytes n z : from_be (be_bytes n z) = z mod 256 ^ Z.of_nat n.
Proof. unfold from_be, be_bytes. by rewrite reverse_involutive, from_le_bytes. Qed.

Lemma from_le_range l : bytes_ok l -> 0 <= from_le l < 256 ^ Z.of_nat (length l).
Proof.
  induction 1 as [|b l Hb Hl IH]; [simpl; lia|].
  simpl length. rewrite Nat2Z.inj_succ, Z.pow_succ_r by lia.
  unfold byte_ok in Hb. simpl from_le. lia.
Qed.

Lemma from_be_range l : bytes_ok l -> 0 <= from_be l < 256 ^ Z.of_nat (length l).
Proof.
  intros. unfold from_be. rewrite <- length_reverse. apply from_le_range.
  by apply Forall_reverse.
Qed.

Lemma from_le_0 l : bytes_ok l -> from_le l = 0 -> l = replicate (length l) 0.
Proof.
  induction 1 as [|b l Hb Hl IH]; simpl; intros E; [done|].
  pose proof (from_le_range l Hl). unfold byte_ok in Hb.
  rewrite <- IH by lia. f_equal; lia.
Qed.

Lemma swrap_small w z :
  0 < w -> - 2 ^ (w - 1) <= z < 2 ^ (w - 1) -> swrap w z = z.
Proof.
  intros Hw Hz. unfold swrap.
  replace (2 ^ w) with (2 * 2 ^ (w - 1)) by (rewrite <- Z.pow_succ_r by lia; f_equal; lia).
  rewrite Z.mod_small by lia. lia.
Qed.

Lemma swrap_range w z : 0 < w -> - 2 ^ (w - 1) <= swrap w z < 2 ^ (w - 1).
Proof.
  intros Hw. unfold swrap.
  assert (2 ^ w = 2 * 2 ^ (w - 1)) as E by (rewrite <- Z.pow_succ_r by lia; f_equal; lia).
  assert (0 < 2 ^ (w - 1)) by (apply Z.pow_pos_nonneg; lia).
  pose proof (Z.mod_pos_bound (z + 2 ^ (w - 1)) (2 ^ w)). lia.
Qed.

(** The signed reading only depends on the bit pattern. *)
Lemma swrap_mod w z : 0 < w -> swrap w (z mod 2 ^ w) = swrap w z.
Proof.
  intros. unfold swrap. f_equal.
  rewrite Z.add_mod_idemp_l; [done|]. apply Z.pow_nonzero; lia.
Qed.

(** ** Lemmas on slices *)
Section slices.
Context {A : Type}.
Implicit Types l new : list A.

Lemma length_slice a b l : (a <= b <= length l)%nat -> length (slice a b l) = (b - a)%nat.
Proof. intros. unfold slice. len. Qed.

Lemma slice_all l : slice 0 (length l) l = l.
Proof. unfold slice. rewrite Nat.sub_0_r, drop_0. by apply firstn_all. Qed.

Lemma slice_app a b c l : (a <= b <= c)%nat -> slice a b l ++ slice b c l = slice a c l.
Proof.
  intros. unfold slice.
  replace (c - a)%nat with ((b - a) + (c - b))%nat by lia.
  rewrite <- take_take_drop, drop_drop. do 3 f_equal. lia.
Qed.

Lemma slice_app_l a b l l' : (b <= length l)%nat -> slice a b (l ++ l') = slice a b l.
Proof.
  intros. unfold slice. destruct (decide (a <= length l)%nat).
  - rewrite drop_app_le by lia. rewrite take_app_le; [done|len].
  - replace (b - a)%nat with 0%nat by lia. by rewrite !take_0.
Qed.

Lemma slice_app_r a b l l' :
  (length l <= a)%nat -> slice a b (l ++ l') = slice (a - length l) (b - length l) l'.
Proof.
  intros. unfold slice. rewrite drop_app_ge by lia. f_equal. lia.
Qed.

Lemma slice_slice a b i j l :
  (j <= b - a)%nat -> slice i j (slice a b l) = slice (a + i) (a + j) l.
Proof.
  intros. unfold slice. rewrite skipn_firstn_comm, take_take, drop_drop. f_equal. lia.
Qed.

Lemma length_splice off new l :
  (off + length new <= length l)%nat -> length (splice off new l) = length l.
Proof. intros. unfold splice. len. Qed.

Lemma slice_splice_at off new l :
  (off + length new <= length l)%nat ->
  slice off (off + length new) (splice off new l) = new.
Proof.
  intros. unfold splice.
  rewrite slice_app_r by len.
  rewrite length_take. replace (off - off `min` length l)%nat with 0%nat by lia.
  replace (off + length new - off `min` length l)%nat with (length new) by lia.
  rewrite slice_app_l by lia. apply slice_all.
Qed.

Lemma slice_splice_at' off n new l :
  length new = n -> (off + n <= length l)%nat -> slice off (off + n) (splice off new l) = new.
Proof. intros <-. apply slice_splice_at. Qed.

Lemma slice_splice_before a b off new l :
  (b <= off)%nat -> (off + length new <= length l)%nat ->
  slice a b (splice off new l) = slice a b l.
Proof.
  intros. unfold splice. rewrite slice_app_l by len.
  rewrite <- (take_drop off l) at 2. rewrite slice_app_l by len. done.
Qed.

Lemma slice_splice_after a b off new l :
  (off + length new <= a)%nat -> (off + length new <= length l)%nat ->
  slice a b (splice off new l) = slice a b l.
Proof.
  intros. unfold splice. rewrite app_assoc.
  assert (length (take off l ++ new) = off + length new)%nat as E by len.
  rewrite slice_app_r, E by lia.
  rewrite <- (take_drop (off + length new) l) at 2.
  rewrite slice_app_r by len. f_equal; len.
Qed.
End slices.

(** ** Slices of a concatenation *)
Lemma slice_run_mid {A} (pre x rest : list A) :
  slice_run (length pre) (length pre + length x) (pre ++ x ++ rest) = Done x.
Proof.
  unfold slice_run. rewrite (proj2 (Nat.leb_le _ _)) by lia.
  rewrite (proj2 (Nat.leb_le _ _)) by len. simpl. f_equal.
  unfold slice. rewrite drop_app_length. apply take_app_length'. lia.
Qed.

Lemma splice_mid {A} (pre x y rest : list A) :
  length x = length y -> splice (length pre) y (pre ++ x ++ rest) = pre ++ y ++ rest.
Proof.
  intros E. unfold splice. rewrite take_app_length. do 2 f_equal.
  rewrite <- E, drop_app_add, drop_app_length. done.
Qed.

Lemma slice_run_ok {A} a b (l : list A) :
  (a <= b)%nat -> (b <= length l)%nat -> slice_run a b l = Done (slice a b l).
Proof.
  intros. unfold slice_run. by rewrite !(proj2 (Nat.leb_le _ _)) by lia.
Qed.

Lemma slice_run_Done {A} a b (l x : list A) :
  slice_run a b l = Done x -> (a <= b <= length l)%nat /\ x = slice a b l.
Proof. unfold slice_run. case_test; intros; simplify_eq. boolify. done. Qed.

Lemma index_mid {A} (pre : list A) x post : index (pre ++ x :: post) (length pre) = Done x.
Proof. unfold index. by rewrite list_lookup_middle. Qed.

Lemma index_lt {A} (l : list A) i : (i < length l)%nat -> exists x, index l i = Done x.
Proof. intros [x E]%lookup_lt_is_Some. exists x. unfold index. by rewrite E. Qed.

(** ** Code that returns

    [returns m]: the run ends without a panic and within its fuel. *)
Definition returns {A} (m : run A) : Prop := exists a, m = Done a.

Lemma returns_Done {A} (a : A) : returns (Done a).
Proof. by exists a. Qed.

Lemma returns_bind {A B} (m : run A) (k : A -> run B) :
  returns m -> (forall a, m = Done a -> returns (k a)) -> returns (run_bind m k).
Proof. intros [a ->] H. by apply H. Qed.

Lemma returns_index {A} (l : list A) i : (i < length l)%nat -> returns (index l i).
Proof. apply index_lt. Qed.

Lemma returns_slice {A} a b (l : list A) :
  (a <= b)%nat -> (b <= length l)%nat -> returns (slice_run a b l).
Proof. intros. rewrite slice_run_ok by done. apply returns_Done. Qed.

Lemma run_bind_Done {A B} (m : run A) (k : A -> run B) b :
  run_bind m k = Done b -> exists a, m = Done a /\ k a = Done b.
Proof. destruct m; simpl; intros; simplify_eq. eauto. Qed.

#[export] Hint Resolve returns_Done returns_index returns_slice : tgws.

Lemma bytes_ok_slice a b l : bytes_ok l -> bytes_ok (slice a b l).
Proof. intros. apply Forall_take, Forall_drop. done. Qed.

#[export] Hint Resolve le_bytes_ok be_bytes_ok xor_bytes_ok bytes_ok_slice : tgws.
