(* ===== verification/Text.v ===== *)
(** * Strings

    A Rust [String] or [&str] is its UTF-8 bytes.  This file models what the
    program uses of the standard library's string functions: UTF-8 validation,
    iteration over characters, whitespace, trimming, splitting, decimal
    printing and parsing. *)
From Stdlib Require Import String Ascii.
From S2P Require Import Prelude.

Local Open Scope Z_scope.

Abbreviation text := (list Z).

(** String literals. *)
Definition byte_of_ascii (a : ascii) : Z := Z.of_nat (nat_of_ascii a).

Definition txt (s : string) : text := map byte_of_ascii (list_ascii_of_string s).

(** ** [std::str::from_utf8] *)
Definition between (lo hi b : Z) : bool := (lo <=? b) && (b <=? hi).

Definition continuation (b : Z) : bool := between 0x80 0xbf b.

(** The well-formed byte sequences of UTF-8 (no surrogates, no overlong
    forms, at most U+10FFFF). *)
Fixpoint utf8_valid (l : bytes) : bool :=
  match l with
  | [] => true
  | b0 :: t =>
      if between 0x00 0x7f b0 then utf8_valid t
      else
        match t with
        | [] => false
        | b1 :: t =>
            if between 0xc2 0xdf b0 then continuation b1 && utf8_valid t
            else
              match t with
              | [] => false
              | b2 :: t =>
                  if between 0xe0 0xef b0 then
                    between (if b0 =? 0xe0 then 0xa0 else 0x80) (if b0 =? 0xed then 0x9f else 0xbf) b1
                    && continuation b2 && utf8_valid t
                  else
                    match t with
                    | [] => false
                    | b3 :: t =>
                        between 0xf0 0xf4 b0
                        && between (if b0 =? 0xf0 then 0x90 else 0x80)
                             (if b0 =? 0xf4 then 0x8f else 0xbf) b1
                        && continuation b2 && continuation b3 && utf8_valid t
                    end
              end
        end
  end.

Definition from_utf8 (l : bytes) : option bytes := if utf8_valid l then Some l else None.

(** ** Characters

    [str::chars]: a character is the group of bytes that encodes it. *)
Definition char_len (b : Z) : nat :=
  if b <? 0x80 then 1 else if b <? 0xe0 then 2 else if b <? 0xf0 then 3 else 4.

Fixpoint chars_loop (fuel : nat) (s : text) : list text :=
  match fuel, s with
  | S fuel, b :: _ => take (char_len b) s :: chars_loop fuel (drop (char_len b) s)
  | _, _ => []
  end.

Definition chars (s : text) : list text := chars_loop (length s) s.

(** [char::is_whitespace]: the characters with the property White_Space. *)
Definition is_whitespace (c : text) : bool :=
  match c with
  | [b] => between 9 13 b || (b =? 32)
  | [b0; b1] => (b0 =? 0xc2) && ((b1 =? 0x85) || (b1 =? 0xa0))
  | [b0; b1; b2] =>
      ((b0 =? 0xe1) && (b1 =? 0x9a) && (b2 =? 0x80))
      || ((b0 =? 0xe2) && (b1 =? 0x80)
          && (between 0x80 0x8a b2 || (b2 =? 0xa8) || (b2 =? 0xa9) || (b2 =? 0xaf)))
      || ((b0 =? 0xe2) && (b1 =? 0x81) && (b2 =? 0x9f))
      || ((b0 =? 0xe3) && (b1 =? 0x80) && (b2 =? 0x80))
  | _ => false
  end.

Fixpoint drop_while {A} (f : A -> bool) (l : list A) : list A :=
  match l with
  | x :: l' => if f x then drop_while f l' else l
  | [] => []
  end.

(** [str::trim]. *)
Definition trim (s : text) : text :=
  concat (reverse (drop_while is_whitespace (reverse (drop_while is_whitespace (chars s))))).

(** [str::strip_prefix]. *)
Fixpoint strip_prefix (pre s : text) : option text :=
  match pre, s with
  | [], _ => Some s
  | a :: pre, b :: s => if a =? b then strip_prefix pre s else None
  | _ :: _, [] => None
  end.

Definition starts_with (pre s : text) : bool :=
  match strip_prefix pre s with Some _ => true | None => false end.

(** [str::split_once] at an ASCII delimiter. *)
Fixpoint split_once (d : Z) (s : text) : option (text * text) :=
  match s with
  | [] => None
  | b :: s =>
      if b =? d then Some ([], s)
      else match split_once d s with Some (x, y) => Some (b :: x, y) | None => None end
  end.

(** [str::rsplit_once], the step of [rsplitn]. *)
Definition rsplit_once (d : Z) (s : text) : option (text * text) :=
  match split_once d (reverse s) with
  | Some (x, y) => Some (reverse y, reverse x)
  | None => None
  end.

(** [str::trim_end_matches] of one ASCII character. *)
Definition trim_end_matches (d : Z) (s : text) : text :=
  reverse (drop_while (Z.eqb d) (reverse s)).

(** [str::split_whitespace]: the maximal runs of other characters. *)
Fixpoint words_loop (cs : list text) (cur : text) : list text :=
  match cs with
  | [] => match cur with [] => [] | _ => [cur] end
  | c :: cs =>
      if is_whitespace c then match cur with [] => words_loop cs [] | _ => cur :: words_loop cs [] end
      else words_loop cs (cur ++ c)
  end.

Definition split_whitespace (s : text) : list text := words_loop (chars s) [].

(** [str::lines]: split at line feeds, a carriage return before one dropped; no
    empty line after a final line feed. *)
Definition strip_cr (line : text) : text :=
  match reverse line with b :: l => if b =? 13 then reverse l else line | [] => [] end.

Fixpoint lines_loop (s cur : text) : list text :=
  match s with
  | [] => match cur with [] => [] | _ => [cur] end
  | b :: s => if b =? 10 then strip_cr cur :: lines_loop s [] else lines_loop s (cur ++ [b])
  end.

Definition lines (s : text) : list text := lines_loop s [].

(** [str::strip_suffix], [str::ends_with]. *)
Definition strip_suffix (suf s : text) : option text :=
  match strip_prefix (reverse suf) (reverse s) with Some r => Some (reverse r) | None => None end.

Definition ends_with (suf s : text) : bool :=
  match strip_suffix suf s with Some _ => true | None => false end.

(** [str::contains] of one ASCII character, of a string. *)
Definition contains (d : Z) (s : text) : bool := bool_decide (d ∈ s).

Fixpoint contains_str (pat s : text) : bool :=
  starts_with pat s || match s with [] => false | _ :: s => contains_str pat s end.

(** [str::split] at an ASCII delimiter. *)
Fixpoint split (d : Z) (s : text) : list text :=
  match s with
  | [] => [[]]
  | b :: s =>
      if b =? d then [] :: split d s
      else match split d s with [] => [[b]] | x :: xs => (b :: x) :: xs end
  end.

(** [str::find] of one ASCII character: its byte offset. *)
Fixpoint find (d : Z) (s : text) : option nat :=
  match s with
  | [] => None
  | b :: s => if b =? d then Some 0%nat else match find d s with Some i => Some (S i) | None => None end
  end.

(** [to_ascii_lowercase], [eq_ignore_ascii_case]. *)
Definition lower (b : Z) : Z := if between 65 90 b then b + 32 else b.

Definition to_ascii_lowercase (s : text) : text := map lower s.

Definition eq_ignore_ascii_case (a b : text) : bool :=
  bool_decide (to_ascii_lowercase a = to_ascii_lowercase b).

(** [str::is_char_boundary] and [str::get(i..)]. *)
Definition is_char_boundary (s : text) (i : nat) : bool :=
  (i =? length s)%nat || match s !! i with Some b => negb (continuation b) | None => false end.

Definition str_get_from (s : text) (i : nat) : option text :=
  if is_char_boundary s i then Some (drop i s) else None.

(** ** Results that carry a message *)
Inductive result (A : Type) : Type :=
| Success (a : A)
| Failure (e : text).
Arguments Success {A} a.
Arguments Failure {A} e.

Definition result_bind {A B} (m : result A) (k : A -> result B) : result B :=
  match m with Success a => k a | Failure e => Failure e end.

Notation "'let?' x ':=' m 'in' k" := (result_bind m (fun x => k))
  (at level 10, x pattern, m at level 100, k at level 200).

(** ** Numbers *)

(** Decimal printing of an unsigned number; twenty digits are enough for [u64]. *)
Fixpoint dec_loop (fuel : nat) (n : Z) (acc : text) : text :=
  match fuel with
  | O => acc
  | S fuel =>
      let acc := 48 + n mod 10 :: acc in
      if n / 10 =? 0 then acc else dec_loop fuel (n / 10) acc
  end.

Definition dec (n : Z) : text := dec_loop 20 n [].

Definition digit (b : Z) : option Z := if between 48 57 b then Some (b - 48) else None.

(** [str::parse] for an unsigned type with the given maximum: an optional [+],
    then digits, each step checked. *)
Fixpoint parse_digits (max : Z) (s : text) (acc : Z) : option Z :=
  match s with
  | [] => Some acc
  | b :: s =>
      match digit b with
      | Some d => if acc * 10 + d <=? max then parse_digits max s (acc * 10 + d) else None
      | None => None
      end
  end.

Definition parse_uint (max : Z) (s : text) : option Z :=
  match s with
  | [] => None
  | b :: s' => if b =? 43 then match s' with [] => None | _ => parse_digits max s' 0 end
               else parse_digits max s 0
  end.

(** ** Lemmas *)
Lemma strip_prefix_app pre s : strip_prefix pre (pre ++ s) = Some s.
Proof. induction pre as [|a pre IH]; simpl; [done|]. by rewrite Z.eqb_refl. Qed.

Lemma strip_prefix_Some pre s r : strip_prefix pre s = Some r -> s = pre ++ r.
Proof.
  revert s. induction pre as [|a pre IH]; intros [|b s] H; simplify_eq/=; [done|done|].
  case_test; [|done]. boolify. subst. f_equal. auto.
Qed.

Lemma split_once_app d x y : d ∉ x -> split_once d (x ++ d :: y) = Some (x, y).
Proof.
  induction x as [|a x IH]; simpl; intros H; [by rewrite Z.eqb_refl|].
  apply not_elem_of_cons in H as [? H]. rewrite (proj2 (Z.eqb_neq _ _)) by done. by rewrite IH.
Qed.

Lemma split_once_Some d s x y : split_once d s = Some (x, y) -> s = x ++ d :: y /\ d ∉ x.
Proof.
  revert x. induction s as [|b s IH]; intros x H; simplify_eq/=. case_test.
  - boolify. simplify_eq/=. split; [done|apply not_elem_of_nil].
  - boolify. destruct (split_once d s) as [[x' y']|]; simplify_eq.
    destruct (IH x' eq_refl) as [-> ?]. split; [done|]. by apply not_elem_of_cons.
Qed.

Lemma split_once_None d s : split_once d s = None <-> d ∉ s.
Proof.
  induction s as [|b s IH]; simpl; [split; [intros _; apply not_elem_of_nil|done]|].
  rewrite not_elem_of_cons. case_test; boolify.
  - split; [done|intros [? _]; done].
  - destruct (split_once d s) as [[x y]|]; [|naive_solver].
    split; [done|]. intros [_ H]. apply IH in H. done.
Qed.

Lemma lines_loop_app x rest cur :
  10 ∉ x -> lines_loop (x ++ 10 :: rest) cur = strip_cr (cur ++ x) :: lines_loop rest [].
Proof.
  revert cur. induction x as [|b x IH]; intros cur Hx; cbn [app lines_loop]; [by rewrite app_nil_r|].
  apply not_elem_of_cons in Hx as [Hb Hx]. rewrite (proj2 (Z.eqb_neq b 10)) by lia.
  rewrite IH by done. by rewrite <- app_assoc.
Qed.

Lemma lines_loop_none x cur : 10 ∉ x -> lines_loop x cur = match cur ++ x with [] => [] | l => [l] end.
Proof.
  revert cur. induction x as [|b x IH]; intros cur Hx; cbn [lines_loop]; [rewrite app_nil_r; by destruct cur|].
  apply not_elem_of_cons in Hx as [Hb Hx]. rewrite (proj2 (Z.eqb_neq b 10)) by lia.
  rewrite IH by done. by rewrite <- app_assoc.
Qed.

Lemma strip_suffix_app suf s : strip_suffix suf (s ++ suf) = Some s.
Proof. unfold strip_suffix. by rewrite reverse_app, strip_prefix_app, reverse_involutive. Qed.

Lemma strip_suffix_Some suf s r : strip_suffix suf s = Some r -> s = r ++ suf.
Proof.
  unfold strip_suffix. destruct (strip_prefix _ _) as [x|] eqn:E; [|done]. intros [= <-].
  apply strip_prefix_Some in E. rewrite <- (reverse_involutive s), E, reverse_app.
  by rewrite reverse_involutive.
Qed.

Lemma find_Some d s i : find d s = Some i -> (i < length s)%nat /\ exists x y, s = x ++ d :: y /\ length x = i.
Proof.
  revert i. induction s as [|b s IH]; intros i H; simplify_eq/=. case_test; boolify.
  - simplify_eq. split; [lia|]. by exists [], s.
  - destruct (find d s) as [j|]; simplify_eq. destruct (IH j eq_refl) as (? & x & y & -> & <-).
    split; [lia|]. by exists (b :: x), y.
Qed.

Lemma rsplit_once_Some d s x y : rsplit_once d s = Some (x, y) -> s = x ++ d :: y /\ d ∉ y.
Proof.
  unfold rsplit_once. destruct (split_once d (reverse s)) as [[a b]|] eqn:E; [|done]. intros [= <- <-].
  apply split_once_Some in E as [E H]. split; [|by rewrite elem_of_reverse].
  rewrite <- (reverse_involutive s), E, reverse_app, reverse_cons, <- app_assoc. done.
Qed.

Lemma rsplit_once_None d s : rsplit_once d s = None -> d ∉ s.
Proof.
  unfold rsplit_once. destruct (split_once d (reverse s)) as [[a b]|] eqn:E; [done|]. intros _.
  apply split_once_None in E. by rewrite elem_of_reverse in E.
Qed.

Lemma to_ascii_lowercase_length s : length (to_ascii_lowercase s) = length s.
Proof. apply length_map. Qed.

(** After an ASCII byte a new character starts. *)
Lemma utf8_after_ascii x b y :
  between 0 127 b = true -> utf8_valid (x ++ b :: y) = true -> utf8_valid y = true.
Proof.
  intros Hb. assert (continuation b = false) as Hc.
  { unfold continuation, between in *. boolify. apply andb_false_iff. left. apply Z.leb_gt. lia. }
  assert (forall lo hi, 128 <= lo -> between lo hi b = false) as Hl.
  { intros lo hi Hlo. unfold between in *. boolify. apply andb_false_iff. left. apply Z.leb_gt. lia. }
  remember (length x) as n eqn:En. assert (length x <= n)%nat as Hn by lia. clear En.
  revert x Hn. induction n as [|n IH]; intros x Hn H.
  { destruct x; [|simpl in Hn; lia]. cbn [app utf8_valid] in H. by rewrite Hb in H. }
  destruct x as [|b0 x]; [cbn [app utf8_valid] in H; by rewrite Hb in H|].
  cbn [app utf8_valid] in H. simpl in Hn.
  destruct (between 0 127 b0); [apply (IH x); [lia|done]|].
  destruct x as [|b1 x]; cbn [app] in H.
  { repeat case_match; rewrite ?Hc, ?Hl in H by (repeat case_match; lia); simpl in H;
      rewrite ?andb_false_r in H; done. }
  simpl in Hn. destruct (between 194 223 b0); [boolify; apply (IH x); [lia|done]|].
  destruct x as [|b2 x]; cbn [app] in H.
  { repeat case_match; rewrite ?Hc in H; simpl in H; rewrite ?andb_false_r in H; done. }
  simpl in Hn. destruct (between 224 239 b0); [boolify; apply (IH x); [lia|done]|].
  destruct x as [|b3 x]; cbn [app] in H.
  { rewrite Hc in H. rewrite ?andb_false_r in H. done. }
  simpl in Hn. boolify. apply (IH x); [lia|done].
Qed.

Lemma utf8_valid_boundary s : utf8_valid s = true -> is_char_boundary s 0 = true.
Proof.
  unfold is_char_boundary. destruct s as [|b s]; [done|]. intros H. cbn.
  destruct (continuation b) eqn:Ec; [|done]. exfalso. cbn [utf8_valid] in H.
  unfold continuation, between in *. boolify.
  repeat (case_match; try done); boolify; lia.
Qed.

Lemma lower_46 b : lower b = 46 <-> b = 46.
Proof. unfold lower, between. case_test; boolify; lia. Qed.

Lemma parse_digits_range max s acc v : 0 <= acc <= max -> parse_digits max s acc = Some v -> 0 <= v <= max.
Proof.
  revert acc. induction s as [|b s IH]; intros acc Ha H; simplify_eq/=; [done|].
  unfold digit, between in H. repeat case_match; simplify_eq; boolify. eapply IH; [|done]. lia.
Qed.

Lemma parse_uint_range max s v : 0 <= max -> parse_uint max s = Some v -> 0 <= v <= max.
Proof.
  intros Hm. unfold parse_uint. destruct s as [|b s]; [done|].
  repeat case_match; intros; simplify_eq; (eapply parse_digits_range; [|done]; lia).
Qed.

Lemma digit_of n : digit (48 + n mod 10) = Some (n mod 10).
Proof.
  pose proof (Z.mod_pos_bound n 10 ltac:(lia)). unfold digit, between.
  rewrite !(proj2 (Z.leb_le _ _)) by lia. simpl. f_equal. lia.
Qed.

Lemma dec_loop_head fuel n acc : fuel <> O ->
  exists d s, dec_loop fuel n acc = 48 + d :: s /\ 0 <= d < 10.
Proof.
  revert n acc. induction fuel as [|[|fuel] IH]; intros n acc Hf; [done| |];
    pose proof (Z.mod_pos_bound n 10 ltac:(lia)); cbn [dec_loop].
  - case_match; eauto.
  - case_match; [eauto|]. by apply IH.
Qed.

Lemma parse_digits_dec_loop fuel n acc max : 0 <= n < 10 ^ Z.of_nat fuel -> n <= max ->
  parse_digits max (dec_loop fuel n acc) 0 = parse_digits max acc n.
Proof.
  revert n acc. induction fuel as [|fuel IH]; intros n acc Hn Hm; cbn [dec_loop].
  { simpl in Hn. by replace n with 0 by lia. }
  rewrite Nat2Z.inj_succ, Z.pow_succ_r in Hn by lia.
  pose proof (Z.div_mod n 10 ltac:(lia)). pose proof (Z.mod_pos_bound n 10 ltac:(lia)).
  case_test; boolify.
  - cbn [parse_digits]. rewrite digit_of, (proj2 (Z.leb_le _ _)) by lia. f_equal. lia.
  - rewrite IH; [|split; [apply Z.div_pos|apply Z.div_lt_upper_bound]; lia|lia].
    cbn [parse_digits]. rewrite digit_of, (proj2 (Z.leb_le _ _)) by lia. f_equal. lia.
Qed.

(** Printing then parsing an unsigned number. *)
Lemma parse_uint_dec max n : 0 <= n < 10 ^ 20 -> n <= max -> parse_uint max (dec n) = Some n.
Proof.
  intros Hn Hm. unfold dec. pose proof (parse_digits_dec_loop 20 n [] max Hn Hm) as E.
  destruct (dec_loop_head 20 n [] ltac:(done)) as (d & s & Es & Hd). rewrite Es in *.
  unfold parse_uint. case_test; boolify; [lia|done].
Qed.
