(* ===== verification/Ip.v ===== *)
(** * std::net: IP and socket addresses

    The parser of [IpAddr], [Ipv4Addr], [Ipv6Addr] and [SocketAddr] from text
    (Rust's [core::net::parser]) and the predicates on addresses the program
    uses.  A parser takes the text still to be read and gives the value with
    the rest, or nothing, in which case it has consumed nothing. *)
From Stdlib Require Import String.
From S2P Require Import Prelude Text.

Local Open Scope Z_scope.

(** The octets of an IPv4 address, the eight 16-bit groups of an IPv6 one. *)
Inductive IpAddr : Type :=
| V4 (octets : list Z)
| V6 (groups : list Z).

#[export] Instance IpAddr_eq_dec : EqDecision IpAddr.
Proof. solve_decision. Defined.

Definition ip_ok (ip : IpAddr) : Prop :=
  match ip with
  | V4 o => length o = 4%nat /\ Forall (fun b => 0 <= b < 2 ^ 8) o
  | V6 g => length g = 8%nat /\ Forall (fun b => 0 <= b < 2 ^ 16) g
  end.

Record SocketAddr : Type := mkSocketAddr {
  sa_ip : IpAddr;
  sa_port : Z;
}.

(** ** Digits and numbers *)

(** [char::to_digit(radix)] for radix 10 and 16. *)
Definition to_digit (radix b : Z) : option Z :=
  let v :=
    if between 48 57 b then Some (b - 48)
    else if between 97 122 b then Some (b - 87)
    else if between 65 90 b then Some (b - 55)
    else None in
  match v with Some v => if v <? radix then Some v else None | None => None end.

(** The maximal run of digits at the start, and the rest. *)
Fixpoint take_digits (radix : Z) (s : text) : list Z * text :=
  match s with
  | [] => ([], [])
  | b :: s' =>
      match to_digit radix b with
      | Some d => let '(ds, rest) := take_digits radix s' in (d :: ds, rest)
      | None => ([], s)
      end
  end.

Definition digits_value (radix : Z) (ds : list Z) : Z := fold_left (fun acc d => acc * radix + d) ds 0.

(** [read_number::<T>(radix, Some(max_digits), allow_zero_prefix)]; [max] is
    [T::MAX]. *)
Definition read_number (radix : Z) (max_digits : nat) (allow_zero_prefix : bool) (max : Z) (s : text)
  : option (Z * text) :=
  let '(ds, rest) := take_digits radix s in
  let has_leading_zero := match s with b :: _ => b =? 48 | [] => false end in
  if (max_digits <? length ds)%nat then None
  else if (length ds =? 0)%nat then None
  else if negb allow_zero_prefix && has_leading_zero && (1 <? length ds)%nat then None
  else if digits_value radix ds <=? max then Some (digits_value radix ds, rest) else None.

(** [read_number::<u16>(10, None, true)]: any number of digits, checked. *)
Definition read_port_number (s : text) : option (Z * text) :=
  let '(ds, rest) := take_digits 10 s in
  if (length ds =? 0)%nat then None
  else if digits_value 10 ds <=? 65535 then Some (digits_value 10 ds, rest) else None.

Definition read_given_char (c : Z) (s : text) : option text :=
  match s with b :: s' => if b =? c then Some s' else None | [] => None end.

(** [read_separator(sep, index, inner)]. *)
Definition read_separator {A} (sep : Z) (index : nat) (inner : text -> option (A * text)) (s : text)
  : option (A * text) :=
  if (0 <? index)%nat then
    match read_given_char sep s with Some s' => inner s' | None => None end
  else inner s.

(** ** IPv4 *)
Fixpoint read_octets (n index : nat) (s : text) : option (list Z * text) :=
  match n with
  | O => Some ([], s)
  | S n =>
      match read_separator 46 index (read_number 10 3 false 255) s with
      | None => None
      | Some (o, s') =>
          match read_octets n (S index) s' with
          | Some (os, rest) => Some (o :: os, rest)
          | None => None
          end
      end
  end.

Definition read_ipv4_addr (s : text) : option (list Z * text) := read_octets 4 0 s.

(** ** IPv6 *)

(** [read_groups]: the groups read, whether an embedded IPv4 address ended
    them, and the rest.  [left] is [limit - i]. *)
Fixpoint read_groups (left i : nat) (s : text) : list Z * bool * text :=
  match left with
  | O => ([], false, s)
  | S left' =>
      let ipv4 := if (1 <? left)%nat then read_separator 58 i read_ipv4_addr s else None in
      match ipv4 with
      | Some ([one; two; three; four], rest) =>
          ([one * 256 + two; three * 256 + four], true, rest)
      | _ =>
          match read_separator 58 i (read_number 16 4 true 65535) s with
          | Some (g, s') => let '(gs, v4, rest) := read_groups left' (S i) s' in (g :: gs, v4, rest)
          | None => ([], false, s)
          end
      end
  end.

Definition read_ipv6_addr (s : text) : option (list Z * text) :=
  let '(head, head_ipv4, s1) := read_groups 8 0 s in
  let head_size := length head in
  if (head_size =? 8)%nat then Some (head, s1)
  else if head_ipv4 then None
  else
    match read_given_char 58 s1 with
    | None => None
    | Some s2 =>
        match read_given_char 58 s2 with
        | None => None
        | Some s3 =>
            let limit := (8 - (head_size + 1))%nat in
            let '(tail, _, rest) := read_groups limit 0 s3 in
            Some (head ++ replicate (8 - length tail - head_size) 0 ++ tail, rest)
        end
    end.

(** [parse_with]: the parser must consume everything. *)
Definition parse_with {A} (inner : text -> option (A * text)) (s : text) : option A :=
  match inner s with Some (a, []) => Some a | _ => None end.

(** [str::parse::<Ipv6Addr>()]. *)
Definition parse_ipv6 (s : text) : option (list Z) := parse_with read_ipv6_addr s.

Definition read_ip_addr (s : text) : option (IpAddr * text) :=
  match read_ipv4_addr s with
  | Some (o, rest) => Some (V4 o, rest)
  | None => match read_ipv6_addr s with Some (g, rest) => Some (V6 g, rest) | None => None end
  end.

(** [str::parse::<IpAddr>()]. *)
Definition parse_ip (s : text) : option IpAddr := parse_with read_ip_addr s.

Definition is_ip (s : text) : bool := match parse_ip s with Some _ => true | None => false end.

(** ** Socket addresses *)
Definition read_port (s : text) : option (Z * text) :=
  match read_given_char 58 s with Some s' => read_port_number s' | None => None end.

Definition read_socket_v4 (s : text) : option (SocketAddr * text) :=
  match read_ipv4_addr s with
  | None => None
  | Some (o, s1) => match read_port s1 with Some (p, rest) => Some (mkSocketAddr (V4 o) p, rest) | None => None end
  end.

(** [read_scope_id]: [%] and a 32-bit number; [unwrap_or(0)] skips it. *)
Definition read_scope_id (s : text) : text :=
  match read_given_char 37 s with
  | None => s
  | Some s' =>
      let '(ds, rest) := take_digits 10 s' in
      if (0 <? length ds)%nat && (digits_value 10 ds <=? 2 ^ 32 - 1) then rest else s
  end.

Definition read_socket_v6 (s : text) : option (SocketAddr * text) :=
  match read_given_char 91 s with
  | None => None
  | Some s1 =>
      match read_ipv6_addr s1 with
      | None => None
      | Some (g, s2) =>
          match read_given_char 93 (read_scope_id s2) with
          | None => None
          | Some s3 =>
              match read_port s3 with
              | Some (p, rest) => Some (mkSocketAddr (V6 g) p, rest)
              | None => None
              end
          end
      end
  end.

(** [str::parse::<SocketAddr>()]. *)
Definition parse_socket_addr (s : text) : option SocketAddr :=
  parse_with (fun s => match read_socket_v4 s with Some r => Some r | None => read_socket_v6 s end) s.

(** ** Predicates *)
Definition LOCALHOST_V4 : IpAddr := V4 [127; 0; 0; 1].
Definition LOCALHOST_V6 : IpAddr := V6 [0; 0; 0; 0; 0; 0; 0; 1].

Definition is_loopback (ip : IpAddr) : bool :=
  match ip with
  | V4 o => match o with b :: _ => b =? 127 | [] => false end
  | V6 _ => bool_decide (ip = LOCALHOST_V6)
  end.

Definition is_unspecified (ip : IpAddr) : bool :=
  match ip with
  | V4 o => bool_decide (o = [0; 0; 0; 0])
  | V6 g => bool_decide (g = [0; 0; 0; 0; 0; 0; 0; 0])
  end.

(** ** Printing *)

(** [{:x}] of a [u16]. *)
Fixpoint hex_loop (fuel : nat) (n : Z) (acc : text) : text :=
  match fuel with
  | O => acc
  | S fuel =>
      let d := n mod 16 in
      let acc := (if d <? 10 then 48 + d else 87 + d) :: acc in
      if n / 16 =? 0 then acc else hex_loop fuel (n / 16) acc
  end.

Definition hex (n : Z) : text := hex_loop 4 n [].

Fixpoint join (sep : text) (parts : list text) : text :=
  match parts with
  | [] => []
  | [p] => p
  | p :: parts => p ++ sep ++ join sep parts
  end.

Definition v4_to_string (o : list Z) : text := join (txt ".") (map dec o).

(** The first longest run of zero groups, as its start and length: [i] is the
    group's index, [cur] the run it may extend. *)
Fixpoint zero_run (gs : list Z) (i : nat) (cur best : nat * nat) : nat * nat :=
  match gs with
  | [] => best
  | g :: gs =>
      if g =? 0 then
        let cur := ((if (cur.2 =? 0)%nat then i else cur.1), S cur.2) in
        zero_run gs (S i) cur (if (best.2 <? cur.2)%nat then cur else best)
      else zero_run gs (S i) (0, 0)%nat best
  end.

Definition groups_to_string (gs : list Z) : text := join (txt ":") (map hex gs).

(** [impl Display for Ipv6Addr]: IPv4-mapped addresses end in dotted form, the
    longest run of two or more zero groups is compressed. *)
Definition v6_to_string (gs : list Z) : text :=
  match gs with
  | [0; 0; 0; 0; 0; 0xffff; h; l] =>
      txt "::ffff:" ++ v4_to_string [h / 256; h mod 256; l / 256; l mod 256]
  | _ =>
      let '(start, n) := zero_run gs 0 (0, 0)%nat (0, 0)%nat in
      if (1 <? n)%nat then groups_to_string (take start gs) ++ txt "::" ++ groups_to_string (drop (start + n) gs)
      else groups_to_string gs
  end.

Definition ip_to_string (ip : IpAddr) : text :=
  match ip with V4 o => v4_to_string o | V6 g => v6_to_string g end.

(** [impl Display for SocketAddr]. *)
Definition socket_addr_to_string (a : SocketAddr) : text :=
  match sa_ip a with
  | V4 o => v4_to_string o ++ txt ":" ++ dec (sa_port a)
  | V6 g => txt "[" ++ v6_to_string g ++ txt "]:" ++ dec (sa_port a)
  end.

(** ** Examples *)
Example print_v4 : ip_to_string (V4 [127; 0; 0; 1]) = txt "127.0.0.1".
Proof. reflexivity. Qed.

Example print_v6 : ip_to_string (V6 [0x2001; 0xdb8; 0; 1; 0; 0; 0; 1]) = txt "2001:db8:0:1::1".
Proof. reflexivity. Qed.

Example print_v6_loopback : socket_addr_to_string (mkSocketAddr LOCALHOST_V6 1443) = txt "[::1]:1443".
Proof. reflexivity. Qed.

Example print_v6_mapped : ip_to_string (V6 [0; 0; 0; 0; 0; 0xffff; 0x102; 0x304]) = txt "::ffff:1.2.3.4".
Proof. reflexivity. Qed.

Example parse_v4 : parse_ip (txt "127.20.30.40") = Some (V4 [127; 20; 30; 40]).
Proof. reflexivity. Qed.

Example parse_v4_octal : parse_ip (txt "127.020.30.40") = None.
Proof. reflexivity. Qed.

Example parse_v6_short : parse_ip (txt "2001:db8::1") = Some (V6 [0x2001; 0xdb8; 0; 0; 0; 0; 0; 1]).
Proof. reflexivity. Qed.

Example parse_v6_embedded : parse_ip (txt "::ffff:1.2.3.4") = Some (V6 [0; 0; 0; 0; 0; 0xffff; 0x102; 0x304]).
Proof. reflexivity. Qed.

Example parse_v6_two_gaps : parse_ip (txt "1::2::3") = None.
Proof. reflexivity. Qed.

Example parse_listen : parse_socket_addr (txt "[::]:1443") = Some (mkSocketAddr (V6 [0; 0; 0; 0; 0; 0; 0; 0]) 1443).
Proof. reflexivity. Qed.

(** ** The parsers yield addresses *)
Lemma read_number_range radix n z max s v rest :
  0 <= radix -> read_number radix n z max s = Some (v, rest) -> 0 <= v <= max.
Proof.
  intros Hr H. unfold read_number in H. destruct (take_digits radix s) as [ds r] eqn:E.
  repeat case_test; simplify_eq; boolify. split; [|lia].
  assert (Forall (fun d => 0 <= d) ds) as HF.
  { clear -E. revert ds rest E. induction s as [|b s IH]; intros ds rest E; simpl in E; simplify_eq; [constructor|].
    destruct (to_digit radix b) as [d|] eqn:Ed; simplify_eq; [|constructor].
    destruct (take_digits radix s) as [ds' r']. simplify_eq. constructor; [|by eapply IH].
    unfold to_digit, between in Ed. repeat case_test; simplify_eq; boolify; simplify_eq; try lia.
    all: repeat case_match; simplify_eq; boolify; lia. }
  unfold digits_value. clear -HF Hr.
  assert (forall acc, 0 <= acc -> 0 <= fold_left (fun acc d => acc * radix + d) ds acc) as HA.
  { induction HF as [|d ds Hd HF IH]; intros acc Ha; simpl; [done|]. apply IH. nia. }
  by apply HA.
Qed.

Lemma read_separator_Some {A} sep i (inner : text -> option (A * text)) s r :
  read_separator sep i inner s = Some r -> exists s', inner s' = Some r.
Proof. unfold read_separator. case_test; [|eauto]. destruct (read_given_char sep s); [eauto|done]. Qed.

Lemma read_octets_ok n i s os rest :
  read_octets n i s = Some (os, rest) -> length os = n /\ Forall (fun b => 0 <= b < 2 ^ 8) os.
Proof.
  revert i s os. induction n as [|n IH]; intros i s os H; cbn [read_octets] in H; simplify_eq; [by split|].
  destruct (read_separator 46 i _ s) as [[o s']|] eqn:E; [|done].
  apply read_separator_Some in E as [s0 E]. apply read_number_range in E; [|lia].
  destruct (read_octets n (S i) s') as [[os' r]|] eqn:E'; [|done]. simplify_eq.
  destruct (IH _ _ _ E') as [<- HF]. split; [done|]. constructor; [lia|done].
Qed.

Lemma read_groups_ok left i s gs v4 rest :
  read_groups left i s = (gs, v4, rest) ->
  (length gs <= left)%nat /\ Forall (fun b => 0 <= b < 2 ^ 16) gs.
Proof.
  revert i s gs v4 rest. induction left as [|left IH]; intros i s gs v4 rest H;
    cbn [read_groups] in H; [simplify_eq; by split|].
  set (ip := if (1 <? S left)%nat then read_separator 58 i read_ipv4_addr s else None) in *.
  assert (forall gs v4 rest,
    match read_separator 58 i (read_number 16 4 true 65535) s with
    | Some (g, s') => let '(gs, v4, rest) := read_groups left (S i) s' in (g :: gs, v4, rest)
    | None => ([], false, s)
    end = (gs, v4, rest) -> (length gs <= S left)%nat /\ Forall (fun b => 0 <= b < 2 ^ 16) gs) as Hn.
  { clear -IH. intros gs v4 rest H. destruct (read_separator 58 i _ s) as [[g s']|] eqn:E.
    - apply read_separator_Some in E as [s0 E]. apply read_number_range in E; [|lia].
      destruct (read_groups left (S i) s') as [[gs' v4'] r'] eqn:E'. simplify_eq.
      destruct (IH _ _ _ _ _ E') as [? HF]. split; [simpl; lia|]. constructor; [lia|done].
    - simplify_eq. split; [simpl; lia|constructor]. }
  destruct ip as [[os r]|] eqn:Eip; [|by eapply Hn].
  unfold ip in Eip. case_test; [|done]. boolify.
  apply read_separator_Some in Eip as [s0 Eip]. destruct (read_octets_ok _ _ _ _ _ Eip) as [L HF].
  destruct os as [|a [|b [|c [|d [|]]]]]; try done. simplify_eq.
  decompose_Forall_hyps. split; [simpl; lia|].
  repeat constructor; lia.
Qed.

Lemma read_ipv6_ok s gs rest :
  read_ipv6_addr s = Some (gs, rest) -> length gs = 8%nat /\ Forall (fun b => 0 <= b < 2 ^ 16) gs.
Proof.
  unfold read_ipv6_addr. destruct (read_groups 8 0 s) as [[head v4] s1] eqn:E.
  destruct (read_groups_ok _ _ _ _ _ _ E) as [Hl HF]. repeat case_test; boolify; intros; simplify_eq; [done|].
  destruct (read_given_char 58 s1) as [s2|]; [|done]. destruct (read_given_char 58 s2) as [s3|]; [|done].
  destruct (read_groups (8 - (length head + 1)) 0 s3) as [[tail w4] r] eqn:E'. simplify_eq.
  destruct (read_groups_ok _ _ _ _ _ _ E') as [Ht HT]. split.
  - rewrite !length_app, length_replicate. lia.
  - rewrite !Forall_app. split_and!; [done| |done]. apply Forall_replicate. lia.
Qed.

(** Whatever parses is an address. *)
Lemma parse_ip_ok s ip : parse_ip s = Some ip -> ip_ok ip.
Proof.
  unfold parse_ip, parse_with, read_ip_addr. intros H.
  destruct (read_ipv4_addr s) as [[o r]|] eqn:E4.
  - destruct r; simplify_eq. apply (read_octets_ok _ _ _ _ _ E4).
  - destruct (read_ipv6_addr s) as [[g r]|] eqn:E6; [|done]. destruct r; simplify_eq.
    by eapply read_ipv6_ok.
Qed.
