(* ===== verification/Outbound.v ===== *)
(** * outbound/: the outbound connector

    [config.rs]: the proxy URL, the environment variables, the [NO_PROXY] list
    and its matcher.  [connector.rs]: how a connection to a target is opened.
    The crates [url], [percent-encoding] and [ipnet] are the class
    [OutboundCrates]; TCP, name resolution and the proxy protocols of
    [async-http-proxy] and [tokio-socks] are the class [Sockets], and the model
    keeps every request made of them, in order. *)
From Stdlib Require Import String.
From S2P Require Import Prelude Text Ip.

Local Open Scope Z_scope.

(** What the program reads of a parsed [url::Url]. *)
Record Url : Type := mkUrl {
  url_scheme : text;
  url_path : text;
  url_query : option text;
  url_fragment : option text;
  url_host_str : option text;
  url_port : option Z;
  url_username : text;
  url_password : option text;
}.

Class OutboundCrates : Type := {
  (** [Url::parse]. *)
  url_parse : text -> option Url;
  (** [percent_decode_str]: the decoded bytes. *)
  percent_decode : text -> bytes;
  (** [ipnet::IpNet], its [FromStr] and [contains]. *)
  ipnet : Type;
  parse_ipnet : text -> option ipnet;
  ipnet_contains : ipnet -> IpAddr -> bool;
}.

Inductive ProxyKind : Set :=
| Http
| Socks5 (remote_dns : bool).

#[export] Instance ProxyKind_eq_dec : EqDecision ProxyKind.
Proof. solve_decision. Defined.

Record ProxyConfig : Type := mkProxyConfig {
  px_kind : ProxyKind;
  px_host : text;
  px_port : Z;
  px_username : option text;
  px_password : option text;
}.

Inductive NoProxyMatcher {U : OutboundCrates} : Type :=
| MAddress (ip : IpAddr) (port : Z)
| MNetwork (network : ipnet)
| MHost (suffix : text) (port : Z) (include_apex : bool)
| MWildcard.

Definition authority (host : text) (port : Z) : text :=
  if contains 58 host && negb (starts_with (txt "[") host)
  then txt "[" ++ host ++ txt "]:" ++ dec port
  else host ++ txt ":" ++ dec port.

Definition default_port (kind : ProxyKind) : Z :=
  match kind with Http => 80 | Socks5 _ => 1080 end.

Definition summary (p : ProxyConfig) : text :=
  let scheme :=
    match px_kind p with
    | Http => txt "http"
    | Socks5 false => txt "socks5"
    | Socks5 true => txt "socks5h"
    end in
  let auth := authority (px_host p) (px_port p) in
  match px_username p with
  | Some _ => scheme ++ txt "://user:***@" ++ auth
  | None => scheme ++ txt "://" ++ auth
  end.

Definition is_direct_marker (value : text) : bool :=
  let v := to_ascii_lowercase (trim value) in
  bool_decide (v = txt "direct") || bool_decide (v = txt "none") || bool_decide (v = txt "off").

Definition host_matches (host suffix : text) (include_apex : bool) : bool :=
  if include_apex && eq_ignore_ascii_case host suffix then true
  else if (length host <? length suffix)%nat then false
  else
    let start := (length host - length suffix)%nat in
    (0 <? start)%nat
    && match host !! (start - 1)%nat with Some b => b =? 46 | None => false end
    && match str_get_from host start with
       | Some tail => eq_ignore_ascii_case tail suffix
       | None => false
       end.

(** [raw.split(',').map(str::trim).filter(|e| !e.is_empty())]. *)
Definition no_proxy_entries (raw : text) : list text :=
  filter (fun e => e <> []) (map trim (split 44 raw)).

(** [strip_prefix("*.").or_else(|| strip_prefix('.'))]. *)
Definition strip_wildcard (host : text) : option text :=
  match strip_prefix (txt "*.") host with
  | Some s => Some s
  | None => strip_prefix (txt ".") host
  end.

Definition ascii_alphanumeric (b : Z) : bool := between 48 57 b || between 65 90 b || between 97 122 b.

Definition bad_label (label : text) : bool :=
  bool_decide (label = []) || starts_with (txt "-") label || ends_with (txt "-") label
  || negb (forallb (fun b => ascii_alphanumeric b || (b =? 45)) label).

Definition validate_hostname_no_proxy (host : text) : result unit :=
  let host := default host (strip_wildcard host) in
  if bool_decide (host = []) || existsb (fun d => contains d host) [47; 91; 93; 58]
     || existsb bad_label (split 46 host)
  then Failure (txt "invalid NO_PROXY host entry") else Success tt.

Definition validate_no_proxy_port (port : text) : result unit :=
  match port, parse_uint 65535 port with
  | _ :: _, Some _ => Success tt
  | _, _ => Failure (txt "invalid NO_PROXY entry port")
  end.

Section outbound.
Context {U : OutboundCrates}.
Local Open Scope run_scope.

(** [&entry[1..end]] and [&entry[end + 1..]] are slices that could panic. *)
Definition validate_bracketed_ipv6_no_proxy (entry : text) : run (result unit) :=
  let bad := txt "invalid bracketed IPv6 NO_PROXY entry" in
  match find 93 entry with
  | None => Done (Failure bad)
  | Some end_ =>
      let! inner := slice_run 1 end_ entry in
      match parse_ipv6 inner with
      | None => Done (Failure bad)
      | Some _ =>
          let! rest := slice_run (end_ + 1) (length entry) entry in
          match rest with
          | [] => Done (Success tt)
          | _ =>
              match strip_prefix (txt ":") rest with
              | None => Done (Failure bad)
              | Some port => Done (validate_no_proxy_port port)
              end
          end
      end
  end.

Definition validate_no_proxy_entry (entry : text) : run (result unit) :=
  if bool_decide (entry = txt "*") then Done (Success tt)
  else if contains_str (txt "://") entry
  then Done (Failure (txt "NO_PROXY entries must not include a URL scheme"))
  else
    match parse_ipnet entry with
    | Some _ => Done (Success tt)
    | None =>
        if starts_with (txt "[") entry then validate_bracketed_ipv6_no_proxy entry
        else if contains 47 entry then Done (Failure (txt "invalid NO_PROXY CIDR entry"))
        else if contains 58 entry then
          match rsplit_once 58 entry with
          | None => Done (Failure (txt "invalid NO_PROXY entry"))
          | Some (host, port) =>
              if contains 58 host
              then Done (Failure (txt "IPv6 NO_PROXY entries with ports must use brackets"))
              else Done (let? _ := validate_hostname_no_proxy host in validate_no_proxy_port port)
          end
        else Done (validate_hostname_no_proxy entry)
    end.

Fixpoint validate_entries (entries : list text) : run (result unit) :=
  match entries with
  | [] => Done (Success tt)
  | e :: entries =>
      let! r := validate_no_proxy_entry e in
      match r with
      | Success _ => validate_entries entries
      | Failure m => Done (Failure m)
      end
  end.

Definition validate_no_proxy (raw : text) : run (result unit) := validate_entries (no_proxy_entries raw).

(** [.expect(..)]. *)
Definition expect {A} (o : option A) : run A := match o with Some a => Done a | None => Panic end.

Definition parse_no_proxy_matcher (entry : text) : run NoProxyMatcher :=
  if bool_decide (entry = txt "*") then Done MWildcard
  else
    match parse_ipnet entry with
    | Some network => Done (MNetwork network)
    | None =>
        let! (host, port) :=
          match strip_prefix (txt "[") entry with
          | Some bracketed =>
              let! end_ := expect (find 93 bracketed) in
              let! host := slice_run 0 end_ bracketed in
              let! rest := slice_run (end_ + 1) (length bracketed) bracketed in
              let! port :=
                match strip_prefix (txt ":") rest with
                | Some port => expect (parse_uint 65535 port)
                | None => Done 0
                end in
              Done (host, port)
          | None =>
              if contains 58 entry then
                let! (host, port) := expect (rsplit_once 58 entry) in
                let! port := expect (parse_uint 65535 port) in
                Done (host, port)
              else Done (entry, 0)
          end in
        match parse_ip host with
        | Some ip => Done (MAddress ip port)
        | None =>
            match strip_wildcard host with
            | Some suffix => Done (MHost suffix port false)
            | None => Done (MHost host port true)
            end
        end
    end.

Fixpoint parse_matchers (entries : list text) : run (list NoProxyMatcher) :=
  match entries with
  | [] => Done []
  | e :: entries =>
      let! m := parse_no_proxy_matcher e in
      let! ms := parse_matchers entries in
      Done (m :: ms)
  end.

Definition from_validated (raw : text) : run (list NoProxyMatcher) := parse_matchers (no_proxy_entries raw).

Definition strip_brackets (host : text) : text :=
  match strip_prefix (txt "[") host with
  | Some h => default host (strip_suffix (txt "]") h)
  | None => host
  end.

Definition port_matches (port target_port : Z) : bool := (port =? 0) || (port =? target_port).

Definition matcher_matches (host : text) (target_ip : option IpAddr) (target_port : Z)
    (m : NoProxyMatcher) : bool :=
  match m with
  | MAddress ip port => bool_decide (Some ip = target_ip) && port_matches port target_port
  | MNetwork network => match target_ip with Some ip => ipnet_contains network ip | None => false end
  | MHost suffix port include_apex => port_matches port target_port && host_matches host suffix include_apex
  | MWildcard => true
  end.

Definition no_proxy_matches (matchers : list NoProxyMatcher) (target_host : text) (target_port : Z) : bool :=
  let host := strip_brackets target_host in
  let target_ip := parse_ip host in
  if match target_ip with Some ip => is_loopback ip | None => false end then true
  else existsb (matcher_matches host target_ip target_port) matchers.

(** ** The proxy URL *)
Definition validate_proxy_url_shape (url : Url) : result unit :=
  if negb (bool_decide (url_path url = [])) && negb (bool_decide (url_path url = txt "/"))
     || match url_query url with Some _ => true | None => false end
     || match url_fragment url with Some _ => true | None => false end
  then Failure (txt "outbound proxy URL must not include a path, query string or fragment")
  else Success tt.

Definition decode_required_userinfo (value : text) : result text :=
  match from_utf8 (percent_decode value) with
  | Some v => Success v
  | None => Failure (txt "proxy URL userinfo is not valid UTF-8")
  end.

Definition decode_userinfo (value : text) : result (option text) :=
  match value with
  | [] => Success None
  | _ => let? v := decode_required_userinfo value in Success (Some v)
  end.

Definition proxy_parse (raw : text) : result ProxyConfig :=
  match url_parse raw with
  | None => Failure (txt "invalid outbound proxy URL")
  | Some url =>
      let? _ := validate_proxy_url_shape url in
      let scheme := to_ascii_lowercase (url_scheme url) in
      let? kind :=
        if bool_decide (scheme = txt "http") then Success Http
        else if bool_decide (scheme = txt "socks5") then Success (Socks5 false)
        else if bool_decide (scheme = txt "socks5h") then Success (Socks5 true)
        else if bool_decide (scheme = txt "https")
        then Failure (txt "HTTPS outbound proxy URLs are not supported; use an http:// CONNECT proxy")
        else Failure (txt "unsupported outbound proxy scheme: " ++ scheme) in
      let? host :=
        match url_host_str url with
        | Some h => Success h
        | None => Failure (txt "outbound proxy URL must include a host")
        end in
      let port := default (default_port kind) (url_port url) in
      let? username := decode_userinfo (url_username url) in
      let? password :=
        match url_password url with
        | Some p => let? v := decode_required_userinfo p in Success (Some v)
        | None => Success None
        end in
      match username, password with
      | None, Some _ => Failure (txt "proxy URL password requires a username")
      | _, _ => Success (mkProxyConfig kind host port username password)
      end
  end.

(** ** Choosing the sources *)
Fixpoint select_env_loop (values : list (text * option text)) (first_error : option text)
  : result (option ProxyConfig) :=
  match values with
  | [] =>
      match first_error with
      | Some err => Failure (txt "no supported outbound proxy URL found in environment (" ++ err ++ txt ")")
      | None => Success None
      end
  | (name, value) :: values =>
      match value with
      | None => select_env_loop values first_error
      | Some value =>
          let value := trim value in
          if bool_decide (value = []) then select_env_loop values first_error
          else if is_direct_marker value then Success None
          else
            match proxy_parse value with
            | Success proxy => Success (Some proxy)
            | Failure err =>
                select_env_loop values (Some (default (name ++ txt ": " ++ err) first_error))
            end
      end
  end.

Definition select_env_proxy (values : list (text * option text)) : result (option ProxyConfig) :=
  select_env_loop values None.

Definition PROXY_VARIABLES : list text :=
  map txt ["HTTPS_PROXY"; "https_proxy"; "ALL_PROXY"; "all_proxy"; "HTTP_PROXY"; "http_proxy"]%string.

Definition select_proxy (explicit : option text) (use_env : bool) (env_get : text -> option text)
  : result (option ProxyConfig) :=
  let from_env :=
    if negb use_env then Success None
    else select_env_proxy (map (fun name => (name, env_get name)) PROXY_VARIABLES) in
  match explicit with
  | Some value =>
      let value := trim value in
      if bool_decide (value = []) then from_env
      else if is_direct_marker value then Success None
      else let? p := proxy_parse value in Success (Some p)
  | None => from_env
  end.

(** [into_iter().flatten().map(trim).find(|v| !v.is_empty())]. *)
Fixpoint first_non_empty (values : list (option text)) : option text :=
  match values with
  | [] => None
  | None :: values => first_non_empty values
  | Some v :: values => if bool_decide (trim v = []) then first_non_empty values else Some (trim v)
  end.

Definition select_no_proxy (explicit : option text) (use_env : bool) (env_get : text -> option text)
  : option text :=
  match explicit with
  | Some value => Some (trim value)
  | None =>
      if negb use_env then None
      else first_non_empty [env_get (txt "NO_PROXY"); env_get (txt "no_proxy")]
  end.

Record OutboundConfig : Type := mkOutboundConfig {
  oc_proxy : option ProxyConfig;
  oc_no_proxy : option (list NoProxyMatcher);
}.

Definition from_sources (outbound_proxy no_proxy : option text) (use_env : bool)
    (env_get : text -> option text) : run (result OutboundConfig) :=
  match select_proxy outbound_proxy use_env env_get with
  | Failure e => Done (Failure e)
  | Success None => Done (Success (mkOutboundConfig None None))
  | Success (Some proxy) =>
      match select_no_proxy no_proxy use_env env_get with
      | None | Some [] => Done (Success (mkOutboundConfig (Some proxy) None))
      | Some raw =>
          let! v := validate_no_proxy raw in
          match v with
          | Failure e => Done (Failure e)
          | Success _ =>
              let! matchers := from_validated raw in
              Done (Success (mkOutboundConfig (Some proxy) (Some matchers)))
          end
      end
  end.
End outbound.

(** ** connector.rs *)
Record OutboundError : Type := mkOutboundError {
  oe_reason : text;
  oe_timed_out : bool;
}.

Inductive TargetAddr : Type :=
| TargetIp (addr : SocketAddr)
| TargetDomain (host : text) (port : Z).

(** What the connector asks of the network, in order. *)
Inductive request : Type :=
| OpenTcp (host : text) (port : Z)
| LookupHost (host : text) (port : Z)
| HttpConnect (host : text) (port : Z) (auth : option (text * text))
| Socks5Connect (proxy_host : text) (proxy_port : Z) (target : TargetAddr) (auth : option (text * text)).

(** The outside world, indexed by the number of connects made before: the
    outcome of each request, and whether a connect finishes within a
    timeout. *)
Class Sockets : Type := {
  socket : Type;
  tcp_open : nat -> text -> Z -> result socket;
  lookup_host : nat -> text -> Z -> result (list SocketAddr);
  http_connect : nat -> socket -> text -> Z -> option (text * text) -> result unit;
  socks5_connect : nat -> text -> Z -> TargetAddr -> option (text * text) -> result socket;
  within : nat -> Z -> bool;
}.

Section connector.
Context {U : OutboundCrates} {K : Sockets} (n : nat).

(** A result with the requests made to get it. *)
Definition traced (A : Type) : Type := result A * list request.

Definition map_err {A} (f : text -> text) (r : result A) : result A :=
  match r with Success a => Success a | Failure e => Failure (f e) end.

Definition connect_tcp (host : text) (port : Z) : traced socket :=
  (map_err (fun e => txt "TCP connect: " ++ e) (tcp_open n host port), [OpenTcp host port]).

Definition socks5_target (host : text) (port : Z) (remote_dns : bool) : traced TargetAddr :=
  if remote_dns then
    match parse_ip host with
    | Some ip => (Success (TargetIp (mkSocketAddr ip port)), [])
    | None => (Success (TargetDomain host port), [])
    end
  else
    (match lookup_host n host port with
     | Failure e => Failure (txt "SOCKS5 local DNS lookup: " ++ e)
     | Success [] => Failure (txt "SOCKS5 local DNS lookup returned no addresses")
     | Success (a :: _) => Success (TargetIp a)
     end, [LookupHost host port]).

(** [username] with [password.unwrap_or("")]. *)
Definition credentials (p : ProxyConfig) : option (text * text) :=
  match px_username p with Some u => Some (u, default [] (px_password p)) | None => None end.

Definition bracketed (host : text) : text :=
  if contains 58 host && negb (starts_with (txt "[") host) then txt "[" ++ host ++ txt "]" else host.

Definition connect_http_proxy (p : ProxyConfig) (target_host : text) (target_port : Z) : traced socket :=
  let '(r, t) := connect_tcp (px_host p) (px_port p) in
  match r with
  | Failure e => (Failure e, t)
  | Success s =>
      let target_host := bracketed target_host in
      (match http_connect n s target_host target_port (credentials p) with
       | Success _ => Success s
       | Failure e => Failure e
       end, t ++ [HttpConnect target_host target_port (credentials p)])
  end.

Definition connect_socks5_proxy (p : ProxyConfig) (target_host : text) (target_port : Z)
    (remote_dns : bool) : traced socket :=
  let '(r, t) := socks5_target target_host target_port remote_dns in
  match r with
  | Failure e => (Failure e, t)
  | Success target =>
      (socks5_connect n (px_host p) (px_port p) target (credentials p),
       t ++ [Socks5Connect (px_host p) (px_port p) target (credentials p)])
  end.

Definition connect_via_proxy (p : ProxyConfig) (target_host : text) (target_port : Z) : traced socket :=
  match px_kind p with
  | Http =>
      let '(r, t) := connect_http_proxy p target_host target_port in
      (map_err (fun e => txt "HTTP proxy " ++ summary p ++ txt ": " ++ e) r, t)
  | Socks5 remote_dns =>
      let '(r, t) := connect_socks5_proxy p target_host target_port remote_dns in
      (map_err (fun e => txt "SOCKS5 proxy " ++ summary p ++ txt ": " ++ e) r, t)
  end.

Definition should_bypass (c : OutboundConfig) (target_host : text) (target_port : Z) : bool :=
  match oc_no_proxy c with
  | Some m => no_proxy_matches m target_host target_port
  | None => false
  end.

Definition connects_directly (c : OutboundConfig) (target_host : text) (target_port : Z) : bool :=
  match oc_proxy c with None => true | Some _ => should_bypass c target_host target_port end.

(** [tokio::time::timeout] around the attempt. *)
Definition timed (timeout : Z) (expired : text) (m : traced socket)
  : (socket + OutboundError) * list request :=
  if within n timeout then
    (match m.1 with Success s => inl s | Failure e => inr (mkOutboundError e false) end, m.2)
  else (inr (mkOutboundError expired true), m.2).

Definition connect_direct (host : text) (port timeout : Z) : (socket + OutboundError) * list request :=
  timed timeout (txt "TCP connect timed out") (connect_tcp host port).

Definition connect (c : OutboundConfig) (target_host : text) (target_port timeout : Z)
  : (socket + OutboundError) * list request :=
  match oc_proxy c with
  | None => connect_direct target_host target_port timeout
  | Some proxy =>
      if should_bypass c target_host target_port then connect_direct target_host target_port timeout
      else timed timeout (txt "proxy " ++ summary proxy ++ txt " handshake timed out")
             (connect_via_proxy proxy target_host target_port)
  end.
End connector.

(** ** Lemmas: the validated list *)
Section validated.
Context {U : OutboundCrates}.

Lemma starts_with_bracket entry :
  starts_with (txt "[") entry = true -> exists rest, entry = 91 :: rest.
Proof.
  unfold starts_with. destruct (strip_prefix (txt "[") entry) as [r|] eqn:E; [|done]. intros _.
  apply strip_prefix_Some in E. by exists r.
Qed.

(** The bracketed form: the closing bracket is behind the opening one, so both
    slices exist. *)
Lemma bracketed_parts rest :
  match find 93 (91 :: rest) with
  | None => find 93 rest = None
  | Some end_ => exists i, end_ = S i /\ find 93 rest = Some i /\ (i < length rest)%nat /\
      slice_run 1 end_ (91 :: rest) = Done (take i rest) /\
      slice_run (end_ + 1) (length (91 :: rest)) (91 :: rest) = Done (drop (S i) rest)
  end.
Proof.
  cbn [find]. change (91 =? 93) with false. cbv iota. destruct (find 93 rest) as [i|] eqn:E; [|done].
  exists i. apply find_Some in E as [Hi _]. split_and!; try done.
  - rewrite slice_run_ok by (simpl; lia). unfold slice. cbn [drop]. do 2 f_equal. lia.
  - rewrite slice_run_ok by (simpl; lia). unfold slice. f_equal.
    replace (S i + 1)%nat with (S (S i)) by lia. cbn [drop length].
    rewrite take_ge; [done|]. rewrite length_drop. lia.
Qed.

Lemma bracketed_rest_slices rest i :
  find 93 rest = Some i -> (i < length rest)%nat ->
  slice_run 0 i rest = Done (take i rest) /\
  slice_run (i + 1) (length rest) rest = Done (drop (S i) rest).
Proof.
  intros E Hi. split.
  - rewrite slice_run_ok by lia. unfold slice. by rewrite drop_0, Nat.sub_0_r.
  - rewrite slice_run_ok by lia. unfold slice. f_equal. rewrite Nat.add_1_r.
    rewrite take_ge; [done|]. rewrite length_drop. lia.
Qed.

Lemma validate_port_Some port : validate_no_proxy_port port = Success tt -> is_Some (parse_uint 65535 port).
Proof. unfold validate_no_proxy_port. destruct port; [done|]. destruct (parse_uint _ _); [eauto|done]. Qed.

Lemma bracketed_valid rest :
  exists r, validate_bracketed_ipv6_no_proxy (91 :: rest) = Done r /\
    (r = Success tt -> exists i, find 93 rest = Some i /\ (i < length rest)%nat /\
       forall port, strip_prefix (txt ":") (drop (S i) rest) = Some port -> is_Some (parse_uint 65535 port)).
Proof.
  unfold validate_bracketed_ipv6_no_proxy. pose proof (bracketed_parts rest) as HP.
  destruct (find 93 (91 :: rest)) as [end_|]; [|eexists; split; [done|]; done].
  destruct HP as (i & -> & Hf & Hi & -> & ->). cbn [run_bind].
  destruct (parse_ipv6 (take i rest)); [|eexists; split; [done|]; done].
  destruct (drop (S i) rest) as [|b0 l0] eqn:Ed.
  { eexists. split; [done|]. intros _. exists i. split_and!; [done|done|]. intros p Hp. by rewrite Ed in Hp. }
  destruct (strip_prefix (txt ":") (b0 :: l0)) as [port|] eqn:Es; [|eexists; split; [done|]; done].
  eexists. split; [done|]. intros Hv. exists i. split_and!; [done|done|]. rewrite Ed, Es.
  intros p [= <-]. by apply validate_port_Some.
Qed.

(** An accepted entry is parsed without reaching an [expect]. *)
Lemma entry_parses entry :
  exists r, validate_no_proxy_entry entry = Done r /\
    (r = Success tt -> returns (parse_no_proxy_matcher entry)).
Proof.
  unfold validate_no_proxy_entry, parse_no_proxy_matcher.
  destruct (bool_decide (entry = txt "*")); [eexists; split; [done|]; intros; apply returns_Done|].
  destruct (contains_str (txt "://") entry); [by eexists|].
  destruct (parse_ipnet entry) as [net|]; [eexists; split; [done|]; intros; apply returns_Done|].
  assert (forall host port, returns (match parse_ip host with
    | Some ip => Done (MAddress ip port)
    | None => match strip_wildcard host with
              | Some suffix => Done (MHost suffix port false)
              | None => Done (MHost host port true)
              end
    end)) as Hend.
  { intros. repeat case_match; apply returns_Done. }
  destruct (starts_with (txt "[") entry) eqn:Eb.
  - destruct (starts_with_bracket _ Eb) as [rest ->].
    destruct (bracketed_valid rest) as (r & -> & Hr). exists r. split; [done|]. intros Hs.
    destruct (Hr Hs) as (i & Hf & Hi & Hport).
    change (strip_prefix (txt "[") (91 :: rest)) with (Some rest). cbv iota.
    rewrite Hf. cbn [expect run_bind]. destruct (bracketed_rest_slices rest i Hf Hi) as [-> ->].
    cbn [run_bind]. destruct (strip_prefix (txt ":") _) as [port|] eqn:Es; [|apply Hend].
    destruct (Hport port eq_refl) as [v ->]. apply Hend.
  - unfold starts_with in Eb. destruct (strip_prefix (txt "[") entry); [done|].
    destruct (contains 47 entry); [by eexists|].
    destruct (contains 58 entry); [|eexists; split; [done|]; intros; apply Hend].
    destruct (rsplit_once 58 entry) as [[host port]|]; [|by eexists].
    destruct (contains 58 host); [by eexists|]. eexists. split; [done|].
    destruct (validate_hostname_no_proxy host) as [[]|]; cbn [result_bind]; [|done].
    intros Hv. cbn [expect run_bind]. destruct (validate_port_Some _ Hv) as [v ->]. apply Hend.
Qed.

Lemma entries_parse entries :
  exists r, validate_entries entries = Done r /\ (r = Success tt -> returns (parse_matchers entries)).
Proof.
  induction entries as [|e entries (r & Er & Hr)]; cbn [validate_entries parse_matchers].
  { eexists. split; [done|]. intros. apply returns_Done. }
  destruct (entry_parses e) as (re & -> & He). cbn [run_bind].
  destruct re as [[]|m]; [|by eexists]. exists r. split; [done|]. intros Hs.
  destruct (He eq_refl) as [m ->]. cbn [run_bind]. destruct (Hr Hs) as [ms ->]. apply returns_Done.
Qed.

Lemma from_sources_returns proxy no_proxy use_env env : returns (from_sources proxy no_proxy use_env env).
Proof.
  unfold from_sources. destruct (select_proxy _ _ _) as [[p|]|]; [|apply returns_Done..].
  destruct (select_no_proxy _ _ _) as [[|b raw]|]; [apply returns_Done| |apply returns_Done].
  unfold validate_no_proxy, from_validated.
  destruct (entries_parse (no_proxy_entries (b :: raw))) as (r & -> & Hr). cbn [run_bind].
  destruct r as [[]|]; [|apply returns_Done]. destruct (Hr eq_refl) as [ms ->]. apply returns_Done.
Qed.
End validated.

(** ** Lemmas: host names *)
Lemma lowercase_app a b : to_ascii_lowercase (a ++ b) = to_ascii_lowercase a ++ to_ascii_lowercase b.
Proof. apply map_app. Qed.

Lemma host_suffix_boundary host p tail :
  utf8_valid host = true -> host = p ++ 46 :: tail -> str_get_from host (length p + 1) = Some tail.
Proof.
  intros Hu ->. apply utf8_after_ascii in Hu; [|done].
  assert (forall i, (p ++ 46 :: tail) !! (length p + 1 + i)%nat = tail !! i) as HL.
  { intros i. rewrite lookup_app_r by lia. by replace (length p + 1 + i - length p)%nat with (S i) by lia. }
  unfold str_get_from. assert (is_char_boundary (p ++ 46 :: tail) (length p + 1) = true) as ->.
  { apply utf8_valid_boundary in Hu. unfold is_char_boundary in *. specialize (HL 0%nat).
    rewrite Nat.add_0_r in HL. rewrite HL. apply orb_true_iff in Hu as [Hu|Hu].
    - boolify. apply orb_true_iff. left. apply Nat.eqb_eq. len.
    - rewrite Hu. apply orb_true_r. }
  f_equal. replace (p ++ 46 :: tail) with ((p ++ [46]) ++ tail) by by rewrite <- app_assoc.
  rewrite drop_app_length'; [done|len].
Qed.

Lemma host_matches_iff host suffix apex :
  utf8_valid host = true ->
  host_matches host suffix apex = true <->
    (apex = true /\ to_ascii_lowercase host = to_ascii_lowercase suffix) \/
    exists sub, to_ascii_lowercase host = sub ++ txt "." ++ to_ascii_lowercase suffix.
Proof.
  intros Hu. unfold host_matches, eq_ignore_ascii_case.
  destruct (apex && bool_decide _) eqn:Ea.
  { boolify. split; [intros _; left; done|done]. }
  assert (~ (apex = true /\ to_ascii_lowercase host = to_ascii_lowercase suffix)) as Hna.
  { intros [-> E]. rewrite bool_decide_eq_true_2 in Ea by done. done. }
  case_test; boolify.
  { split; [done|]. intros [?|[sub E]]; [done|]. exfalso. apply (f_equal length) in E.
    rewrite !length_app, !to_ascii_lowercase_length in E. simpl in E. lia. }
  remember (length host - length suffix)%nat as start eqn:Hstart. split.
  - intros HM. boolify. destruct (host !! (start - 1)%nat) as [b|] eqn:Eb; [|done]. boolify. subst b.
    apply list_elem_of_split_length in Eb as (p & tail & -> & Lp).
    assert (start = length p + 1)%nat as -> by lia.
    rewrite (host_suffix_boundary _ p tail Hu eq_refl) in *. boolify.
    right. exists (to_ascii_lowercase p). rewrite lowercase_app. cbn [to_ascii_lowercase map].
    change (lower 46) with 46. f_equal. simpl. f_equal. done.
  - intros [?|[sub E]]; [done|]. pose proof (f_equal length E) as L.
    rewrite !length_app, !to_ascii_lowercase_length in L. change (length (txt ".")) with 1%nat in L.
    assert (exists p tail, host = p ++ 46 :: tail /\ length p = length sub /\
      to_ascii_lowercase tail = to_ascii_lowercase suffix) as (p & tail & -> & Lp & Et).
    { rewrite <- (take_drop (length sub) host) in E. rewrite lowercase_app in E.
      apply app_inj_1 in E as [_ E]; [|rewrite to_ascii_lowercase_length, length_take; lia].
      destruct (drop (length sub) host) as [|b tail] eqn:Ed; [done|].
      cbn in E. injection E as Eb Et. apply (proj1 (lower_46 b)) in Eb. subst b.
      exists (take (length sub) host), tail. split_and!; [|rewrite length_take; lia|done].
      by rewrite <- Ed, take_drop. }
    pose proof (f_equal length Et) as Lt. rewrite !to_ascii_lowercase_length in Lt.
    assert (start = length p + 1)%nat as -> by len.
    rewrite (host_suffix_boundary _ p tail Hu eq_refl).
    rewrite (proj2 (Nat.ltb_lt _ _)) by lia. replace (length p + 1 - 1)%nat with (length p) by lia.
    rewrite lookup_app_r, Nat.sub_diag by lia. simpl. by apply bool_decide_eq_true_2.
Qed.

(** ** Reference: what the environment decides *)
Section reference.
Context {U : OutboundCrates}.

(** A variable that settles the matter: a marker for direct connections or a
    usable URL. *)
Definition settles (nv : text * option text) : option (option ProxyConfig) :=
  match nv.2 with
  | None => None
  | Some v =>
      if bool_decide (trim v = []) then None
      else if is_direct_marker (trim v) then Some None
      else match proxy_parse (trim v) with Success p => Some (Some p) | Failure _ => None end
  end.

(** A variable with a URL that cannot be used, and its message. *)
Definition complaint (nv : text * option text) : option text :=
  match nv.2 with
  | None => None
  | Some v =>
      if bool_decide (trim v = []) then None
      else if is_direct_marker (trim v) then None
      else match proxy_parse (trim v) with Success _ => None | Failure e => Some (nv.1 ++ txt ": " ++ e) end
  end.

Definition env_choice (values : list (text * option text)) : result (option ProxyConfig) :=
  match head (omap settles values), head (omap complaint values) with
  | Some choice, _ => Success choice
  | None, Some e => Failure (txt "no supported outbound proxy URL found in environment (" ++ e ++ txt ")")
  | None, None => Success None
  end.

Lemma select_env_loop_choice values first :
  select_env_loop values first =
  match head (omap settles values), first with
  | Some choice, _ => Success choice
  | None, Some e => Failure (txt "no supported outbound proxy URL found in environment (" ++ e ++ txt ")")
  | None, None => env_choice values
  end.
Proof.
  revert first. induction values as [|[name [v|]] values IH]; intros first.
  - by destruct first.
  - cbn [select_env_loop]. unfold env_choice. cbn [omap list_omap]. unfold settles at 1 4, complaint at 1.
    cbn [snd fst]. rewrite !IH. destruct (bool_decide (trim v = [])); [done|].
    destruct (is_direct_marker (trim v)); [done|]. destruct (proxy_parse (trim v)) as [p|e]; [done|].
    cbn [default head]. rewrite IH. by destruct (head (omap settles values)), first.
  - cbn [select_env_loop]. rewrite IH. done.
Qed.
End reference.

(** ** Properties *)
Section outbound_properties.
Context {U : OutboundCrates}.

Definition u16_ok (p : Z) : Prop := 0 <= p < 2 ^ 16.

(** What the code relies on of [url]: a port is a [u16]. *)
Class OutboundCratesLaws : Prop := {
  url_port_ok raw u p : url_parse raw = Some u -> url_port u = Some p -> u16_ok p;
}.

Definition proxy_ok (p : ProxyConfig) : Prop :=
  u16_ok (px_port p) /\ (px_username p = None -> px_password p = None) /\
  (forall u, px_username p = Some u -> utf8_valid u = true) /\
  (forall w, px_password p = Some w -> utf8_valid w = true).

Definition matcher_ok (m : NoProxyMatcher) : Prop :=
  match m with
  | MAddress ip port => ip_ok ip /\ u16_ok port
  | MHost _ port _ => u16_ok port
  | MNetwork _ | MWildcard => True
  end.

Definition outbound_ok (c : OutboundConfig) : Prop :=
  (forall p, oc_proxy c = Some p -> proxy_ok p) /\
  (forall ms, oc_no_proxy c = Some ms -> is_Some (oc_proxy c) /\ Forall matcher_ok ms).
Lemma expect_Done {A} (o : option A) a : expect o = Done a -> o = Some a.
Proof. destruct o; simpl; intros; by simplify_eq. Qed.

Lemma userinfo_ok value v : decode_required_userinfo value = Success v -> utf8_valid v = true.
Proof. unfold decode_required_userinfo, from_utf8. case_test; intros; by simplify_eq. Qed.

Lemma result_bind_Success {A B} (m : result A) (k : A -> result B) b :
  result_bind m k = Success b -> exists a, m = Success a /\ k a = Success b.
Proof. destruct m; simpl; intros; simplify_eq. eauto. Qed.

Lemma proxy_parse_ok {HL : OutboundCratesLaws} raw p : proxy_parse raw = Success p -> proxy_ok p.
Proof.
  unfold proxy_parse. destruct (url_parse raw) as [u|] eqn:Eu; [|done]. intros H.
  apply result_bind_Success in H as (_ & _ & H). apply result_bind_Success in H as (kind & _ & H).
  apply result_bind_Success in H as (host & _ & H). apply result_bind_Success in H as (user & Hu & H).
  apply result_bind_Success in H as (pass & Hp & H).
  assert (u16_ok (default (default_port kind) (url_port u))) as Hport.
  { destruct (url_port u) as [q|] eqn:Eq; [by eapply url_port_ok|]. destruct kind; unfold u16_ok; simpl; lia. }
  assert (forall x, user = Some x -> utf8_valid x = true) as HU.
  { intros x ->. unfold decode_userinfo in Hu. destruct (url_username u); [done|].
    apply result_bind_Success in Hu as (v & Hv & Hu). simplify_eq. by eapply userinfo_ok. }
  assert (forall x, pass = Some x -> utf8_valid x = true) as HW.
  { intros x ->. destruct (url_password u); [|done].
    apply result_bind_Success in Hp as (v & Hv & Hp). simplify_eq. by eapply userinfo_ok. }
  destruct user, pass; simplify_eq; split_and!; simpl; auto; done.
Qed.

Lemma select_env_loop_ok {HL : OutboundCratesLaws} values first p :
  select_env_loop values first = Success (Some p) -> proxy_ok p.
Proof.
  revert first. induction values as [|[name [v|]] values IH]; intros first H; cbn [select_env_loop] in H;
    [by destruct first| |by eapply IH].
  case_test; [by eapply IH|]. case_test; [done|].
  destruct (proxy_parse (trim v)) eqn:E; [simplify_eq; by eapply proxy_parse_ok|by eapply IH].
Qed.

Lemma select_proxy_ok {HL : OutboundCratesLaws} explicit use_env env p :
  select_proxy explicit use_env env = Success (Some p) -> proxy_ok p.
Proof.
  unfold select_proxy. destruct explicit as [v|].
  - case_test; [case_test; [done|by apply select_env_loop_ok]|]. case_test; [done|].
    intros (q & Hq & H)%result_bind_Success. simplify_eq. by eapply proxy_parse_ok.
  - case_test; [done|by apply select_env_loop_ok].
Qed.

Lemma parse_matcher_ok e m : parse_no_proxy_matcher e = Done m -> matcher_ok m.
Proof.
  unfold parse_no_proxy_matcher. case_test; [intros; by simplify_eq|].
  destruct (parse_ipnet e); [intros; by simplify_eq|]. intros H.
  apply run_bind_Done in H as ([host port] & Hp & H).
  assert (u16_ok port) as Hport.
  { destruct (strip_prefix (txt "[") e) as [b|].
    - apply run_bind_Done in Hp as (i & _ & Hp). apply run_bind_Done in Hp as (h & _ & Hp).
      apply run_bind_Done in Hp as (r & _ & Hp). apply run_bind_Done in Hp as (q & Hq & Hp). simplify_eq.
      destruct (strip_prefix (txt ":") r); [|simplify_eq; unfold u16_ok; lia].
      apply expect_Done, parse_uint_range in Hq; unfold u16_ok; lia.
    - case_test; [|simplify_eq; unfold u16_ok; lia].
      apply run_bind_Done in Hp as ([h q] & _ & Hp). apply run_bind_Done in Hp as (v & Hq & Hp). simplify_eq.
      apply expect_Done, parse_uint_range in Hq; unfold u16_ok; lia. }
  destruct (parse_ip host) as [ip|] eqn:Ei; [simplify_eq; split; [by eapply parse_ip_ok|done]|].
  destruct (strip_wildcard host); by simplify_eq.
Qed.

Lemma parse_matchers_ok entries ms : parse_matchers entries = Done ms -> Forall matcher_ok ms.
Proof.
  revert ms. induction entries as [|e entries IH]; intros ms H; cbn [parse_matchers] in H; [by simplify_eq|].
  apply run_bind_Done in H as (m & Hm & H). apply run_bind_Done in H as (l & Hl & H). simplify_eq.
  constructor; [by eapply parse_matcher_ok|by apply IH].
Qed.

(** The outbound configuration is built from any flags and environment
    without a panic: a [NO_PROXY] list that passes validation never reaches one
    of the parser's [expect]s.  What is built is well-formed: ports fit 16 bits,
    addresses are addresses, credentials are UTF-8, there is no password
    without a user name and no bypass list without a proxy. *)
Theorem outbound_config_typed {HL : OutboundCratesLaws} outbound_proxy no_proxy use_env env_get :
  exists r, from_sources outbound_proxy no_proxy use_env env_get = Done r /\
    forall c, r = Success c -> outbound_ok c.
Proof.
  destruct (from_sources_returns outbound_proxy no_proxy use_env env_get) as [r E].
  exists r. split; [done|]. intros c ->. unfold from_sources in E.
  destruct (select_proxy _ _ _) as [[p|]|] eqn:Ep; simplify_eq; [|by split].
  apply select_proxy_ok in Ep.
  assert (outbound_ok (mkOutboundConfig (Some p) None)) as Hn by (split; simpl; intros; by simplify_eq).
  destruct (select_no_proxy _ _ _) as [[|b raw]|]; simplify_eq; [done| |done].
  apply run_bind_Done in E as ([[]|m] & _ & E); [|by simplify_eq].
  apply run_bind_Done in E as (ms & Hms & E). simplify_eq. apply parse_matchers_ok in Hms.
  split; simpl; intros; simplify_eq; [done|]. split; [by eexists|done].
Qed.

(** C27. Which targets bypass the proxy: loopback literals always; otherwise
    exactly those an entry of the list names, by address, network, or host name
    compared without case, where a plain name covers itself and everything below
    it, a dotted one only what is below it, and a port restricts the entry. *)
Theorem no_proxy_decides c proxy ms target port :
  oc_proxy c = Some proxy -> oc_no_proxy c = Some ms ->
  let host := strip_brackets target in
  utf8_valid host = true ->
  connects_directly c target port = true <->
    (exists ip, parse_ip host = Some ip /\ is_loopback ip = true) \/
    exists m, m ∈ ms /\
      match m with
      | MAddress ip p => parse_ip host = Some ip /\ (p = 0 \/ p = port)
      | MNetwork net => exists ip, parse_ip host = Some ip /\ ipnet_contains net ip = true
      | MHost suffix p include_apex =>
          (p = 0 \/ p = port) /\
          (include_apex = true /\ to_ascii_lowercase host = to_ascii_lowercase suffix \/
           exists sub, to_ascii_lowercase host = sub ++ txt "." ++ to_ascii_lowercase suffix)
      | MWildcard => True
      end.
Proof.
  intros Hp Hm host Hu. unfold connects_directly, should_bypass. rewrite Hp, Hm.
  unfold no_proxy_matches. fold host.
  assert (forall p, port_matches p port = true <-> p = 0 \/ p = port) as Hpm.
  { intros p. unfold port_matches. by rewrite orb_true_iff, !Z.eqb_eq. }
  destruct (match parse_ip host with Some ip => is_loopback ip | None => false end) eqn:El.
  { split; [intros _|done]. left. destruct (parse_ip host) as [ip|]; [by exists ip|done]. }
  rewrite existsb_exists. split.
  - intros (m & Hin & H). right. exists m. split; [by apply list_elem_of_In|].
    destruct m as [ip p|net|s p a|]; cbn [matcher_matches] in H; [| | |done]; boolify.
    + split; [done|by apply Hpm].
    + destruct (parse_ip host) as [ip|]; [by exists ip|done].
    + rewrite Hpm in *. split; [done|]. by apply host_matches_iff.
  - intros [(ip & E & Hl)|(m & Hin & H)]; [by rewrite E, Hl in El|].
    exists m. split; [by apply list_elem_of_In|].
    destruct m as [ip p|net|s p a|]; cbn [matcher_matches]; [| | |done].
    + destruct H as [-> H]. apply andb_true_iff. split; [by apply bool_decide_eq_true_2|by apply Hpm].
    + destruct H as (ip & -> & ?). done.
    + destruct H as [H1 H2]. apply andb_true_iff. split; [by apply Hpm|]. by apply host_matches_iff.
Qed.

(** Where the proxy comes from: a non-blank flag alone decides, a bad one is
    an error and the environment is not consulted; otherwise, unless the
    environment is switched off, the first variable in the documented order
    that holds a usable URL or a direct marker decides, unusable URLs are passed
    over, and they are an error only when nothing settles the matter. *)
Theorem proxy_source_decides explicit use_env env_get :
  select_proxy explicit use_env env_get =
  match explicit with
  | Some v =>
      if bool_decide (trim v = []) then
        if use_env then env_choice (map (fun name => (name, env_get name)) PROXY_VARIABLES) else Success None
      else if is_direct_marker (trim v) then Success None
      else match proxy_parse (trim v) with Success p => Success (Some p) | Failure e => Failure e end
  | None => if use_env then env_choice (map (fun name => (name, env_get name)) PROXY_VARIABLES) else Success None
  end.
Proof.
  assert (forall vs, select_env_proxy vs = env_choice vs) as HE.
  { intros vs. unfold select_env_proxy. rewrite select_env_loop_choice. unfold env_choice.
    by destruct (head (omap settles vs)). }
  unfold select_proxy. rewrite HE. destruct explicit as [v|]; [|by destruct use_env].
  case_test; [by destruct use_env|]. case_test; [done|]. by destruct (proxy_parse (trim v)).
Qed.
Context {K : Sockets}.

(** The requests a connect to a target may make: the target itself, or the
    configured proxy with the configured credentials. *)
Definition routed (c : OutboundConfig) (host : text) (port : Z) (reqs : list request) : Prop :=
  if connects_directly c host port then reqs = [OpenTcp host port]
  else exists p, oc_proxy c = Some p /\ Forall (fun q =>
    match q with
    | OpenTcp h pt => h = px_host p /\ pt = px_port p
    | LookupHost h pt => px_kind p = Socks5 false /\ h = host /\ pt = port
    | HttpConnect h pt auth => px_kind p = Http /\ h = bracketed host /\ pt = port /\ auth = credentials p
    | Socks5Connect h pt target auth =>
        h = px_host p /\ pt = px_port p /\ auth = credentials p /\
        (px_kind p = Socks5 true ->
           (exists ip, parse_ip host = Some ip /\ target = TargetIp (mkSocketAddr ip port)) \/
           parse_ip host = None /\ target = TargetDomain host port)
    end) reqs.

Lemma connect_routed n c host port timeout r reqs :
  connect n c host port timeout = (r, reqs) ->
  match r with inl _ => within n timeout = true | inr e => oe_timed_out e = negb (within n timeout) end /\
  routed c host port reqs.
Proof.
  assert (forall text m, timed n timeout text m = (r, reqs) ->
    match r with inl _ => within n timeout = true | inr e => oe_timed_out e = negb (within n timeout) end /\
    reqs = m.2) as HT.
  { intros msg m. unfold timed. destruct (within n timeout); [|intros; by simplify_eq].
    destruct m as [[s|e] t]; intros; by simplify_eq. }
  unfold routed, connect, connects_directly, connect_direct. destruct (oc_proxy c) as [p|]; [|by intros [? ->]%HT].
  destruct (should_bypass c host port); [by intros [? ->]%HT|]. intros [HR ->]%HT. split; [done|].
  exists p. split; [done|]. unfold connect_via_proxy. destruct (px_kind p) as [|[]] eqn:Ek.
  - unfold connect_http_proxy, connect_tcp. apply List.Forall_forall.
    destruct (tcp_open n (px_host p) (px_port p)); cbn; naive_solver.
  - unfold connect_socks5_proxy, socks5_target. apply List.Forall_forall.
    destruct (parse_ip host) as [ip|] eqn:Ei; cbn; naive_solver.
  - unfold connect_socks5_proxy, socks5_target. apply List.Forall_forall.
    destruct (lookup_host n host port) as [[|a l]|]; cbn; naive_solver.
Qed.

(** C22. Where a connection goes: a direct target is opened itself; any other one
    only through the configured proxy, which alone is dialled, with the
    configured credentials.  The target's name is resolved locally only for
    [socks5], never for [socks5h], which passes on the name or the literal
    address.  An error is flagged as a timeout exactly when time ran out. *)
Theorem connect_route n c host port timeout r reqs :
  connect n c host port timeout = (r, reqs) ->
  match r with inl _ => within n timeout = true | inr e => oe_timed_out e = negb (within n timeout) end /\
  routed c host port reqs.
Proof. apply connect_routed. Qed.

(** Credentials do not leak: two proxies that differ only in their user name
    and password have the same summary, and as long as the network answers both
    alike, connecting through them gives the same result with the same
    message. *)
Theorem credentials_hidden n c1 c2 p1 p2 u1 u2 host port timeout :
  oc_proxy c1 = Some p1 -> oc_proxy c2 = Some p2 -> oc_no_proxy c1 = oc_no_proxy c2 ->
  px_kind p1 = px_kind p2 -> px_host p1 = px_host p2 -> px_port p1 = px_port p2 ->
  px_username p1 = Some u1 -> px_username p2 = Some u2 ->
  (forall s h pt, http_connect n s h pt (credentials p1) = http_connect n s h pt (credentials p2)) ->
  (forall h pt t, socks5_connect n h pt t (credentials p1) = socks5_connect n h pt t (credentials p2)) ->
  summary p1 = summary p2 /\ fst (connect n c1 host port timeout) = fst (connect n c2 host port timeout).
Proof.
  intros E1 E2 En Ek Eh Ep Eu1 Eu2 Hhttp Hsocks.
  assert (summary p1 = summary p2) as Hs by (unfold summary; by rewrite Eu1, Eu2, Ek, Eh, Ep).
  split; [done|]. unfold connect, should_bypass. rewrite E1, E2, En.
  destruct (match oc_no_proxy c2 with Some _ => _ | None => _ end); [done|].
  rewrite Hs. unfold timed. destruct (within n timeout); [|done]. cbn [fst]. f_equal.
  unfold connect_via_proxy. rewrite Ek. destruct (px_kind p2) as [|rd].
  - unfold connect_http_proxy, connect_tcp. rewrite Eh, Ep.
    destruct (tcp_open n (px_host p2) (px_port p2)) as [s|e]; cbn [map_err fst]; rewrite Hs; [|done].
    by rewrite Hhttp.
  - unfold connect_socks5_proxy. destruct (socks5_target n host port rd) as [[t|e] tr]; cbn [fst];
      rewrite Hs, ?Eh, ?Ep, ?Hsocks; done.
Qed.
End outbound_properties.

(** *** Witnesses: crates that know a few strings *)
Definition demo_url : text := txt "http://user:pw@proxy.example:3128".

Definition demo_crates : OutboundCrates := {|
  url_parse raw := if bool_decide (raw = demo_url)
    then Some (mkUrl (txt "http") (txt "/") None None (Some (txt "proxy.example")) (Some 3128)
                 (txt "user") (Some (txt "pw")))
    else None;
  percent_decode v := v;
  ipnet := text;
  parse_ipnet e := if contains 47 e then Some e else None;
  ipnet_contains net ip := false;
|}.

Lemma demo_crates_laws : OutboundCratesLaws (U := demo_crates).
Proof.
  split. intros raw u p. cbn [url_parse demo_crates]. case_test; [|done]. intros [= <-] [= <-].
  unfold u16_ok. lia.
Qed.

Definition demo_no_proxy : text := txt "localhost, .example.com,*.internal,example.net:443,[2001:db8::1]:8443".

Definition demo_outbound : run (result (OutboundConfig (U := demo_crates))) :=
  from_sources (U := demo_crates) (Some demo_url) (Some demo_no_proxy) true (fun _ => None).

Lemma outbound_config_typed_witness :
  exists c, demo_outbound = Done (Success c) /\ outbound_ok (U := demo_crates) c.
Proof.
  destruct (outbound_config_typed (U := demo_crates) (HL := demo_crates_laws) (Some demo_url)
    (Some demo_no_proxy) true (fun _ => None)) as (r & E & H).
  destruct r as [c|e]; [exists c; split; [exact E|apply H; reflexivity]|].
  exfalso. vm_compute in E. discriminate E.
Defined.

Definition demo_config_of (r : run (result (OutboundConfig (U := demo_crates)))) : OutboundConfig (U := demo_crates) :=
  match r with Done (Success c) => c | _ => mkOutboundConfig None None end.

(** [api.example.net:443] bypasses the proxy, [api.example.net:80] does not. *)
Lemma no_proxy_decides_witness :
  connects_directly (U := demo_crates) (demo_config_of demo_outbound) (txt "API.example.net") 443 = true /\
  connects_directly (U := demo_crates) (demo_config_of demo_outbound) (txt "API.example.net") 80 = false.
Proof.
  split; [|vm_compute; reflexivity].
  apply (no_proxy_decides (U := demo_crates) (demo_config_of demo_outbound)
    (mkProxyConfig Http (txt "proxy.example") 3128 (Some (txt "user")) (Some (txt "pw")))
    [MHost (txt "localhost") 0 true; MHost (txt "example.com") 0 false; MHost (txt "internal") 0 false;
     MHost (txt "example.net") 443 true; MAddress (V6 [0x2001; 0xdb8; 0; 0; 0; 0; 0; 1]) 8443]).
  - vm_compute. reflexivity.
  - vm_compute. reflexivity.
  - vm_compute. reflexivity.
  - right. exists (MHost (U := demo_crates) (txt "example.net") 443 true). split.
    + apply list_elem_of_In. simpl. tauto.
    + split; [right; reflexivity|]. right. exists (txt "api"). reflexivity.
Defined.

Definition demo_sockets : Sockets := {|
  socket := unit;
  tcp_open _ _ _ := Success tt;
  lookup_host _ _ _ := Failure (txt "no resolver");
  http_connect _ _ _ _ _ := Failure (txt "407");
  socks5_connect _ _ _ _ _ := Failure (txt "refused");
  within _ _ := true;
|}.

Lemma connect_route_witness :
  exists r reqs, connect (U := demo_crates) (K := demo_sockets) 0 (demo_config_of demo_outbound)
      (txt "149.154.167.220") 443 1000 = (r, reqs) /\
    ~ In (OpenTcp (txt "149.154.167.220") 443) reqs.
Proof.
  destruct (connect (U := demo_crates) (K := demo_sockets) 0 (demo_config_of demo_outbound)
    (txt "149.154.167.220") 443 1000) as [r reqs] eqn:E.
  exists r, reqs. split; [reflexivity|]. intros Hin.
  destruct (connect_route (U := demo_crates) (K := demo_sockets) 0 (demo_config_of demo_outbound)
    (txt "149.154.167.220") 443 1000 r reqs E) as [_ H]. unfold routed in H.
  assert (connects_directly (U := demo_crates) (demo_config_of demo_outbound) (txt "149.154.167.220") 443 = false)
    as Hd by (vm_compute; reflexivity).
  rewrite Hd in H. destruct H as (p & Hp & HF). vm_compute in Hp. injection Hp as <-.
  rewrite List.Forall_forall in HF. specialize (HF _ Hin). simpl in HF. destruct HF as [HF _]. discriminate HF.
Defined.

Lemma credentials_hidden_witness :
  let p1 := mkProxyConfig Http (txt "h") 1 (Some (txt "a")) (Some (txt "b")) in
  let p2 := mkProxyConfig Http (txt "h") 1 (Some (txt "c")) None in
  summary p1 = summary p2.
Proof.
  cbv zeta. eapply (credentials_hidden (U := demo_crates) (K := demo_sockets) 0
    (mkOutboundConfig (U := demo_crates) (Some (mkProxyConfig Http (txt "h") 1 (Some (txt "a")) (Some (txt "b")))) None)
    (mkOutboundConfig (U := demo_crates) (Some (mkProxyConfig Http (txt "h") 1 (Some (txt "c")) None)) None)
    _ _ (txt "a") (txt "c") (txt "t") 443 1000); reflexivity.
Defined.
