(* ===== verification/Http.v ===== *)
(** * default_domains/http.rs: the HTTPS GET of the domain list

    The response is read from a stream that hands out its bytes in pieces of
    any size and may end in an error.  Headers are read up to the blank line,
    parsed by [httparse] (the class [HttpParser]), and the body is read by
    content length, in chunks, or to the end of the stream, within limits on
    every buffer.  The TLS connection is the class [TlsClient] over the
    outbound connector's sockets. *)
From Stdlib Require Import String.
From S2P Require Import Prelude Text Ip Outbound.

Local Open Scope Z_scope.

Definition FETCH_TIMEOUT : Z := 10000.
Definition MAX_HEADER_BYTES : nat := Z.to_nat (64 * 1024).
Definition MAX_BODY_BYTES : nat := Z.to_nat (256 * 1024).
Definition READ_CHUNK : nat := Z.to_nat 8192.

(** ** The reader *)

(** The bytes still to come, the sizes reads are cut into, and how the stream
    ends: [None] is end of file, [Some e] a read error. *)
Record reader : Type := mkReader {
  rd_in : bytes;
  rd_cuts : list nat;
  rd_end : option text;
}.

(** [reader.read(&mut chunk).await.map_err(..)] for a chunk of [n] bytes. *)
Definition read (n : nat) (r : reader) : result bytes * reader :=
  match rd_in r with
  | [] => (match rd_end r with Some e => Failure (txt "read: " ++ e) | None => Success [] end, r)
  | _ =>
      let ready := match rd_cuts r with [] => length (rd_in r) | c :: _ => S c end in
      let k := Nat.min n ready in
      (Success (take k (rd_in r)), mkReader (drop k (rd_in r)) (tail (rd_cuts r)) (rd_end r))
  end.

(** A buffer being filled and the stream it is filled from. *)
Abbreviation filling := (bytes * reader)%type.

Definition read_more (limit : nat) (s : filling) : result unit * filling :=
  let '(buf, r) := s in
  if (limit <=? length buf)%nat then (Failure (txt "HTTP response exceeds limit"), s)
  else
    match read (Nat.min (limit - length buf) READ_CHUNK) r with
    | (Failure e, r) => (Failure e, (buf, r))
    | (Success [], r) => (Failure (txt "unexpected EOF while reading HTTP response"), (buf, r))
    | (Success chunk, r) => (Success tt, (buf ++ chunk, r))
    end.

(** ** Searching *)
Definition CRLF : bytes := [13; 10].

(** [buf.windows(pat.len()).position(|w| w == pat)] for a non-empty pattern. *)
Fixpoint position (pat s : bytes) : option nat :=
  if starts_with pat s then Some 0%nat
  else match s with [] => None | _ :: s => match position pat s with Some i => Some (S i) | None => None end end.

(** [windows(2).filter(|w| w == pat).count()]. *)
Fixpoint count_windows (pat s : bytes) : nat :=
  ((if starts_with pat s then 1 else 0) + match s with [] => 0 | _ :: s => count_windows pat s end)%nat.

Definition header_end (buf : bytes) : option nat :=
  match position (CRLF ++ CRLF) buf with Some pos => Some (pos + 4)%nat | None => None end.

Definition http_header_count (headers : bytes) : nat := count_windows CRLF headers.

(** ** Parsed headers *)
Abbreviation header := (text * bytes)%type.

Inductive parsed_response : Type :=
| ParseError (e : text)
| Partial
| Complete (code : option Z) (headers : list header).

(** [httparse::Response::parse] with room for the given number of headers. *)
Class HttpParser : Type := {
  parse_response : nat -> bytes -> parsed_response;
}.

Definition header_named (name : string) (h : header) : bool := eq_ignore_ascii_case h.1 (txt name).

Definition is_chunked (headers : list header) : bool :=
  existsb (fun h =>
    match from_utf8 h.2 with
    | Some value => existsb (fun part => eq_ignore_ascii_case (trim part) (txt "chunked")) (split 44 value)
    | None => false
    end) (List.filter (header_named "transfer-encoding") headers).

Section http.
Context {P : HttpParser} (usize_max : Z).
Local Open Scope run_scope.

Fixpoint content_length_loop (headers : list header) (length : option Z) : result (option Z) :=
  match headers with
  | [] => Success length
  | h :: headers =>
      match from_utf8 h.2 with
      | None => Failure (txt "Content-Length is not valid UTF-8")
      | Some v =>
          match parse_uint usize_max (trim v) with
          | None => Failure (txt "invalid Content-Length")
          | Some value =>
              if match length with Some previous => negb (previous =? value) | None => false end
              then Failure (txt "conflicting Content-Length headers")
              else content_length_loop headers (Some value)
          end
      end
  end.

Definition content_length (headers : list header) : result (option Z) :=
  content_length_loop (List.filter (header_named "content-length") headers) None.

(** ** The loops; each pass reads at least one byte or ends. *)
Fixpoint headers_loop (fuel : nat) (s : filling) : run (result nat * filling) :=
  match header_end s.1 with
  | Some pos => Done (Success pos, s)
  | None =>
      if (MAX_HEADER_BYTES <=? length s.1)%nat
      then Done (Failure (txt "HTTP response headers exceed limit"), s)
      else
        match fuel with
        | O => OutOfFuel
        | S fuel =>
            match read_more MAX_HEADER_BYTES s with
            | (Failure e, s) => Done (Failure e, s)
            | (Success _, s) => headers_loop fuel s
            end
        end
  end.

Definition read_until_headers (r : reader) : run (result nat * filling) :=
  headers_loop (S (length (rd_in r))) ([], r).

Fixpoint fill_to (fuel limit len : nat) (s : filling) : run (result unit * filling) :=
  if (length s.1 <? len)%nat then
    match fuel with
    | O => OutOfFuel
    | S fuel =>
        match read_more limit s with
        | (Failure e, s) => Done (Failure e, s)
        | (Success _, s) => fill_to fuel limit len s
        end
    end
  else Done (Success tt, s).

Definition fuel_of (s : filling) : nat := S (length (rd_in s.2)).

Definition read_content_length_body (body : bytes) (r : reader) (len : Z) : run (result bytes) :=
  if Z.of_nat MAX_BODY_BYTES <? len then Done (Failure (txt "HTTP response body exceeds limit"))
  else
    let len := Z.to_nat len in
    let! (res, s) := fill_to (fuel_of (body, r)) len len (body, r) in
    match res with
    | Failure e => Done (Failure e)
    | Success _ => Done (Success (take len s.1))
    end.

(** The inner [loop] that finds the end of the line at [pos]; [guard] is the
    trailers' limit check, made before every read. *)
Fixpoint line_loop (fuel : nat) (guard : bytes -> option text) (pos : nat) (s : filling)
  : run (result nat * filling) :=
  let! rest := slice_run pos (length s.1) s.1 in
  match position CRLF rest with
  | Some rel => Done (Success (pos + rel)%nat, s)
  | None =>
      match guard s.1 with
      | Some e => Done (Failure e, s)
      | None =>
          match fuel with
          | O => OutOfFuel
          | S fuel =>
              match read_more MAX_BODY_BYTES s with
              | (Failure e, s) => Done (Failure e, s)
              | (Success _, s) => line_loop fuel guard pos s
              end
          end
      end
  end.

Definition trailer_guard (trailer_start : nat) (body : bytes) : option text :=
  if (MAX_HEADER_BYTES <=? length body - trailer_start)%nat then Some (txt "chunk trailers exceed limit") else None.

(** [fuel] bounds the lines: each is at least two bytes of the body. *)
Fixpoint trailers_loop (fuel : nat) (trailer_start pos : nat) (s : filling) : run (result unit * filling) :=
  let! (r, s) := line_loop (fuel_of s) (trailer_guard trailer_start) pos s in
  match r with
  | Failure e => Done (Failure e, s)
  | Success line_end =>
      if (line_end =? pos)%nat then Done (Success tt, s)
      else
        match fuel with
        | O => OutOfFuel
        | S fuel => trailers_loop fuel trailer_start (line_end + 2) s
        end
  end.

(** [usize::from_str_radix(s, 16)]. *)
Fixpoint hex_digits (s : text) (acc : Z) : option Z :=
  match s with
  | [] => Some acc
  | b :: s =>
      match to_digit 16 b with
      | Some d => if acc * 16 + d <=? usize_max then hex_digits s (acc * 16 + d) else None
      | None => None
      end
  end.

Definition parse_hex (s : text) : option Z :=
  match s with
  | [] => None
  | b :: s' => if b =? 43 then match s' with [] => None | _ => hex_digits s' 0 end else hex_digits s 0
  end.

Definition chunk_size (line : bytes) : result Z :=
  match from_utf8 line with
  | None => Failure (txt "chunk size is not valid UTF-8")
  | Some size_line =>
      let size_hex := trim (match split_once 59 size_line with Some (size, _) => size | None => size_line end) in
      match parse_hex size_hex with
      | Some n => Success n
      | None => Failure (txt "invalid chunk size")
      end
  end.

Fixpoint chunks_loop (fuel : nat) (decoded : bytes) (pos : nat) (s : filling) : run (result bytes * filling) :=
  let! (r, s) := line_loop (fuel_of s) (fun _ => None) pos s in
  match r with
  | Failure e => Done (Failure e, s)
  | Success line_end =>
      let! line := slice_run pos line_end s.1 in
      match chunk_size line with
      | Failure e => Done (Failure e, s)
      | Success size =>
          let pos := (line_end + 2)%nat in
          if size =? 0 then
            let! (t, s) := trailers_loop (length s.1 + fuel_of s) pos pos s in
            match t with
            | Failure e => Done (Failure e, s)
            | Success _ => Done (Success decoded, s)
            end
          else if Z.of_nat MAX_BODY_BYTES <? Z.min (Z.of_nat (length decoded) + size) usize_max
          then Done (Failure (txt "HTTP response body exceeds limit"), s)
          else
            let size := Z.to_nat size in
            let! (f, s) := fill_to (fuel_of s) MAX_BODY_BYTES (pos + size + 2) s in
            match f with
            | Failure e => Done (Failure e, s)
            | Success _ =>
                let! part := slice_run pos (pos + size) s.1 in
                let! crlf := slice_run (pos + size) (pos + size + 2) s.1 in
                if negb (bool_decide (crlf = CRLF))
                then Done (Failure (txt "chunk is missing trailing CRLF"), s)
                else
                  match fuel with
                  | O => OutOfFuel
                  | S fuel => chunks_loop fuel (decoded ++ part) (pos + size + 2) s
                  end
            end
      end
  end.

Definition read_chunked_body (body : bytes) (r : reader) : run (result bytes) :=
  let! (res, _) := chunks_loop (length body + fuel_of (body, r)) [] 0 (body, r) in Done res.

Fixpoint eof_loop (fuel : nat) (s : filling) : run (result bytes) :=
  let '(body, r) := s in
  if (MAX_BODY_BYTES <? length body)%nat then Done (Failure (txt "HTTP response body exceeds limit"))
  else
    let remaining := (MAX_BODY_BYTES - length body)%nat in
    match read (Nat.min (Nat.max remaining 1) READ_CHUNK) r with
    | (Failure e, _) => Done (Failure e)
    | (Success [], _) => Done (Success body)
    | (Success chunk, r) =>
        if (MAX_BODY_BYTES <? length body + length chunk)%nat
        then Done (Failure (txt "HTTP response body exceeds limit"))
        else
          match fuel with
          | O => OutOfFuel
          | S fuel => eof_loop fuel (body ++ chunk, r)
          end
    end.

Definition read_until_eof_limited (body : bytes) (r : reader) : run (result bytes) :=
  eof_loop (fuel_of (body, r)) (body, r).

Definition read_http_response_body (r : reader) : run (result text) :=
  let! (h, s) := read_until_headers r in
  match h with
  | Failure e => Done (Failure e)
  | Success header_len =>
      let! head := slice_run 0 header_len s.1 in
      match parse_response (http_header_count head) head with
      | ParseError e => Done (Failure (txt "HTTP parse error: " ++ e))
      | Partial => Done (Failure (txt "incomplete HTTP response headers"))
      | Complete None _ => Done (Failure (txt "response status line has no status code"))
      | Complete (Some code) headers =>
          if negb (code =? 200) then Done (Failure (txt "HTTP status " ++ dec code))
          else
            match content_length headers with
            | Failure e => Done (Failure e)
            | Success declared_len =>
                let! rest := slice_run header_len (length s.1) s.1 in
                let! body :=
                  if is_chunked headers then read_chunked_body rest s.2
                  else
                    match declared_len with
                    | Some len => read_content_length_body rest s.2 len
                    | None => read_until_eof_limited rest s.2
                    end in
                match body with
                | Failure e => Done (Failure e)
                | Success body =>
                    match from_utf8 body with
                    | Some t => Done (Success t)
                    | None => Done (Failure (txt "response body is not valid UTF-8"))
                    end
                end
            end
      end
  end.
End http.

(** ** The request *)

(** TLS over a socket of the connector: the server name check, the handshake
    under its timeout, the write of the request, and whether the response
    arrives in time. *)
Class TlsClient {K : Sockets} : Type := {
  server_name : text -> result unit;
  tls_handshake : nat -> socket -> text -> option (result reader);
  tls_write : nat -> socket -> bytes -> result unit;
  read_within : nat -> Z -> bool;
}.

Section get.
Context {U : OutboundCrates} {K : Sockets} {T : TlsClient} {P : HttpParser} (usize_max : Z).

Definition request_text (host path : text) : text :=
  txt "GET " ++ path ++ txt " HTTP/1.1" ++ CRLF ++ txt "Host: " ++ host ++ CRLF
  ++ txt "Connection: close" ++ CRLF ++ txt "User-Agent: tg-ws-proxy" ++ CRLF ++ CRLF.

(** [n]: the number of connects the process made before. *)
Definition https_get (n : nat) (c : OutboundConfig) (host path : text) : run (result text) :=
  match fst (connect n c host 443 FETCH_TIMEOUT) with
  | inr e => Done (Failure (oe_reason e))
  | inl s =>
      match server_name host with
      | Failure e => Done (Failure (txt "invalid server name: " ++ e))
      | Success _ =>
          match tls_handshake n s host with
          | None => Done (Failure (txt "TLS handshake timed out"))
          | Some (Failure e) => Done (Failure (txt "TLS handshake: " ++ e))
          | Some (Success r) =>
              match tls_write n s (request_text host path) with
              | Failure e => Done (Failure (txt "write: " ++ e))
              | Success _ =>
                  if read_within n FETCH_TIMEOUT then read_http_response_body usize_max r
                  else Done (Failure (txt "read timed out"))
              end
          end
      end
  end.
End get.

(** ** Lemmas: reading *)
Lemma read_chunk_pos : (0 < READ_CHUNK)%nat.
Proof. unfold READ_CHUNK. lia. Qed.

(** Everything the buffer and the stream still hold. *)
Definition held (s : filling) : bytes := s.1 ++ rd_in s.2.

(** A successful read appends a non-empty piece of the stream. *)
Lemma read_more_spec limit s r s' :
  read_more limit s = (r, s') ->
  held s' = held s /\
  match r with
  | Success _ => (length (rd_in s'.2) < length (rd_in s.2))%nat /\ (length s'.1 <= limit)%nat /\
      exists x, x <> [] /\ s'.1 = s.1 ++ x
  | Failure _ => s'.1 = s.1 /\ ((limit <= length s.1)%nat \/ rd_in s.2 = [])
  end.
Proof.
  destruct s as [buf rd]. unfold read_more, held. case_test; boolify.
  { intros [= <- <-]. split; [done|]. split; [done|by left]. }
  unfold read. cbn [fst snd]. destruct (rd_in rd) as [|b l] eqn:Er.
  { destruct (rd_end rd); intros [= <- <-]; cbn [fst snd]; rewrite Er; (split; [done|]; split; [done|by right]). }
  pose proof read_chunk_pos. set (k := Nat.min _ _).
  assert (1 <= k <= limit - length buf)%nat as Hk by (unfold k; destruct (rd_cuts rd); cbn [length]; lia).
  destruct k as [|k]; [lia|]. cbn [take]. intros [= <- <-]. cbn [fst snd rd_in drop].
  split; [rewrite <- app_assoc; cbn; by rewrite take_drop|]. split_and!.
  - rewrite length_drop. simpl. lia.
  - rewrite length_app. cbn [length]. rewrite length_take. lia.
  - by exists (b :: take k l).
Qed.

Lemma fill_to_spec fuel limit len s :
  (length (rd_in s.2) < fuel)%nat ->
  exists r s', fill_to fuel limit len s = Done (r, s') /\ held s' = held s /\
    (exists x, s'.1 = s.1 ++ x) /\ (length s'.1 <= Nat.max limit (length s.1))%nat /\
    match r with
    | Success _ => (len <= length s'.1)%nat
    | Failure _ => (length s'.1 < len)%nat /\ ((limit <= length s'.1)%nat \/ rd_in s'.2 = [])
    end.
Proof.
  revert s. induction fuel as [|fuel IH]; intros s Hf; [lia|]. cbn [fill_to].
  destruct (length s.1 <? len)%nat eqn:El; boolify.
  2: { eexists _, s. split; [done|]. split_and!; try done; [exists []; by rewrite app_nil_r|lia]. }
  destruct (read_more limit s) as [r s1] eqn:E. destruct (read_more_spec _ _ _ _ E) as [Hh HC].
  destruct r as [[]|e].
  - destruct HC as (Hl & Hb & x & Hx & E1). destruct (IH s1) as (r & s2 & -> & Hh2 & (y & E2) & Hb2 & HR); [lia|].
    eexists r, s2. split; [done|]. split_and!; [congruence| |lia|done].
    exists (x ++ y). rewrite E2, E1. by rewrite app_assoc.
  - destruct HC as [E1 HC]. eexists _, s1. split; [done|]. rewrite E1.
    split_and!; [done|by exists []; rewrite app_nil_r|lia|done|].
    destruct HC as [?|Hn]; [by left|right]. unfold held in Hh. rewrite E1 in Hh.
    apply app_inv_head in Hh. by rewrite Hh.
Qed.

Lemma position_Some pat s i :
  position pat s = Some i -> exists x y, s = x ++ pat ++ y /\ length x = i.
Proof.
  revert i. induction s as [|b s IH]; intros i H; cbn [position] in H;
    (destruct (starts_with pat _) eqn:E;
     [unfold starts_with in E; destruct (strip_prefix pat _) as [y|] eqn:Ey; [|done];
      apply strip_prefix_Some in Ey; simplify_eq; by exists [], y|]); [done|].
  destruct (position pat s) as [j|]; simplify_eq. destruct (IH j eq_refl) as (x & y & -> & <-).
  by exists (b :: x), y.
Qed.

Lemma position_bound pat s i : position pat s = Some i -> (i + length pat <= length s)%nat.
Proof. intros (x & y & -> & <-)%position_Some. len. Qed.

(** The first line of a text whose line holds no carriage return. *)
Lemma position_crlf x y : 13 ∉ x -> position CRLF (x ++ CRLF ++ y) = Some (length x).
Proof.
  induction x as [|b x IH]; intros Hx; [done|]. apply not_elem_of_cons in Hx as [Hb Hx].
  cbn [app position]. assert (starts_with CRLF (b :: x ++ CRLF ++ y) = false) as ->.
  { unfold starts_with, CRLF. cbn [strip_prefix]. by rewrite (proj2 (Z.eqb_neq _ _)). }
  by rewrite IH.
Qed.

(** A line that is not complete yet is not found. *)
Lemma position_crlf_short x y k :
  13 ∉ x -> (k < length x + 2)%nat -> position CRLF (take k (x ++ CRLF ++ y)) = None.
Proof.
  intros Hx Hk. destruct (position CRLF (take k (x ++ CRLF ++ y))) as [i|] eqn:E; [exfalso|done].
  apply position_Some in E as (a & b & E & <-).
  assert (length (take k (x ++ CRLF ++ y)) <= k)%nat as Hl by (rewrite length_take; lia).
  rewrite E in Hl. rewrite !length_app in Hl. change (length CRLF) with 2%nat in Hl.
  assert ((x ++ CRLF ++ y) !! length a = Some 13) as Ha.
  { rewrite <- (take_drop k (x ++ CRLF ++ y)), E, <- !app_assoc. by rewrite lookup_app_r, Nat.sub_diag by lia. }
  rewrite lookup_app_l in Ha by lia. apply list_elem_of_lookup_2 in Ha. done.
Qed.

Lemma slice_run_from (pos : nat) (l : bytes) :
  (pos <= length l)%nat -> slice_run pos (length l) l = Done (drop pos l).
Proof. intros. rewrite slice_run_ok by lia. unfold slice. by rewrite take_ge by len. Qed.

Lemma line_loop_spec fuel guard pos s :
  (pos <= length s.1)%nat -> (length (rd_in s.2) < fuel)%nat ->
  exists r s', line_loop fuel guard pos s = Done (r, s') /\ held s' = held s /\
    (exists x, s'.1 = s.1 ++ x) /\ (length s'.1 <= Nat.max MAX_BODY_BYTES (length s.1))%nat /\
    match r with
    | Success e => position CRLF (drop pos s'.1) = Some (e - pos)%nat /\ (pos <= e)%nat /\
        (e + 2 <= length s'.1)%nat
    | Failure _ => position CRLF (drop pos s'.1) = None /\
        (guard s'.1 <> None \/ (MAX_BODY_BYTES <= length s'.1)%nat \/ rd_in s'.2 = [])
    end.
Proof.
  revert s. induction fuel as [|fuel IH]; intros s Hp Hf; [lia|]. cbn [line_loop].
  rewrite slice_run_from by done. cbn [run_bind].
  destruct (position CRLF (drop pos s.1)) as [rel|] eqn:Er.
  { eexists _, s. split; [done|]. apply position_bound in Er as Hb. rewrite length_drop in Hb.
    change (length CRLF) with 2%nat in Hb.
    split_and!; [done|exists []; by rewrite app_nil_r|lia|rewrite Er; f_equal; lia|lia|lia]. }
  destruct (guard s.1) as [e|] eqn:Eg.
  { eexists _, s. split; [done|]. split_and!; [done|exists []; by rewrite app_nil_r|lia|done|].
    left. by rewrite Eg. }
  destruct (read_more MAX_BODY_BYTES s) as [r s1] eqn:E. destruct (read_more_spec _ _ _ _ E) as [Hh HC].
  destruct r as [[]|e].
  - destruct HC as (Hl & Hb & x & Hx & E1).
    destruct (IH s1) as (r & s2 & -> & Hh2 & (y & E2) & Hb2 & HR); [rewrite E1; len|lia|].
    eexists r, s2. split; [done|]. split_and!; [congruence| |lia|done].
    exists (x ++ y). rewrite E2, E1. by rewrite app_assoc.
  - destruct HC as [E1 HC]. eexists _, s1. split; [done|]. rewrite E1.
    split_and!; [done|by exists []; rewrite app_nil_r|lia|done|].
    right. destruct HC as [?|Hn]; [by left|right]. unfold held in Hh. rewrite E1 in Hh.
    apply app_inv_head in Hh. by rewrite Hh.
Qed.

(** ** Lemmas: every body loop ends *)
Section total.
Context (usize_max : Z) (Husize : 2 ^ 32 - 1 <= usize_max).

Lemma max_body : Z.of_nat MAX_BODY_BYTES = 262144.
Proof. reflexivity. Qed.

#[local] Opaque MAX_BODY_BYTES MAX_HEADER_BYTES READ_CHUNK.

Lemma held_length s : length (held s) = (length s.1 + length (rd_in s.2))%nat.
Proof. apply length_app. Qed.

Lemma trailers_loop_total fuel ts pos s :
  (pos <= length s.1)%nat -> (length (held s) - pos < fuel)%nat -> returns (trailers_loop fuel ts pos s).
Proof.
  revert pos s. induction fuel as [|fuel IH]; intros pos s Hp Hf; [lia|]. cbn [trailers_loop].
  destruct (line_loop_spec (fuel_of s) (trailer_guard ts) pos s) as (r & s' & -> & Hh & _ & _ & HR);
    [done|unfold fuel_of; lia|]. cbn [run_bind]. destruct r as [e|]; [|apply returns_Done].
  destruct HR as (_ & Hpe & He). case_test; [apply returns_Done|]. boolify.
  apply IH; [lia|]. rewrite Hh. rewrite <- Hh, held_length in *. lia.
Qed.

Lemma chunks_loop_total fuel decoded pos s :
  (pos <= length s.1)%nat -> (length decoded <= MAX_BODY_BYTES)%nat -> (length (held s) - pos < fuel)%nat ->
  exists r s', chunks_loop usize_max fuel decoded pos s = Done (r, s') /\
    forall d, r = Success d -> (length d <= MAX_BODY_BYTES)%nat.
Proof.
  revert decoded pos s. induction fuel as [|fuel IH]; intros decoded pos s Hp Hd Hf; [lia|].
  cbn [chunks_loop].
  destruct (line_loop_spec (fuel_of s) (fun _ => None) pos s) as (r & s1 & -> & Hh & _ & _ & HR);
    [done|unfold fuel_of; lia|]. cbn [run_bind]. destruct r as [e|]; [|by eexists _, _].
  destruct HR as (_ & Hpe & He). rewrite slice_run_ok by lia. cbn [run_bind].
  destruct (chunk_size _ _) as [size|]; [|by eexists _, _].
  destruct (size =? 0); boolify.
  { destruct (trailers_loop_total (length s1.1 + fuel_of s1) (e + 2) (e + 2) s1) as [[t s2] Et];
      [lia|rewrite held_length; unfold fuel_of; lia|].
    rewrite Et. cbn [run_bind]. destruct t; [|by eexists _, _]. eexists _, _. split; [done|].
    by intros d [= <-]. }
  case_test; boolify; [by eexists _, _|].
  destruct (fill_to_spec (fuel_of s1) MAX_BODY_BYTES (e + 2 + Z.to_nat size + 2) s1)
    as (f & s2 & -> & Hh2 & _ & _ & HF); [unfold fuel_of; lia|]. cbn [run_bind].
  destruct f; [|by eexists _, _]. rewrite !slice_run_ok by lia. cbn [run_bind].
  case_test; [by eexists _, _|]. rewrite <- Hh, <- Hh2, held_length in Hf. pose proof max_body.
  apply IH; [lia| |rewrite held_length; lia].
  rewrite length_app, length_slice by lia. lia.
Qed.

Lemma eof_loop_total fuel s :
  (length (rd_in s.2) < fuel)%nat ->
  exists r, eof_loop fuel s = Done r /\ forall d, r = Success d -> (length d <= MAX_BODY_BYTES)%nat.
Proof.
  revert s. induction fuel as [|fuel IH]; intros [body r] Hf; cbn [snd] in *; [lia|]. cbn [eof_loop].
  case_test; boolify; [by eexists|]. unfold read. pose proof read_chunk_pos.
  destruct (rd_in r) as [|b l] eqn:Er.
  { destruct (rd_end r); eexists; (split; [done|]); [done|]. by intros d [= <-]. }
  set (k := Nat.min _ (match rd_cuts r with [] => _ | _ => _ end)).
  assert (1 <= k)%nat as Hk by (unfold k; destruct (rd_cuts r); cbn [length]; lia).
  destruct k as [|k]; [lia|]. cbn [take drop]. case_test; boolify; [by eexists|].
  apply IH. cbn [snd rd_in]. rewrite length_drop. simpl in Hf. lia.
Qed.

Lemma headers_loop_total fuel s :
  (length (rd_in s.2) < fuel)%nat ->
  exists r s', headers_loop fuel s = Done (r, s') /\
    forall pos, r = Success pos -> (pos <= length s'.1)%nat.
Proof.
  revert s. induction fuel as [|fuel IH]; intros s Hf; [lia|]. cbn [headers_loop].
  destruct (header_end s.1) as [pos|] eqn:Eh.
  { eexists _, s. split; [done|]. intros ? [= <-]. unfold header_end in Eh.
    destruct (position _ s.1) as [i|] eqn:Ei; [|done]. apply position_bound in Ei.
    simplify_eq. simpl in Ei. lia. }
  case_test; [by eexists _, _|]. destruct (read_more MAX_HEADER_BYTES s) as [r s1] eqn:E.
  destruct (read_more_spec _ _ _ _ E) as [_ HC]. destruct r as [[]|]; [|by eexists _, _].
  destruct HC as (Hl & _). apply IH. lia.
Qed.

Lemma content_length_body_total body r len :
  exists res, read_content_length_body body r len = Done res /\
    forall d, res = Success d -> (length d <= MAX_BODY_BYTES)%nat.
Proof.
  unfold read_content_length_body. case_test; boolify; [by eexists|].
  destruct (fill_to_spec (fuel_of (body, r)) (Z.to_nat len) (Z.to_nat len) (body, r))
    as (f & s2 & -> & _); [unfold fuel_of; lia|]. cbn [run_bind].
  destruct f; eexists; (split; [done|]); [|done]. intros d [= <-]. rewrite length_take. lia.
Qed.

Lemma response_body_total {P : HttpParser} r :
  exists res, read_http_response_body usize_max r = Done res /\
    forall t, res = Success t -> (length t <= MAX_BODY_BYTES)%nat /\ utf8_valid t = true.
Proof.
  unfold read_http_response_body, read_until_headers.
  destruct (headers_loop_total (S (length (rd_in r))) ([], r)) as (h & s & -> & Hh); [simpl; lia|].
  cbn [run_bind]. destruct h as [pos|]; [|by eexists]. specialize (Hh pos eq_refl).
  rewrite slice_run_ok by lia. cbn [run_bind].
  destruct (parse_response _ _) as [e| |[code|] headers]; [by eexists..| |by eexists].
  case_test; [by eexists|]. destruct (content_length _ _) as [len|]; [|by eexists].
  rewrite slice_run_from by done. cbn [run_bind]. set (rest := drop pos s.1).
  set (m := if is_chunked headers then _ else _).
  assert (exists res, m = Done res /\ forall d, res = Success d -> (length d <= MAX_BODY_BYTES)%nat)
    as (res & -> & Hres).
  { unfold m. destruct (is_chunked headers).
    - unfold read_chunked_body.
      destruct (chunks_loop_total (length rest + fuel_of (rest, s.2)) [] 0 (rest, s.2)) as (x & s' & -> & Hx);
        [lia|simpl; lia|rewrite held_length; unfold fuel_of; simpl; lia|]. cbn [run_bind]. by exists x.
    - destruct len as [len|]; [apply content_length_body_total|]. apply eof_loop_total. unfold fuel_of. lia. }
  cbn [run_bind]. destruct res as [body|]; [|by eexists]. specialize (Hres body eq_refl).
  unfold from_utf8. destruct (utf8_valid body) eqn:Eu; [|by eexists].
  eexists. split; [done|]. by intros t [= <-].
Qed.
End total.

(** ** Lemmas: chunks on the wire *)
Section wire.
Context (usize_max : Z) (Husize : 2 ^ 32 - 1 <= usize_max).
#[local] Opaque MAX_BODY_BYTES MAX_HEADER_BYTES READ_CHUNK.

(** A chunk with its size line; the trailer lines; a whole chunked body. *)
Definition chunk_wire (c : bytes * bytes) : bytes := c.1 ++ CRLF ++ c.2 ++ CRLF.

Definition trailers_wire (trailers : list bytes) : bytes := concat (map (fun l => l ++ CRLF) trailers) ++ CRLF.

Definition chunked_wire (chunks : list (bytes * bytes)) (last : bytes) (trailers : list bytes) : bytes :=
  concat (map chunk_wire chunks) ++ last ++ CRLF ++ trailers_wire trailers.

Definition chunk_ok (c : bytes * bytes) : Prop :=
  (13 ∉ c.1) /\ c.2 <> [] /\ chunk_size usize_max c.1 = Success (Z.of_nat (length c.2)).

Lemma buffer_prefix (s : filling) : exists k, s.1 = take k (held s) /\ (k = length s.1)%nat.
Proof. exists (length s.1). split; [|done]. unfold held. by rewrite take_app_length. Qed.

(** The next line is read completely, however the stream is cut. *)
Lemma line_found guard pre x y s :
  held s = pre ++ x ++ CRLF ++ y -> 13 ∉ x -> (length pre <= length s.1)%nat ->
  (length pre + length x + 2 <= MAX_BODY_BYTES)%nat ->
  (forall b, (length b < length pre + length x + 2)%nat -> guard b = None) ->
  exists s', line_loop (fuel_of s) guard (length pre) s = Done (Success (length pre + length x)%nat, s') /\
    held s' = held s /\ (length pre + length x + 2 <= length s'.1)%nat.
Proof.
  intros Hh Hx Hp Hm Hg.
  destruct (line_loop_spec (fuel_of s) guard (length pre) s Hp) as (r & s' & E & Hh' & _ & _ & HR);
    [unfold fuel_of; lia|].
  assert (drop (length pre) s'.1 = take (length s'.1 - length pre) (x ++ CRLF ++ y)) as Ed.
  { destruct (buffer_prefix s') as (k & Ek & ->). rewrite Ek at 1. rewrite Hh', Hh, skipn_firstn_comm.
    by rewrite drop_app_length. }
  rewrite Ed in HR. destruct (decide (length s'.1 - length pre < length x + 2)%nat) as [Hs|Hs].
  - rewrite position_crlf_short in HR by done. destruct r as [e|]; [by destruct HR|]. exfalso.
    destruct HR as [_ [HR|[HR|HR]]].
    + rewrite Hg in HR; [done|lia].
    + lia.
    + assert (s'.1 = held s) as Es by (rewrite <- Hh'; unfold held; by rewrite HR, app_nil_r).
      rewrite Es, Hh, !length_app in Hs. simpl in Hs. lia.
  - assert (take (length s'.1 - length pre) (x ++ CRLF ++ y) =
      x ++ CRLF ++ take (length s'.1 - length pre - (length x + 2)) y) as Et.
    { rewrite !app_assoc, take_app_ge by (rewrite length_app; simpl; lia). rewrite length_app. done. }
    rewrite Et, position_crlf in HR by done. destruct r as [e|]; [|by destruct HR as [??]].
    destruct HR as ([= HR] & Hpe & He). exists s'. rewrite E. split_and!; [|done|lia].
    do 3 f_equal. lia.
Qed.

Lemma trailers_read fuel ts pre trailers y s :
  held s = pre ++ trailers_wire trailers ++ y -> (length pre <= length s.1)%nat -> (ts <= length pre)%nat ->
  (length (pre ++ trailers_wire trailers) <= MAX_BODY_BYTES)%nat ->
  (length (pre ++ trailers_wire trailers) - ts <= MAX_HEADER_BYTES)%nat ->
  Forall (fun l => l <> [] /\ 13 ∉ l) trailers -> (length trailers <= fuel)%nat ->
  exists s', trailers_loop fuel ts (length pre) s = Done (Success tt, s').
Proof.
  revert pre trailers s. induction fuel as [|fuel IH]; intros pre trailers s Hh Hp Hts Hm Hhd HF Hfu.
  all: destruct trailers as [|l trailers]; [|try (simpl in Hfu; lia)].
  1, 2: cbn [trailers_loop];
    (destruct (line_found (trailer_guard ts) pre [] y s) as (s' & -> & _);
      [done|by apply not_elem_of_nil|done|revert Hm; unfold trailers_wire; len| |]);
    [intros b Hb; unfold trailer_guard; rewrite (proj2 (Nat.leb_gt _ _)); [done|];
     revert Hhd Hb; unfold trailers_wire; len|];
    cbn [run_bind length]; rewrite Nat.add_0_r, Nat.eqb_refl; by exists s'.
  apply List.Forall_cons_iff in HF as [[Hne Hl] HF].
  assert (trailers_wire (l :: trailers) = l ++ CRLF ++ trailers_wire trailers) as Ew
    by (unfold trailers_wire; simpl; by rewrite <- !app_assoc).
  rewrite Ew in *. cbn [trailers_loop].
  assert (length CRLF = 2%nat) as LC by done.
  destruct (line_found (trailer_guard ts) pre l (trailers_wire trailers ++ y) s) as (s' & -> & Hh' & Hs').
  - rewrite Hh. by rewrite <- !app_assoc.
  - done.
  - done.
  - rewrite !length_app in Hm. lia.
  - intros b Hb. unfold trailer_guard. rewrite (proj2 (Nat.leb_gt _ _)); [done|].
    rewrite !length_app in Hhd. unfold trailers_wire in Hhd. rewrite length_app in Hhd. lia.
  - cbn [run_bind]. rewrite (proj2 (Nat.eqb_neq _ _)) by (destruct l; [done|simpl; lia]).
    replace (length pre + length l + 2)%nat with (length (pre ++ l ++ CRLF)) by (rewrite !length_app; lia).
    apply (IH _ trailers); try (rewrite ?length_app, ?LC in *; simpl in *; lia); [|done].
    rewrite Hh', Hh. by rewrite <- !app_assoc.
Qed.

Lemma held_slice (s : filling) pre x z :
  held s = pre ++ x ++ z -> (length pre + length x <= length s.1)%nat ->
  slice (length pre) (length pre + length x) s.1 = x.
Proof.
  intros Hh Hl. assert (slice (length pre) (length pre + length x) s.1 =
    slice (length pre) (length pre + length x) (held s)) as ->.
  { unfold held. by rewrite slice_app_l. }
  rewrite Hh. unfold slice. rewrite drop_app_length. apply take_app_length'. lia.
Qed.

Lemma trailers_wire_length trailers : (length trailers <= length (trailers_wire trailers))%nat.
Proof.
  unfold trailers_wire. rewrite length_app. assert (length CRLF = 2%nat) as LC by done. induction trailers as [|l trailers IH]; simpl; [lia|].
  rewrite !length_app. lia.
Qed.

Lemma last_chunk_read fuel last trailers decoded pre y s :
  held s = pre ++ last ++ CRLF ++ trailers_wire trailers ++ y -> (length pre <= length s.1)%nat ->
  (length (pre ++ last ++ CRLF ++ trailers_wire trailers) <= MAX_BODY_BYTES)%nat ->
  (length (trailers_wire trailers) <= MAX_HEADER_BYTES)%nat ->
  13 ∉ last -> chunk_size usize_max last = Success 0 -> Forall (fun l => l <> [] /\ 13 ∉ l) trailers ->
  exists s', chunks_loop usize_max fuel decoded (length pre) s = Done (Success decoded, s').
Proof.
  intros Hh Hp Hm Hhd Hlast Hzero HT. assert (length CRLF = 2%nat) as LC by done.
  rewrite !length_app, LC in Hm.
  destruct (line_found (fun _ => None) pre last (trailers_wire trailers ++ y) s) as (s' & El & Hh' & Hs');
    [done|done|done|lia|done|]. rewrite Hh in Hh'.
  assert (slice (length pre) (length pre + length last) s'.1 = last) as Esl
    by (eapply held_slice; [done|lia]).
  destruct (trailers_read (length s'.1 + fuel_of s') (length pre + length last + 2) (pre ++ last ++ CRLF)
    trailers y s') as [s'' Et]; try done; try (rewrite !length_app, LC; lia).
  { rewrite Hh'. by rewrite <- !app_assoc. }
  { pose proof (f_equal length Hh') as L. rewrite held_length, !length_app in L.
    pose proof (trailers_wire_length trailers). unfold fuel_of. lia. }
  rewrite !length_app, LC, Nat.add_assoc in Et. exists s''.
  destruct fuel; cbn [chunks_loop]; rewrite El; cbn [run_bind]; rewrite slice_run_ok by lia; cbn [run_bind];
    rewrite Esl, Hzero; cbn [Z.eqb]; rewrite Et; done.
Qed.

(** One chunk: the loop takes its data and stands behind it. *)
Lemma chunk_step fuel line data decoded pre z s :
  held s = pre ++ line ++ CRLF ++ data ++ CRLF ++ z -> (length pre <= length s.1)%nat ->
  (length (pre ++ line ++ CRLF ++ data ++ CRLF) <= MAX_BODY_BYTES)%nat ->
  (length decoded <= length pre)%nat -> chunk_ok (line, data) ->
  exists s2, held s2 = held s /\ (length (pre ++ line ++ CRLF ++ data ++ CRLF) <= length s2.1)%nat /\
    chunks_loop usize_max (S fuel) decoded (length pre) s =
    chunks_loop usize_max fuel (decoded ++ data) (length (pre ++ line ++ CRLF ++ data ++ CRLF)) s2.
Proof.
  intros Hh Hp Hm Hdec (Hl & Hne & Hsz). assert (length CRLF = 2%nat) as LC by done. cbn [fst snd] in *.
  assert (0 < length data)%nat as Hpos by (destruct data; [done|simpl; lia]).
  set (pos := (length pre + length line + 2)%nat).
  assert (pos = length (pre ++ line ++ CRLF)) as Epos by (unfold pos; rewrite !length_app, LC; lia).
  assert (pos + length data = length (pre ++ line ++ CRLF ++ data))%nat as Epd
    by (unfold pos; rewrite !length_app, LC; lia).
  assert (pos + length data + 2 = length (pre ++ line ++ CRLF ++ data ++ CRLF))%nat as Epe
    by (unfold pos; rewrite !length_app, LC; lia).
  destruct (line_found (fun _ => None) pre line (data ++ CRLF ++ z) s) as (s1 & El & Hh1 & Hs1);
    [done|done|done|lia|done|].
  destruct (fill_to_spec (fuel_of s1) MAX_BODY_BYTES (pos + length data + 2) s1)
    as (f & s2 & Ef & Hh2 & _ & _ & HR); [unfold fuel_of; lia|].
  destruct f as [[]|].
  2: { exfalso. destruct HR as [Hlt [HR|HR]]; [lia|]. rewrite Hh1, Hh in Hh2.
       apply (f_equal length) in Hh2. rewrite held_length, HR, !length_app, LC in Hh2.
       rewrite Epe, !length_app, LC in Hlt. simpl in Hh2. lia. }
  rewrite Hh1 in Hh2. exists s2. split_and!; [done|lia|]. rewrite Hh in Hh1, Hh2.
  cbn [chunks_loop]. rewrite El. cbn [run_bind]. rewrite slice_run_ok by lia. cbn [run_bind].
  rewrite (held_slice s1 pre line (CRLF ++ data ++ CRLF ++ z)), Hsz by (done || lia).
  pose proof max_body. rewrite (proj2 (Z.eqb_neq _ _)) by lia. rewrite (proj2 (Z.ltb_ge _ _)), Nat2Z.id by lia.
  fold pos. rewrite Ef. cbn [run_bind]. rewrite !slice_run_ok by lia. cbn [run_bind].
  assert (slice (pos + length data) (pos + length data + 2) s2.1 = CRLF) as ->.
  { rewrite Epd. apply (held_slice s2 _ CRLF z); [rewrite Hh2, <- !app_assoc; done|rewrite <- Epd, LC; lia]. }
  assert (slice pos (pos + length data) s2.1 = data) as ->.
  { rewrite Epos. apply (held_slice s2 _ data (CRLF ++ z)); [rewrite Hh2, <- !app_assoc; done|].
    rewrite <- Epos. lia. }
  rewrite bool_decide_eq_true_2 by done. cbn [negb]. by rewrite Epe.
Qed.

Lemma chunks_read fuel chunks last trailers decoded pre y s :
  held s = pre ++ chunked_wire chunks last trailers ++ y -> (length pre <= length s.1)%nat ->
  (length (pre ++ chunked_wire chunks last trailers) <= MAX_BODY_BYTES)%nat ->
  (length (trailers_wire trailers) <= MAX_HEADER_BYTES)%nat -> (length decoded <= length pre)%nat ->
  Forall chunk_ok chunks -> 13 ∉ last -> chunk_size usize_max last = Success 0 ->
  Forall (fun l => l <> [] /\ 13 ∉ l) trailers -> (length chunks <= fuel)%nat ->
  exists s', chunks_loop usize_max fuel decoded (length pre) s
    = Done (Success (decoded ++ concat (map snd chunks)), s').
Proof.
  intros Hh Hp Hm Hhd Hdec HF Hlast Hzero HT.
  revert fuel decoded pre s Hh Hp Hm Hdec.
  induction HF as [|[line data] chunks Hc HF IH]; intros fuel decoded pre s Hh Hp Hm Hdec Hfu.
  { rewrite app_nil_r. unfold chunked_wire in Hh, Hm. cbn [map concat app] in Hh, Hm.
    eapply last_chunk_read; try done. rewrite Hh. by rewrite <- !app_assoc. }
  destruct fuel as [|fuel]; [simpl in Hfu; lia|].
  set (tl := chunked_wire chunks last trailers) in *. set (step := line ++ CRLF ++ data ++ CRLF).
  assert (chunked_wire ((line, data) :: chunks) last trailers = step ++ tl) as Ew.
  { unfold step, tl, chunked_wire, chunk_wire. cbn [map concat fst snd]. by rewrite <- !app_assoc. }
  rewrite Ew in Hh, Hm. destruct (chunk_step fuel line data decoded pre (tl ++ y) s)
    as (s2 & Hh2 & Hl2 & ->); [| |fold step; rewrite !length_app in *; lia|done|done|].
  { rewrite Hh. unfold step. by rewrite <- !app_assoc. }
  { done. }
  fold step. destruct (IH fuel (decoded ++ data) (pre ++ step) s2) as [s3 E3].
  - rewrite Hh2, Hh. by rewrite <- !app_assoc.
  - done.
  - by rewrite <- app_assoc.
  - unfold step. rewrite !length_app. lia.
  - simpl in Hfu. lia.
  - exists s3. rewrite E3. cbn [map concat snd]. by rewrite <- app_assoc.
Qed.
End wire.

(** ** Lemmas: the headers *)
Lemma starts_with_app pat s t :
  starts_with pat s = true -> starts_with pat (s ++ t) = true.
Proof.
  unfold starts_with. destruct (strip_prefix pat s) as [r|] eqn:E; [|done]. intros _.
  apply strip_prefix_Some in E as ->. by rewrite <- app_assoc, strip_prefix_app.
Qed.

Lemma starts_with_app_inv pat s t :
  (length pat <= length s)%nat -> starts_with pat (s ++ t) = true -> starts_with pat s = true.
Proof.
  unfold starts_with. intros L. destruct (strip_prefix pat (s ++ t)) as [r|] eqn:E; [|done]. intros _.
  apply strip_prefix_Some in E. assert (s = pat ++ drop (length pat) s) as ->.
  { rewrite <- (take_drop (length pat) s) at 1. f_equal.
    apply (f_equal (take (length pat))) in E. rewrite take_app_le, take_app_length in E by done. done. }
  by rewrite strip_prefix_app.
Qed.

Lemma position_app pat s t i : position pat s = Some i -> position pat (s ++ t) = Some i.
Proof.
  revert i. induction s as [|b s IH]; intros i H; cbn [position app] in *.
  - case_test; [|done]. simplify_eq. unfold starts_with in *. destruct pat; [|done]. by destruct t.
  - destruct (starts_with pat (b :: s)) eqn:E.
    + by rewrite (starts_with_app pat (b :: s) t E : starts_with pat (b :: s ++ t) = true).
    + destruct (position pat s) as [j|] eqn:Ej; [|done]. simplify_eq. rewrite (IH j eq_refl).
      destruct (starts_with pat (b :: s ++ t)) eqn:E'; [|done].
      apply (starts_with_app_inv pat (b :: s)) in E'; [congruence|]. apply position_bound in Ej. simpl. lia.
Qed.

(** A complete head is found whatever follows it, an incomplete one is not. *)
Lemma header_end_prefix head z k :
  header_end head = Some (length head) ->
  header_end (take k (head ++ z)) = if (k <? length head)%nat then None else Some (length head).
Proof.
  unfold header_end. destruct (position (CRLF ++ CRLF) head) as [i|] eqn:Ei; [|done]. intros [= Hi].
  case_test; boolify.
  - destruct (position (CRLF ++ CRLF) (take k (head ++ z))) as [j|] eqn:Ej; [exfalso|done].
    apply position_bound in Ej as Hb. rewrite length_take in Hb. simpl in Hb.
    apply (position_app _ _ (drop k (head ++ z))) in Ej. rewrite take_drop in Ej.
    rewrite (position_app _ _ z _ Ei) in Ej. simplify_eq. lia.
  - rewrite take_app_ge by done. by rewrite (position_app _ _ _ _ Ei), Hi.
Qed.

Section response.
Context (usize_max : Z) (Husize : 2 ^ 32 - 1 <= usize_max).
#[local] Opaque MAX_BODY_BYTES MAX_HEADER_BYTES READ_CHUNK.

Lemma headers_read fuel head z s :
  held s = head ++ z -> header_end head = Some (length head) -> (length head <= MAX_HEADER_BYTES)%nat ->
  (length (rd_in s.2) < fuel)%nat ->
  exists s', headers_loop fuel s = Done (Success (length head), s') /\ held s' = held s /\
    (length head <= length s'.1)%nat.
Proof.
  intros Hh He Hm. revert s Hh. induction fuel as [|fuel IH]; intros s Hh Hf; [lia|]. cbn [headers_loop].
  destruct (buffer_prefix s) as (k & Ek & Hk). rewrite Hh in Ek.
  assert (header_end s.1 = if (k <? length head)%nat then None else Some (length head)) as ->
    by (rewrite Ek; by apply header_end_prefix).
  destruct (k <? length head)%nat eqn:El; boolify; [|exists s; split_and!; [done|done|lia]].
  rewrite (proj2 (Nat.leb_gt _ _)) by lia.
  destruct (read_more MAX_HEADER_BYTES s) as [r s1] eqn:E. destruct (read_more_spec _ _ _ _ E) as [Hh1 HC].
  destruct r as [[]|].
  - destruct HC as (Hl & _). destruct (IH s1) as (s2 & -> & Hh2 & ?); [congruence|lia|].
    exists s2. split_and!; [done|congruence|done].
  - exfalso. destruct HC as [_ [?|Hn]]; [lia|]. apply (f_equal length) in Hh.
    rewrite held_length, Hn, length_app in Hh. simpl in Hh. lia.
Qed.

Lemma chunked_body_read chunks last trailers y body r :
  body ++ rd_in r = chunked_wire chunks last trailers ++ y ->
  (length (chunked_wire chunks last trailers) <= MAX_BODY_BYTES)%nat ->
  (length (trailers_wire trailers) <= MAX_HEADER_BYTES)%nat ->
  Forall (chunk_ok usize_max) chunks -> 13 ∉ last -> chunk_size usize_max last = Success 0 ->
  Forall (fun l => l <> [] /\ 13 ∉ l) trailers ->
  read_chunked_body usize_max body r = Done (Success (concat (map snd chunks))).
Proof.
  intros Hh Hm Hhd HF Hlast Hzero HT. unfold read_chunked_body.
  destruct (chunks_read usize_max Husize (length body + fuel_of (body, r)) chunks last trailers [] [] y (body, r))
    as [s' E]; try done; [simpl; lia| |].
  { apply (f_equal length) in Hh. rewrite !length_app in Hh. unfold fuel_of. cbn [snd].
    unfold chunked_wire in Hh. rewrite !length_app in Hh.
    assert (length chunks <= length (concat (map chunk_wire chunks)))%nat; [|lia].
    clear. induction chunks as [|c l IH]; simpl; [lia|]. unfold chunk_wire at 1. rewrite !length_app. simpl. lia. }
  simpl length in E. by rewrite E.
Qed.

Lemma content_length_body_read data y body r :
  body ++ rd_in r = data ++ y -> (length data <= MAX_BODY_BYTES)%nat ->
  read_content_length_body body r (Z.of_nat (length data)) = Done (Success data).
Proof.
  intros Hh Hm. unfold read_content_length_body. rewrite (proj2 (Z.ltb_ge _ _)), Nat2Z.id by lia.
  destruct (fill_to_spec (fuel_of (body, r)) (length data) (length data) (body, r))
    as (f & s' & -> & Hh' & _ & _ & HR); [unfold fuel_of; lia|]. cbn [run_bind].
  assert (held s' = data ++ y) as Hd by (rewrite Hh'; exact Hh).
  destruct f as [[]|].
  - do 2 f_equal. destruct (buffer_prefix s') as (k & Ek & Hk). rewrite Ek, Hd, take_take.
    replace (length data `min` k)%nat with (length data) by lia. apply take_app_length.
  - exfalso. destruct HR as [? [?|Hn]]; [lia|]. apply (f_equal length) in Hd.
    rewrite held_length, Hn, length_app in Hd. simpl in Hd. lia.
Qed.
End response.

(** ** Properties *)
Section http_properties.
Context {P : HttpParser} (usize_max : Z) (Husize : 2 ^ 32 - 1 <= usize_max).
#[local] Opaque MAX_BODY_BYTES MAX_HEADER_BYTES READ_CHUNK.

Lemma https_get_returns {U : OutboundCrates} {K : Sockets} {T : TlsClient} n c host path :
  exists res, https_get usize_max n c host path = Done res /\
    forall t, res = Success t -> (length t <= MAX_BODY_BYTES)%nat /\ utf8_valid t = true.
Proof.
  unfold https_get. destruct (fst (connect _ _ _ _ _)) as [s|e]; [|by eexists].
  destruct (server_name host); [|by eexists].
  destruct (tls_handshake n s host) as [[r|]|]; [|by eexists..].
  destruct (tls_write _ _ _); [|by eexists]. destruct (read_within n FETCH_TIMEOUT); [|by eexists].
  destruct (response_body_total usize_max Husize r) as (res & -> & H). by exists res.
Qed.

(** C29. Fetching the list ends, whatever the network, the server and the header
    parser do: no panic, and every loop stops.  An accepted body is valid UTF-8
    of at most 256 KiB. *)
Theorem https_get_total {U : OutboundCrates} {K : Sockets} {T : TlsClient} n c host path :
  exists res, https_get usize_max n c host path = Done res /\
    forall t, res = Success t -> Z.of_nat (length t) <= 256 * 1024 /\ utf8_valid t = true.
Proof.
  destruct (https_get_returns n c host path) as (res & -> & H). exists res. split; [done|].
  intros t Ht. destruct (H t Ht). split; [|done]. pose proof max_body. lia.
Qed.

(** The body a server sends for [payload] under the parsed [headers]: in chunks
    with any size lines, extensions and trailers; by content length; or up to
    the end of the stream, nothing following it.  [rest] is what comes after it
    and [ending] how the stream ends. *)
Definition body_sent (headers : list header) (payload wire rest : bytes) (ending : option text) : Prop :=
  (is_chunked headers = true /\ (exists len, content_length usize_max headers = Success len) /\
   exists chunks last trailers, wire = chunked_wire chunks last trailers /\
     payload = concat (map snd chunks) /\ Forall (chunk_ok usize_max) chunks /\
     (13 ∉ last) /\ chunk_size usize_max last = Success 0 /\
     Forall (fun l => l <> [] /\ 13 ∉ l) trailers /\
     (length (trailers_wire trailers) <= MAX_HEADER_BYTES)%nat) \/
  (is_chunked headers = false /\
   content_length usize_max headers = Success (Some (Z.of_nat (length payload))) /\ wire = payload) \/
  (is_chunked headers = false /\ content_length usize_max headers = Success None /\ wire = payload /\
   rest = [] /\ ending = None).

(** Reading does not change how the stream will end. *)
Lemma read_more_end limit s r s' : read_more limit s = (r, s') -> rd_end s'.2 = rd_end s.2.
Proof.
  destruct s as [buf rd]. unfold read_more, read. intros H. repeat case_match; by simplify_eq.
Qed.

Lemma headers_loop_end fuel s r s' : headers_loop fuel s = Done (r, s') -> rd_end s'.2 = rd_end s.2.
Proof.
  revert s. induction fuel as [|fuel IH]; intros s; cbn [headers_loop]; intros H;
    repeat case_match; simplify_eq; try done;
    match goal with E : read_more _ _ = _ |- _ => apply read_more_end in E end; try done.
  rewrite (IH _ H). done.
Qed.

(** A body that ends with the stream is read whole. *)
Lemma eof_body_read fuel s :
  (length (rd_in s.2) < fuel)%nat -> rd_end s.2 = None -> (length (held s) <= MAX_BODY_BYTES)%nat ->
  eof_loop fuel s = Done (Success (held s)).
Proof.
  revert s. induction fuel as [|fuel IH]; intros [body r] Hf He Hl; unfold held in *; cbn [fst snd] in *; [lia|].
  cbn [eof_loop]. rewrite length_app in Hl. rewrite (proj2 (Nat.ltb_ge _ _)) by lia.
  unfold read. pose proof read_chunk_pos. destruct (rd_in r) as [|b l] eqn:Er.
  { by rewrite He, app_nil_r. }
  set (k := Nat.min _ (match rd_cuts r with [] => _ | _ => _ end)).
  assert (1 <= k)%nat as Hk by (unfold k; destruct (rd_cuts r); cbn [length]; lia).
  destruct k as [|k]; [lia|]. cbn [take drop]. cbn [length] in Hl, Hf.
  rewrite (proj2 (Nat.ltb_ge _ _)) by (cbn [length]; rewrite length_take; lia).
  rewrite IH; unfold held; cbn [fst snd rd_in rd_end]; [|rewrite length_drop; lia|done|].
  - rewrite <- app_assoc. cbn [app]. by rewrite take_drop.
  - rewrite !length_app. cbn [length]. rewrite length_take, length_drop. lia.
Qed.

Lemma response_received head headers payload wire y r :
  rd_in r = head ++ wire ++ y ->
  header_end head = Some (length head) -> (length head <= MAX_HEADER_BYTES)%nat ->
  parse_response (http_header_count head) head = Complete (Some 200) headers ->
  body_sent headers payload wire y (rd_end r) -> (length wire <= MAX_BODY_BYTES)%nat -> utf8_valid payload = true ->
  read_http_response_body usize_max r = Done (Success payload).
Proof.
  intros Hin He Hm Hp Hb Hw Hu. unfold read_http_response_body, read_until_headers.
  destruct (headers_read (S (length (rd_in r))) head (wire ++ y) ([], r)) as (s & El & Hh & Hl);
    [done|done|done|simpl; lia|]. rewrite El. apply headers_loop_end in El. cbn [run_bind].
  assert (held s = head ++ wire ++ y) as Hs by (rewrite Hh; exact Hin).
  rewrite slice_run_ok by lia. cbn [run_bind].
  assert (slice 0 (length head) s.1 = head) as ->.
  { change 0%nat with (length (@nil Z)). apply (held_slice s [] head (wire ++ y)); [done|simpl; lia]. }
  rewrite Hp. change (negb (200 =? 200)) with false. cbv iota.
  assert (drop (length head) s.1 ++ rd_in s.2 = wire ++ y) as Hrest.
  { unfold held in Hs. apply (f_equal (drop (length head))) in Hs.
    rewrite drop_app_le, drop_app_length in Hs by done. done. }
  assert (exists len, content_length usize_max headers = Success len) as [len Elen]
    by (destruct Hb as [(_ & ? & _)|[(_ & ? & _)|(_ & ? & _)]]; eauto).
  rewrite Elen, slice_run_from by done. cbn [run_bind].
  assert (forall m, m = Done (Success payload) ->
    run_bind m (fun body => match body with
      | Failure e => Done (Failure e)
      | Success body => match from_utf8 body with
                        | Some t => Done (Success t)
                        | None => Done (Failure (txt "response body is not valid UTF-8"))
                        end
      end) = Done (Success payload)) as Hend.
  { intros m ->. cbn [run_bind]. unfold from_utf8. by rewrite Hu. }
  apply Hend. destruct Hb as [(-> & _ & chunks & last & trailers & -> & -> & ? & ? & ? & ? & ?)|[(-> & Ec & ->)|(-> & Ec & -> & -> & He0)]].
  - by eapply chunked_body_read.
  - rewrite Ec in Elen. injection Elen as <-. by eapply content_length_body_read.
  - rewrite Ec in Elen. injection Elen as <-. rewrite app_nil_r in Hrest. rewrite <- Hrest. apply eof_body_read.
    + unfold fuel_of. cbn. lia.
    + rewrite <- He0. exact El.
    + unfold held. cbn [fst snd]. by rewrite Hrest.
Qed.

(** The server answered the request in time with [payload] under a 200 head,
    within the limits and cut by the network in any way; [y] follows it, unless
    it is the end of the stream that ends the payload. *)
Definition answered {U : OutboundCrates} {K : Sockets} {T : TlsClient} n c host path (payload : bytes) : Prop :=
  exists s r head headers wire y,
    fst (connect n c host 443 FETCH_TIMEOUT) = inl s /\ server_name host = Success tt /\
    tls_handshake n s host = Some (Success r) /\ tls_write n s (request_text host path) = Success tt /\
    read_within n FETCH_TIMEOUT = true /\
    rd_in r = head ++ wire ++ y /\
    header_end head = Some (length head) /\ (length head <= MAX_HEADER_BYTES)%nat /\
    parse_response (http_header_count head) head = Complete (Some 200) headers /\
    body_sent headers payload wire y (rd_end r) /\ (length wire <= MAX_BODY_BYTES)%nat /\ utf8_valid payload = true.

Lemma answered_received {U : OutboundCrates} {K : Sockets} {T : TlsClient} n c host path payload :
  answered n c host path payload -> https_get usize_max n c host path = Done (Success payload).
Proof.
  intros (s & r & head & headers & wire & y & Hc & Hn & Ht & Hw & Hr & ?). destruct_and!.
  unfold https_get. rewrite Hc, Hn, Ht, Hw, Hr. by eapply response_received.
Qed.

(** C30. A response within the limits is received exactly, however the network
    cuts it: the head is found; a chunked or counted body is decoded to the
    payload the server sent, and what follows it is ignored; a body with
    neither is read up to the end of the stream, to its last byte. *)
Theorem http_body_exact {U : OutboundCrates} {K : Sockets} {T : TlsClient} n c host path payload :
  answered n c host path payload -> https_get usize_max n c host path = Done (Success payload).
Proof. apply answered_received. Qed.
End http_properties.

(** *** Witnesses *)
Definition demo_head : bytes :=
  txt "HTTP/1.1 200 OK" ++ CRLF ++ txt "Transfer-Encoding: gzip, Chunked" ++ CRLF ++ CRLF.

Definition demo_parser : HttpParser := {|
  parse_response n head := Complete (Some 200) [(txt "Transfer-Encoding", txt "gzip, Chunked")];
|}.

Definition demo_chunks : list (bytes * bytes) :=
  [(txt "4;name=value", txt "virk"); (txt "0a ", txt "gj.com" ++ [10] ++ txt "xyz")].

Definition demo_http : reader :=
  mkReader (demo_head ++ chunked_wire demo_chunks (txt "0") [txt "Expires: never"] ++ txt "garbage")
    [0; 5; 1; 40; 2]%nat None.

Definition demo_tls : TlsClient (K := demo_sockets) := {|
  server_name _ := Success tt;
  tls_handshake _ _ _ := Some (Success demo_http);
  tls_write _ _ _ := Success tt;
  read_within _ _ := true;
|}.

Definition demo_payload : text := txt "virkgj.com" ++ [10] ++ txt "xyz".

Lemma demo_body_sent :
  body_sent (2 ^ 64 - 1) [(txt "Transfer-Encoding", txt "gzip, Chunked")] demo_payload
    (chunked_wire demo_chunks (txt "0") [txt "Expires: never"]) (txt "garbage") None.
Proof.
  left. split; [vm_compute; reflexivity|]. split; [exists None; vm_compute; reflexivity|].
  exists demo_chunks, (txt "0"), [txt "Expires: never"].
  split; [reflexivity|]. split; [reflexivity|].
  split; [repeat constructor; first [discriminate|apply (bool_decide_unpack (13 ∉ _)); vm_compute; exact I]|].
  split; [apply (bool_decide_unpack (13 ∉ _)); vm_compute; exact I|]. split; [vm_compute; reflexivity|].
  split; [apply (bool_decide_unpack (Forall _ _)); vm_compute; exact I|].
  apply Nat.leb_le. vm_compute. reflexivity.
Qed.

Lemma demo_answered :
  answered (P := demo_parser) (2 ^ 64 - 1) (U := demo_crates) (K := demo_sockets) (T := demo_tls) 0
    (mkOutboundConfig None None) (txt "h") (txt "/") demo_payload.
Proof.
  eexists _, demo_http, demo_head, [(txt "Transfer-Encoding", txt "gzip, Chunked")],
    (chunked_wire demo_chunks (txt "0") [txt "Expires: never"]), (txt "garbage").
  split; [vm_compute; reflexivity|]. split; [reflexivity|]. split; [reflexivity|]. split; [reflexivity|].
  split; [reflexivity|]. split; [reflexivity|]. split; [vm_compute; reflexivity|].
  split; [apply Nat.leb_le; vm_compute; reflexivity|]. split; [reflexivity|].
  split; [exact demo_body_sent|]. split; [apply Nat.leb_le; vm_compute; reflexivity|vm_compute; reflexivity].
Qed.

(** The same payload from a server that names no length and closes. *)
Definition closing_head : bytes := txt "HTTP/1.0 200 OK" ++ CRLF ++ CRLF.

Definition closing_parser : HttpParser := {| parse_response n head := Complete (Some 200) [] |}.

Definition closing_tls : TlsClient (K := demo_sockets) := {|
  server_name _ := Success tt;
  tls_handshake _ _ _ := Some (Success (mkReader (closing_head ++ demo_payload) [3; 20; 0]%nat None));
  tls_write _ _ _ := Success tt;
  read_within _ _ := true;
|}.

Lemma closing_answered :
  answered (P := closing_parser) (2 ^ 64 - 1) (U := demo_crates) (K := demo_sockets) (T := closing_tls) 0
    (mkOutboundConfig None None) (txt "h") (txt "/") demo_payload.
Proof.
  eexists _, (mkReader (closing_head ++ demo_payload) [3; 20; 0]%nat None), closing_head, [], demo_payload, [].
  split; [vm_compute; reflexivity|]. split; [reflexivity|]. split; [reflexivity|]. split; [reflexivity|].
  split; [reflexivity|]. split; [reflexivity|]. split; [vm_compute; reflexivity|].
  split; [apply Nat.leb_le; vm_compute; reflexivity|]. split; [reflexivity|].
  split; [right; right; done|]. split; [apply Nat.leb_le; vm_compute; reflexivity|vm_compute; reflexivity].
Qed.

Lemma http_body_exact_witness :
  https_get (P := demo_parser) (2 ^ 64 - 1) (U := demo_crates) (K := demo_sockets) (T := demo_tls) 0
    (mkOutboundConfig None None) (txt "h") (txt "/") = Done (Success demo_payload) /\
  https_get (P := closing_parser) (2 ^ 64 - 1) (U := demo_crates) (K := demo_sockets) (T := closing_tls) 0
    (mkOutboundConfig None None) (txt "h") (txt "/") = Done (Success demo_payload).
Proof.
  split.
  - apply (http_body_exact (P := demo_parser) (2 ^ 64 - 1) ltac:(lia)). exact demo_answered.
  - apply (http_body_exact (P := closing_parser) (2 ^ 64 - 1) ltac:(lia)). exact closing_answered.
Defined.

Lemma https_get_total_witness :
  exists res, https_get (U := demo_crates) (K := demo_sockets) (T := demo_tls) (P := demo_parser) (2 ^ 64 - 1) 0
    (mkOutboundConfig None None) (txt "h") (txt "/") = Done res.
Proof.
  destruct (https_get_total (P := demo_parser) (2 ^ 64 - 1) ltac:(lia) (U := demo_crates) (K := demo_sockets)
    (T := demo_tls) 0 (mkOutboundConfig None None) (txt "h") (txt "/")) as (res & H & _).
  exists res. exact H.
Defined.
