(* ===== verification/Domains.v ===== *)
(** * default_domains.rs: the default list of Cloudflare-proxy domains

    The published entries are obfuscated: letters shifted forward by the number
    of letters, [.co.uk] replaced with [.com].  The list is fetched with
    [Http.https_get] and decoded; the built-in entries replace a list that
    cannot be fetched or holds nothing. *)
From Stdlib Require Import String.
From S2P Require Import Prelude Text Ip Outbound Http.

Local Open Scope Z_scope.
Local Open Scope run_scope.

Definition DOMAINS_URL_HOST : text := txt "raw.githubusercontent.com".
Definition DOMAINS_URL_PATH : text := txt "/Flowseal/tg-ws-proxy/refs/heads/main/.github/cfproxy-domains.txt".
Definition REAL_SUFFIX : text := txt ".co.uk".

Definition FALLBACK_ENCODED : list text :=
  [txt "virkgj.com"; txt "vmmzovy.com"; txt "mkuosckvso.com"; txt "zaewayzmplad.com"; txt "twdmbzcm.com"].

Definition is_ascii_lowercase (b : Z) : bool := between 97 122 b.
Definition is_ascii_uppercase (b : Z) : bool := between 65 90 b.
Definition is_ascii_alphabetic (b : Z) : bool := is_ascii_lowercase b || is_ascii_uppercase b.

(** The closure of [deobfuscate]; [n] and the differences are [i32]s, and
    [rem_euclid] is Rocq's [mod].  The bytes of a character that is not ASCII
    are not letters and stay as they are. *)
Definition shift_back (n c : Z) : Z :=
  if is_ascii_lowercase c then swrap 32 ((c - 97) - n) mod 26 + 97
  else if is_ascii_uppercase c then swrap 32 ((c - 65) - n) mod 26 + 65
  else c.

Definition deobfuscate (s : text) : option text :=
  match strip_suffix (txt ".com") s with
  | None => None
  | Some prefix =>
      let n := swrap 32 (Z.of_nat (length (List.filter is_ascii_alphabetic prefix))) in
      Some (map (shift_back n) prefix ++ REAL_SUFFIX)
  end.

Definition parse_domain_list (s : text) : list text :=
  omap deobfuscate
    (List.filter (fun l => negb (bool_decide (l = [])) && negb (starts_with (txt "#") l)) (map trim (lines s))).

Definition fallback_domains : list text := omap deobfuscate FALLBACK_ENCODED.

Section fetch.
Context {U : OutboundCrates} {K : Sockets} {T : TlsClient} {P : HttpParser} (usize_max : Z).

Definition fetch_default_domains_with_outbound (n : nat) (outbound : OutboundConfig) : run (list text) :=
  let! res := https_get usize_max n outbound DOMAINS_URL_HOST DOMAINS_URL_PATH in
  match res with
  | Success body =>
      match parse_domain_list body with
      | [] => Done fallback_domains
      | domains => Done domains
      end
  | Failure _ => Done fallback_domains
  end.

(** [OutboundConnector::direct()]: no proxy, no exclusions. *)
Definition fetch_default_domains (n : nat) : run (list text) :=
  fetch_default_domains_with_outbound n (mkOutboundConfig None None).
End fetch.

(** ** Reference: the obfuscation the module's documentation describes *)
Definition shift_forward (n c : Z) : Z :=
  if is_ascii_lowercase c then (c - 97 + n) mod 26 + 97
  else if is_ascii_uppercase c then (c - 65 + n) mod 26 + 65
  else c.

Definition letters (s : text) : Z := Z.of_nat (length (List.filter is_ascii_alphabetic s)).

Definition obfuscate (d : text) : option text :=
  match strip_suffix REAL_SUFFIX d with
  | Some p => Some (map (shift_forward (letters p)) p ++ txt ".com")
  | None => None
  end.

(** ** Lemmas: the cipher *)

(** A byte is a lowercase letter, an uppercase letter, or neither. *)
Lemma letter_cases c :
  (97 <= c <= 122 /\ is_ascii_lowercase c = true) \/
  (65 <= c <= 90 /\ is_ascii_lowercase c = false /\ is_ascii_uppercase c = true) \/
  (is_ascii_lowercase c = false /\ is_ascii_uppercase c = false).
Proof. unfold is_ascii_lowercase, is_ascii_uppercase, between. lia. Qed.

Lemma lowercase_mod x : is_ascii_lowercase (x mod 26 + 97) = true.
Proof. pose proof (Z.mod_pos_bound x 26). unfold is_ascii_lowercase, between. lia. Qed.

Lemma uppercase_mod x :
  is_ascii_lowercase (x mod 26 + 65) = false /\ is_ascii_uppercase (x mod 26 + 65) = true.
Proof. pose proof (Z.mod_pos_bound x 26). unfold is_ascii_lowercase, is_ascii_uppercase, between. lia. Qed.

Lemma shift_mod lo c n m :
  lo <= c <= lo + 25 -> n + m = 0 -> ((c - lo + n) mod 26 + lo - lo + m) mod 26 + lo = c.
Proof.
  intros Hc Hn. replace ((c - lo + n) mod 26 + lo - lo + m) with ((c - lo + n) mod 26 + m) by lia.
  rewrite Zplus_mod_idemp_l. replace (c - lo + n + m) with (c - lo) by lia. rewrite Z.mod_small; lia.
Qed.

(** Within an [i32] the closure shifts by [n] with no wrap-around. *)
Lemma shift_back_forward n c : 0 <= n < 2 ^ 31 -> shift_back n c = shift_forward (- n) c.
Proof.
  intros Hn. unfold shift_back, shift_forward.
  destruct (letter_cases c) as [[? ->]|[(? & -> & ->)|[-> ->]]]; [| |done];
    (rewrite swrap_small by lia); do 2 f_equal; lia.
Qed.

Lemma shift_forward_cancel n m c : n + m = 0 -> shift_forward m (shift_forward n c) = c.
Proof.
  intros Hn. unfold shift_forward at 2.
  destruct (letter_cases c) as [[? ->]|[(? & -> & ->)|[E1 E2]]].
  - unfold shift_forward. rewrite lowercase_mod. apply shift_mod; lia.
  - unfold shift_forward. destruct (uppercase_mod (c - 65 + n)) as [-> ->]. apply shift_mod; lia.
  - rewrite E1, E2. unfold shift_forward. by rewrite E1, E2.
Qed.

Lemma shift_forward_alphabetic n c : is_ascii_alphabetic (shift_forward n c) = is_ascii_alphabetic c.
Proof.
  unfold is_ascii_alphabetic, shift_forward.
  destruct (letter_cases c) as [[? ->]|[(? & -> & ->)|[E1 E2]]].
  - by rewrite lowercase_mod.
  - by destruct (uppercase_mod (c - 65 + n)) as [-> ->].
  - by rewrite E1, E2, E1, E2.
Qed.

Lemma letters_shift n s : letters (map (shift_forward n) s) = letters s.
Proof.
  unfold letters. f_equal. induction s as [|c s IH]; [done|]. cbn [map List.filter].
  rewrite shift_forward_alphabetic. destruct (is_ascii_alphabetic c); cbn [length]; by rewrite IH.
Qed.

Lemma letters_range s : 0 <= letters s <= Z.of_nat (length s).
Proof.
  unfold letters. split; [lia|]. apply Nat2Z.inj_le. induction s as [|c s IH]; [done|]. cbn [List.filter].
  destruct (is_ascii_alphabetic c); cbn [length]; lia.
Qed.

Lemma map_shift_cancel n m s : n + m = 0 -> map (shift_forward m) (map (shift_forward n) s) = s.
Proof.
  intros H. rewrite map_map. induction s as [|c s IH]; [done|]. cbn [map]. by rewrite IH, shift_forward_cancel.
Qed.

(** On strings an [i32] can count, the decoder is the backward shift. *)
Lemma deobfuscate_eq p :
  Z.of_nat (length p) < 2 ^ 31 ->
  deobfuscate (p ++ txt ".com") = Some (map (shift_forward (- letters p)) p ++ REAL_SUFFIX).
Proof.
  intros Hp. pose proof (letters_range p). unfold deobfuscate. rewrite strip_suffix_app.
  fold (letters p). rewrite swrap_small by lia. do 2 f_equal. apply map_ext. intros c.
  apply shift_back_forward. lia.
Qed.

(** [deobfuscate] and the reference are inverse to each other. *)
Lemma deobfuscate_obfuscate s d :
  Z.of_nat (length s) < 2 ^ 31 -> deobfuscate s = Some d <-> obfuscate d = Some s.
Proof.
  intros Hs. split.
  - intros H. assert (exists p, s = p ++ txt ".com") as [p ->].
    { unfold deobfuscate in H. destruct (strip_suffix _ s) eqn:E; [|done]. eauto using strip_suffix_Some. }
    rewrite length_app in Hs. rewrite deobfuscate_eq in H by lia. injection H as <-.
    unfold obfuscate. rewrite strip_suffix_app, letters_shift, map_shift_cancel by lia. done.
  - unfold obfuscate. destruct (strip_suffix REAL_SUFFIX d) as [p|] eqn:E; [|done]. intros [= <-].
    apply strip_suffix_Some in E as ->. rewrite length_app, length_map in Hs.
    rewrite deobfuscate_eq by (rewrite length_map; lia). rewrite letters_shift, map_shift_cancel by lia. done.
Qed.

Lemma deobfuscate_suffix s d : deobfuscate s = Some d -> ends_with REAL_SUFFIX d = true.
Proof.
  unfold deobfuscate, ends_with. destruct (strip_suffix _ s); [|done]. intros [= <-]. by rewrite strip_suffix_app.
Qed.

Lemma parse_domain_list_suffix s : Forall (fun d => ends_with REAL_SUFFIX d = true) (parse_domain_list s).
Proof.
  unfold parse_domain_list. induction (List.filter _ _) as [|l ls IH]; [constructor|]. cbn.
  destruct (deobfuscate l) eqn:E; [constructor; eauto using deobfuscate_suffix|done].
Qed.

(** ** Lemmas: the published file *)

(** Printable ASCII other than the space. *)
Definition solid (s : text) : Prop := Forall (fun b => 33 <= b <= 126) s.

Lemma chars_solid s : solid s -> chars s = map (fun b => [b]) s.
Proof.
  unfold chars. induction 1 as [|b s Hb _ IH]; [done|]. cbn [length chars_loop map].
  unfold char_len. rewrite (proj2 (Z.ltb_lt b 0x80)) by lia. change (drop 1 (b :: s)) with (drop 0 s). rewrite drop_0, IH. done.
Qed.

Lemma drop_while_none {A} (f : A -> bool) l : Forall (fun x => f x = false) l -> drop_while f l = l.
Proof. destruct 1 as [|x l Hx]; [done|]. cbn [drop_while]. by rewrite Hx. Qed.

Lemma drop_while_snoc {A} (f : A -> bool) l x : f x = false -> exists k, drop_while f (l ++ [x]) = k ++ [x].
Proof.
  intros Hx. induction l as [|y l [k IH]]; cbn [drop_while app]; [rewrite Hx; by exists []|].
  destruct (f y); [eauto|by exists (y :: l)].
Qed.

Lemma trim_solid s : solid s -> trim s = s.
Proof.
  intros Hs. unfold trim. rewrite chars_solid by done.
  assert (Forall (fun c => is_whitespace c = false) (map (fun b => [b]) s)) as HF.
  { apply Forall_map. eapply Forall_impl; [|exact Hs]. intros b Hb. cbn in Hb. unfold is_whitespace, between. lia. }
  rewrite (drop_while_none _ _ HF), drop_while_none by by apply Forall_reverse.
  rewrite reverse_involutive. clear. induction s as [|b s IH]; [done|]. cbn. by rewrite IH.
Qed.

Lemma trim_comment r : starts_with (txt "#") (trim (35 :: r)) = true.
Proof.
  unfold trim, chars. cbn [length chars_loop]. change (char_len 35) with 1%nat. change (take 1 (35 :: r)) with (35 :: take 0 r).
  rewrite take_0. cbn [drop_while]. change (is_whitespace [35]) with false. cbv iota. rewrite reverse_cons.
  destruct (drop_while_snoc is_whitespace (reverse (chars_loop (length r) (drop 1 (35 :: r)))) [35]) as [k ->]; [done|].
  rewrite reverse_snoc. reflexivity.
Qed.

Lemma strip_cr_solid s : solid s -> strip_cr s = s.
Proof.
  intros Hs. unfold strip_cr. pose proof (Forall_reverse (fun b => 33 <= b <= 126) s) as HR.
  destruct (reverse s) as [|b l] eqn:E; [by apply (f_equal reverse) in E; rewrite reverse_involutive in E|].
  apply HR in Hs. inversion Hs; subst. rewrite (proj2 (Z.eqb_neq b 13)) by lia. done.
Qed.

Lemma strip_cr_comment r : exists r', strip_cr (35 :: r) = 35 :: r'.
Proof.
  unfold strip_cr. rewrite reverse_cons. destruct (reverse r) as [|b l]; cbn [app]; [by exists r|].
  destruct (b =? 13); [|by exists r]. exists (reverse l). by rewrite reverse_snoc.
Qed.

Lemma lines_unlines xs :
  Forall (fun x => 10 ∉ x) xs -> lines (concat (map (fun x => x ++ [10]) xs)) = map strip_cr xs.
Proof.
  unfold lines.
  induction 1 as [|x xs Hx _ IH]; [done|]. cbn [map concat]. rewrite <- app_assoc. cbn [app].
  rewrite lines_loop_app by done. by rewrite IH.
Qed.

(** A line of the published file: an entry for the domain [d], or text that is
    ignored, a comment or nothing. *)
Definition line_text (l : text + text) : text :=
  match l with inl d => default [] (obfuscate d) | inr c => c end.

Definition publish (ls : list (text + text)) : text := concat (map (fun x => x ++ [10]) (map line_text ls)).

Definition line_ok (l : text + text) : Prop :=
  match l with
  | inl d => exists p, d = p ++ REAL_SUFFIX /\ solid p /\ head p <> Some 35 /\ Z.of_nat (length p) < 2 ^ 30
  | inr c => (10 ∉ c) /\ (c = [] \/ exists r, c = 35 :: r)
  end.

Definition entries (ls : list (text + text)) : list text :=
  omap (fun l => match l with inl d => Some d | inr _ => None end) ls.

Lemma shift_forward_solid n c : 33 <= c <= 126 -> 33 <= shift_forward n c <= 126.
Proof.
  intros Hc. unfold shift_forward. pose proof (Z.mod_pos_bound (c - 97 + n) 26).
  pose proof (Z.mod_pos_bound (c - 65 + n) 26). repeat case_match; lia.
Qed.

(** What an entry looks like on its line, and that it is decoded. *)
Lemma entry_line p :
  solid p -> head p <> Some 35 -> Z.of_nat (length p) < 2 ^ 30 ->
  exists e, obfuscate (p ++ REAL_SUFFIX) = Some e /\ solid e /\ e <> [] /\
    starts_with (txt "#") e = false /\ deobfuscate e = Some (p ++ REAL_SUFFIX).
Proof.
  intros Hp Hh Hl. set (q := map (shift_forward (letters p)) p). exists (q ++ txt ".com").
  assert (obfuscate (p ++ REAL_SUFFIX) = Some (q ++ txt ".com")) as E by (unfold obfuscate; by rewrite strip_suffix_app).
  split; [done|]. split_and!.
  - apply Forall_app. split; [|apply (bool_decide_unpack (Forall _ _)); vm_compute; exact I]. apply Forall_map. eapply Forall_impl; [|exact Hp].
    intros b. apply shift_forward_solid.
  - by destruct q.
  - unfold q. destruct p as [|c p]; [done|]. cbn [map app]. unfold starts_with. cbn [strip_prefix].
    change (txt "#") with [35]. cbn [strip_prefix]. destruct (Z.eqb_spec 35 (shift_forward (letters (c :: p)) c)) as [E'|]; [|done].
    exfalso. apply Hh. cbn. f_equal. rewrite <- (shift_forward_cancel (letters (c :: p)) (- letters (c :: p)) c), <- E' by lia.
    reflexivity.
  - apply deobfuscate_obfuscate; [|done]. rewrite length_app. unfold q. rewrite length_map. simpl. lia.
Qed.

(** A published file reads back as the domains it was made of. *)
Lemma parse_publish ls : Forall line_ok ls -> parse_domain_list (publish ls) = entries ls.
Proof.
  intros HF. unfold parse_domain_list, publish. rewrite lines_unlines.
  2: { apply Forall_map. eapply Forall_impl; [|exact HF]. intros [d|c]; [|by intros [? _]].
    intros (p & -> & Hp & Hh & Hl). destruct (entry_line p) as (e & E & Hs & _); [done..|].
    unfold line_text. rewrite E. cbn. intros Hin. unfold solid in Hs. rewrite list.Forall_forall in Hs. specialize (Hs _ Hin). cbn in Hs. lia. }
  induction HF as [|l ls Hl _ IH]; [done|]. cbn [map List.filter].
  destruct l as [d|c]; cbn [line_text line_ok] in *.
  - destruct Hl as (p & -> & Hp & Hh & Hl). destruct (entry_line p) as (e & E & Hs & Hn & Hc & Hd); [done..|].
    rewrite E. cbn [default from_option]. unfold id. rewrite strip_cr_solid, trim_solid, Hc by done.
    rewrite bool_decide_eq_false_2 by done. cbn. rewrite Hd. f_equal. exact IH.
  - destruct Hl as [_ [->|[r ->]]]; [exact IH|]. destruct (strip_cr_comment r) as [r' ->].
    rewrite trim_comment, andb_false_r. exact IH.
Qed.

(** ** Properties *)

(** C31. The decoder inverts the published obfuscation, and nothing else: an entry
    decodes to [d] exactly when [d], shifted forward by its number of letters
    with [.co.uk] replaced by [.com], is that entry. *)
Theorem domain_codec_exact s d :
  Z.of_nat (length s) < 2 ^ 31 -> deobfuscate s = Some d <-> obfuscate d = Some s.
Proof. apply deobfuscate_obfuscate. Qed.

Lemma domain_codec_exact_witness :
  deobfuscate (txt "virkgj.com") = Some (txt "pclead.co.uk") /\
  obfuscate (txt "pclead.co.uk") = Some (txt "virkgj.com").
Proof.
  assert (obfuscate (txt "pclead.co.uk") = Some (txt "virkgj.com")) as E by (vm_compute; reflexivity).
  split; [|exact E]. apply (domain_codec_exact (txt "virkgj.com")); [vm_compute; reflexivity|exact E].
Defined.

Section fetch_properties.
Context {U : OutboundCrates} {K : Sockets} {T : TlsClient} {P : HttpParser}.
Context (usize_max : Z) (Husize : 2 ^ 32 - 1 <= usize_max).

(** The built-in list, decoded. *)
Definition built_in : list text :=
  [txt "pclead.co.uk"; txt "offshor.co.uk"; txt "cakeisalie.co.uk"; txt "noskomnadzor.co.uk"; txt "lovetrue.co.uk"].

Lemma fallback_domains_eq : fallback_domains = built_in.
Proof. vm_compute. reflexivity. Qed.

Lemma fetch_returns n c :
  exists ds, fetch_default_domains_with_outbound usize_max n c = Done ds /\ ds <> [] /\
    Forall (fun d => ends_with REAL_SUFFIX d = true) ds /\
    (ds = built_in \/ exists body,
       https_get usize_max n c DOMAINS_URL_HOST DOMAINS_URL_PATH = Done (Success body) /\
       ds = parse_domain_list body).
Proof.
  unfold fetch_default_domains_with_outbound.
  destruct (https_get_returns usize_max Husize n c DOMAINS_URL_HOST DOMAINS_URL_PATH) as (res & -> & _).
  cbn [run_bind].
  assert (forall ds, ds = fallback_domains -> ds <> [] /\ Forall (fun d => ends_with REAL_SUFFIX d = true) ds /\ ds = built_in) as Hf.
  { intros ds ->. split_and!; [by rewrite fallback_domains_eq| |by rewrite fallback_domains_eq].
    apply (bool_decide_unpack (Forall _ _)). vm_compute. exact I. }
  destruct res as [body|e].
  - pose proof (parse_domain_list_suffix body). destruct (parse_domain_list body) as [|d ds] eqn:E.
    + destruct (Hf _ eq_refl) as (? & ? & ?). eauto 10.
    + exists (d :: ds). eauto 10.
  - destruct (Hf _ eq_refl) as (? & ? & ?). eauto 10.
Qed.

(** The default list is always there: whatever the network does, the fetch
    returns, with at least one domain, each under [.co.uk]; it is the decoded
    body of the response, or the built-in list when there is no usable one. *)
Theorem default_domains_available n c :
  exists ds, fetch_default_domains_with_outbound usize_max n c = Done ds /\ ds <> [] /\
    Forall (fun d => ends_with REAL_SUFFIX d = true) ds /\
    (ds = built_in \/ exists body,
       https_get usize_max n c DOMAINS_URL_HOST DOMAINS_URL_PATH = Done (Success body) /\
       ds = parse_domain_list body).
Proof. apply fetch_returns. Qed.

(** Publishing and fetching: when the server answers with a file of
    obfuscated entries, comments and blank lines, the program ends up with
    exactly the domains that were published, in their order. *)
Theorem default_domains_published n c ls :
  Forall line_ok ls -> entries ls <> [] ->
  answered usize_max n c DOMAINS_URL_HOST DOMAINS_URL_PATH (publish ls) ->
  fetch_default_domains_with_outbound usize_max n c = Done (entries ls).
Proof.
  intros Hl Hn Ha. unfold fetch_default_domains_with_outbound.
  rewrite (answered_received usize_max Husize _ _ _ _ _ Ha). cbn [run_bind].
  rewrite parse_publish by done. by destruct (entries ls).
Qed.
End fetch_properties.

Lemma default_domains_available_witness :
  exists ds, fetch_default_domains_with_outbound (U := demo_crates) (K := demo_sockets) (T := demo_tls)
    (P := demo_parser) (2 ^ 64 - 1) 0 (mkOutboundConfig None None) = Done ds /\ ds <> [].
Proof.
  destruct (default_domains_available (U := demo_crates) (K := demo_sockets) (T := demo_tls) (P := demo_parser)
    (2 ^ 64 - 1) ltac:(lia) 0 (mkOutboundConfig None None)) as (ds & H & Hn & _).
  exists ds. split; assumption.
Defined.

(** A file with a comment, an entry, a blank line and an entry, sent with a
    content length. *)
Definition demo_lines : list (text + text) :=
  [inr (txt "# domains"); inl (txt "pclead.co.uk"); inr []; inl (txt "lovetrue.co.uk")].

Definition counted_parser : HttpParser := {|
  parse_response _ _ := Complete (Some 200) [(txt "Content-Length", dec (Z.of_nat (length (publish demo_lines))))];
|}.

Definition counted_tls : TlsClient (K := demo_sockets) := {|
  server_name _ := Success tt;
  tls_handshake _ _ _ :=
    Some (Success (mkReader (txt "HTTP/1.1 200 OK" ++ CRLF ++ CRLF ++ publish demo_lines ++ txt "!") [3; 0; 17; 9]%nat None));
  tls_write _ _ _ := Success tt;
  read_within _ _ := true;
|}.

Lemma demo_lines_ok : Forall line_ok demo_lines.
Proof.
  repeat apply Forall_cons_2; try apply Forall_nil_2.
  - split; [apply (bool_decide_unpack (10 ∉ _)); vm_compute; exact I|right; by eexists].
  - exists (txt "pclead"). split; [reflexivity|].
    split; [apply (bool_decide_unpack (Forall _ _)); vm_compute; exact I|]. by vm_compute.
  - split; [apply not_elem_of_nil|by left].
  - exists (txt "lovetrue"). split; [reflexivity|].
    split; [apply (bool_decide_unpack (Forall _ _)); vm_compute; exact I|]. by vm_compute.
Qed.

Lemma counted_answered :
  answered (P := counted_parser) (2 ^ 64 - 1) (U := demo_crates) (K := demo_sockets) (T := counted_tls) 0
    (mkOutboundConfig None None) DOMAINS_URL_HOST DOMAINS_URL_PATH (publish demo_lines).
Proof.
  eexists _, _, (txt "HTTP/1.1 200 OK" ++ CRLF ++ CRLF),
    [(txt "Content-Length", dec (Z.of_nat (length (publish demo_lines))))], (publish demo_lines), (txt "!").
  split; [vm_compute; reflexivity|]. split; [reflexivity|]. split; [reflexivity|]. split; [reflexivity|].
  split; [reflexivity|]. split; [vm_compute; reflexivity|]. split; [vm_compute; reflexivity|].
  split; [apply Nat.leb_le; vm_compute; reflexivity|]. split; [reflexivity|].
  split; [right; left; split; [vm_compute; reflexivity|split; [vm_compute; reflexivity|reflexivity]]|].
  split; [apply Nat.leb_le; vm_compute; reflexivity|vm_compute; reflexivity].
Qed.

Lemma default_domains_published_witness :
  fetch_default_domains_with_outbound (U := demo_crates) (K := demo_sockets) (T := counted_tls)
    (P := counted_parser) (2 ^ 64 - 1) 0 (mkOutboundConfig None None)
  = Done [txt "pclead.co.uk"; txt "lovetrue.co.uk"].
Proof.
  apply (default_domains_published (U := demo_crates) (K := demo_sockets) (T := counted_tls)
    (P := counted_parser) (2 ^ 64 - 1) ltac:(lia) 0 (mkOutboundConfig None None) demo_lines).
  - exact demo_lines_ok.
  - discriminate.
  - exact counted_answered.
Defined.
