(* ===== verification/CryptoApi.v ===== *)
(** * The cryptographic crates

    The proxy uses the crates [aes]/[ctr]/[cipher] (AES-256-CTR), [sha2]
    (SHA-256) and [hmac] (HMAC-SHA256).  Their code is not part of the
    repository, so it enters the model as the class [Crypto]; [CryptoLaws]
    states the documented behaviour the proxy relies on.  [toy_crypto] is a
    small executable instance that satisfies the laws. *)
From S2P Require Import Prelude.

Local Open Scope Z_scope.

Class Crypto : Type := {
  (** [ctr::Ctr128BE<Aes256>]: a cipher positioned in its keystream. *)
  cipher : Type;
  (** [KeyIvInit::new_from_slices]: [None] on a wrong key or IV length. *)
  new_from_slices : bytes -> bytes -> option cipher;
  (** [StreamCipher::apply_keystream] on a buffer: the advanced cipher and the
      buffer after the in-place XOR. *)
  cipher_apply : cipher -> bytes -> cipher * bytes;
  (** [Sha256::new(); update(..); finalize()]. *)
  sha256 : bytes -> bytes;
  (** [Hmac<Sha256>::new_from_slice(key); update(msg); finalize()]. *)
  hmac_sha256 : bytes -> bytes -> bytes;
}.

Section keystream.
Context {C : Crypto}.

(** The next [n] keystream bytes, and the cipher [n] bytes further on. *)
Definition keystream (c : cipher) (n : nat) : bytes := (cipher_apply c (replicate n 0)).2.
Definition advance (c : cipher) (n : nat) : cipher := (cipher_apply c (replicate n 0)).1.
Definition encrypt (c : cipher) (d : bytes) : bytes := (cipher_apply c d).2.
End keystream.

Class CryptoLaws (C : Crypto) : Prop := {
  (** AES-256 takes 32 key bytes and CTR a 16-byte counter block. *)
  new_from_slices_is_Some k iv :
    is_Some (new_from_slices k iv) <-> length k = 32%nat /\ length iv = 16%nat;
  (** A stream cipher XORs the keystream into the data; the state it leaves
      depends on the amount of data only. *)
  cipher_apply_xor c d :
    cipher_apply c d = (advance c (length d), xor_bytes d (keystream c (length d)));
  length_keystream c n : length (keystream c n) = n;
  keystream_ok c n : bytes_ok (keystream c n);
  advance_0 c : advance c 0 = c;
  (** Streaming: two calls continue one keystream. *)
  advance_add c n m : advance c (n + m) = advance (advance c n) m;
  keystream_add c n m : keystream c (n + m) = keystream c n ++ keystream (advance c n) m;
  length_sha256 d : length (sha256 d) = 32%nat;
  length_hmac_sha256 k d : length (hmac_sha256 k d) = 32%nat;
  hmac_sha256_ok k d : bytes_ok (hmac_sha256 k d);
}.

(** ** Consequences *)
Section laws.
Context {C : Crypto} `{!CryptoLaws C}.
Implicit Types (c : cipher) (d : bytes).

Lemma encrypt_xor c d : encrypt c d = xor_bytes d (keystream c (length d)).
Proof. unfold encrypt. by rewrite cipher_apply_xor. Qed.

Lemma cipher_apply_encrypt c d : cipher_apply c d = (advance c (length d), encrypt c d).
Proof. by rewrite encrypt_xor, cipher_apply_xor. Qed.

Lemma length_encrypt c d : length (encrypt c d) = length d.
Proof. rewrite encrypt_xor. apply length_xor_bytes. by rewrite length_keystream. Qed.

Lemma encrypt_ok c d : bytes_ok d -> bytes_ok (encrypt c d).
Proof. intros. rewrite encrypt_xor. apply xor_bytes_ok; [done|apply keystream_ok]. Qed.

Lemma encrypt_nil c : encrypt c [] = [].
Proof. by rewrite encrypt_xor. Qed.

(** Encryption and decryption are the same operation. *)
Lemma encrypt_involutive c d : encrypt c (encrypt c d) = d.
Proof.
  rewrite (encrypt_xor c (encrypt c d)), length_encrypt, encrypt_xor.
  apply xor_bytes_involutive. by rewrite length_keystream.
Qed.

Lemma encrypt_app c d1 d2 :
  encrypt c (d1 ++ d2) = encrypt c d1 ++ encrypt (advance c (length d1)) d2.
Proof.
  rewrite !encrypt_xor, length_app, keystream_add.
  apply xor_bytes_app. by rewrite length_keystream.
Qed.

Lemma encrypt_take c d n : take n (encrypt c d) = encrypt c (take n d).
Proof.
  rewrite <- (take_drop n d) at 1. rewrite encrypt_app.
  destruct (decide (n <= length d)%nat).
  - rewrite take_app_length'; [done|]. rewrite length_encrypt. len.
  - rewrite (take_ge d n), (drop_ge d n), encrypt_nil, app_nil_r by lia.
    apply take_ge. rewrite length_encrypt. lia.
Qed.

Lemma encrypt_slice c d a b :
  (a <= b <= length d)%nat -> slice a b (encrypt c d) = encrypt (advance c a) (slice a b d).
Proof.
  intros. unfold slice. rewrite <- encrypt_take. f_equal.
  rewrite <- (take_drop a d) at 1. rewrite encrypt_app, length_take_le by lia.
  apply drop_app_length'. rewrite length_encrypt, length_take_le; lia.
Qed.

Lemma new_from_slices_Some k iv :
  length k = 32%nat -> length iv = 16%nat -> exists c, new_from_slices k iv = Some c.
Proof. intros. apply new_from_slices_is_Some. done. Qed.
End laws.

(** ** An executable instance *)
Definition toy_sum (d : bytes) : Z := fold_left (fun a b => (a * 31 + b + 1) mod 65521) d 7.

Definition toy_stream (seed : Z) (pos n : nat) : bytes :=
  (fun i => (seed * 7 + Z.of_nat i * 13 + 5) mod 256) <$> seq pos n.

Definition toy_crypto : Crypto := {|
  cipher := Z * nat;
  new_from_slices k iv :=
    if (length k =? 32)%nat && (length iv =? 16)%nat then Some (toy_sum (k ++ iv), 0%nat) else None;
  cipher_apply c d :=
    ((c.1, (c.2 + length d)%nat), xor_bytes d (toy_stream c.1 c.2 (length d)));
  sha256 d := toy_stream (toy_sum d) 0 32;
  hmac_sha256 k d := toy_stream (toy_sum (k ++ 54 :: d)) 1 32;
|}.

Lemma length_toy_stream s p n : length (toy_stream s p n) = n.
Proof. unfold toy_stream. by rewrite length_fmap, length_seq. Qed.

Lemma toy_stream_ok s p n : bytes_ok (toy_stream s p n).
Proof.
  unfold toy_stream. apply Forall_fmap, Forall_forall. intros i _. simpl.
  unfold byte_ok. apply Z.mod_pos_bound. lia.
Qed.

Lemma toy_keystream c n : keystream (C := toy_crypto) c n = toy_stream c.1 c.2 n.
Proof.
  unfold keystream. simpl. rewrite length_replicate.
  apply xor_bytes_zeros. apply length_toy_stream.
Qed.

Lemma toy_crypto_laws : CryptoLaws toy_crypto.
Proof.
  split.
  - intros k iv. simpl. destruct (length k =? 32)%nat eqn:E1, (length iv =? 16)%nat eqn:E2;
      simpl; boolify; split; try (intros [? ?]; done); try lia; eauto.
  - intros c d. rewrite toy_keystream. simpl. unfold advance. simpl.
    by rewrite length_replicate.
  - intros. rewrite toy_keystream. apply length_toy_stream.
  - intros. rewrite toy_keystream. apply toy_stream_ok.
  - intros [s p]. unfold advance. simpl. f_equal. lia.
  - intros [s p] n m. unfold advance. simpl. rewrite !length_replicate. f_equal. lia.
  - intros [s p] n m. rewrite !toy_keystream. unfold advance. simpl.
    rewrite length_replicate. unfold toy_stream. by rewrite seq_app, fmap_app.
  - intros. apply length_toy_stream.
  - intros. apply length_toy_stream.
  - intros. apply toy_stream_ok.
Qed.
