(* ===== verification/Crypto.v ===== *)
(** * crypto.rs: the MTProto obfuscation layer

    Protocol tags, proxy-secret layout, parsing of a client's 64-byte
    handshake, generation of the relay init and of a client handshake, and the
    four ciphers of a connection. *)
From S2P Require Import Prelude CryptoApi.

Local Open Scope Z_scope.

(** ** Constants *)
Definition HANDSHAKE_LEN : nat := 64.
Definition SKIP_LEN : nat := 8.
Definition PREKEY_LEN : nat := 32.
Definition IV_LEN : nat := 16.
Definition PROTO_TAG_POS : nat := 56.
Definition DC_IDX_POS : nat := 60.

Definition PROTO_TAG_ABRIDGED : bytes := [0xef; 0xef; 0xef; 0xef].
Definition PROTO_TAG_INTERMEDIATE : bytes := [0xee; 0xee; 0xee; 0xee].
Definition PROTO_TAG_SECURE : bytes := [0xdd; 0xdd; 0xdd; 0xdd].

Inductive ProtoTag : Set :=
| Abridged
| Intermediate
| PaddedIntermediate.

#[export] Instance ProtoTag_eq_dec : EqDecision ProtoTag.
Proof. solve_decision. Defined.

Definition from_bytes (b : bytes) : option ProtoTag :=
  if bool_decide (b = PROTO_TAG_ABRIDGED) then Some Abridged
  else if bool_decide (b = PROTO_TAG_INTERMEDIATE) then Some Intermediate
  else if bool_decide (b = PROTO_TAG_SECURE) then Some PaddedIntermediate
  else None.

Definition as_bytes (p : ProtoTag) : bytes :=
  match p with
  | Abridged => PROTO_TAG_ABRIDGED
  | Intermediate => PROTO_TAG_INTERMEDIATE
  | PaddedIntermediate => PROTO_TAG_SECURE
  end.

(** ** Proxy secret layout *)
Definition SECRET_MODE_PREFIX_LEN : nat := 1.
Definition SECRET_KEY_LEN : nat := 16.
Definition PREFIXED_SECRET_LEN : nat := SECRET_MODE_PREFIX_LEN + SECRET_KEY_LEN.
Definition SECRET_MODE_FAKETLS : Z := 0xee.
Definition SECRET_MODE_PADDED : Z := 0xdd.

(** [raw[0]] is only read after the length test. *)
Definition first_byte_is (v : Z) (raw : bytes) : bool :=
  match raw with b :: _ => b =? v | [] => false end.

Definition has_mode_prefix (raw : bytes) : bool :=
  (PREFIXED_SECRET_LEN <=? length raw)%nat &&
  (first_byte_is SECRET_MODE_PADDED raw || first_byte_is SECRET_MODE_FAKETLS raw).

Definition secret_key (raw : bytes) : bytes :=
  if has_mode_prefix raw then slice SECRET_MODE_PREFIX_LEN PREFIXED_SECRET_LEN raw else raw.

Definition faketls_hostname (raw : bytes) : option bytes :=
  if (PREFIXED_SECRET_LEN <? length raw)%nat && first_byte_is SECRET_MODE_FAKETLS raw
  then Some (drop PREFIXED_SECRET_LEN raw) else None.

(** ** Handshakes *)
Record HandshakeInfo : Type := mkHandshakeInfo {
  hi_dc_id : Z;
  hi_is_media : bool;
  hi_proto : ProtoTag;
  hi_prekey_and_iv : bytes;
}.

(** [i16::to_le_bytes] / [i16::from_le_bytes]. *)
Definition i16_to_le (z : Z) : bytes := le_bytes 2 z.
Definition i16_from_le (l : bytes) : Z := swrap 16 (from_le l).

Definition i16_ok (z : Z) : Prop := - 2 ^ 15 <= z < 2 ^ 15.

Definition RESERVED_FIRST_BYTES : bytes := [0xef].
Definition RESERVED_STARTS : list bytes :=
  [ [0x48; 0x45; 0x41; 0x44];
    [0x50; 0x4f; 0x53; 0x54];
    [0x47; 0x45; 0x54; 0x20];
    [0xee; 0xee; 0xee; 0xee];
    [0xdd; 0xdd; 0xdd; 0xdd];
    [0x16; 0x03; 0x01; 0x02] ].
Definition RESERVED_CONTINUE : bytes := [0; 0; 0; 0].

(** The three [continue] guards at the head of both generation loops. *)
Definition reserved_prefix (rnd : bytes) : bool :=
  existsb (fun b => first_byte_is b rnd) RESERVED_FIRST_BYTES
  || existsb (fun s => bool_decide (slice 0 4 rnd = s)) RESERVED_STARTS
  || bool_decide (slice 4 8 rnd = RESERVED_CONTINUE).

(** The random generator is a tape of bytes; [fill_bytes] of an [n]-byte
    buffer takes the next [n] of them. *)
Definition fill_bytes (n : nat) (tape : bytes) : run (bytes * bytes) :=
  if (n <=? length tape)%nat then Done (take n tape, drop n tape) else OutOfFuel.

Section crypto.
Context {C : Crypto}.
Local Open Scope run_scope.

Definition make_cipher (key iv : bytes) : run cipher :=
  match new_from_slices key iv with
  | Some c => Done c
  | None => Panic
  end.

Definition apply_keystream (c : cipher) (data : bytes) : cipher * bytes :=
  cipher_apply c data.

Definition parse_handshake (handshake secret : bytes) : run (option HandshakeInfo) :=
  let prekey := slice SKIP_LEN (SKIP_LEN + PREKEY_LEN) handshake in
  let iv := slice (SKIP_LEN + PREKEY_LEN) (SKIP_LEN + PREKEY_LEN + IV_LEN) handshake in
  let key := sha256 (prekey ++ secret) in
  let! c := make_cipher key iv in
  let buf := (cipher_apply c handshake).2 in
  match from_bytes (slice PROTO_TAG_POS (PROTO_TAG_POS + 4) buf) with
  | None => Done None
  | Some proto =>
      let! b0 := index buf DC_IDX_POS in
      let! b1 := index buf (DC_IDX_POS + 1) in
      let dc_idx := i16_from_le [b0; b1] in
      let dc_id := Z.abs dc_idx in
      let is_media := dc_idx <? 0 in
      let prekey_and_iv := slice SKIP_LEN (SKIP_LEN + PREKEY_LEN + IV_LEN) handshake in
      Done (Some (mkHandshakeInfo dc_id is_media proto prekey_and_iv))
  end.

(** The [loop] of [generate_relay_init], with fuel for the rejected draws. *)
Fixpoint relay_init_loop (fuel : nat) (proto_tag dc_bytes tape : bytes)
  : run (bytes * bytes) :=
  match fuel with
  | O => OutOfFuel
  | S fuel =>
      let! (rnd, tape) := fill_bytes HANDSHAKE_LEN tape in
      if reserved_prefix rnd then relay_init_loop fuel proto_tag dc_bytes tape
      else
        let enc_key := slice SKIP_LEN (SKIP_LEN + PREKEY_LEN) rnd in
        let enc_iv := slice (SKIP_LEN + PREKEY_LEN) (SKIP_LEN + PREKEY_LEN + IV_LEN) rnd in
        let! c := make_cipher enc_key enc_iv in
        let encrypted := (cipher_apply c rnd).2 in
        let! (pad, tape) := fill_bytes 2 tape in
        let tail_plain := proto_tag ++ dc_bytes ++ pad in
        let ks := xor_bytes (slice PROTO_TAG_POS HANDSHAKE_LEN encrypted)
                            (slice PROTO_TAG_POS HANDSHAKE_LEN rnd) in
        Done (splice PROTO_TAG_POS (xor_bytes tail_plain ks) rnd, tape)
  end.

Definition generate_relay_init (proto : ProtoTag) (dc_idx : Z) (tape : bytes)
  : run (bytes * bytes) :=
  relay_init_loop (length tape) (as_bytes proto) (i16_to_le dc_idx) tape.

Fixpoint client_handshake_loop (fuel : nat) (secret proto_bytes dc_bytes tape : bytes)
  : run (bytes * cipher * cipher * bytes) :=
  match fuel with
  | O => OutOfFuel
  | S fuel =>
      let! (raw, tape) := fill_bytes HANDSHAKE_LEN tape in
      if reserved_prefix raw then client_handshake_loop fuel secret proto_bytes dc_bytes tape
      else
        let key := sha256 (slice SKIP_LEN (SKIP_LEN + PREKEY_LEN) raw ++ secret) in
        let iv := slice (SKIP_LEN + PREKEY_LEN) (SKIP_LEN + PREKEY_LEN + IV_LEN) raw in
        let! c := make_cipher key iv in
        let keystream := (cipher_apply c (replicate HANDSHAKE_LEN 0)).2 in
        let handshake :=
          splice PROTO_TAG_POS
            (xor_bytes proto_bytes (slice PROTO_TAG_POS (PROTO_TAG_POS + 4) keystream)) raw in
        let handshake :=
          splice DC_IDX_POS
            (xor_bytes dc_bytes (slice DC_IDX_POS (DC_IDX_POS + 2) keystream)) handshake in
        let enc_key := sha256 (slice SKIP_LEN (SKIP_LEN + PREKEY_LEN) handshake ++ secret) in
        let enc_iv :=
          slice (SKIP_LEN + PREKEY_LEN) (SKIP_LEN + PREKEY_LEN + IV_LEN) handshake in
        let! enc := make_cipher enc_key enc_iv in
        let enc := (cipher_apply enc (replicate HANDSHAKE_LEN 0)).1 in
        let reversed := reverse (slice SKIP_LEN (SKIP_LEN + PREKEY_LEN + IV_LEN) handshake) in
        let dec_key := sha256 (take PREKEY_LEN reversed ++ secret) in
        let dec_iv := drop PREKEY_LEN reversed in
        let! dec := make_cipher dec_key dec_iv in
        Done (handshake, enc, dec, tape)
  end.

Definition generate_client_handshake (secret : bytes) (dc_idx : Z) (proto : ProtoTag)
    (tape : bytes) : run (bytes * cipher * cipher * bytes) :=
  client_handshake_loop (length tape) secret (as_bytes proto) (i16_to_le dc_idx) tape.

Record ConnectionCiphers : Type := mkConnectionCiphers {
  clt_dec : cipher;
  clt_enc : cipher;
  tg_enc : cipher;
  tg_dec : cipher;
}.

Definition build_connection_ciphers (prekey_and_iv secret relay_init : bytes)
  : run ConnectionCiphers :=
  let clt_dec_key := sha256 (take PREKEY_LEN prekey_and_iv ++ secret) in
  let clt_dec_iv := drop PREKEY_LEN prekey_and_iv in
  let reversed := reverse prekey_and_iv in
  let clt_enc_key := sha256 (take PREKEY_LEN reversed ++ secret) in
  let clt_enc_iv := drop PREKEY_LEN reversed in
  let! clt_dec := make_cipher clt_dec_key clt_dec_iv in
  let! clt_enc := make_cipher clt_enc_key clt_enc_iv in
  let dummy := replicate HANDSHAKE_LEN 0 in
  let '(clt_dec, dummy) := cipher_apply clt_dec dummy in
  let relay_enc_key := slice SKIP_LEN (SKIP_LEN + PREKEY_LEN) relay_init in
  let relay_enc_iv :=
    slice (SKIP_LEN + PREKEY_LEN) (SKIP_LEN + PREKEY_LEN + IV_LEN) relay_init in
  let relay_prekey_iv_rev :=
    reverse (slice SKIP_LEN (SKIP_LEN + PREKEY_LEN + IV_LEN) relay_init) in
  let relay_dec_key := take PREKEY_LEN relay_prekey_iv_rev in
  let relay_dec_iv := drop PREKEY_LEN relay_prekey_iv_rev in
  let! tg_enc := make_cipher relay_enc_key relay_enc_iv in
  let! tg_dec := make_cipher relay_dec_key relay_dec_iv in
  let '(tg_enc, dummy) := cipher_apply tg_enc dummy in
  Done (mkConnectionCiphers clt_dec clt_enc tg_enc tg_dec).
End crypto.

(** ** Specification: what the far end reads off a 64-byte init

    Telegram (for a relay init) takes the key and IV straight from the packet;
    an MTProto proxy hashes the prekey with its secret first.  [init_fields]
    is what either sees once it has decrypted the packet with its key. *)
Section far_end.
Context {C : Crypto}.

Definition init_fields (key init : bytes) : option (ProtoTag * Z) :=
  match new_from_slices key (slice 40 56 init) with
  | None => None
  | Some c =>
      let plain := encrypt c init in
      match from_bytes (slice 56 60 plain) with
      | None => None
      | Some proto => Some (proto, i16_from_le (slice 60 62 plain))
      end
  end.

(** The two session ciphers of Telegram's end of a relay connection. *)
Definition telegram_ciphers (init : bytes) : option (cipher * cipher) :=
  let rev48 := reverse (slice 8 56 init) in
  match new_from_slices (slice 8 40 init) (slice 40 56 init),
        new_from_slices (take 32 rev48) (drop 32 rev48) with
  | Some rx, Some tx => Some (advance rx 64, tx)
  | _, _ => None
  end.
End far_end.

(** ** Lemmas *)

(** Write the offsets of the 64-byte packet as numerals. *)
Ltac offsets :=
  change (SKIP_LEN + PREKEY_LEN + IV_LEN)%nat with 56%nat in *;
  change (SKIP_LEN + PREKEY_LEN)%nat with 40%nat in *;
  change (PROTO_TAG_POS + 4)%nat with 60%nat in *;
  change (DC_IDX_POS + 1)%nat with 61%nat in *;
  change (DC_IDX_POS + 2)%nat with 62%nat in *;
  change SKIP_LEN with 8%nat in *; change PREKEY_LEN with 32%nat in *;
  change PROTO_TAG_POS with 56%nat in *; change DC_IDX_POS with 60%nat in *;
  change HANDSHAKE_LEN with 64%nat in *.

Lemma from_bytes_as_bytes p : from_bytes (as_bytes p) = Some p.
Proof. by destruct p. Qed.

Lemma from_bytes_Some b p : from_bytes b = Some p <-> b = as_bytes p.
Proof.
  split; [|intros ->; apply from_bytes_as_bytes].
  unfold from_bytes. repeat case_bool_decide; intros; simplify_eq; done.
Qed.

Lemma length_as_bytes p : length (as_bytes p) = 4%nat.
Proof. by destruct p. Qed.

Lemma i16_roundtrip z : i16_ok z -> i16_from_le (i16_to_le z) = z.
Proof.
  intros Hz. unfold i16_from_le, i16_to_le. rewrite from_le_bytes.
  change (256 ^ Z.of_nat 2) with (2 ^ 16).
  rewrite swrap_mod by lia. apply swrap_small; [lia|apply Hz].
Qed.

Lemma i16_from_le_ok l : i16_ok (i16_from_le l).
Proof. apply (swrap_range 16). lia. Qed.

Lemma fill_bytes_Done n tape a t :
  fill_bytes n tape = Done (a, t) -> length a = n /\ tape = a ++ t.
Proof.
  unfold fill_bytes. case_test; intros; simplify_eq. boolify.
  rewrite take_drop. split; [len|done].
Qed.

Lemma fill_bytes_app n a t : length a = n -> fill_bytes n (a ++ t) = Done (a, t).
Proof.
  intros <-. unfold fill_bytes. rewrite length_app.
  rewrite (proj2 (Nat.leb_le _ _)) by lia.
  by rewrite take_app_length, drop_app_length.
Qed.

Lemma reserved_prefix_take l l' : take 8 l = take 8 l' -> reserved_prefix l = reserved_prefix l'.
Proof.
  intros E.
  assert (slice 0 4 l = slice 0 4 l') as E1.
  { unfold slice. rewrite !drop_0. change (4 - 0)%nat with (4 `min` 8)%nat.
    by rewrite <- !take_take, E. }
  assert (slice 4 8 l = slice 4 8 l') as E2.
  { unfold slice. change (8 - 4)%nat with (8 - 4)%nat.
    by rewrite <- !skipn_firstn_comm, E. }
  assert (forall v, first_byte_is v l = first_byte_is v l') as E3.
  { intros v. destruct l, l'; simplify_eq/=; done. }
  unfold reserved_prefix. rewrite E1, E2. f_equal. f_equal.
  simpl. by rewrite E3.
Qed.

Section lemmas.
Context {C : Crypto} `{!CryptoLaws C}.

Lemma make_cipher_Done k iv c : make_cipher k iv = Done c <-> new_from_slices k iv = Some c.
Proof. unfold make_cipher. split; [by case_match; intros; simplify_eq|by intros ->]. Qed.

Lemma make_cipher_ok k iv :
  length k = 32%nat -> length iv = 16%nat -> exists c, make_cipher k iv = Done c.
Proof.
  intros. destruct (new_from_slices_Some k iv) as [c Hc]; [done..|].
  exists c. by apply make_cipher_Done.
Qed.

Lemma slice_keystream c a b n :
  (a <= b <= n)%nat -> slice a b (keystream c n) = keystream (advance c a) (b - a).
Proof.
  intros. replace n with (a + ((b - a) + (n - b)))%nat at 1 by lia.
  rewrite !keystream_add. unfold slice.
  rewrite drop_app_length' by (by rewrite length_keystream).
  by rewrite take_app_length' by (by rewrite length_keystream).
Qed.

(** XOR-ing ciphertext with plaintext uncovers the keystream. *)
Lemma uncover_keystream c a b d :
  (a <= b <= length d)%nat ->
  xor_bytes (slice a b (encrypt c d)) (slice a b d) = keystream (advance c a) (b - a).
Proof.
  intros. rewrite encrypt_slice, encrypt_xor, length_slice by lia.
  rewrite (xor_bytes_comm (slice a b d)).
  apply xor_bytes_involutive. by rewrite length_keystream, length_slice.
Qed.

(** Bytes that were XOR-ed with the keystream of their position decrypt to
    what was XOR-ed in. *)
Lemma decrypt_masked c d a b plain :
  (a <= b <= length d)%nat -> length plain = (b - a)%nat ->
  slice a b d = xor_bytes plain (keystream (advance c a) (b - a)) ->
  slice a b (encrypt c d) = plain.
Proof.
  intros Hr Hl E. rewrite encrypt_slice, encrypt_xor, length_slice, E by lia.
  apply xor_bytes_involutive. by rewrite length_keystream.
Qed.

Lemma relay_init_loop_inv fuel pt db tape init tape' :
  relay_init_loop fuel pt db tape = Done (init, tape') ->
  exists rnd pad c,
    length rnd = 64%nat /\ length pad = 2%nat /\ reserved_prefix rnd = false /\
    new_from_slices (slice 8 40 rnd) (slice 40 56 rnd) = Some c /\
    init = splice 56 (xor_bytes (pt ++ db ++ pad) (keystream (advance c 56) 8)) rnd.
Proof.
  revert tape. induction fuel as [|fuel IH]; intros tape H; [done|]. simpl in H.
  destruct (fill_bytes HANDSHAKE_LEN tape) as [[rnd t1]| |] eqn:F1; try done. simpl in H.
  apply fill_bytes_Done in F1 as [Hl _].
  destruct (reserved_prefix rnd) eqn:R; [by eapply IH|].
  destruct (make_cipher _ _) as [c| |] eqn:Hc; try done. simpl in H.
  apply make_cipher_Done in Hc.
  destruct (fill_bytes 2 t1) as [[pad t2]| |] eqn:F2; try done. simpl in H.
  apply fill_bytes_Done in F2 as [Hp _].
  exists rnd, pad, c. split_and!; try done.
  injection H as <- <-. fold (encrypt c rnd).
  by rewrite uncover_keystream by (rewrite Hl; cbv; lia).
Qed.

(** The two fields a client handshake overwrites in its random bytes. *)
Lemma embed_fields (x y raw : bytes) :
  length raw = 64%nat -> length x = 4%nat -> length y = 2%nat ->
  let hs := splice 60 y (splice 56 x raw) in
  length hs = 64%nat /\ slice 56 60 hs = x /\ slice 60 62 hs = y /\
  (forall a b, (b <= 56)%nat -> slice a b hs = slice a b raw).
Proof.
  intros Hl Hx Hy hs.
  assert (length (splice 56 x raw) = 64%nat) as L1 by (rewrite length_splice; lia).
  unfold hs. split_and!.
  - rewrite length_splice; lia.
  - rewrite slice_splice_before by lia. apply (slice_splice_at' 56 4); lia.
  - apply (slice_splice_at' 60 2); lia.
  - intros a b Hb. rewrite !slice_splice_before by lia. done.
Qed.

Lemma client_handshake_loop_inv fuel secret pt db tape hs enc dec tape' :
  client_handshake_loop fuel secret pt db tape = Done (hs, enc, dec, tape') ->
  length pt = 4%nat -> length db = 2%nat ->
  length hs = 64%nat /\ reserved_prefix hs = false /\
  exists c,
    new_from_slices (sha256 (slice 8 40 hs ++ secret)) (slice 40 56 hs) = Some c /\
    new_from_slices (sha256 (take 32 (reverse (slice 8 56 hs)) ++ secret))
      (drop 32 (reverse (slice 8 56 hs))) = Some dec /\
    slice 56 60 hs = xor_bytes pt (keystream (advance c 56) 4) /\
    slice 60 62 hs = xor_bytes db (keystream (advance c 60) 2) /\
    enc = advance c 64.
Proof.
  intros H Hpt Hdb. revert tape H. induction fuel as [|fuel IH]; intros tape H; [done|].
  cbn [client_handshake_loop run_bind] in H.
  destruct (fill_bytes HANDSHAKE_LEN tape) as [[raw t1]| |] eqn:F1; try done.
  cbn [run_bind] in H. apply fill_bytes_Done in F1 as [Hl _].
  destruct (reserved_prefix raw) eqn:R; [by eapply IH|]. clear IH.
  destruct (make_cipher _ _) as [c| |] eqn:Hc; try done. cbn [run_bind] in H.
  apply make_cipher_Done in Hc. fold (keystream c HANDSHAKE_LEN) in H.
  rewrite !slice_keystream in H by (cbv; lia).
  set (h := splice DC_IDX_POS _ _) in H.
  assert (length h = 64%nat /\
    slice 56 60 h = xor_bytes pt (keystream (advance c 56) 4) /\
    slice 60 62 h = xor_bytes db (keystream (advance c 60) 2) /\
    (forall a b, (b <= 56)%nat -> slice a b h = slice a b raw)) as (L & E4 & E2 & Hpre).
  { apply embed_fields; [done|rewrite length_xor_bytes; rewrite ?length_keystream; done..]. }
  clearbody h.
  destruct (make_cipher (sha256 (slice _ _ h ++ _)) _) as [e| |] eqn:He; try done.
  cbn [run_bind] in H. apply make_cipher_Done in He.
  destruct (make_cipher _ _) as [d| |] eqn:Hd; try done.
  cbn [run_bind] in H. apply make_cipher_Done in Hd. injection H as <- <- <- <-.
  assert (e = c) as ->.
  { rewrite !Hpre in He by (cbv; lia). rewrite Hc in He. by injection He. }
  split_and!; [done| |by exists c].
  rewrite <- R. apply reserved_prefix_take.
  pose proof (Hpre 0%nat 8%nat ltac:(lia)) as E. unfold slice in E. by rewrite !drop_0 in E.
Qed.

(** [parse_handshake] reads the same fields as the specification. *)
Lemma parse_handshake_fields hs secret :
  length hs = 64%nat ->
  parse_handshake hs secret =
    Done (match init_fields (sha256 (slice 8 40 hs ++ secret)) hs with
          | None => None
          | Some (proto, dc_idx) =>
              Some (mkHandshakeInfo (Z.abs dc_idx) (dc_idx <? 0) proto (slice 8 56 hs))
          end).
Proof.
  intros L. unfold parse_handshake, init_fields. offsets.
  destruct (new_from_slices_Some (sha256 (slice 8 40 hs ++ secret)) (slice 40 56 hs))
    as [c Hc]; [apply length_sha256|rewrite length_slice; lia|].
  rewrite (proj2 (make_cipher_Done _ _ _) Hc), Hc. cbn [run_bind].
  fold (encrypt c hs).
  destruct (from_bytes _) as [proto|]; [|done].
  assert (length (encrypt c hs) = 64%nat) as Le by by rewrite length_encrypt.
  destruct (lookup_lt_is_Some_2 (encrypt c hs) 60) as [b0 H0]; [lia|].
  destruct (lookup_lt_is_Some_2 (encrypt c hs) 61) as [b1 H1]; [lia|].
  unfold index. rewrite H0, H1. cbn [run_bind].
  assert (slice 60 62 (encrypt c hs) = [b0; b1]) as ->; [|done].
  unfold slice. by rewrite (drop_S _ _ _ H0), (drop_S _ _ _ H1).
Qed.

Lemma client_handshake_fields secret dc_idx proto tape hs enc dec tape' :
  i16_ok dc_idx ->
  generate_client_handshake secret dc_idx proto tape = Done (hs, enc, dec, tape') ->
  init_fields (sha256 (slice 8 40 hs ++ secret)) hs = Some (proto, dc_idx).
Proof.
  intros Hdc H. apply client_handshake_loop_inv in H
    as (L & _ & c & Hc & _ & E4 & E2 & _); [|apply length_as_bytes|apply length_le_bytes].
  unfold init_fields. rewrite Hc.
  rewrite (decrypt_masked c hs 56 60 (as_bytes proto)), from_bytes_as_bytes
    by (rewrite ?length_as_bytes; lia || done).
  rewrite (decrypt_masked c hs 60 62 (i16_to_le dc_idx)), i16_roundtrip
    by (done || (unfold i16_to_le; rewrite ?length_le_bytes; lia)).
  done.
Qed.

(** The relay loop skips rejected draws and stops at the first good one. *)
Lemma relay_init_loop_progress rejects good pad rest fuel pt db :
  Forall (fun b => length b = 64%nat /\ reserved_prefix b = true) rejects ->
  length good = 64%nat -> reserved_prefix good = false -> length pad = 2%nat ->
  length (pt ++ db) = 6%nat ->
  (length rejects < fuel)%nat ->
  exists init, relay_init_loop fuel pt db (concat rejects ++ good ++ pad ++ rest)
               = Done (init, rest) /\ take 56 init = take 56 good.
Proof.
  intros Hr Hg Hgr Hp Hpd. revert fuel.
  induction Hr as [|b bs [Hb Hbr] Hbs IH]; intros [|fuel] Hf; simpl in Hf; try lia.
  - cbn [concat app relay_init_loop]. rewrite fill_bytes_app by done. cbn [run_bind].
    rewrite Hgr.
    destruct (make_cipher_ok (slice 8 40 good) (slice 40 56 good)) as [c Hc];
      [rewrite length_slice; lia..|].
    offsets. rewrite Hc. cbn [run_bind]. rewrite fill_bytes_app by done. cbn [run_bind].
    eexists. split; [done|]. unfold splice.
    rewrite take_app_le by len. by rewrite take_take.
  - cbn [concat relay_init_loop]. rewrite <- app_assoc, fill_bytes_app by done.
    cbn [run_bind]. rewrite Hbr. apply IH. lia.
Qed.

Lemma concat_rejects_length rejects :
  Forall (fun b => length b = 64%nat /\ reserved_prefix b = true) rejects ->
  (length rejects <= length (concat rejects))%nat.
Proof. induction 1 as [|b bs [Hb _] _ IH]; simpl; [lia|]. rewrite length_app. lia. Qed.
(** Both pairs of session ciphers against their far ends. *)
Lemma connection_ciphers_total pre secret relay_init :
  length pre = 48%nat -> length relay_init = 64%nat ->
  returns (build_connection_ciphers pre secret relay_init).
Proof.
  intros Lp Lr. unfold build_connection_ciphers. offsets.
  assert (forall k iv, length k = 32%nat -> length iv = 16%nat -> returns (make_cipher k iv)) as HM.
  { intros k iv Hk Hiv. destruct (new_from_slices_Some k iv Hk Hiv) as [c Hc].
    exists c. by apply make_cipher_Done. }
  assert (length (slice 8 56 relay_init) = 48%nat) as Ls by (rewrite length_slice; lia).
  apply returns_bind; [apply HM; [apply length_sha256|len]|intros c1 _].
  apply returns_bind; [apply HM; [apply length_sha256|rewrite length_drop, length_reverse; lia]|intros c2 _].
  destruct (cipher_apply c1 _).
  apply returns_bind; [apply HM; rewrite length_slice; lia|intros c3 _].
  apply returns_bind; [apply HM; rewrite ?length_take, ?length_drop, length_reverse; lia|intros c4 _].
  destruct (cipher_apply c3 _). apply returns_Done.
Qed.

Lemma session_ciphers secret dc_idx proto tape hs enc dec tape' relay_init :
  generate_client_handshake secret dc_idx proto tape = Done (hs, enc, dec, tape') ->
  length relay_init = 64%nat ->
  exists cc, build_connection_ciphers (slice 8 56 hs) secret relay_init = Done cc /\
    clt_dec cc = enc /\ clt_enc cc = dec /\
    telegram_ciphers relay_init = Some (tg_enc cc, tg_dec cc).
Proof.
  intros H Lr. apply client_handshake_loop_inv in H
    as (L & _ & c & Hc & Hd & _ & _ & ->); [|apply length_as_bytes|apply length_le_bytes].
  destruct (new_from_slices_Some (slice 8 40 relay_init) (slice 40 56 relay_init))
    as [e He]; [rewrite length_slice; lia..|].
  destruct (new_from_slices_Some (take 32 (reverse (slice 8 56 relay_init)))
    (drop 32 (reverse (slice 8 56 relay_init)))) as [d Hdr].
  { rewrite length_take, length_reverse, length_slice; lia. }
  { rewrite length_drop, length_reverse, length_slice; lia. }
  exists (mkConnectionCiphers (advance c 64) dec (advance e 64) d).
  split_and!; [|done|done|by unfold telegram_ciphers; rewrite He, Hdr].
  unfold build_connection_ciphers. offsets.
  assert (take 32 (slice 8 56 hs) = slice 8 40 hs) as ->.
  { unfold slice. by rewrite take_take. }
  assert (drop 32 (slice 8 56 hs) = slice 40 56 hs) as ->.
  { unfold slice. rewrite skipn_firstn_comm, drop_drop. done. }
  rewrite (proj2 (make_cipher_Done _ _ _) Hc), (proj2 (make_cipher_Done _ _ _) Hd).
  cbn [run_bind]. rewrite !cipher_apply_xor.
  rewrite (proj2 (make_cipher_Done _ _ _) He), (proj2 (make_cipher_Done _ _ _) Hdr).
  cbn [run_bind]. rewrite cipher_apply_xor, length_replicate, length_xor_bytes;
    rewrite ?length_keystream; rewrite ?length_replicate; done.
Qed.

(** A random tape that holds enough: some rejected draws, a good one and [more]
    further bytes. *)
Definition random_ok (more : nat) (tape : bytes) : Prop :=
  exists rejects good rest, tape = concat rejects ++ good ++ rest /\
    Forall (fun b => length b = 64%nat /\ reserved_prefix b = true) rejects /\
    length good = 64%nat /\ reserved_prefix good = false /\ (more <= length rest)%nat.

Lemma client_handshake_returns secret dc_idx proto more tape :
  random_ok more tape -> exists hs enc dec rest,
    generate_client_handshake secret dc_idx proto tape = Done (hs, enc, dec, rest) /\
    length hs = 64%nat /\ (more <= length rest)%nat.
Proof.
  intros (rejects & good & rest & -> & Hr & Hg & Hgr & Hm).
  assert (exists hs enc dec, client_handshake_loop (length (concat rejects ++ good ++ rest)) secret
    (as_bytes proto) (i16_to_le dc_idx) (concat rejects ++ good ++ rest) = Done (hs, enc, dec, rest))
    as (hs & enc & dec & E).
  { pose proof (concat_rejects_length rejects Hr) as HL.
    assert (length rejects < length (concat rejects ++ good ++ rest))%nat as Hf by (rewrite !length_app; lia).
    revert Hf. generalize (length (concat rejects ++ good ++ rest)) as fuel. clear HL.
    induction Hr as [|b bs [Hb Hbr] Hbs IH]; intros [|fuel] Hf; simpl in Hf; try lia.
    - cbn [concat app client_handshake_loop]. rewrite fill_bytes_app by done. cbn [run_bind].
      rewrite Hgr. offsets.
      destruct (make_cipher_ok (sha256 (slice 8 40 good ++ secret)) (slice 40 56 good)) as [c Hc];
        [apply length_sha256|rewrite length_slice; lia|]. rewrite Hc. cbn [run_bind].
      set (hs := splice 60 _ _).
      assert (length hs = 64%nat) as Lh.
      { assert (forall a b n d, length d = (b - a)%nat -> (a <= b <= n)%nat ->
          length (xor_bytes d (slice a b (keystream c n))) = (b - a)%nat) as HX.
        { intros. rewrite length_xor_bytes; [done|]. rewrite length_slice by (rewrite length_keystream; lia). done. }
        fold (keystream c 64) in hs. unfold hs, i16_to_le.
        rewrite !length_splice; rewrite ?(HX 56%nat 60%nat), ?(HX 60%nat 62%nat) by
          (rewrite ?length_as_bytes, ?length_le_bytes; lia);
          rewrite ?length_splice; rewrite ?(HX 56%nat 60%nat) by (rewrite ?length_as_bytes; lia); lia. }
      destruct (make_cipher_ok (sha256 (slice 8 40 hs ++ secret)) (slice 40 56 hs)) as [e He];
        [apply length_sha256|rewrite length_slice; lia|]. rewrite He. cbn [run_bind].
      destruct (make_cipher_ok (sha256 (take 32 (reverse (slice 8 56 hs)) ++ secret))
        (drop 32 (reverse (slice 8 56 hs)))) as [d Hd];
        [apply length_sha256|rewrite length_drop, length_reverse, length_slice; lia|].
      rewrite Hd. cbn [run_bind]. eauto.
    - cbn [concat client_handshake_loop]. rewrite <- app_assoc, fill_bytes_app by done.
      cbn [run_bind]. rewrite Hbr. apply IH. lia. }
  exists hs, enc, dec, rest. split_and!; [done| |done].
  apply client_handshake_loop_inv in E as (L & _); [done|apply length_as_bytes|apply length_le_bytes].
Qed.

(** What Telegram reads off a relay init. *)
Lemma relay_init_fields proto dc_idx tape init tape' :
  i16_ok dc_idx ->
  generate_relay_init proto dc_idx tape = Done (init, tape') ->
  length init = 64%nat /\ reserved_prefix init = false /\
  init_fields (slice 8 40 init) init = Some (proto, dc_idx).
Proof.
  intros Hdc H. apply relay_init_loop_inv in H as (rnd & pad & c & L & Lp & R & Hc & ->).
  assert (length (as_bytes proto ++ i16_to_le dc_idx ++ pad) = 8%nat) as Lt.
  { unfold i16_to_le. rewrite !length_app, length_as_bytes, length_le_bytes. lia. }
  set (tail := as_bytes proto ++ i16_to_le dc_idx ++ pad) in *.
  set (x := xor_bytes tail (keystream (advance c 56) 8)).
  assert (length x = 8%nat) as Lx.
  { unfold x. rewrite length_xor_bytes; rewrite ?length_keystream; done. }
  assert (length (splice 56 x rnd) = 64%nat) as Ls by (rewrite length_splice; lia).
  assert (slice 56 64 (encrypt c (splice 56 x rnd)) = tail) as Ht.
  { apply decrypt_masked; [lia|lia|]. exact (slice_splice_at' 56 8 x rnd Lx ltac:(lia)). }
  split_and!; [done| |].
  - rewrite <- R. apply reserved_prefix_take. unfold splice.
    rewrite take_app_le by len. by rewrite take_take.
  - unfold init_fields. rewrite !slice_splice_before, Hc by lia.
    rewrite <- (slice_slice 56 64 0 4), <- (slice_slice 56 64 4 6) by lia.
    rewrite Ht. unfold tail.
    rewrite slice_app_l, <- (length_as_bytes proto), slice_all, from_bytes_as_bytes
      by (rewrite length_as_bytes; lia).
    rewrite slice_app_r by lia. rewrite length_as_bytes.
    rewrite slice_app_l by done. do 2 f_equal. by apply i16_roundtrip.
Qed.

Lemma relay_init_returns proto dc_idx tape :
  random_ok 2 tape -> exists init rest, generate_relay_init proto dc_idx tape = Done (init, rest).
Proof.
  intros (rejects & good & rest & -> & Hr & Hg & Hgr & Hm). rewrite <- (take_drop 2 rest).
  destruct (relay_init_loop_progress rejects good (take 2 rest) (drop 2 rest)
    (length (concat rejects ++ good ++ take 2 rest ++ drop 2 rest)) (as_bytes proto) (i16_to_le dc_idx))
    as (init & E & _); try done.
  - len.
  - unfold i16_to_le. by rewrite length_app, length_as_bytes, length_le_bytes.
  - pose proof (concat_rejects_length rejects Hr). rewrite !length_app. lia.
  - by exists init, (drop 2 rest).
Qed.

End lemmas.

(** The witnesses' concrete inputs: a 16-byte secret and a random tape. *)
Definition demo_secret : bytes := seqZ 1 16.
Definition demo_tape : bytes := replicate 64 0xef ++ seqZ 10 64 ++ [7; 9] ++ seqZ 3 70.

(** ** Properties *)
Section properties.
Context {C : Crypto} `{!CryptoLaws C}.

(** A relay init produced by [generate_relay_init] is 64 bytes long, does
    not start with a reserved prefix, and Telegram, decrypting it with the
    key and IV embedded in it, reads back exactly the protocol tag and the
    signed DC index the proxy was asked to encode. *)
Theorem relay_init_decodes proto dc_idx tape init tape' :
  i16_ok dc_idx ->
  generate_relay_init proto dc_idx tape = Done (init, tape') ->
  length init = 64%nat /\ reserved_prefix init = false /\
  init_fields (slice 8 40 init) init = Some (proto, dc_idx).
Proof. apply relay_init_fields. Qed.

(** A handshake produced by [generate_client_handshake] for a secret is
    accepted by [parse_handshake] with the same secret, and the parsed DC id,
    media flag, protocol and key material are the ones that were encoded. *)
Theorem client_handshake_roundtrip secret dc_idx proto tape hs enc dec tape' :
  i16_ok dc_idx ->
  generate_client_handshake secret dc_idx proto tape = Done (hs, enc, dec, tape') ->
  parse_handshake hs secret =
    Done (Some (mkHandshakeInfo (Z.abs dc_idx) (dc_idx <? 0) proto (slice 8 56 hs))).
Proof.
  intros Hdc H. pose proof (client_handshake_fields _ _ _ _ _ _ _ _ Hdc H) as F.
  apply client_handshake_loop_inv in H as (L & _); [|apply length_as_bytes|apply length_le_bytes].
  by rewrite parse_handshake_fields, F.
Qed.

(** The two session ciphers a client keeps after its handshake are the
    mirror images of the ones the accepting proxy builds from the parsed
    handshake: the client's encryptor is the proxy's client decryptor (both
    past the 64 handshake bytes), the client's decryptor is the proxy's
    client encryptor.  Building them never panics, whatever the relay init. *)
Theorem session_ciphers_mirror secret dc_idx proto tape hs enc dec tape' relay_init :
  generate_client_handshake secret dc_idx proto tape = Done (hs, enc, dec, tape') ->
  length relay_init = 64%nat ->
  exists cc, build_connection_ciphers (slice 8 56 hs) secret relay_init = Done cc /\
    clt_dec cc = enc /\ clt_enc cc = dec /\
    telegram_ciphers relay_init = Some (tg_enc cc, tg_dec cc).
Proof. apply session_ciphers. Qed.

(** [generate_relay_init] returns as soon as the random generator draws a
    block without a reserved prefix: any number of rejected draws is skipped,
    exactly two more random bytes are taken for the padding, and the first 56
    bytes of the packet are that draw's. *)
Theorem relay_init_terminates proto dc_idx rejects good pad rest :
  Forall (fun b => length b = 64%nat /\ reserved_prefix b = true) rejects ->
  length good = 64%nat -> reserved_prefix good = false -> length pad = 2%nat ->
  exists init,
    generate_relay_init proto dc_idx (concat rejects ++ good ++ pad ++ rest)
    = Done (init, rest) /\ take 56 init = take 56 good.
Proof.
  intros Hr Hg Hgr Hp. apply relay_init_loop_progress; try done.
  - unfold i16_to_le. by rewrite length_app, length_as_bytes, length_le_bytes.
  - pose proof (concat_rejects_length _ Hr). rewrite !length_app. lia.
Qed.

(** [parse_handshake] never panics on a 64-byte buffer and decides exactly
    by the decrypted protocol tag: it rejects when bytes 56..60 decrypt to no
    known tag, and otherwise reports the absolute value and the sign of the
    decrypted DC index, which is at most 32768. *)
Theorem parse_handshake_decides hs secret :
  length hs = 64%nat ->
  exists r, parse_handshake hs secret = Done r /\
    match init_fields (sha256 (slice 8 40 hs ++ secret)) hs with
    | None => r = None
    | Some (proto, dc_idx) =>
        r = Some (mkHandshakeInfo (Z.abs dc_idx) (dc_idx <? 0) proto (slice 8 56 hs)) /\
        Z.abs dc_idx <= 32768
    end.
Proof.
  intros L. rewrite parse_handshake_fields by done. eexists. split; [done|].
  unfold init_fields. repeat case_match; simplify_eq; try done.
  split; [done|]. pose proof (i16_from_le_ok (slice 60 62 (encrypt c hs))) as [? ?]. lia.
Qed.
End properties.

(** The key of a proxy secret and the FakeTLS hostname it carries: a [dd]
    or [ee] secret of at least 17 bytes yields the 16 bytes after the mode flag;
    anything else is the key itself.  A hostname is present exactly for an [ee]
    secret with something after the key. *)
Theorem secret_layout (mode : Z) (key host : bytes) :
  length key = 16%nat ->
  (mode = SECRET_MODE_FAKETLS \/ mode = SECRET_MODE_PADDED ->
   secret_key (mode :: key ++ host) = key) /\
  (mode <> SECRET_MODE_FAKETLS -> mode <> SECRET_MODE_PADDED ->
   secret_key (mode :: key ++ host) = mode :: key ++ host) /\
  secret_key key = key /\ faketls_hostname key = None /\
  faketls_hostname (mode :: key ++ host) =
    (if bool_decide (mode = SECRET_MODE_FAKETLS) && bool_decide (host <> []) then Some host else None).
Proof.
  intros L.
  assert (slice 1 17 (mode :: key ++ host) = key) as Hs.
  { unfold slice. simpl. by apply take_app_length'. }
  assert (drop 17 (mode :: key ++ host) = host) as Hd.
  { simpl. by apply drop_app_length'. }
  assert (length (mode :: key ++ host) = 17 + length host)%nat as Hl by (simpl; len).
  unfold secret_key, faketls_hostname, has_mode_prefix.
  change PREFIXED_SECRET_LEN with 17%nat. change SECRET_MODE_PREFIX_LEN with 1%nat.
  rewrite Hs, Hd, Hl, L. cbn [first_byte_is].
  unfold SECRET_MODE_FAKETLS, SECRET_MODE_PADDED.
  split_and!; try done.
  - intros [-> | ->]; done.
  - intros H1 H2. rewrite (proj2 (Z.eqb_neq _ _) H1), (proj2 (Z.eqb_neq _ _) H2).
    by rewrite andb_false_r.
  - destruct host as [|h host], (Z.eqb_spec mode 0xee); simpl; repeat case_bool_decide; done.
Qed.

(** ** Witnesses *)
Lemma relay_init_decodes_witness :
  exists init tape', generate_relay_init (C := toy_crypto) PaddedIntermediate (-2) demo_tape
    = Done (init, tape') /\
  init_fields (C := toy_crypto) (slice 8 40 init) init = Some (PaddedIntermediate, -2).
Proof.
  eexists _, _. split; [vm_compute; reflexivity|].
  refine (proj2 (proj2 (relay_init_decodes (C := toy_crypto) (CryptoLaws0 := toy_crypto_laws)
    PaddedIntermediate (-2) demo_tape _ _ _ _))).
  - unfold i16_ok. lia.
  - vm_compute. reflexivity.
Defined.

Lemma client_handshake_roundtrip_witness :
  exists hs enc dec tape',
    generate_client_handshake (C := toy_crypto) demo_secret (-4) Abridged demo_tape
      = Done (hs, enc, dec, tape') /\
    parse_handshake (C := toy_crypto) hs demo_secret
      = Done (Some (mkHandshakeInfo 4 true Abridged (slice 8 56 hs))).
Proof.
  eexists _, _, _, _. split; [vm_compute; reflexivity|].
  refine (client_handshake_roundtrip (C := toy_crypto) (CryptoLaws0 := toy_crypto_laws)
    demo_secret (-4) Abridged demo_tape _ _ _ _ _ _).
  - unfold i16_ok. lia.
  - vm_compute. reflexivity.
Defined.

Lemma session_ciphers_mirror_witness :
  exists hs enc dec tape',
    generate_client_handshake (C := toy_crypto) demo_secret 2 Intermediate demo_tape
      = Done (hs, enc, dec, tape') /\
    exists cc, build_connection_ciphers (C := toy_crypto) (slice 8 56 hs) demo_secret
                 (seqZ 100 64) = Done cc /\ clt_dec cc = enc /\ clt_enc cc = dec.
Proof.
  eexists _, _, _, _. split; [vm_compute; reflexivity|].
  edestruct (session_ciphers_mirror (C := toy_crypto) (CryptoLaws0 := toy_crypto_laws)
    demo_secret 2 Intermediate demo_tape) with (relay_init := seqZ 100 64)
    as (cc & H1 & H2 & H3 & _).
  - vm_compute. reflexivity.
  - reflexivity.
  - exists cc. split; [exact H1|]. split; [exact H2|exact H3].
Defined.

Lemma relay_init_terminates_witness :
  exists init,
    generate_relay_init (C := toy_crypto) Abridged 5
      (concat [replicate 64 0xef] ++ seqZ 10 64 ++ [7; 9] ++ seqZ 3 70)
    = Done (init, seqZ 3 70) /\ take 56 init = take 56 (seqZ 10 64).
Proof.
  apply (relay_init_terminates (C := toy_crypto) (CryptoLaws0 := toy_crypto_laws)).
  - repeat constructor.
  - reflexivity.
  - reflexivity.
  - reflexivity.
Defined.

Lemma parse_handshake_decides_witness :
  exists r, parse_handshake (C := toy_crypto) (seqZ 10 64) demo_secret = Done r /\ r = None.
Proof.
  destruct (parse_handshake_decides (C := toy_crypto) (CryptoLaws0 := toy_crypto_laws)
    (seqZ 10 64) demo_secret) as (r & H1 & H2).
  - reflexivity.
  - exists r. split; [exact H1|]. exact H2.
Defined.

Lemma secret_layout_witness :
  secret_key (0xee :: demo_secret ++ [97; 46; 98]) = demo_secret /\
  faketls_hostname (0xee :: demo_secret ++ [97; 46; 98]) = Some [97; 46; 98].
Proof.
  destruct (secret_layout 0xee demo_secret [97; 46; 98]) as (H1 & _ & _ & _ & H5).
  - reflexivity.
  - split; [apply H1; left; reflexivity|exact H5].
Defined.
