(* ===== verification/Splitter.v ===== *)
(** * splitter.rs: cutting the client stream into MTProto packets

    [MsgSplitter] receives the decrypted client stream in arbitrary chunks,
    encrypts it in place for Telegram and emits one buffer per MTProto packet.
    The model keeps the splitter's fields, the mutable [plaintext] buffer and
    the cipher state; every slice, subtraction and [expect] of the source is an
    operation that can panic.  [framing] is the specification: the transport
    framing of a plaintext stream. *)
From S2P Require Import Prelude CryptoApi Crypto.

Local Open Scope Z_scope.

Definition MAX_HEADER_LEN : nat := 4.

Record MsgSplitter : Type := mkMsgSplitter {
  sp_proto : ProtoTag;
  sp_packet : bytes;
  sp_header : bytes;
  sp_header_len : nat;
  sp_packet_len : option Z;
  sp_disabled : bool;
}.

Definition splitter_new (proto : ProtoTag) : MsgSplitter :=
  mkMsgSplitter proto [] (replicate MAX_HEADER_LEN 0) 0 None false.

Definition set_packet (p : bytes) (st : MsgSplitter) : MsgSplitter :=
  mkMsgSplitter (sp_proto st) p (sp_header st) (sp_header_len st) (sp_packet_len st)
    (sp_disabled st).
Definition set_header (h : bytes) (n : nat) (st : MsgSplitter) : MsgSplitter :=
  mkMsgSplitter (sp_proto st) (sp_packet st) h n (sp_packet_len st) (sp_disabled st).
Definition set_packet_len (n : option Z) (st : MsgSplitter) : MsgSplitter :=
  mkMsgSplitter (sp_proto st) (sp_packet st) (sp_header st) (sp_header_len st) n
    (sp_disabled st).
Definition set_disabled (b : bool) (st : MsgSplitter) : MsgSplitter :=
  mkMsgSplitter (sp_proto st) (sp_packet st) (sp_header st) (sp_header_len st)
    (sp_packet_len st) b.

(** [matches!(b, 0x7f | 0xff)]: the abridged marker of a 3-byte length. *)
Definition is_extended (b : Z) : bool := (b =? 0x7f) || (b =? 0xff).

(** The next state of the [while] loop, or an early [return]. *)
Inductive flow (S R : Type) : Type :=
| Continue (s : S)
| Return (r : R).
Arguments Continue {S R} s.
Arguments Return {S R} r.

Section splitter.
Context {C : Crypto}.
(** [usize::MAX] of the target. *)
Context (usize_max : Z).
Local Open Scope run_scope.

Definition checked_mul (a b : Z) : option Z := if a * b <=? usize_max then Some (a * b) else None.
Definition checked_add (a b : Z) : option Z := if a + b <=? usize_max then Some (a + b) else None.

(** [self.header[0]]: the array always has four elements. *)
Definition header0 (st : MsgSplitter) : Z := nth 0 (sp_header st) 0.

Definition required_header_len (st : MsgSplitter) : nat :=
  match sp_proto st with
  | Abridged =>
      if (sp_header_len st =? 0)%nat || negb (is_extended (header0 st)) then 1%nat else 4%nat
  | Intermediate | PaddedIntermediate => 4%nat
  end.

Definition parsed_packet_len (st : MsgSplitter) : option Z :=
  match sp_proto st with
  | Abridged =>
      let extended := is_extended (header0 st) in
      let header_len := if extended then 4%nat else 1%nat in
      if (sp_header_len st <? header_len)%nat then None
      else
        let words := if extended then from_le (slice 1 4 (sp_header st) ++ [0])
                     else Z.land (header0 st) 0x7f in
        match checked_mul words 4 with
        | None => None
        | Some payload_len =>
            if payload_len =? 0 then Some 0
            else Some (default 0 (checked_add payload_len (Z.of_nat header_len)))
        end
  | Intermediate | PaddedIntermediate =>
      if (sp_header_len st <? 4)%nat then None
      else
        let payload_len := Z.land (from_le (sp_header st)) 0x7fffffff in
        if payload_len =? 0 then Some 0
        else Some (default 0 (checked_add payload_len 4))
  end.

(** What the loop mutates: the splitter, the caller's buffer, the cipher, the
    read offset and the emitted parts. *)
Record loop_state : Type := mkLoop {
  ls_st : MsgSplitter;
  ls_buf : bytes;
  ls_enc : cipher;
  ls_offset : nat;
  ls_parts : list bytes;
}.

(** [self.encrypt_into_packet(&mut plaintext[from..to], enc)]. *)
Definition encrypt_into_packet (from to : nat) (s : loop_state) : run loop_state :=
  let! plaintext := slice_run from to (ls_buf s) in
  let '(enc, out) := cipher_apply (ls_enc s) plaintext in
  Done (mkLoop (set_packet (sp_packet (ls_st s) ++ out) (ls_st s))
          (splice from out (ls_buf s)) enc (ls_offset s) (ls_parts s)).

(** [self.header[at..at + src.len()].copy_from_slice(src)]. *)
Definition copy_into_header (at_ : nat) (src : bytes) (st : MsgSplitter) : run MsgSplitter :=
  if (at_ + length src <=? length (sp_header st))%nat
  then Done (set_header (splice at_ src (sp_header st)) (sp_header_len st) st) else Panic.

Definition set_offset (n : nat) (s : loop_state) : loop_state :=
  mkLoop (ls_st s) (ls_buf s) (ls_enc s) n (ls_parts s).
Definition set_st (st : MsgSplitter) (s : loop_state) : loop_state :=
  mkLoop st (ls_buf s) (ls_enc s) (ls_offset s) (ls_parts s).
(** [parts.push(std::mem::take(&mut self.packet))]. *)
Definition push_packet (s : loop_state) : loop_state :=
  mkLoop (set_packet [] (ls_st s)) (ls_buf s) (ls_enc s) (ls_offset s)
    (ls_parts s ++ [sp_packet (ls_st s)]).

(** The second half of an iteration: the packet length is known. *)
Definition payload_phase (s : loop_state) : run (flow loop_state loop_state) :=
  match sp_packet_len (ls_st s) with
  | None => Panic
  | Some packet_len =>
      let! remaining := usize_sub packet_len (Z.of_nat (length (sp_packet (ls_st s)))) in
      let! avail := usize_sub (Z.of_nat (length (ls_buf s))) (Z.of_nat (ls_offset s)) in
      let take_ := Z.to_nat (Z.min remaining avail) in
      let end_ := (ls_offset s + take_)%nat in
      let! s := encrypt_into_packet (ls_offset s) end_ s in
      let s := set_offset end_ s in
      if Z.of_nat (length (sp_packet (ls_st s))) =? packet_len then
        let s := push_packet s in
        Done (Continue (set_st (set_packet_len None (set_header (sp_header (ls_st s)) 0 (ls_st s))) s))
      else Done (Continue s)
  end.

(** The first half: collect the header bytes, then parse it. *)
Definition read_header (required : nat) (s : loop_state) : run loop_state :=
  let! missing := usize_sub (Z.of_nat required) (Z.of_nat (sp_header_len (ls_st s))) in
  let! avail := usize_sub (Z.of_nat (length (ls_buf s))) (Z.of_nat (ls_offset s)) in
  let take_ := Z.to_nat (Z.min missing avail) in
  let end_ := (ls_offset s + take_)%nat in
  let! src := slice_run (ls_offset s) end_ (ls_buf s) in
  let! st := copy_into_header (sp_header_len (ls_st s)) src (ls_st s) in
  let st := set_header (sp_header st) (sp_header_len st + take_) st in
  let! s := encrypt_into_packet (ls_offset s) end_ (set_st st s) in
  Done (set_offset end_ s).

Definition header_phase (s : loop_state) : run (flow loop_state loop_state) :=
  let required := required_header_len (ls_st s) in
  let! s := read_header required s in
  if (sp_header_len (ls_st s) <? required)%nat then Done (Continue s)
  else
    match parsed_packet_len (ls_st s) with
    | None => Done (Continue s)
    | Some packet_len =>
        if packet_len =? 0 then
          let! s := encrypt_into_packet (ls_offset s) (length (ls_buf s)) s in
          let s := push_packet s in
          Done (Return (set_st (set_header (sp_header (ls_st s)) 0 (set_disabled true (ls_st s))) s))
        else payload_phase (set_st (set_packet_len (Some packet_len) (ls_st s)) s)
    end.

Definition split_iter (s : loop_state) : run (flow loop_state loop_state) :=
  match sp_packet_len (ls_st s) with
  | None => header_phase s
  | Some _ => payload_phase s
  end.

Fixpoint split_loop (fuel : nat) (s : loop_state) : run loop_state :=
  if (ls_offset s <? length (ls_buf s))%nat then
    match fuel with
    | O => OutOfFuel
    | S fuel =>
        let! r := split_iter s in
        match r with
        | Continue s => split_loop fuel s
        | Return s => Done s
        end
    end
  else Done s.

(** The emitted parts, and the splitter, buffer and cipher afterwards. *)
Definition split_and_encrypt (st : MsgSplitter) (plaintext : bytes) (enc : cipher)
  : run (list bytes * MsgSplitter * bytes * cipher) :=
  match plaintext with
  | [] => Done ([], st, plaintext, enc)
  | _ =>
      if sp_disabled st then
        let '(enc, out) := cipher_apply enc plaintext in
        Done ([out], st, out, enc)
      else
        let! s := split_loop (length plaintext) (mkLoop st plaintext enc 0 []) in
        Done (ls_parts s, ls_st s, ls_buf s, ls_enc s)
  end.

Definition flush (st : MsgSplitter) : list bytes * MsgSplitter :=
  match sp_packet st with
  | [] => ([], st)
  | packet => ([packet], set_packet [] (set_packet_len None (set_header (sp_header st) 0 st)))
  end.

(** Feeding a sequence of reads, as the upload loop does. *)
Fixpoint split_all (st : MsgSplitter) (chunks : list bytes) (enc : cipher)
  : run (list bytes * MsgSplitter * cipher) :=
  match chunks with
  | [] => Done ([], st, enc)
  | chunk :: chunks =>
      let! r := split_and_encrypt st chunk enc in
      let '(parts, st, _, enc) := r in
      let! r := split_all st chunks enc in
      let '(parts', st, enc) := r in
      Done (parts ++ parts', st, enc)
  end.
End splitter.

(** ** Specification: MTProto transport framing

    [frame_len] is the total length (header included) announced by the bytes at
    the head of a stream: [None] while the header is incomplete, [Some 0] for a
    zero-length packet, which no transport allows. *)
Definition frame_len (proto : ProtoTag) (s : bytes) : option Z :=
  match proto with
  | Abridged =>
      match s with
      | [] => None
      | b :: t =>
          if is_extended b then
            match t with
            | b1 :: b2 :: b3 :: _ =>
                let words := from_le [b1; b2; b3] in
                Some (if words =? 0 then 0 else 4 * words + 4)
            | _ => None
            end
          else
            let words := Z.land b 0x7f in
            Some (if words =? 0 then 0 else 4 * words + 1)
      end
  | Intermediate | PaddedIntermediate =>
      match s with
      | b0 :: b1 :: b2 :: b3 :: _ =>
          let n := Z.land (from_le [b0; b1; b2; b3]) 0x7fffffff in
          Some (if n =? 0 then 0 else n + 4)
      | _ => None
      end
  end.

(** [framing proto s frames rest bad]: the stream [s] is the packets [frames]
    followed by the incomplete packet [rest]; with [bad], the last element of
    [frames] is everything from a zero-length header on. *)
Inductive framing (proto : ProtoTag) : bytes -> list bytes -> bytes -> bool -> Prop :=
| framing_header s :
    frame_len proto s = None -> framing proto s [] s false
| framing_partial s n :
    frame_len proto s = Some n -> Z.of_nat (length s) < n -> framing proto s [] s false
| framing_zero s :
    frame_len proto s = Some 0 -> framing proto s [s] [] true
| framing_packet f s n frames rest bad :
    frame_len proto f = Some n -> n = Z.of_nat (length f) -> 0 < n ->
    framing proto s frames rest bad ->
    framing proto (f ++ s) (f :: frames) rest bad.

(** ** Framing lemmas *)
Lemma frame_len_app proto s t n : frame_len proto s = Some n -> frame_len proto (s ++ t) = Some n.
Proof.
  destruct proto, s as [|b0 [|b1 [|b2 [|b3 s]]]]; simpl; try done; by destruct (is_extended b0).
Qed.

Lemma land_mod_ones a w : 0 <= w -> Z.land a (2 ^ w - 1) = a mod 2 ^ w.
Proof. intros. rewrite <- Z.land_ones by done. f_equal. rewrite Z.ones_equiv. lia. Qed.

Lemma land_7f a : 0 <= Z.land a 0x7f < 128.
Proof. change 0x7f with (2 ^ 7 - 1). rewrite land_mod_ones by lia. apply Z.mod_pos_bound. lia. Qed.

Lemma land_31 a : 0 <= Z.land a 0x7fffffff < 2 ^ 31.
Proof.
  change 0x7fffffff with (2 ^ 31 - 1). rewrite land_mod_ones by lia. apply Z.mod_pos_bound. lia.
Qed.

Ltac byte_facts :=
  repeat match goal with
  | H : bytes_ok (_ :: _) |- _ => apply Forall_cons_1 in H as [? H]
  | H : byte_ok _ |- _ => unfold byte_ok in H
  end.

Lemma frame_len_range proto s n :
  bytes_ok s -> frame_len proto s = Some n -> 0 <= n < 2 ^ 32.
Proof.
  intros Hs. destruct proto, s as [|b0 [|b1 [|b2 [|b3 s]]]]; simpl; try done;
    byte_facts; try (destruct (is_extended b0)); intros; simplify_eq;
    pose proof (land_7f b0);
    try pose proof (land_31 (b0 + 256 * (b1 + 256 * (b2 + 256 * (b3 + 256 * 0)))));
    case_match; boolify; lia.
Qed.

(** A known non-zero length exceeds the header that announced it. *)
Lemma frame_len_exceeds proto s b n :
  bytes_ok (s ++ [b]) -> frame_len proto s = None -> frame_len proto (s ++ [b]) = Some n ->
  n <> 0 -> Z.of_nat (length (s ++ [b])) < n.
Proof.
  intros Hs. destruct proto, s as [|b0 [|b1 [|b2 [|b3 s]]]]; simpl in *; try done;
    byte_facts; try (destruct (is_extended b) || destruct (is_extended b0));
    intros; simplify_eq; repeat case_match; boolify; simplify_eq; try lia;
    first [pose proof (land_7f b); lia | destruct s; simplify_eq/= | idtac].
  all: try pose proof (land_31 (b0 + 256 * (b1 + 256 * (b2 + 256 * (b + 256 * 0))))); lia.
Qed.

(** What the first announced length says about a framing. *)
Lemma framing_inv proto s fs r b :
  framing proto s fs r b ->
  match frame_len proto s with
  | None => fs = [] /\ r = s /\ b = false
  | Some n =>
      (n = 0 /\ fs = [s] /\ r = [] /\ b = true) \/
      (Z.of_nat (length s) < n /\ fs = [] /\ r = s /\ b = false) \/
      (0 < n <= Z.of_nat (length s) /\ exists fs', fs = take (Z.to_nat n) s :: fs' /\
         framing proto (drop (Z.to_nat n) s) fs' r b)
  end.
Proof.
  intros H. destruct H as [s Hn|s n Hn Hl|s Hz|f s n fs r b Hn Hl Hp H].
  - by rewrite Hn.
  - rewrite Hn. right. by left.
  - rewrite Hz. by left.
  - rewrite (frame_len_app _ _ _ _ Hn). right; right. subst n. rewrite Nat2Z.id.
    split; [len|]. exists fs. by rewrite take_app_length, drop_app_length.
Qed.

Lemma framing_det proto s f1 r1 b1 f2 r2 b2 :
  framing proto s f1 r1 b1 -> framing proto s f2 r2 b2 -> f1 = f2 /\ r1 = r2 /\ b1 = b2.
Proof.
  intros H. revert f2 r2 b2.
  induction H as [s Hn|s n Hn Hl|s Hz|f s n fs r b Hn Hl Hp H IH];
    intros f2 r2 b2 H2; apply framing_inv in H2.
  - rewrite Hn in H2. by destruct H2 as (-> & -> & ->).
  - rewrite Hn in H2. destruct H2 as [?|[(_ & -> & -> & ->)|(? & _)]]; [lia|done|lia].
  - rewrite Hz in H2. destruct H2 as [(_ & -> & -> & ->)|[?|(? & _)]]; [done|lia|lia].
  - rewrite (frame_len_app _ _ _ _ Hn) in H2. subst n.
    destruct H2 as [?|[[? _]|(_ & fs' & -> & H2)]]; [lia|len|].
    rewrite Nat2Z.id, take_app_length, drop_app_length in *.
    edestruct IH as (-> & -> & ->); done.
Qed.

(** Framing a concatenation continues from the incomplete packet. *)
Lemma framing_app proto s t fs rest fs' rest' b :
  framing proto s fs rest false -> framing proto (rest ++ t) fs' rest' b ->
  framing proto (s ++ t) (fs ++ fs') rest' b.
Proof.
  intros H. remember false as ok eqn:Eok.
  induction H as [| | |f s n fs r b' Hn Hl Hp H IH]; intros HT; simplify_eq; try done.
  simpl. rewrite <- app_assoc. econstructor; eauto.
Qed.

Lemma framing_concat proto s frames left bad :
  framing proto s frames left bad -> s = concat frames ++ left.
Proof. induction 1; simplify_eq/=; rewrite ?app_nil_r, <- ?app_assoc; congruence. Qed.

(** The announced length only depends on the packet it announces. *)
Lemma framing_cut proto s n :
  bytes_ok s -> frame_len proto s = Some n -> 0 < n -> n <= Z.of_nat (length s) ->
  exists f r, s = f ++ r /\ frame_len proto f = Some n /\ n = Z.of_nat (length f).
Proof.
  intros Hok E Hp Hle. exists (take (Z.to_nat n) s), (drop (Z.to_nat n) s).
  rewrite take_drop, length_take_le by lia. split_and!; [done| |lia].
  assert (forall k, Z.to_nat n = k -> n = Z.of_nat k) as Hn by lia.
  destruct proto, s as [|b0 [|b1 [|b2 [|b3 s]]]]; simpl in *; byte_facts; try done;
    try (destruct (is_extended b0) eqn:Ex); try done;
    destruct (Z.to_nat n) as [|[|[|[|k]]]] eqn:Ek; simpl; rewrite ?Ex; try done;
    specialize (Hn _ eq_refl); simplify_eq; exfalso; case_match; boolify; try lia.
  all: match goal with H : Z.land ?x _ <> 0 |- _ => pose proof (land_31 x); lia end.
Qed.

(** Every stream has a framing. *)
Lemma framing_total proto s :
  bytes_ok s -> exists frames left bad, framing proto s frames left bad.
Proof.
  remember (length s) as m eqn:Hm. revert s Hm.
  induction (lt_wf m) as [m _ IH]; intros s -> Hok.
  destruct (frame_len proto s) as [n|] eqn:E; [|eexists _, _, _; by apply framing_header].
  pose proof (frame_len_range _ _ _ Hok E).
  destruct (decide (n = 0)) as [->|]; [eexists _, _, _; by apply framing_zero|].
  destruct (decide (Z.of_nat (length s) < n)); [eexists _, _, _; by eapply framing_partial|].
  destruct (framing_cut proto s n Hok E) as (f & r & -> & Hf & Hl); [lia|lia|].
  apply Forall_app in Hok as [_ Hok].
  destruct (IH (length r)) with (s := r) as (frames & left & bad & HF); [len|done|done|].
  exists (f :: frames), left, bad. eapply framing_packet; [done|lia|lia|done].
Qed.

Lemma framing_bad_rest proto s frames left : framing proto s frames left true -> left = [].
Proof. remember true as b eqn:E. induction 1; simplify_eq; auto. Qed.

(** Bad framing stays bad as the stream goes on. *)
Lemma framing_bad_app proto s frames left t :
  framing proto s frames left true -> exists frames', framing proto (s ++ t) frames' [] true.
Proof.
  remember true as b eqn:E. induction 1 as [| |s Hz|f s n fs r b Hn Hl Hp H IH]; simplify_eq.
  - exists [s ++ t]. by apply framing_zero, frame_len_app.
  - destruct IH as [fs' IH]; [done|]. exists (f :: fs'). rewrite <- app_assoc.
    by eapply framing_packet.
Qed.

(** ** The representation relation *)

(** [rep st pt]: the splitter holds the incomplete packet whose plaintext is
    [pt].  Its length is announced and not reached, or its header is still
    being collected. *)
Definition rep (st : MsgSplitter) (pt : bytes) : Prop :=
  sp_disabled st = false /\ length (sp_packet st) = length pt /\ bytes_ok pt /\
  length (sp_header st) = 4%nat /\
  match sp_packet_len st with
  | Some n => frame_len (sp_proto st) pt = Some n /\ Z.of_nat (length pt) < n
  | None =>
      frame_len (sp_proto st) pt = None /\ sp_header_len st = length pt /\
      take (length pt) (sp_header st) = pt
  end.

Lemma rep_new proto : rep (splitter_new proto) [].
Proof. by destruct proto. Qed.

Lemma rep_framing st pt : rep st pt -> framing (sp_proto st) pt [] pt false.
Proof.
  intros (_ & _ & _ & _ & H). destruct (sp_packet_len st) as [n|].
  - destruct H. by eapply framing_partial.
  - destruct H as [H _]. by apply framing_header.
Qed.

(** A message that is worth sending. *)
Abbreviation nonempty := (fun m : bytes => m <> []).

Section refinement.
Context {C : Crypto} `{!CryptoLaws C} (usize_max : Z) (Husize : 2 ^ 32 - 1 <= usize_max).
Implicit Types (s : loop_state) (st : MsgSplitter).

Lemma checked_mul_ok a b : a * b <= usize_max -> checked_mul usize_max a b = Some (a * b).
Proof. intros. unfold checked_mul. by rewrite (proj2 (Z.leb_le _ _)). Qed.

Lemma checked_add_ok a b : a + b <= usize_max -> checked_add usize_max a b = Some (a + b).
Proof. intros. unfold checked_add. by rewrite (proj2 (Z.leb_le _ _)). Qed.

Lemma usize_sub_ok a b : b <= a -> usize_sub a b = Done (a - b).
Proof. intros. unfold usize_sub. by rewrite (proj2 (Z.leb_le _ _)). Qed.

(** The header fields determine [frame_len]: no checked operation fails. *)
Lemma parsed_packet_len_frame st pt :
  bytes_ok pt -> pt <> [] -> (length pt <= 4)%nat -> length (sp_header st) = 4%nat ->
  sp_header_len st = length pt -> take (length pt) (sp_header st) = pt ->
  parsed_packet_len usize_max st = frame_len (sp_proto st) pt.
Proof.
  intros Hok Hne Hle Hh Hhl Ht. unfold parsed_packet_len, header0. rewrite Hhl.
  destruct (sp_header st) as [|h0 [|h1 [|h2 [|h3 [|]]]]]; try done. clear Hh Hhl.
  assert (forall x, 0 <= 4 * x + 4 < 2 ^ 32 ->
    checked_add usize_max (4 * x) 4 = Some (4 * x + 4)) as Ha
    by (intros; apply checked_add_ok; lia).
  destruct pt as [|p0 [|p1 [|p2 [|p3 [|]]]]]; simplify_eq/=; try done; try lia;
    byte_facts; destruct (sp_proto st); simpl; try done;
    try (destruct (is_extended _) eqn:Ex; simpl; try done).
  all: try (match goal with |- context [Z.land ?x 127] => pose proof (land_7f x) end;
    rewrite checked_mul_ok, checked_add_ok by lia; simpl;
    repeat case_match; boolify; f_equal; lia).
  all: try (rewrite checked_mul_ok, checked_add_ok by lia; simpl;
    repeat case_match; boolify; f_equal; lia).
  all: match goal with |- context [Z.land ?x 2147483647] => pose proof (land_31 x) end;
    rewrite checked_add_ok by lia; simpl; repeat case_match; boolify; f_equal; lia.
Qed.

Lemma encrypt_into_packet_spec s pre x rest :
  ls_buf s = pre ++ x ++ rest ->
  encrypt_into_packet (length pre) (length pre + length x) s =
    Done (mkLoop (set_packet (sp_packet (ls_st s) ++ encrypt (ls_enc s) x) (ls_st s))
            (pre ++ encrypt (ls_enc s) x ++ rest) (advance (ls_enc s) (length x))
            (ls_offset s) (ls_parts s)).
Proof.
  intros E. unfold encrypt_into_packet. rewrite E, slice_run_mid. cbn [run_bind].
  rewrite cipher_apply_encrypt, splice_mid by by rewrite length_encrypt. done.
Qed.

(** One call of [encrypt_into_packet] over the next [x] bytes of the buffer:
    the part of the loop state every branch shares. *)
Definition consumed (s : loop_state) (pre x rest : bytes) (s' : loop_state) : Prop :=
  ls_buf s' = (pre ++ encrypt (ls_enc s) x) ++ rest /\
  ls_enc s' = advance (ls_enc s) (length x) /\
  sp_proto (ls_st s') = sp_proto (ls_st s).

Lemma consumed_trans s s1 s2 pre x y z rest :
  consumed s pre x z s1 ->
  consumed s1 (pre ++ encrypt (ls_enc s) x) y rest s2 -> consumed s pre (x ++ y) rest s2.
Proof.
  unfold consumed. intros (_ & E1 & P1) (B2 & E2 & P2).
  rewrite (encrypt_app _ x y), (length_app x y), advance_add.
  rewrite E1, P1 in *. by rewrite B2, <- !app_assoc.
Qed.

(** The three ways an iteration that read [x] can end. *)
Inductive iter_outcome (s : loop_state) (pt pre x rest : bytes) : flow loop_state loop_state -> Prop :=
| iter_more s' :
    consumed s pre x rest s' -> ls_offset s' = length (pre ++ encrypt (ls_enc s) x) ->
    rep (ls_st s') (pt ++ x) ->
    sp_packet (ls_st s') = sp_packet (ls_st s) ++ encrypt (ls_enc s) x ->
    ls_parts s' = ls_parts s ->
    iter_outcome s pt pre x rest (Continue s')
| iter_packet s' :
    consumed s pre x rest s' -> ls_offset s' = length (pre ++ encrypt (ls_enc s) x) ->
    frame_len (sp_proto (ls_st s)) (pt ++ x) = Some (Z.of_nat (length (pt ++ x))) ->
    rep (ls_st s') [] -> sp_packet (ls_st s') = [] ->
    ls_parts s' = ls_parts s ++ [sp_packet (ls_st s) ++ encrypt (ls_enc s) x] ->
    iter_outcome s pt pre x rest (Continue s')
| iter_zero s' :
    consumed s pre x rest s' -> rest = [] ->
    frame_len (sp_proto (ls_st s)) (pt ++ x) = Some 0 ->
    sp_disabled (ls_st s') = true -> sp_packet (ls_st s') = [] ->
    ls_parts s' = ls_parts s ++ [sp_packet (ls_st s) ++ encrypt (ls_enc s) x] ->
    iter_outcome s pt pre x rest (Return s').

Lemma payload_phase_spec s pt pre rest n :
  sp_disabled (ls_st s) = false -> length (sp_packet (ls_st s)) = length pt ->
  bytes_ok (pt ++ rest) -> length (sp_header (ls_st s)) = 4%nat ->
  sp_packet_len (ls_st s) = Some n -> frame_len (sp_proto (ls_st s)) pt = Some n ->
  Z.of_nat (length pt) < n ->
  ls_buf s = pre ++ rest -> ls_offset s = length pre ->
  exists x rest' r,
    rest = x ++ rest' /\ (rest <> [] -> x <> []) /\ payload_phase s = Done r /\
    iter_outcome s pt pre x rest' r.
Proof.
  intros Hd Hp Hok Hh Hn Hf Hlt Hb Ho.
  set (k := Z.to_nat (Z.min (n - Z.of_nat (length pt)) (Z.of_nat (length rest)))).
  assert (length (take k rest) = k) as Hk by (rewrite length_take; lia).
  exists (take k rest), (drop k rest).
  unfold payload_phase. rewrite Hn, Hp, usize_sub_ok by lia. cbn [run_bind].
  rewrite Hb, Ho, length_app, usize_sub_ok by lia. cbn [run_bind].
  replace (Z.of_nat (length pre + length rest) - Z.of_nat (length pre))
    with (Z.of_nat (length rest)) by lia. fold k.
  replace (length pre + k)%nat with (length pre + length (take k rest))%nat by lia.
  rewrite (encrypt_into_packet_spec s pre (take k rest) (drop k rest))
    by (by rewrite take_drop).
  cbn [run_bind set_offset ls_st sp_packet set_packet].
  rewrite length_app, length_encrypt, Hk, Hp.
  assert (frame_len (sp_proto (ls_st s)) (pt ++ take k rest) = Some n) as Hf'
    by by apply frame_len_app.
  assert (bytes_ok (pt ++ take k rest)) as Hok'.
  { apply Forall_app in Hok as [? ?]. apply Forall_app. split; [done|by apply Forall_take]. }
  assert (rest <> [] -> take k rest <> []) as Hne.
  { intros Hne E. apply (f_equal length) in E. destruct rest; [done|].
    rewrite Hk in E. simpl in *. lia. }
  destruct (Z.of_nat (length pt + k) =? n) eqn:E; boolify; eexists;
    (split_and!; [by rewrite take_drop|done|done|]).
  - apply iter_packet; simpl; try done.
    + unfold consumed. simpl. by rewrite <- app_assoc, Hk.
    + by rewrite !length_app, length_encrypt, Hk.
    + rewrite Hf', length_app, Hk. by f_equal.
    + unfold rep. simpl. destruct (sp_proto (ls_st s)); split_and!; done.
  - apply iter_more; simpl; try done.
    + unfold consumed. simpl. by rewrite <- app_assoc, Hk.
    + by rewrite !length_app, length_encrypt, Hk.
    + unfold rep. simpl. rewrite Hn, !length_app, length_encrypt, Hk, Hp.
      split_and!; try done. lia.
Qed.

(** Two consecutive reads compose. *)
Lemma iter_outcome_trans s s2 pt pre x y rest r :
  ls_enc s2 = advance (ls_enc s) (length x) -> sp_proto (ls_st s2) = sp_proto (ls_st s) ->
  sp_packet (ls_st s2) = sp_packet (ls_st s) ++ encrypt (ls_enc s) x ->
  ls_parts s2 = ls_parts s ->
  iter_outcome s2 (pt ++ x) (pre ++ encrypt (ls_enc s) x) y rest r ->
  iter_outcome s pt pre (x ++ y) rest r.
Proof.
  intros He Hpr Hp Hparts H.
  assert (forall s', consumed s2 (pre ++ encrypt (ls_enc s) x) y rest s' ->
    consumed s pre (x ++ y) rest s') as Hc.
  { intros s'. unfold consumed. rewrite He, Hpr, (encrypt_app _ x y), (length_app x y), advance_add.
    by rewrite !app_assoc. }
  destruct H as [s' HC HO HR HP HS|s' HC HO HF HR HP HS|s' HC HE HF HD HP HS];
    rewrite <- ?app_assoc, ?He, ?Hpr, ?Hp, ?Hparts in *;
    rewrite <- ?app_assoc in *; rewrite <- ?encrypt_app in *.
  - apply iter_more; auto.
  - apply iter_packet; auto.
  - apply iter_zero; auto.
Qed.

Lemma required_header_len_spec st pt :
  length (sp_header st) = 4%nat -> sp_header_len st = length pt ->
  take (length pt) (sp_header st) = pt -> frame_len (sp_proto st) pt = None ->
  (length pt < required_header_len st <= 4)%nat /\
  (forall x, (length (pt ++ x) < required_header_len st)%nat ->
     frame_len (sp_proto st) (pt ++ x) = None).
Proof.
  intros Hh Hl Ht Hf. unfold required_header_len, header0. rewrite Hl.
  destruct (sp_header st) as [|h0 [|h1 [|h2 [|h3 [|]]]]]; try done.
  destruct pt as [|p0 [|p1 [|p2 [|p3 pt]]]], (sp_proto st); simplify_eq/=; try done;
    try (destruct (is_extended _) eqn:Ex; simplify_eq/=);
    split; try lia; intros [|x0 [|x1 [|x2 [|]]]]; simpl; rewrite ?Ex; try done; lia.
Qed.

Lemma take_splice_header (pt x header : bytes) :
  take (length pt) header = pt -> (length pt + length x <= length header)%nat ->
  take (length (pt ++ x)) (splice (length pt) x header) = pt ++ x.
Proof.
  intros Ht Hl. unfold splice. rewrite Ht, app_assoc. apply take_app_length.
Qed.

Lemma last_app_inv (l : bytes) : l <> [] -> exists front b, l = front ++ [b].
Proof. destruct l using rev_ind; [done|eauto]. Qed.

(** Reading [x], up to the required header length. *)
Lemma read_header_spec s pt pre rest R :
  rep (ls_st s) pt -> sp_packet_len (ls_st s) = None ->
  (length pt < R <= 4)%nat -> rest <> [] ->
  ls_buf s = pre ++ rest -> ls_offset s = length pre ->
  exists x rest' header',
    let st' := set_packet (sp_packet (ls_st s) ++ encrypt (ls_enc s) x)
                 (set_header header' (length (pt ++ x)) (ls_st s)) in
    rest = x ++ rest' /\ x <> [] /\ (length (pt ++ x) <= R)%nat /\
    length header' = 4%nat /\ take (length (pt ++ x)) header' = pt ++ x /\
    read_header R s = Done (mkLoop st' ((pre ++ encrypt (ls_enc s) x) ++ rest')
      (advance (ls_enc s) (length x)) (length (pre ++ encrypt (ls_enc s) x)) (ls_parts s)).
Proof.
  intros (Hd & Hp & _ & Hh & Hm) Hn Hreq Hne Hb Ho. rewrite Hn in Hm.
  destruct Hm as (Hf & Hhl & Ht).
  set (k := Z.to_nat (Z.min (Z.of_nat R - Z.of_nat (length pt)) (Z.of_nat (length rest)))).
  assert (1 <= length rest)%nat by (destruct rest; [done|simpl; lia]).
  assert (1 <= k <= length rest /\ length pt + k <= R)%nat as Hk by lia.
  assert (length (take k rest) = k) as Hx by (rewrite length_take; lia).
  exists (take k rest), (drop k rest), (splice (length pt) (take k rest) (sp_header (ls_st s))).
  split_and!.
  - by rewrite take_drop.
  - intros E. rewrite E in Hx. simpl in Hx. lia.
  - rewrite length_app. lia.
  - rewrite length_splice; lia.
  - apply take_splice_header; [done|lia].
  - unfold read_header. rewrite Hhl, usize_sub_ok by lia. cbn [run_bind].
    rewrite Hb, Ho, length_app, usize_sub_ok by lia. cbn [run_bind].
    replace (Z.of_nat (length pre + length rest) - Z.of_nat (length pre))
      with (Z.of_nat (length rest)) by lia. fold k.
    replace (length pre + k)%nat with (length pre + length (take k rest))%nat by lia.
    rewrite <- (take_drop k rest) at 2. rewrite slice_run_mid. cbn [run_bind].
    unfold copy_into_header. rewrite (proj2 (Nat.leb_le _ _)) by lia. cbn [run_bind].
    rewrite (encrypt_into_packet_spec _ pre (take k rest) (drop k rest))
      by (simpl; by rewrite take_drop).
    cbn [run_bind]. unfold set_offset, set_packet, set_st, set_header. simpl.
    by rewrite Hhl, <- app_assoc, !length_app, length_encrypt, Hx.
Qed.

Lemma header_phase_spec s pt pre rest :
  rep (ls_st s) pt -> sp_packet_len (ls_st s) = None ->
  bytes_ok (pt ++ rest) -> rest <> [] ->
  ls_buf s = pre ++ rest -> ls_offset s = length pre ->
  exists x rest' r,
    rest = x ++ rest' /\ x <> [] /\ header_phase usize_max s = Done r /\
    iter_outcome s pt pre x rest' r.
Proof.
  intros Hrep Hn Hok Hne Hb Ho. pose proof Hrep as (Hd & Hp & _ & Hh & Hm).
  rewrite Hn in Hm. destruct Hm as (Hf & Hhl & Ht).
  destruct (required_header_len_spec _ _ Hh Hhl Ht Hf) as [Hreq Hshort].
  destruct (read_header_spec s pt pre rest (required_header_len (ls_st s)))
    as (x & rest' & h' & -> & Hx & Hle & Hh' & Ht' & Hr); try done.
  unfold header_phase. rewrite Hr. clear Hr. cbn [run_bind].
  set (s1 := mkLoop _ _ _ _ _). rewrite app_assoc in Hok. apply Forall_app in Hok as [Hok Hok'].
  assert (parsed_packet_len usize_max (ls_st s1) = frame_len (sp_proto (ls_st s)) (pt ++ x)) as Hpl.
  { apply (parsed_packet_len_frame (ls_st s1)); simpl; try done; [|lia].
    intros E. by apply app_eq_nil in E as [_ ?]. }
  assert (consumed s pre x rest' s1) as Hc by done.
  assert (sp_packet_len (ls_st s1) = None) as Hn1 by done.
  assert (frame_len (sp_proto (ls_st s)) (pt ++ x) = None ->
    iter_outcome s pt pre x rest' (Continue s1)) as Hmore.
  { intros HN. apply iter_more; try done. unfold rep. rewrite Hn1. simpl.
    split_and!; try done. rewrite !length_app, length_encrypt. lia. }
  change (sp_header_len (ls_st s1)) with (length (pt ++ x)).
  case_test; boolify.
  { exists x, rest', (Continue s1). split_and!; auto. }
  rewrite Hpl. destruct (frame_len _ (pt ++ x)) as [n|] eqn:Hfx.
  2: { exists x, rest', (Continue s1). split_and!; auto. }
  case_test; boolify; subst.
  - change (ls_offset s1) with (length (pre ++ encrypt (ls_enc s) x)).
    change (ls_buf s1) with ((pre ++ encrypt (ls_enc s) x) ++ rest').
    rewrite (length_app (pre ++ _) rest').
    rewrite (encrypt_into_packet_spec s1 (pre ++ encrypt (ls_enc s) x) rest' [])
      by (simpl; by rewrite app_nil_r).
    cbn [run_bind]. eexists (x ++ rest'), [], _.
    split_and!; [by rewrite app_nil_r|by destruct x|done|].
    apply (iter_outcome_trans s s1); try done.
    apply iter_zero; try done; [|by apply frame_len_app].
    unfold consumed. simpl. by rewrite <- !app_assoc.
  - set (s2 := set_st _ s1).
    assert (Z.of_nat (length (pt ++ x)) < n) as Hlt.
    { destruct (last_app_inv x Hx) as (y & b & ->). rewrite app_assoc in *.
      eapply frame_len_exceeds; try done.
      apply Hshort. rewrite length_app in Hle. simpl in Hle. lia. }
    destruct (payload_phase_spec s2 (pt ++ x) (pre ++ encrypt (ls_enc s) x) rest' n)
      as (y & rest'' & r & -> & _ & Hr & Hout); try done.
    { simpl. rewrite !length_app, length_encrypt. lia. }
    { by apply Forall_app. }
    exists (x ++ y), rest'', r. split_and!; [by rewrite app_assoc|by destruct x|done|].
    by apply (iter_outcome_trans s s2).
Qed.

Lemma split_iter_spec s pt pre rest :
  rep (ls_st s) pt -> bytes_ok (pt ++ rest) -> rest <> [] ->
  ls_buf s = pre ++ rest -> ls_offset s = length pre ->
  exists x rest' r,
    rest = x ++ rest' /\ x <> [] /\ split_iter usize_max s = Done r /\
    iter_outcome s pt pre x rest' r.
Proof.
  intros Hrep Hok Hne Hb Ho. unfold split_iter.
  destruct (sp_packet_len (ls_st s)) as [n|] eqn:Hn; [|by apply header_phase_spec].
  pose proof Hrep as (Hd & Hp & _ & Hh & Hm). rewrite Hn in Hm. destruct Hm as [Hf Hlt].
  destruct (payload_phase_spec s pt pre rest n) as (x & rest' & r & E & Hx & Hr & Hout); try done.
  exists x, rest', r. auto.
Qed.

(** The loop follows [framing], with one iteration per consumed byte at most. *)
Lemma split_loop_spec fuel s pt pre rest :
  rep (ls_st s) pt -> bytes_ok (pt ++ rest) ->
  ls_buf s = pre ++ rest -> ls_offset s = length pre -> (length rest <= fuel)%nat ->
  exists s' frames left bad parts,
    split_loop usize_max fuel s = Done s' /\
    framing (sp_proto (ls_st s)) (pt ++ rest) frames left bad /\
    consumed s pre rest [] s' /\ ls_parts s' = ls_parts s ++ parts /\
    sp_packet (ls_st s) ++ encrypt (ls_enc s) rest = concat parts ++ sp_packet (ls_st s') /\
    length <$> parts = length <$> frames /\
    (if bad then sp_disabled (ls_st s') = true /\ sp_packet (ls_st s') = []
     else rep (ls_st s') left).
Proof.
  revert s pt pre rest. induction fuel as [|fuel IH]; intros s pt pre rest Hrep Hok Hb Ho Hf;
    (destruct (decide (rest = [])) as [->|Hne];
     [exists s, [], pt, false, []|]); simpl;
    try (rewrite Hb, Ho, length_app; simpl; rewrite (proj2 (Nat.ltb_ge _ _)) by lia;
         rewrite !app_nil_r, encrypt_nil, app_nil_r; unfold consumed; simpl;
         rewrite encrypt_nil, !app_nil_r, advance_0 in *; by auto 10 using rep_framing).
  { destruct rest; [done|simpl in *; lia]. }
  rewrite Hb, Ho, length_app, (proj2 (Nat.ltb_lt _ _)) by (destruct rest; simpl in *; [done|lia]).
  destruct (split_iter_spec s pt pre rest) as (x & rest' & r & -> & Hx & -> & Hout); try done.
  cbn [run_bind]. rewrite app_assoc in Hok.
  assert (length rest' <= fuel)%nat by (destruct x; [done|rewrite length_app in Hf; simpl in *; lia]).
  pose proof Hrep as (_ & Hp & _). rewrite (app_assoc pt x rest').
  destruct Hout as [s1 HC HO HR HP HS|s1 HC HO HF HR HP HS|s1 HC HE HF HD HP HS].
  - pose proof HC as (HC1 & HC2 & HC3).
    destruct (IH s1 (pt ++ x) (pre ++ encrypt (ls_enc s) x) rest')
      as (s' & frames & left & bad & parts & R1 & R2 & R3 & R4 & R5 & R6 & R7); try done.
    exists s', frames, left, bad, parts. rewrite HC3, HS, HP, HC2, <- app_assoc in *.
    rewrite <- encrypt_app in R5. split_and!; try done. by eapply consumed_trans.
  - pose proof HC as (HC1 & HC2 & HC3). apply Forall_app in Hok as [Hok Hok'].
    destruct (IH s1 [] (pre ++ encrypt (ls_enc s) x) rest')
      as (s' & frames & left & bad & parts & R1 & R2 & R3 & R4 & R5 & R6 & R7); try done.
    exists s', ((pt ++ x) :: frames), left, bad, ((sp_packet (ls_st s) ++ encrypt (ls_enc s) x) :: parts).
    rewrite HC3, HS, HP, HC2, <- app_assoc in *. split_and!; try done.
    + rewrite app_assoc. eapply framing_packet; try done.
      destruct x; [done|]. rewrite length_app. simpl. lia.
    + by eapply consumed_trans.
    + simpl. rewrite <- app_assoc, <- R5, encrypt_app, app_assoc. done.
    + simpl. f_equal; [|done]. rewrite !length_app, length_encrypt. lia.
  - subst rest'. exists s1, [pt ++ x], [], true, [sp_packet (ls_st s) ++ encrypt (ls_enc s) x].
    rewrite !app_nil_r in *. split_and!; try done.
    + by apply framing_zero.
    + rewrite HP. simpl. by rewrite !app_nil_r.
    + simpl. f_equal. rewrite !length_app, length_encrypt. lia.
Qed.

(** *** One read *)

(** What the receiver sees: each message decrypted with the running cipher. *)
Fixpoint decrypt_msgs (c : cipher) (msgs : list bytes) : list bytes :=
  match msgs with
  | [] => []
  | m :: msgs => encrypt c m :: decrypt_msgs (advance c (length m)) msgs
  end.

Lemma decrypt_msgs_app c m1 m2 :
  decrypt_msgs c (m1 ++ m2)
  = decrypt_msgs c m1 ++ decrypt_msgs (advance c (length (concat m1))) m2.
Proof.
  revert c. induction m1 as [|m m1 IH]; intros c; simpl; [by rewrite advance_0|].
  by rewrite IH, length_app, advance_add.
Qed.

Lemma decrypt_msgs_cut c parts frames tail left :
  length <$> parts = length <$> frames ->
  concat parts ++ tail = encrypt c (concat frames ++ left) ->
  decrypt_msgs c parts = frames /\ tail = encrypt (advance c (length (concat frames))) left.
Proof.
  revert c frames. induction parts as [|p parts IH]; intros c [|f frames] Hl E; simplify_eq/=.
  - by rewrite advance_0.
  - rewrite <- !app_assoc, encrypt_app in E.
    apply app_inj_1 in E as [-> E]; [|by rewrite length_encrypt].
    rewrite encrypt_involutive, length_encrypt, length_app, advance_add.
    destruct (IH _ _ H0 E) as [-> ->]. done.
Qed.

Lemma encrypt_msgs_concat c parts : encrypt c (concat (decrypt_msgs c parts)) = concat parts.
Proof.
  revert c. induction parts as [|p parts IH]; intros c; simpl; [apply encrypt_nil|].
  by rewrite encrypt_app, encrypt_involutive, length_encrypt, IH.
Qed.

Lemma decrypt_msgs_inj c p1 p2 : decrypt_msgs c p1 = decrypt_msgs c p2 -> p1 = p2.
Proof.
  revert c p2. induction p1 as [|m1 p1 IH]; intros c [|m2 p2] E; simplify_eq/=; [done|].
  assert (m1 = m2) as <-.
  { rewrite <- (encrypt_involutive c m1), <- (encrypt_involutive c m2). by f_equal. }
  f_equal. eauto.
Qed.

Lemma split_chunk_spec st pt chunk c :
  rep st pt -> bytes_ok chunk -> sp_packet st = encrypt c pt ->
  exists parts st' frames left bad,
    split_and_encrypt usize_max st chunk (advance c (length pt)) =
      Done (parts, st', encrypt (advance c (length pt)) chunk, advance c (length (pt ++ chunk))) /\
    sp_proto st' = sp_proto st /\
    framing (sp_proto st) (pt ++ chunk) frames left bad /\
    decrypt_msgs c parts = frames /\ length <$> parts = length <$> frames /\
    sp_packet st' = encrypt (advance c (length (concat frames))) left /\
    (if bad then sp_disabled st' = true else rep st' left).
Proof.
  intros Hrep Hok Hp. unfold split_and_encrypt.
  destruct (decide (chunk = [])) as [->|Hne].
  { exists [], st, [], pt, false. rewrite app_nil_r, encrypt_nil.
    simpl. rewrite advance_0. by auto 10 using rep_framing. }
  pose proof Hrep as (Hd & _ & Hokp & _). rewrite Hd.
  destruct (split_loop_spec (length chunk) (mkLoop st chunk (advance c (length pt)) 0 []) pt []
    chunk) as (s' & frames & left & bad & parts & R1 & R2 & (R3 & R3' & R3'') & R4 & R5 & R6 & R7);
    simpl in *; try done; [by apply Forall_app|].
  rewrite R1. destruct chunk as [|b chunk]; [done|]. cbn [run_bind]. rewrite R4.
  rewrite Hp, <- encrypt_app, (framing_concat _ _ _ _ _ R2) in R5. symmetry in R5.
  destruct (decrypt_msgs_cut _ _ _ _ _ R6 R5) as [D1 D2].
  exists parts, (ls_st s'), frames, left, bad.
  rewrite R3, R3', app_nil_r, length_app, advance_add. split_and!; try done.
  by destruct bad; [destruct R7|].
Qed.

(** *** A sequence of reads *)
Lemma length_concat_eq (l1 l2 : list bytes) :
  length <$> l1 = length <$> l2 -> length (concat l1) = length (concat l2).
Proof.
  revert l2. induction l1 as [|x l1 IH]; intros [|y l2] E; simplify_eq/=; [done|].
  rewrite !length_app. auto.
Qed.

Lemma split_all_good st pt chunks c frames left :
  rep st pt -> Forall bytes_ok chunks -> sp_packet st = encrypt c pt ->
  framing (sp_proto st) (pt ++ concat chunks) frames left false ->
  exists parts st',
    split_all usize_max st chunks (advance c (length pt)) =
      Done (parts, st', advance c (length (pt ++ concat chunks))) /\
    decrypt_msgs c parts = frames /\ length <$> parts = length <$> frames /\
    sp_packet st' = encrypt (advance c (length (concat frames))) left /\
    rep st' left /\ sp_proto st' = sp_proto st.
Proof.
  intros Hrep Hok. revert st pt c frames Hrep.
  induction Hok as [|chunk chunks Hc Hok IH]; intros st pt c frames Hrep Hp HF; simpl in *.
  - rewrite app_nil_r in *. exists [], st.
    destruct (framing_det _ _ _ _ _ _ _ _ HF (rep_framing _ _ Hrep)) as (-> & -> & _).
    simpl. by rewrite advance_0.
  - destruct (split_chunk_spec st pt chunk c Hrep Hc Hp)
      as (parts & st1 & fs & l & bad & -> & Hpr & HF1 & HD & HL & HP1 & HB).
    cbn [run_bind]. rewrite app_assoc in HF. destruct bad.
    { destruct (framing_bad_app _ _ _ _ (concat chunks) HF1) as [fs' HX].
      by destruct (framing_det _ _ _ _ _ _ _ _ HF HX) as (_ & _ & ?). }
    assert (pt ++ chunk = concat fs ++ l) as Hsplit by by eapply framing_concat.
    destruct (framing_total (sp_proto st) (l ++ concat chunks)) as (fs2 & l2 & b2 & HF2).
    { apply Forall_app. split; [apply HB|by apply Forall_concat]. }
    pose proof (framing_app _ _ _ _ _ _ _ _ HF1 HF2) as HF3.
    destruct (framing_det _ _ _ _ _ _ _ _ HF HF3) as (-> & <- & <-).
    rewrite Hsplit, length_app, advance_add.
    rewrite <- Hpr in HF2.
    destruct (IH st1 l _ fs2 HB HP1 HF2) as (parts2 & st2 & -> & HD2 & HL2 & HP2 & HR2 & Hpr2).
    cbn [run_bind]. exists (parts ++ parts2), st2.
    assert (length (concat parts) = length (concat fs)) as Hlen.
    { by apply length_concat_eq. }
    split_and!.
    + by rewrite app_assoc, Hsplit, <- app_assoc, (length_app (concat fs)), advance_add.
    + by rewrite decrypt_msgs_app, HD, Hlen, HD2.
    + by rewrite !fmap_app, HL, HL2.
    + by rewrite concat_app, length_app, advance_add.
    + done.
    + congruence.
Qed.

(** Once disabled, every non-empty read is one message. *)
Lemma split_all_disabled st chunks c :
  sp_disabled st = true ->
  exists parts,
    split_all usize_max st chunks c = Done (parts, st, advance c (length (concat chunks))) /\
    concat parts = encrypt c (concat chunks) /\
    decrypt_msgs c parts = filter nonempty chunks.
Proof.
  intros Hd. revert c. induction chunks as [|ch chunks IH]; intros c; cbn [split_all].
  - exists []. by rewrite advance_0, encrypt_nil.
  - destruct (decide (ch = [])) as [->|Hne].
    + cbn [split_and_encrypt run_bind concat app]. destruct (IH c) as (parts & -> & ? & ?).
      cbn [run_bind]. exists parts. by rewrite filter_cons_False by auto.
    + unfold split_and_encrypt. rewrite Hd, cipher_apply_encrypt.
      destruct (IH (advance c (length ch))) as (parts & E & E1 & E2).
      exists (encrypt c ch :: parts). destruct ch as [|b ch]; [done|].
      cbn [run_bind]. rewrite E. cbn [run_bind concat decrypt_msgs].
      rewrite encrypt_involutive, length_encrypt, E1, E2, length_app, advance_add.
      by rewrite filter_cons_True, encrypt_app by done.
Qed.

Lemma split_all_app st chunks1 chunks2 c :
  split_all usize_max st (chunks1 ++ chunks2) c =
  run_bind (split_all usize_max st chunks1 c) (fun r =>
    run_bind (split_all usize_max r.1.2 chunks2 r.2) (fun r' =>
      Done (r.1.1 ++ r'.1.1, r'.1.2, r'.2))).
Proof.
  revert st c. induction chunks1 as [|ch chunks1 IH]; intros st c; cbn [split_all app].
  - cbn [run_bind fst snd app]. by destruct split_all as [[[??]?]| |].
  - destruct (split_and_encrypt usize_max st ch c) as [[[[??]?]?]| |]; cbn [run_bind]; try done.
    rewrite IH. destruct split_all as [[[??]?]| |]; cbn [run_bind fst snd]; try done.
    destruct split_all as [[[??]?]| |]; cbn [run_bind fst snd]; try done.
    by rewrite app_assoc.
Qed.

Lemma flush_packet st : (flush st).1 = filter nonempty [sp_packet st].
Proof.
  unfold flush. destruct (sp_packet st) eqn:E; simpl.
  - by rewrite filter_cons_False by auto.
  - by rewrite filter_cons_True by done.
Qed.

Lemma concat_filter_nonempty (l : list bytes) : concat (filter nonempty l) = concat l.
Proof.
  induction l as [|x l IH]; [done|]. destruct (decide (x = [])) as [->|].
  - rewrite filter_cons_False by auto. done.
  - rewrite filter_cons_True by done. simpl. by rewrite IH.
Qed.

(** Any reads: nothing is lost, duplicated or reordered. *)
Lemma split_all_total st pt chunks c :
  rep st pt -> Forall bytes_ok chunks -> sp_packet st = encrypt c pt ->
  exists parts st',
    split_all usize_max st chunks (advance c (length pt)) =
      Done (parts, st', advance c (length (pt ++ concat chunks))) /\
    concat parts ++ sp_packet st' = encrypt c (pt ++ concat chunks).
Proof.
  intros Hrep Hok. revert st pt c Hrep.
  induction Hok as [|chunk chunks Hc Hok IH]; intros st pt c Hrep Hp; cbn [split_all concat].
  { exists [], st. by rewrite app_nil_r. }
  destruct (split_chunk_spec st pt chunk c Hrep Hc Hp)
    as (parts & st1 & fs & l & bad & -> & Hpr & HF1 & HD & HL & HP1 & HB).
  cbn [run_bind]. pose proof (framing_concat _ _ _ _ _ HF1) as Hsplit.
  pose proof (encrypt_msgs_concat c parts) as Hconc. rewrite HD in Hconc.
  rewrite app_assoc, Hsplit, <- app_assoc, (length_app (concat fs)), !advance_add.
  rewrite (encrypt_app c (concat fs)), Hconc.
  rewrite (length_app (concat fs)), advance_add.
  destruct bad.
  - rewrite (framing_bad_rest _ _ _ _ HF1) in *. simpl. rewrite advance_0.
    destruct (split_all_disabled st1 chunks (advance c (length (concat fs))) HB)
      as (parts2 & -> & E & _).
    cbn [run_bind]. exists (parts ++ parts2), st1.
    rewrite HP1, encrypt_nil, app_nil_r, concat_app, E. done.
  - destruct (IH st1 l (advance c (length (concat fs))) HB HP1) as (parts2 & st2 & -> & E).
    cbn [run_bind]. exists (parts ++ parts2), st2.
    by rewrite concat_app, <- app_assoc, E.
Qed.
End refinement.

(** ** Properties *)
Section splitter_properties.
Context {C : Crypto} `{!CryptoLaws C} (usize_max : Z) (Husize : 2 ^ 32 - 1 <= usize_max).

(** On any sequence of reads, in any framing, the splitter never panics and
    its loops end; the cipher advances by exactly the bytes read, and the
    emitted messages followed by the flushed remainder are the encryption of
    the whole stream: no byte is lost, duplicated, reordered or encrypted
    twice. *)
Theorem splitter_total_preserves proto chunks c :
  Forall bytes_ok chunks ->
  exists parts st,
    split_all usize_max (splitter_new proto) chunks c =
      Done (parts, st, advance c (length (concat chunks))) /\
    concat (parts ++ (flush st).1) = encrypt c (concat chunks) /\
    sp_packet (flush st).2 = [].
Proof.
  intros Hok.
  destruct (split_all_total usize_max Husize (splitter_new proto) [] chunks c) as (parts & st & E & HC);
    [apply rep_new|done|by rewrite encrypt_nil|].
  simpl in *. rewrite advance_0 in E. exists parts, st.
  rewrite concat_app, flush_packet, concat_filter_nonempty. simpl. rewrite app_nil_r.
  split_and!; try done. unfold flush. by destruct (sp_packet st) eqn:?.
Qed.

(** C11. Refinement of the framing specification: when the client's stream is
    framed as the packets [frames] and an incomplete packet [left], the
    receiver that decrypts message by message gets exactly [frames], one
    WebSocket message per packet however the reads were cut, and the flush
    yields [left], if it is not empty. *)
Theorem splitter_emits_packets proto chunks c frames left :
  Forall bytes_ok chunks -> framing proto (concat chunks) frames left false ->
  exists parts st c',
    split_all usize_max (splitter_new proto) chunks c = Done (parts, st, c') /\
    decrypt_msgs c parts = frames /\
    decrypt_msgs c (parts ++ (flush st).1) = frames ++ filter nonempty [left].
Proof.
  intros Hok HF.
  destruct (split_all_good usize_max Husize (splitter_new proto) [] chunks c frames left)
    as (parts & st & E & HD & HL & HP & HR & _);
    [apply rep_new|done|by rewrite encrypt_nil|done|].
  simpl in *. rewrite advance_0 in E. eexists _, _, _. split_and!; [done|done|].
  rewrite decrypt_msgs_app, HD, flush_packet, HP, (length_concat_eq _ _ HL). f_equal.
  destruct left as [|b left]; [by rewrite encrypt_nil|].
  rewrite !filter_cons_True; [|done|].
  - simpl. by rewrite encrypt_involutive.
  - intros E0. apply (f_equal length) in E0. by rewrite length_encrypt in E0.
Qed.

(** The splitter's output depends on the stream only, not on how the socket
    reads cut it. *)
Theorem splitter_chunk_independent proto chunks1 chunks2 c frames left :
  Forall bytes_ok chunks1 -> Forall bytes_ok chunks2 -> concat chunks1 = concat chunks2 ->
  framing proto (concat chunks1) frames left false ->
  exists parts st1 st2 c',
    split_all usize_max (splitter_new proto) chunks1 c = Done (parts, st1, c') /\
    split_all usize_max (splitter_new proto) chunks2 c = Done (parts, st2, c') /\
    (flush st1).1 = (flush st2).1.
Proof.
  intros Hok1 Hok2 E HF. pose proof HF as HF'. rewrite E in HF'.
  destruct (split_all_good usize_max Husize (splitter_new proto) [] chunks1 c frames left)
    as (p1 & st1 & E1 & HD1 & _ & HP1 & _); [apply rep_new|done|by rewrite encrypt_nil|done|].
  destruct (split_all_good usize_max Husize (splitter_new proto) [] chunks2 c frames left)
    as (p2 & st2 & E2 & HD2 & _ & HP2 & _); [apply rep_new|done|by rewrite encrypt_nil|done|].
  simpl in *. rewrite advance_0, ?E in *.
  assert (p1 = p2) as <- by (apply (decrypt_msgs_inj c); congruence).
  exists p1, st1, st2, (advance c (length (concat chunks2))).
  by rewrite !flush_packet, HP1, HP2.
Qed.

(** A zero-length packet disables the splitting: the read [ch] that
    completes such a header is sent up to its end with the bytes from that
    header on in one message, and every later non-empty read is one message. *)
Theorem splitter_zero_length proto pre ch post c frames left frames' :
  Forall bytes_ok (pre ++ ch :: post) ->
  framing proto (concat pre) frames left false ->
  framing proto (left ++ ch) frames' [] true ->
  exists parts st c',
    split_all usize_max (splitter_new proto) (pre ++ ch :: post) c = Done (parts, st, c') /\
    decrypt_msgs c parts = frames ++ frames' ++ filter nonempty post /\
    sp_disabled st = true /\ (flush st).1 = [].
Proof.
  intros [Hok1 [Hok2 Hok3]%Forall_cons_1]%Forall_app HF HB.
  destruct (split_all_good usize_max Husize (splitter_new proto) [] pre c frames left)
    as (p1 & st1 & E1 & HD1 & HL1 & HP1 & HR1 & Hpr); [apply rep_new|done|by rewrite encrypt_nil|done|].
  destruct (split_chunk_spec usize_max Husize st1 left ch (advance c (length (concat frames))) HR1 Hok2 HP1)
    as (p2 & st2 & fs & l & bad & E2 & _ & HF2 & HD2 & HL2 & HP2 & HB2).
  simpl in *. rewrite advance_0 in E1. rewrite Hpr in HF2.
  destruct (framing_det _ _ _ _ _ _ _ _ HB HF2) as (-> & <- & <-).
  set (c2 := advance (advance c (length (concat frames))) (length (left ++ ch))) in *.
  destruct (split_all_disabled usize_max st2 post c2 HB2) as (p3 & E3 & _ & HD3).
  rewrite split_all_app, E1. cbn [run_bind fst snd split_all].
  rewrite (framing_concat _ _ _ _ _ HF), length_app, advance_add, E2. cbn [run_bind].
  rewrite E3. cbn [run_bind fst snd]. eexists _, _, _. split_and!; [done| |done|].
  - rewrite !decrypt_msgs_app, HD1, (length_concat_eq _ _ HL1), HD2. do 2 f_equal.
    rewrite <- HD3. f_equal. rewrite (length_concat_eq _ _ HL2).
    unfold c2. f_equal. by rewrite (framing_concat _ _ _ _ _ HF2), app_nil_r.
  - by rewrite flush_packet, HP2, encrypt_nil.
Qed.
End splitter_properties.

(** *** Witnesses: two abridged packets cut across reads, then a zero header *)
Definition demo_cipher : cipher (Crypto := toy_crypto) := (11, 0%nat).

Definition demo_stream : bytes := [1; 10; 11; 12; 13; 0x7f; 1; 0; 0; 20; 21; 22; 23; 2; 5].

Lemma demo_framing :
  framing Abridged demo_stream [[1; 10; 11; 12; 13]; [0x7f; 1; 0; 0; 20; 21; 22; 23]] [2; 5] false.
Proof.
  change demo_stream with ([1; 10; 11; 12; 13] ++ [0x7f; 1; 0; 0; 20; 21; 22; 23] ++ [2; 5]).
  apply framing_packet with 5; [reflexivity|reflexivity|lia|].
  apply framing_packet with 8; [reflexivity|reflexivity|lia|].
  apply framing_partial with 9; [reflexivity|reflexivity].
Qed.

Lemma demo_bad_framing :
  framing Abridged ([2; 5] ++ [1; 2; 3; 4; 5; 6; 7; 0; 9])
    [[2; 5; 1; 2; 3; 4; 5; 6; 7]; [0; 9]] [] true.
Proof.
  change ([2; 5] ++ [1; 2; 3; 4; 5; 6; 7; 0; 9]) with ([2; 5; 1; 2; 3; 4; 5; 6; 7] ++ [0; 9]).
  apply framing_packet with 9; [reflexivity|reflexivity|lia|].
  apply framing_zero. reflexivity.
Qed.

Lemma splitter_total_preserves_witness :
  exists parts st, split_all (C := toy_crypto) (2 ^ 64 - 1) (splitter_new Intermediate)
      [[0; 0; 0]; [0; 1; 2]; []; [7]] demo_cipher = Done (parts, st, (11, 7%nat)) /\
    concat (parts ++ (flush st).1) =
      encrypt (C := toy_crypto) demo_cipher [0; 0; 0; 0; 1; 2; 7].
Proof.
  destruct (splitter_total_preserves (C := toy_crypto) (CryptoLaws0 := toy_crypto_laws) (2 ^ 64 - 1)
    ltac:(lia) Intermediate [[0; 0; 0]; [0; 1; 2]; []; [7]] demo_cipher) as (parts & st & H1 & H2 & _).
  - apply (bool_decide_unpack _). vm_compute. exact I.
  - exists parts, st. split; [exact H1|exact H2].
Defined.

Lemma splitter_emits_packets_witness :
  exists parts st c', split_all (C := toy_crypto) (2 ^ 64 - 1) (splitter_new Abridged)
      [take 2 demo_stream; slice 2 7 demo_stream; drop 7 demo_stream] demo_cipher
      = Done (parts, st, c') /\
    decrypt_msgs (C := toy_crypto) demo_cipher (parts ++ (flush st).1) =
      [[1; 10; 11; 12; 13]; [0x7f; 1; 0; 0; 20; 21; 22; 23]; [2; 5]].
Proof.
  destruct (splitter_emits_packets (C := toy_crypto) (CryptoLaws0 := toy_crypto_laws) (2 ^ 64 - 1)
    ltac:(lia) Abridged [take 2 demo_stream; slice 2 7 demo_stream; drop 7 demo_stream] demo_cipher
    [[1; 10; 11; 12; 13]; [0x7f; 1; 0; 0; 20; 21; 22; 23]] [2; 5])
    as (parts & st & c' & H1 & _ & H2).
  - apply (bool_decide_unpack _). vm_compute. exact I.
  - exact demo_framing.
  - exists parts, st, c'. split; [exact H1|exact H2].
Defined.

Lemma splitter_chunk_independent_witness :
  exists parts st1 st2 c',
    split_all (C := toy_crypto) (2 ^ 64 - 1) (splitter_new Abridged)
      (map (fun b => [b]) demo_stream) demo_cipher = Done (parts, st1, c') /\
    split_all (C := toy_crypto) (2 ^ 64 - 1) (splitter_new Abridged) [demo_stream] demo_cipher
      = Done (parts, st2, c') /\ (flush st1).1 = (flush st2).1.
Proof.
  apply (splitter_chunk_independent (C := toy_crypto) (CryptoLaws0 := toy_crypto_laws) (2 ^ 64 - 1)
    ltac:(lia) Abridged _ _ demo_cipher
    [[1; 10; 11; 12; 13]; [0x7f; 1; 0; 0; 20; 21; 22; 23]] [2; 5]).
  - apply (bool_decide_unpack _). vm_compute. exact I.
  - apply (bool_decide_unpack _). vm_compute. exact I.
  - reflexivity.
  - exact demo_framing.
Defined.

Lemma splitter_zero_length_witness :
  exists parts st c', split_all (C := toy_crypto) (2 ^ 64 - 1) (splitter_new Abridged)
      ([demo_stream] ++ [1; 2; 3; 4; 5; 6; 7; 0; 9] :: [[]; [4; 4]]) demo_cipher
      = Done (parts, st, c') /\
    decrypt_msgs (C := toy_crypto) demo_cipher parts =
      [[1; 10; 11; 12; 13]; [0x7f; 1; 0; 0; 20; 21; 22; 23]; [2; 5; 1; 2; 3; 4; 5; 6; 7];
       [0; 9]; [4; 4]].
Proof.
  destruct (splitter_zero_length (C := toy_crypto) (CryptoLaws0 := toy_crypto_laws) (2 ^ 64 - 1)
    ltac:(lia) Abridged [demo_stream] [1; 2; 3; 4; 5; 6; 7; 0; 9] [[]; [4; 4]] demo_cipher
    [[1; 10; 11; 12; 13]; [0x7f; 1; 0; 0; 20; 21; 22; 23]] [2; 5]
    [[2; 5; 1; 2; 3; 4; 5; 6; 7]; [0; 9]]) as (parts & st & c' & H1 & H2 & _).
  - apply (bool_decide_unpack _). vm_compute. exact I.
  - exact demo_framing.
  - exact demo_bad_framing.
  - exists parts, st, c'. split; [exact H1|exact H2].
Defined.
