(* ===== verification/FakeTls.v ===== *)
(** * faketls.rs: the FakeTLS handshake and record layer

    Building, signing and validating the ClientHello that carries the proxy
    secret's HMAC in its [random] field, the ServerHello that answers it, and
    the Application Data records of the data phase.  A reader is the list of
    the bytes still to arrive before end of stream; a writer is a parameter
    whose [write_all] can fail.  Indexing and slicing of the untrusted
    ClientHello are operations that can panic. *)
From S2P Require Import Prelude Text CryptoApi Crypto.

Local Open Scope Z_scope.

Definition TLS_RECORD_HANDSHAKE : Z := 0x16.
Definition TLS_RECORD_CHANGE_CIPHER_SPEC : Z := 0x14.
Definition TLS_RECORD_APPLICATION_DATA : Z := 0x17.
Definition TLS_RECORD_ALERT : Z := 0x15.
Definition TLS_VERSION_12 : bytes := [0x03; 0x03].
Definition TLS_RECORD_VERSION : bytes := [0x03; 0x01].
Definition TLS_MAX_RECORD_PAYLOAD : Z := 16384.
Definition TLS_MAX_APPDATA_WRITE : Z := TLS_MAX_RECORD_PAYLOAD.
Definition TLS_MAX_HANDSHAKE_RECORDS : nat := 20.
Definition TLS_DIGEST_POS : nat := 11.
Definition TLS_DIGEST_LEN : nat := 32.
Definition TLS_HANDSHAKE_CLIENT_HELLO : Z := 0x01.
Definition TLS_HANDSHAKE_SERVER_HELLO : Z := 0x02.
Definition TLS_CLIENT_RANDOM_OFFSET_IN_HANDSHAKE : nat := 6.
Definition TLS_SERVER_RANDOM_OFFSET_IN_PACKET : nat := 11.
Definition TLS_CHANGE_CIPHER_SPEC_VALUE : Z := 0x01.

Record FakeTlsClientHello : Type := mkClientHello {
  ch_random : bytes;
  ch_session_id : bytes;
  ch_cipher_suite : bytes;
  ch_hostname : option bytes;
}.

(** ** ClientHello construction *)
Definition FIXED_EXTENSIONS : bytes :=
  [0x00; 0x17; 0x00; 0x00;
   0xff; 0x01; 0x00; 0x01; 0x00;
   0x00; 0x0a; 0x00; 0x0a; 0x00; 0x08;
   0x00; 0x1d; 0x00; 0x17; 0x00; 0x18; 0x00; 0x19;
   0x00; 0x0b; 0x00; 0x02; 0x01; 0x00;
   0x00; 0x23; 0x00; 0x00;
   0x00; 0x0d; 0x00; 0x14; 0x00; 0x12;
   0x04; 0x03; 0x08; 0x04; 0x04; 0x01;
   0x05; 0x03; 0x08; 0x05; 0x05; 0x01;
   0x08; 0x06; 0x06; 0x01; 0x02; 0x01].

Definition CIPHER_SUITES : bytes :=
  [0x13; 0x01; 0x13; 0x02; 0x13; 0x03;
   0xc0; 0x2b; 0xc0; 0x2f; 0xc0; 0x2c; 0xc0; 0x30;
   0xcc; 0xa9; 0xcc; 0xa8;
   0xc0; 0x13; 0xc0; 0x14;
   0x00; 0x9c; 0x00; 0x9d; 0x00; 0x2f; 0x00; 0x35; 0x00; 0x0a].

(** [uN as u8] of a shifted [usize]. *)
Definition u8_of (z : Z) : Z := wrap 8 z.

(** The three big-endian bytes of a handshake length. *)
Definition u24_be (n : Z) : bytes := [u8_of (Z.shiftr n 16); u8_of (Z.shiftr n 8); u8_of n].

(** [a + b] on [u16]: a panic in a checked build. *)
Definition u16_add (a b : Z) : run Z := if a + b <? 2 ^ 16 then Done (a + b) else Panic.

Definition Zlen {A} (l : list A) : Z := Z.of_nat (length l).

Section faketls.
Context {C : Crypto}.
Local Open Scope run_scope.

Definition build_faketls_client_hello (hostname : bytes) (tape : bytes) : run (bytes * bytes) :=
  let host_b := hostname in
  let host_len := wrap 16 (Zlen host_b) in
  let! sni_list_len := u16_add 3 host_len in
  let! sni_data_len := u16_add 2 sni_list_len in
  let extensions_len := 4 + sni_data_len + Zlen FIXED_EXTENSIONS in
  let hello_len := 2 + 32 + 1 + 32 + 2 + Zlen CIPHER_SUITES + 2 + 2 + extensions_len in
  let handshake_len := 4 + hello_len in
  let! (session_id, tape) := fill_bytes 32 tape in
  Done ([TLS_RECORD_HANDSHAKE] ++ TLS_RECORD_VERSION ++ be_bytes 2 (wrap 16 handshake_len)
        ++ [TLS_HANDSHAKE_CLIENT_HELLO] ++ u24_be hello_len ++ TLS_VERSION_12 ++ replicate 32 0
        ++ [u8_of (Zlen session_id)] ++ session_id
        ++ be_bytes 2 (wrap 16 (Zlen CIPHER_SUITES)) ++ CIPHER_SUITES ++ [0x01; 0x00]
        ++ be_bytes 2 (wrap 16 extensions_len) ++ be_bytes 2 0x0000 ++ be_bytes 2 sni_data_len
        ++ be_bytes 2 sni_list_len ++ [0x00] ++ be_bytes 2 host_len ++ host_b ++ FIXED_EXTENSIONS,
        tape).

(** [record[a..a + new.len()].copy_from_slice(new)] / [fill], with the panic. *)
Definition splice_run (a : nat) (new l : bytes) : run bytes :=
  if (a + length new <=? length l)%nat then Done (splice a new l) else Panic.

(** [now] is the system clock in seconds since the epoch. *)
Definition sign_faketls_client_hello (record secret : bytes) (now : Z) : run bytes :=
  let! record := splice_run TLS_DIGEST_POS (replicate TLS_DIGEST_LEN 0) record in
  let computed := hmac_sha256 secret record in
  let! record := splice_run TLS_DIGEST_POS (take 28 computed) record in
  let timestamp := wrap 32 now in
  let ts_bytes := le_bytes 4 timestamp in
  splice_run (TLS_DIGEST_POS + 28) (xor_bytes (slice 28 32 computed) ts_bytes) record.

(** ** Inbound ClientHello validation *)

(** [chunks_exact(2)]: the pairs, a last odd byte left out. *)
Fixpoint chunks_exact2 (l : bytes) : list (Z * Z) :=
  match l with
  | a :: b :: l => (a, b) :: chunks_exact2 l
  | _ => []
  end.

Definition is_tls13_suite (suite : Z * Z) : bool := (suite.1 =? 0x13) && between 0x01 0x03 suite.2.

Definition select_tls13_cipher_suite (cipher_suites : bytes) : bytes :=
  match List.find is_tls13_suite (chunks_exact2 cipher_suites) with
  | None => [0x13; 0x01]
  | Some suite => [suite.1; suite.2]
  end.

(** [u16::from_be_bytes([l[i], l[i + 1]]) as usize]. *)
Definition u16_at (l : bytes) (i : nat) : run nat :=
  let! a := index l i in
  let! b := index l (i + 1) in
  Done (Z.to_nat (from_be [a; b])).

(** The body of one SNI extension; the loop's [return]s. *)
Definition sni_hostname (ext : bytes) : run (option bytes) :=
  let! list_len := u16_at ext 0 in
  if (length ext <? 2 + list_len)%nat || (list_len <? 3)%nat then Done None else
  let! name_type := index ext 2 in
  if negb (name_type =? 0) then Done None
  else
    let! host_len := u16_at ext 3 in
    if (length ext <? 5 + host_len)%nat then Done None
    else
      let! name := slice_run 5 (5 + host_len) ext in
      Done (from_utf8 name).

Fixpoint sni_loop (fuel : nat) (extensions : bytes) : run (option bytes) :=
  if (length extensions <? 4)%nat then Done None
  else
    match fuel with
    | O => OutOfFuel
    | S fuel =>
        let! ext_type := u16_at extensions 0 in
        let! ext_len := u16_at extensions 2 in
        let! extensions := slice_run 4 (length extensions) extensions in
        if (length extensions <? ext_len)%nat then Done None
        else
          let! ext := slice_run 0 ext_len extensions in
          let! extensions := slice_run ext_len (length extensions) extensions in
          if negb (ext_type =? 0)%nat || (length ext <? 5)%nat then sni_loop fuel extensions
          else sni_hostname ext
    end.

Definition parse_sni_extension (extensions : bytes) : run (option bytes) :=
  sni_loop (length extensions) extensions.

(** The part of [parse_faketls_client_hello] after the digest check: session
    id, cipher suites, compression methods, extensions. *)
Definition parse_hello_body (client_random body : bytes) : run (option FakeTlsClientHello) :=
  if (length body <? 2 + 32 + 1)%nat then Done None else
  let! session_id_len := index body 34 in
  let session_start := 35%nat in
  let session_end := (session_start + Z.to_nat session_id_len)%nat in
  if (length body <? session_end + 2)%nat then Done None else
  let! session_id := slice_run session_start session_end body in
  let! cipher_suites_len := u16_at body session_end in
  if (cipher_suites_len <? 2)%nat || (length body <? session_end + 2 + cipher_suites_len + 1)%nat
  then Done None else
  let! suites := slice_run (session_end + 2) (session_end + 2 + cipher_suites_len) body in
  let cipher_suite := select_tls13_cipher_suite suites in
  let p := (session_end + 2 + cipher_suites_len)%nat in
  match body !! p with
  | None => Done None
  | Some compression_len =>
      let p := (p + 1 + Z.to_nat compression_len)%nat in
      if (length body <? p + 2)%nat then Done None else
      let! extensions_len := u16_at body p in
      let p := (p + 2)%nat in
      if (length body <? p + extensions_len)%nat then Done None else
      let! extensions := slice_run p (p + extensions_len) body in
      let! hostname := parse_sni_extension extensions in
      Done (Some (mkClientHello client_random session_id cipher_suite hostname))
  end.

Definition parse_faketls_client_hello (record secret : bytes) : run (option FakeTlsClientHello) :=
  if (length record <? 5 + 4 + TLS_CLIENT_RANDOM_OFFSET_IN_HANDSHAKE + TLS_DIGEST_LEN)%nat
  then Done None else
  let! record_type := index record 0 in
  if negb (record_type =? TLS_RECORD_HANDSHAKE) then Done None else
  let! record_len := u16_at record 3 in
  if negb (length record =? 5 + record_len)%nat then Done None else
  let! handshake := slice_run 5 (length record) record in
  if (length handshake <? 4)%nat then Done None else
  let! handshake_type := index handshake 0 in
  if negb (handshake_type =? TLS_HANDSHAKE_CLIENT_HELLO) then Done None else
  let! h1 := index handshake 1 in
  let! h2 := index handshake 2 in
  let! h3 := index handshake 3 in
  let handshake_len := Z.to_nat (Z.lor (Z.lor (Z.shiftl h1 16) (Z.shiftl h2 8)) h3) in
  if negb (length handshake =? 4 + handshake_len)%nat then Done None else
  let random_offset := (5 + TLS_CLIENT_RANDOM_OFFSET_IN_HANDSHAKE)%nat in
  let! client_random := slice_run random_offset (random_offset + TLS_DIGEST_LEN) record in
  let! signed := splice_run random_offset (replicate TLS_DIGEST_LEN 0) record in
  let computed := hmac_sha256 secret signed in
  let xored := xor_bytes computed client_random in
  if existsb (fun b => negb (b =? 0)) (take 28 xored) then Done None else
  let! body := slice_run 4 (length handshake) handshake in
  parse_hello_body client_random body.

(** ** ServerHello construction *)
Definition push_tls_record_header (out : bytes) (record_type : Z) (payload_len : Z) : bytes :=
  out ++ [record_type] ++ TLS_VERSION_12 ++ be_bytes 2 (wrap 16 payload_len).

Definition SERVER_HELLO_EXTENSIONS : bytes :=
  [0x00; 0x00; 0x2e; 0x00; 0x2b; 0x00; 0x02; 0x03; 0x04; 0x00; 0x33; 0x00; 0x24; 0x00; 0x1d;
   0x00; 0x20].

Definition build_faketls_server_hello (secret : bytes) (hello : FakeTlsClientHello) (tape : bytes)
  : run (bytes * bytes) :=
  let! (key_share, tape) := fill_bytes 32 tape in
  let! (word, tape) := fill_bytes 4 tape in
  let cert_len := 1024 + from_le word mod 3092 in
  let server_body_len := 86 + Zlen (ch_session_id hello) in
  let handshake_len := 4 + server_body_len in
  let packet := push_tls_record_header [] TLS_RECORD_HANDSHAKE handshake_len in
  let packet := packet ++ [TLS_HANDSHAKE_SERVER_HELLO] ++ u24_be server_body_len
    ++ TLS_VERSION_12 ++ replicate TLS_DIGEST_LEN 0
    ++ [u8_of (Zlen (ch_session_id hello))] ++ ch_session_id hello
    ++ ch_cipher_suite hello ++ SERVER_HELLO_EXTENSIONS ++ key_share in
  let packet := push_tls_record_header packet TLS_RECORD_CHANGE_CIPHER_SPEC 1 in
  let packet := packet ++ [TLS_CHANGE_CIPHER_SPEC_VALUE] in
  let packet := push_tls_record_header packet TLS_RECORD_APPLICATION_DATA cert_len in
  let! (cert, tape) := fill_bytes (Z.to_nat cert_len) tape in
  let packet := packet ++ cert in
  let digest := hmac_sha256 secret (ch_random hello ++ packet) in
  let! packet := splice_run TLS_SERVER_RANDOM_OFFSET_IN_PACKET digest packet in
  Done (packet, tape).
End faketls.

(** ** Reading records *)

(** [reader.read_exact(&mut [0; n])]: the bytes and the reader after them, or
    the end of the stream. *)
Definition read_exact (n : nat) (reader : bytes) : option (bytes * bytes) :=
  if (n <=? length reader)%nat then Some (take n reader, drop n reader) else None.

Inductive io_result (A : Type) : Type :=
| Ok (a : A)
| Err.
Arguments Ok {A} a.
Arguments Err {A}.

Definition header_byte (header : bytes) (i : nat) : Z := nth i header 0.
Definition header_len (header : bytes) : Z := from_be [header_byte header 3; header_byte header 4].

(** The result and the reader afterwards (nothing is left of it once the end
    of the stream was hit). *)
Definition read_tls_record (max_payload_len : Z) (reader : bytes)
  : io_result (option (Z * bytes * bytes)) * bytes :=
  match read_exact 5 reader with
  | None => (Ok None, [])
  | Some (header, reader) =>
      let payload_len := header_len header in
      if max_payload_len <? payload_len then (Ok None, reader)
      else
        match read_exact (Z.to_nat payload_len) reader with
        | None => (Err, [])
        | Some (payload, reader) =>
            (Ok (Some (header_byte header 0, [header_byte header 1; header_byte header 2], payload)),
             reader)
        end
  end.

Definition read_tls_record_bytes (max_payload_len : Z) (reader : bytes)
  : io_result (option bytes) * bytes :=
  match read_exact 5 reader with
  | None => (Ok None, [])
  | Some (header, reader) =>
      let payload_len := header_len header in
      if max_payload_len <? payload_len then (Ok None, reader)
      else
        match read_exact (Z.to_nat payload_len) reader with
        | None => (Err, [])
        | Some (payload, reader) => (Ok (Some (header ++ payload)), reader)
        end
  end.

(** The [for] loop of [drain_faketls_server_hello], [n] rounds left. *)
Fixpoint drain_loop (n : nat) (reader : bytes) : bool * bytes :=
  match n with
  | O => (false, reader)
  | S n =>
      match read_exact 5 reader with
      | None => (false, [])
      | Some (header, reader) =>
          let record_type := header_byte header 0 in
          let version := [header_byte header 1; header_byte header 2] in
          let payload_len := header_len header in
          if negb (bool_decide (version = TLS_VERSION_12)) then (false, reader)
          else if TLS_MAX_RECORD_PAYLOAD + 256 <? payload_len then (false, reader)
          else
            match read_exact (Z.to_nat payload_len) reader with
            | None => (false, [])
            | Some (_, reader) =>
                if (record_type =? TLS_RECORD_HANDSHAKE)
                   || (record_type =? TLS_RECORD_CHANGE_CIPHER_SPEC) then drain_loop n reader
                else if record_type =? TLS_RECORD_APPLICATION_DATA then (true, reader)
                else (false, reader)
            end
      end
  end.

Definition drain_faketls_server_hello (reader : bytes) : bool * bytes :=
  drain_loop TLS_MAX_HANDSHAKE_RECORDS reader.

(** One record read into [buf]: [buf[..n]] of the [Ok(n)] the source returns,
    so [Ok(0)] is the empty list, and the reader afterwards. *)
Fixpoint read_appdata_loop (fuel : nat) (buf_len : Z) (reader : bytes) : run (bytes * bytes) :=
  match fuel with
  | O => OutOfFuel
  | S fuel =>
      match read_exact 5 reader with
      | None => Done ([], [])
      | Some (header, reader) =>
          let record_type := header_byte header 0 in
          let payload_len := header_len header in
          if buf_len <? payload_len then Done ([], reader)
          else if record_type =? TLS_RECORD_APPLICATION_DATA then
            match read_exact (Z.to_nat payload_len) reader with
            | None => Done ([], [])
            | Some (payload, reader) => Done (payload, reader)
            end
          else if record_type =? TLS_RECORD_CHANGE_CIPHER_SPEC then
            match read_exact (Z.to_nat payload_len) reader with
            | None => Done ([], [])
            | Some (_, reader) => read_appdata_loop fuel buf_len reader
            end
          else Done ([], reader)
      end
  end.

Definition read_tls_appdata (buf_len : Z) (reader : bytes) : run (bytes * bytes) :=
  read_appdata_loop (S (length reader)) buf_len reader.

(** ** Writing records *)
Section writer.
(** [AsyncWrite]: a writer and its [write_all], [None] on an I/O error. *)
Context {W : Type} (write_all : W -> bytes -> option W).

Fixpoint write_appdata_loop (fuel : nat) (data : bytes) (offset : nat) (writer : W)
  : run (option W) :=
  if (offset <? length data)%nat then
    match fuel with
    | O => OutOfFuel
    | S fuel =>
        let end_ := Nat.min (offset + Z.to_nat TLS_MAX_APPDATA_WRITE) (length data) in
        let chunk := slice offset end_ data in
        let len := Zlen chunk in
        let hdr := [TLS_RECORD_APPLICATION_DATA; 0x03; 0x03; u8_of (Z.shiftr len 8); u8_of len] in
        match write_all writer hdr with
        | None => Done None
        | Some writer =>
            match write_all writer chunk with
            | None => Done None
            | Some writer => write_appdata_loop fuel data end_ writer
            end
        end
    end
  else Done (Some writer).

Definition write_tls_appdata (data : bytes) (writer : W) : run (option W) :=
  write_appdata_loop (length data) data 0 writer.
End writer.

(** ** Lemmas: the parser returns *)
Lemma returns_u16_at l i : (i + 1 < length l)%nat -> returns (u16_at l i).
Proof.
  intros. unfold u16_at. apply returns_bind; [apply returns_index; lia|]. intros.
  apply returns_bind; [apply returns_index; lia|]. intros. apply returns_Done.
Qed.

Lemma returns_splice a new l :
  (a + length new <= length l)%nat -> returns (splice_run a new l).
Proof.
  intros. unfold splice_run. rewrite (proj2 (Nat.leb_le _ _)) by done. apply returns_Done.
Qed.

#[local] Hint Resolve returns_u16_at returns_splice : tgws.

(** Walk through a parser: tests become facts, each fallible step is shown to
    be in range. *)
Ltac parse_step :=
  match goal with
  | |- returns (Done _) => apply returns_Done
  | |- returns (if ?b then _ else _) => destruct b eqn:?
  | |- returns (match ?x with _ => _ end) => destruct x eqn:?
  | |- returns (run_bind _ _) => apply returns_bind; [|intros ? ?]
  | H : slice_run _ _ _ = Done _ |- _ => apply slice_run_Done in H as [? ->]
  | |- returns (index _ _) => apply returns_index; rewrite ?length_slice in * by lia; lia
  | |- returns (u16_at _ _) => apply returns_u16_at; rewrite ?length_slice in * by lia; lia
  | |- returns (slice_run _ _ _) =>
      apply returns_slice; rewrite ?length_slice in * by lia; lia
  | |- returns (splice_run _ _ _) =>
      apply returns_splice; rewrite ?length_replicate, ?length_slice in * by lia; lia
  end; boolify.

Ltac parse_walk := repeat parse_step.

Lemma returns_sni_hostname ext : (5 <= length ext)%nat -> returns (sni_hostname ext).
Proof. intros. unfold sni_hostname. parse_walk. Qed.

Lemma returns_sni_loop fuel extensions :
  (length extensions <= fuel)%nat -> returns (sni_loop fuel extensions).
Proof.
  revert extensions. induction fuel as [|fuel IH]; intros extensions Hf; cbn [sni_loop].
  - rewrite (proj2 (Nat.ltb_lt _ _)) by lia. apply returns_Done.
  - parse_walk.
    + apply IH. rewrite !length_slice in * by (rewrite ?length_slice by lia; lia). lia.
    + by apply returns_sni_hostname.
Qed.

Lemma returns_parse_sni extensions : returns (parse_sni_extension extensions).
Proof. by apply returns_sni_loop. Qed.

Lemma returns_hello_body cr body : returns (parse_hello_body cr body).
Proof.
  unfold parse_hello_body. parse_walk.
  apply returns_parse_sni.
Qed.

Section faketls_lemmas.
Context {C : Crypto} `{!CryptoLaws C}.

Lemma returns_parse_hello record secret : returns (parse_faketls_client_hello record secret).
Proof.
  unfold parse_faketls_client_hello, TLS_CLIENT_RANDOM_OFFSET_IN_HANDSHAKE, TLS_DIGEST_LEN.
  parse_walk. apply returns_hello_body.
Qed.

(** ** Lemmas: what an accepted ClientHello is *)
Lemma xor_prefix_zero n a b :
  length a = length b ->
  existsb (fun x => negb (x =? 0)) (take n (xor_bytes a b)) = false <-> take n a = take n b.
Proof.
  revert a b. induction n as [|n IH]; intros [|x a] [|y b] L; simplify_eq/=; try done.
  rewrite orb_false_iff, negb_false_iff, Z.eqb_eq, Z.lxor_eq_0_iff, (IH a b) by done.
  split; [intros [-> ->]; done|intros; by simplify_eq].
Qed.

(** Turn a successful run into its steps. *)
Ltac done_step :=
  match goal with
  | H : run_bind _ _ = Done _ |- _ => apply run_bind_Done in H as (? & ? & H)
  | H : (if ?b then _ else _) = Done _ |- _ => destruct b eqn:?; [by simplify_eq|]
  | H : match ?x with Some _ => _ | None => _ end = Done _ |- _ =>
      destruct x eqn:?; [|by simplify_eq]
  | H : slice_run _ _ _ = Done _ |- _ => apply slice_run_Done in H as [? ->]
  end; boolify.

Lemma index_ok l i b : bytes_ok l -> index l i = Done b -> byte_ok b.
Proof.
  unfold index. intros Hl. destruct (l !! i) eqn:E; intros; simplify_eq.
  by eapply Forall_lookup_1.
Qed.

Lemma select_tls13 suites : exists s, select_tls13_cipher_suite suites = [0x13; s] /\ 1 <= s <= 3.
Proof.
  unfold select_tls13_cipher_suite. destruct List.find as [[a b]|] eqn:E; [|by exists 1].
  apply List.find_some in E as [_ E]. unfold is_tls13_suite, between in E. simpl in *. boolify. subst.
  by exists b.
Qed.

Lemma hello_body_Some cr body h :
  bytes_ok body -> parse_hello_body cr body = Done (Some h) ->
  ch_random h = cr /\ (length (ch_session_id h) <= 255)%nat /\
  (exists s, ch_cipher_suite h = [0x13; s] /\ 1 <= s <= 3).
Proof.
  intros Hb H. unfold parse_hello_body in H. repeat done_step. simplify_eq/=.
  split_and!; [done| |apply select_tls13].
  match goal with H : index _ 34 = _ |- _ => apply index_ok in H; [|done] end.
  unfold byte_ok in *. rewrite length_slice by lia. lia.
Qed.

Lemma splice_run_Done a new l x :
  splice_run a new l = Done x -> (a + length new <= length l)%nat /\ x = splice a new l.
Proof. unfold splice_run. case_test; intros; simplify_eq. boolify. done. Qed.

Lemma parse_hello_Some record secret h :
  bytes_ok record -> parse_faketls_client_hello record secret = Done (Some h) ->
  (47 <= length record)%nat /\ ch_random h = slice 11 43 record /\
  take 28 (ch_random h) = take 28 (hmac_sha256 secret (splice 11 (replicate 32 0) record)) /\
  (length (ch_session_id h) <= 255)%nat /\
  (exists s, ch_cipher_suite h = [0x13; s] /\ 1 <= s <= 3).
Proof.
  intros Hr H. unfold parse_faketls_client_hello in H.
  change (5 + TLS_CLIENT_RANDOM_OFFSET_IN_HANDSHAKE)%nat with 11%nat in H.
  change (11 + TLS_DIGEST_LEN)%nat with 43%nat in H.
  change TLS_DIGEST_LEN with 32%nat in H. cbv zeta in H.
  repeat done_step.
  match goal with H : splice_run _ _ _ = _ |- _ => apply splice_run_Done in H as [_ ->] end.
  apply hello_body_Some in H as (HR & HS & HC); [|auto with tgws].
  change (5 + 4 + TLS_CLIENT_RANDOM_OFFSET_IN_HANDSHAKE + 32)%nat with 47%nat in *.
  split_and!; try done. rewrite HR. symmetry. apply xor_prefix_zero; [|done].
  rewrite length_hmac_sha256, length_slice by lia. done.
Qed.

(** ** Lemmas: well-formed hellos are parsed *)
Lemma Zlen_range {A} (l : list A) : 0 <= Zlen l.
Proof. unfold Zlen. lia. Qed.

Lemma u16_at_mid i n pre post l :
  l = pre ++ be_bytes 2 n ++ post -> length pre = i -> 0 <= n < 2 ^ 16 ->
  u16_at l i = Done (Z.to_nat n).
Proof.
  intros -> <- Hn. unfold u16_at.
  change (be_bytes 2 n) with [n / 256 mod 256; n mod 256]. simpl app.
  rewrite index_mid. cbn [run_bind].
  rewrite cons_middle, app_assoc.
  replace (length pre + 1)%nat with (length (pre ++ [n / 256 mod 256])) by len.
  rewrite index_mid. cbn [run_bind].
  change [n / 256 mod 256; n mod 256] with (be_bytes 2 n).
  rewrite from_be_bytes. do 2 f_equal. apply Z.mod_small. lia.
Qed.

Lemma slice_run_at a b pre x post (l : bytes) :
  l = pre ++ x ++ post -> length pre = a -> (a + length x)%nat = b -> slice_run a b l = Done x.
Proof. intros -> <- <-. apply slice_run_mid. Qed.

Lemma index_at i pre x post (l : bytes) :
  l = pre ++ x :: post -> length pre = i -> index l i = Done x.
Proof. intros -> <-. apply index_mid. Qed.

Lemma lookup_at i pre (x : Z) post (l : bytes) :
  l = pre ++ x :: post -> length pre = i -> l !! i = Some x.
Proof. intros -> <-. by apply list_lookup_middle. Qed.

(** The ClientHello body of RFC 8446, 4.1.2. *)
Definition hello_body (random sid suites comp exts : bytes) : bytes :=
  TLS_VERSION_12 ++ random ++ [Zlen sid] ++ sid ++ be_bytes 2 (Zlen suites) ++ suites
  ++ [Zlen comp] ++ comp ++ be_bytes 2 (Zlen exts) ++ exts.

Lemma length_hello_body random sid suites comp exts :
  length random = 32%nat ->
  length (hello_body random sid suites comp exts) =
    (40 + length sid + length suites + length comp + length exts)%nat.
Proof.
  intros L. unfold hello_body. rewrite !length_app, !length_be_bytes, L. simpl. lia.
Qed.

Lemma parse_hello_body_format cr random sid suites comp exts :
  length random = 32%nat -> Zlen sid < 256 -> 2 <= Zlen suites < 2 ^ 16 -> Zlen comp < 256 ->
  Zlen exts < 2 ^ 16 ->
  parse_hello_body cr (hello_body random sid suites comp exts) =
  run_bind (parse_sni_extension exts) (fun hostname =>
    Done (Some (mkClientHello cr sid (select_tls13_cipher_suite suites) hostname))).
Proof.
  intros L Hsid Hsu Hco Hex. set (body := hello_body random sid suites comp exts).
  pose proof (length_hello_body random sid suites comp exts L) as HL. fold body in HL.
  pose proof (Zlen_range exts). unfold Zlen in *.
  assert (body = (TLS_VERSION_12 ++ random) ++ Zlen sid :: sid ++ be_bytes 2 (Zlen suites) ++ suites
     ++ [Zlen comp] ++ comp ++ be_bytes 2 (Zlen exts) ++ exts) as B1
    by by rewrite <- app_assoc.
  assert (body = (TLS_VERSION_12 ++ random ++ [Zlen sid]) ++ sid ++ be_bytes 2 (Zlen suites) ++ suites
     ++ [Zlen comp] ++ comp ++ be_bytes 2 (Zlen exts) ++ exts) as B2
    by by rewrite <- !app_assoc.
  assert (body = (TLS_VERSION_12 ++ random ++ [Zlen sid] ++ sid) ++ be_bytes 2 (Zlen suites) ++ suites
     ++ [Zlen comp] ++ comp ++ be_bytes 2 (Zlen exts) ++ exts) as B3
    by by rewrite <- !app_assoc.
  assert (body = (TLS_VERSION_12 ++ random ++ [Zlen sid] ++ sid ++ be_bytes 2 (Zlen suites)) ++ suites
     ++ [Zlen comp] ++ comp ++ be_bytes 2 (Zlen exts) ++ exts) as B4
    by by rewrite <- !app_assoc.
  assert (body = (TLS_VERSION_12 ++ random ++ [Zlen sid] ++ sid ++ be_bytes 2 (Zlen suites) ++ suites)
     ++ Zlen comp :: comp ++ be_bytes 2 (Zlen exts) ++ exts) as B5
    by by rewrite <- !app_assoc.
  assert (body = (TLS_VERSION_12 ++ random ++ [Zlen sid] ++ sid ++ be_bytes 2 (Zlen suites) ++ suites
     ++ [Zlen comp] ++ comp) ++ be_bytes 2 (Zlen exts) ++ exts) as B6
    by by rewrite <- !app_assoc.
  assert (body = (TLS_VERSION_12 ++ random ++ [Zlen sid] ++ sid ++ be_bytes 2 (Zlen suites) ++ suites
     ++ [Zlen comp] ++ comp ++ be_bytes 2 (Zlen exts)) ++ exts ++ []) as B7
    by by rewrite <- !app_assoc, app_nil_r.
  unfold parse_hello_body.
  rewrite (proj2 (Nat.ltb_ge _ _)) by lia.
  rewrite (index_at _ _ _ _ _ B1) by len. cbn [run_bind]. unfold Zlen. rewrite Nat2Z.id.
  rewrite (proj2 (Nat.ltb_ge _ _)) by lia.
  rewrite (slice_run_at _ _ _ _ _ _ B2) by len. cbn [run_bind].
  rewrite (u16_at_mid _ _ _ _ _ B3) by (unfold Zlen; len). cbn [run_bind]. unfold Zlen. rewrite Nat2Z.id.
  rewrite !(proj2 (Nat.ltb_ge _ _)) by lia. cbn [orb].
  rewrite (slice_run_at _ _ _ _ _ _ B4) by (rewrite ?length_app, ?length_be_bytes; len). cbn [run_bind].
  rewrite (lookup_at _ _ _ _ _ B5) by (rewrite ?length_app, ?length_be_bytes; len).
  unfold Zlen. rewrite Nat2Z.id.
  rewrite (proj2 (Nat.ltb_ge _ _)) by lia.
  rewrite (u16_at_mid _ _ _ _ _ B6) by (unfold Zlen; rewrite ?length_app, ?length_be_bytes; len).
  cbn [run_bind]. unfold Zlen. rewrite Nat2Z.id.
  rewrite (proj2 (Nat.ltb_ge _ _)) by lia.
  rewrite (slice_run_at _ _ _ _ _ _ B7) by (rewrite ?length_app, ?length_be_bytes; len). done.
Qed.

(** A server_name extension with one host name, then other extensions. *)
Definition sni_list (host : bytes) : bytes :=
  be_bytes 2 (3 + Zlen host) ++ [0x00] ++ be_bytes 2 (Zlen host) ++ host.

Definition sni_extension (host : bytes) : bytes :=
  be_bytes 2 0 ++ be_bytes 2 (5 + Zlen host) ++ sni_list host.

Lemma length_sni_list host : length (sni_list host) = (5 + length host)%nat.
Proof. unfold sni_list. rewrite !length_app, !length_be_bytes. simpl. lia. Qed.

Lemma sni_hostname_list host :
  Zlen host + 3 < 2 ^ 16 -> sni_hostname (sni_list host) = Done (from_utf8 host).
Proof.
  intros Hh. unfold sni_hostname. pose proof (Zlen_range host). unfold Zlen in *.
  rewrite (u16_at_mid 0 (3 + Zlen host) [] ([0x00] ++ be_bytes 2 (Zlen host) ++ host))
    by (unfold Zlen; first [done|lia]).
  cbn [run_bind]. rewrite length_sni_list. unfold Zlen.
  rewrite !(proj2 (Nat.ltb_ge _ _)) by lia. cbn [orb].
  rewrite (index_at 2 (be_bytes 2 (3 + Zlen host)) 0x00 (be_bytes 2 (Zlen host) ++ host)) by done.
  cbn [run_bind negb Z.eqb].
  rewrite (u16_at_mid 3 (Zlen host) (be_bytes 2 (3 + Zlen host) ++ [0x00]) host)
    by (unfold Zlen; first [done|lia]).
  cbn [run_bind]. unfold Zlen. rewrite Nat2Z.id, (proj2 (Nat.ltb_ge _ _)) by lia.
  rewrite (slice_run_at 5 (5 + length host) (be_bytes 2 (3 + Zlen host) ++ [0x00] ++ be_bytes 2 (Zlen host))
    host []) by (rewrite ?app_nil_r; done). done.
Qed.

Lemma parse_sni_format host rest :
  Zlen host + 5 < 2 ^ 16 -> parse_sni_extension (sni_extension host ++ rest) = Done (from_utf8 host).
Proof.
  intros Hh. pose proof (Zlen_range host).
  set (exts := sni_extension host ++ rest).
  assert (length exts = 9 + length host + length rest)%nat as L.
  { unfold exts, sni_extension. rewrite !length_app, !length_be_bytes, length_sni_list. lia. }
  unfold parse_sni_extension. rewrite L. cbn [plus sni_loop]. rewrite L.
  rewrite (proj2 (Nat.ltb_ge _ _)) by lia.
  rewrite (u16_at_mid 0 0 [] (be_bytes 2 (5 + Zlen host) ++ sni_list host ++ rest))
    by (unfold exts, sni_extension; rewrite <- ?app_assoc; first [done|lia]).
  cbn [run_bind].
  rewrite (u16_at_mid 2 (5 + Zlen host) (be_bytes 2 0) (sni_list host ++ rest))
    by (unfold exts, sni_extension; rewrite <- ?app_assoc; first [done|lia]).
  cbn [run_bind].
  rewrite (slice_run_at 4 _ (be_bytes 2 0 ++ be_bytes 2 (5 + Zlen host)) (sni_list host ++ rest) [])
    by (unfold exts, sni_extension; rewrite ?length_app, ?length_sni_list, <- ?app_assoc, ?app_nil_r;
        simpl length; first [done|lia]).
  cbn [run_bind].
  assert (Z.to_nat (5 + Zlen host) = 5 + length host)%nat as -> by (unfold Zlen; lia).
  rewrite length_app, length_sni_list, (proj2 (Nat.ltb_ge _ _)) by lia.
  rewrite (slice_run_at 0 _ [] (sni_list host) rest) by (rewrite ?length_sni_list; done).
  cbn [run_bind].
  rewrite (slice_run_at (5 + length host) _ (sni_list host) rest [])
    by (rewrite ?length_sni_list, ?app_nil_r; done).
  cbn [run_bind Z.to_nat Nat.eqb negb orb]. rewrite length_sni_list.
  rewrite (proj2 (Nat.ltb_ge _ _)) by lia. apply sni_hostname_list. lia.
Qed.

Lemma lor_shiftl_add a k lo : 0 <= k -> 0 <= lo < 2 ^ k -> Z.lor (Z.shiftl a k) lo = a * 2 ^ k + lo.
Proof.
  intros Hk Hlo. rewrite <- Z.shiftl_mul_pow2 by done. symmetry.
  destruct (decide (lo = 0)) as [->|Hne]; [by rewrite Z.add_0_r, Z.lor_0_r|].
  assert (Z.land (Z.shiftl a k) lo = 0) as E.
  { apply Z.bits_inj'. intros n Hn. rewrite Z.land_spec, Z.bits_0.
    destruct (decide (n < k)); [by rewrite Z.shiftl_spec_low|].
    rewrite (Z.bits_above_log2 lo n), andb_false_r; [done|lia|].
    apply Z.log2_lt_pow2; [lia|]. apply Z.lt_le_trans with (2 ^ k); [lia|].
    apply Z.pow_le_mono_r; lia. }
  by rewrite Z.add_nocarry_lxor, Z.lxor_lor.
Qed.

Lemma u24_be_read n :
  0 <= n < 2 ^ 24 ->
  Z.lor (Z.lor (Z.shiftl (u8_of (Z.shiftr n 16)) 16) (Z.shiftl (u8_of (Z.shiftr n 8)) 8)) (u8_of n) = n.
Proof.
  intros Hn. unfold u8_of, wrap. rewrite !Z.shiftr_div_pow2 by lia.
  pose proof (Z.mod_pos_bound (n / 2 ^ 16) (2 ^ 8)).
  pose proof (Z.mod_pos_bound (n / 2 ^ 8) (2 ^ 8)). pose proof (Z.mod_pos_bound n (2 ^ 8)).
  rewrite (lor_shiftl_add _ 16) by (rewrite ?Z.shiftl_mul_pow2 by lia; lia).
  rewrite Z.shiftl_mul_pow2 by lia.
  replace (_ * 2 ^ 16 + _ * 2 ^ 8) with
    (Z.shiftl ((n / 2 ^ 16) mod 2 ^ 8 * 2 ^ 8 + (n / 2 ^ 8) mod 2 ^ 8) 8)
    by (rewrite Z.shiftl_mul_pow2 by lia; lia).
  rewrite lor_shiftl_add by lia.
  change (2 ^ 16) with 65536 in *. change (2 ^ 8) with 256 in *. change (2 ^ 24) with 16777216 in *.
  Z.div_mod_to_equations. lia.
Qed.

(** A ClientHello record around a handshake body. *)
Definition client_record (version body : bytes) : bytes :=
  [TLS_RECORD_HANDSHAKE] ++ version ++ be_bytes 2 (4 + Zlen body)
  ++ [TLS_HANDSHAKE_CLIENT_HELLO] ++ u24_be (Zlen body) ++ body.

Lemma length_client_record version body :
  length version = 2%nat -> length (client_record version body) = (9 + length body)%nat.
Proof.
  intros L. unfold client_record. rewrite !length_app, length_be_bytes, L. simpl. lia.
Qed.

Lemma parse_record_format version body secret :
  length version = 2%nat -> (38 <= length body)%nat -> 4 + Zlen body < 2 ^ 16 ->
  take 28 (slice 2 34 body) =
    take 28 (hmac_sha256 secret (splice 11 (replicate 32 0) (client_record version body))) ->
  parse_faketls_client_hello (client_record version body) secret =
    parse_hello_body (slice 2 34 body) body.
Proof.
  intros LV LB HB Hmac. pose proof (Zlen_range body) as H0.
  pose proof (length_client_record version body LV) as L.
  set (record := client_record version body) in *.
  set (hs := [TLS_HANDSHAKE_CLIENT_HELLO] ++ u24_be (Zlen body) ++ body).
  assert (length hs = 4 + length body)%nat as Lhs by done.
  assert (record = (TLS_RECORD_HANDSHAKE :: version) ++ be_bytes 2 (4 + Zlen body) ++ hs) as B1 by done.
  assert (record = (TLS_RECORD_HANDSHAKE :: version ++ be_bytes 2 (4 + Zlen body)) ++ hs ++ []) as B2.
  { rewrite app_nil_r. simpl. by rewrite <- app_assoc. }
  assert (record = (TLS_RECORD_HANDSHAKE :: version ++ be_bytes 2 (4 + Zlen body)
      ++ [TLS_HANDSHAKE_CLIENT_HELLO] ++ u24_be (Zlen body) ++ take 2 body)
      ++ slice 2 34 body ++ drop 34 body) as B3.
  { change (drop 34 body) with (drop (2 + 32) body). rewrite <- drop_drop. unfold slice.
    simpl. rewrite <- !app_assoc. simpl. by rewrite (take_drop 32), take_drop. }
  unfold parse_faketls_client_hello. rewrite L.
  change (5 + 4 + TLS_CLIENT_RANDOM_OFFSET_IN_HANDSHAKE + TLS_DIGEST_LEN)%nat with 47%nat.
  rewrite (proj2 (Nat.ltb_ge _ _)) by lia.
  rewrite (index_at 0 [] TLS_RECORD_HANDSHAKE (version ++ be_bytes 2 (4 + Zlen body) ++ hs)) by done.
  cbn [run_bind]. rewrite Z.eqb_refl. cbn [negb].
  rewrite (u16_at_mid _ _ _ _ _ B1) by (simpl; lia). cbn [run_bind].
  rewrite (proj2 (Nat.eqb_eq _ _)) by (unfold Zlen; lia). cbn [negb].
  rewrite (slice_run_at _ _ _ _ _ _ B2)
    by (simpl; rewrite ?length_app, ?length_be_bytes; simpl; lia). cbn [run_bind].
  rewrite Lhs, (proj2 (Nat.ltb_ge _ _)) by lia.
  cbn [hs app u24_be index lookup list_lookup run_bind]. rewrite Z.eqb_refl. cbn [negb].
  rewrite u24_be_read by lia. unfold Zlen at 1. rewrite Nat2Z.id, Nat.eqb_refl. cbn [negb].
  change (5 + TLS_CLIENT_RANDOM_OFFSET_IN_HANDSHAKE)%nat with 11%nat.
  change (11 + TLS_DIGEST_LEN)%nat with 43%nat. change TLS_DIGEST_LEN with 32%nat.
  rewrite (slice_run_at _ _ _ _ _ _ B3)
    by (cbn [length]; rewrite ?length_app, ?length_be_bytes, ?length_slice, ?length_take by lia; cbn [length u24_be]; lia).
  cbn [run_bind]. unfold splice_run. rewrite L, (proj2 (Nat.leb_le _ _)) by (rewrite length_replicate; lia).
  cbn [run_bind].
  assert (length (hmac_sha256 secret (splice 11 (replicate 32 0) record)) = length (slice 2 34 body))
    as E by (rewrite length_hmac_sha256, length_slice; lia).
  rewrite (proj2 (xor_prefix_zero 28 _ _ E)) by by rewrite Hmac.
  rewrite (slice_run_at 4 _ (TLS_HANDSHAKE_CLIENT_HELLO :: u24_be (Zlen body)) body [])
    by (rewrite ?app_nil_r; done). done.
Qed.

(** ** Lemmas: signing *)
Lemma splice_run_mid pre x y post i :
  length pre = i -> length x = length y ->
  splice_run i y (pre ++ x ++ post) = Done (pre ++ y ++ post).
Proof.
  intros <- E. unfold splice_run. rewrite (proj2 (Nat.leb_le _ _)) by len.
  by rewrite splice_mid.
Qed.

(** The 32 bytes that sign a record. *)
Definition signature (secret zeroed : bytes) (now : Z) : bytes :=
  take 28 (hmac_sha256 secret zeroed) ++
  xor_bytes (slice 28 32 (hmac_sha256 secret zeroed)) (le_bytes 4 (wrap 32 now)).

Lemma length_signature secret zeroed now : length (signature secret zeroed now) = 32%nat.
Proof.
  pose proof (length_hmac_sha256 secret zeroed). unfold signature.
  rewrite length_app, length_take, length_xor_bytes;
    rewrite ?length_le_bytes, ?length_slice by lia; lia.
Qed.

Lemma signature_stamp secret zeroed now record :
  slice 11 43 record = signature secret zeroed now ->
  from_le (xor_bytes (slice 39 43 record) (slice 28 32 (hmac_sha256 secret zeroed))) = now mod 2 ^ 32.
Proof.
  intros E. pose proof (length_hmac_sha256 secret zeroed) as Lh.
  assert (slice 39 43 record = slice 28 32 (slice 11 43 record)) as ->
    by (rewrite slice_slice by lia; done).
  rewrite E. unfold signature. rewrite slice_app_r by (rewrite length_take; lia).
  rewrite length_take, Lh. change (28 - 28 `min` 32)%nat with 0%nat.
  change (32 - 28 `min` 32)%nat with 4%nat.
  assert (length (slice 28 32 (hmac_sha256 secret zeroed)) = 4%nat) as L4 by (rewrite length_slice; lia).
  assert (length (xor_bytes (slice 28 32 (hmac_sha256 secret zeroed)) (le_bytes 4 (wrap 32 now))) = 4%nat)
    as Lx by (rewrite length_xor_bytes; rewrite ?length_le_bytes; done).
  rewrite <- Lx at 1. rewrite slice_all, (xor_bytes_comm (slice 28 32 _)).
  rewrite xor_bytes_involutive by (rewrite length_le_bytes; done).
  rewrite from_le_bytes. unfold wrap. by rewrite Z.mod_mod.
Qed.

Lemma sign_spec pre r post secret now :
  length pre = 11%nat -> length r = 32%nat ->
  sign_faketls_client_hello (pre ++ r ++ post) secret now =
    Done (pre ++ signature secret (pre ++ replicate 32 0 ++ post) now ++ post).
Proof.
  intros Lp Lr. unfold sign_faketls_client_hello.
  change TLS_DIGEST_POS with 11%nat. change TLS_DIGEST_LEN with 32%nat.
  rewrite splice_run_mid by (rewrite ?length_replicate; done). cbn [run_bind].
  set (h := hmac_sha256 secret _).
  pose proof (length_hmac_sha256 secret (pre ++ replicate 32 0 ++ post)) as Lh. fold h in Lh.
  change (replicate 32 0) with (replicate 28 0 ++ replicate 4 0). rewrite <- (app_assoc (replicate 28 0)).
  rewrite splice_run_mid by (rewrite ?length_replicate, ?length_take; lia). cbn [run_bind].
  rewrite (app_assoc pre), splice_run_mid.
  - unfold signature. fold h. by rewrite <- !app_assoc.
  - rewrite length_app, length_take. lia.
  - rewrite length_xor_bytes; rewrite ?length_le_bytes, ?length_slice by lia; done.
Qed.

(** The hello the builder produces is a [client_record] around [hello_body]. *)
Lemma build_client_hello_format hostname tape :
  Zlen hostname <= 65000 -> (32 <= length tape)%nat ->
  build_faketls_client_hello hostname tape =
    Done (client_record TLS_RECORD_VERSION
            (hello_body (replicate 32 0) (take 32 tape) CIPHER_SUITES [0x00]
               (sni_extension hostname ++ FIXED_EXTENSIONS)), drop 32 tape).
Proof.
  intros Hh Ht. pose proof (Zlen_range hostname) as H0.
  assert (Zlen (sni_extension hostname ++ FIXED_EXTENSIONS) = 66 + Zlen hostname) as Lx.
  { unfold Zlen, sni_extension. rewrite !length_app, length_sni_list. simpl. lia. }
  assert (Zlen (take 32 tape) = 32) as Ls by (unfold Zlen; rewrite length_take_le by lia; done).
  unfold build_faketls_client_hello, u16_add, fill_bytes.
  rewrite (proj2 (Nat.leb_le _ _)) by done.
  unfold wrap. rewrite (Z.mod_small (Zlen hostname)) by lia.
  rewrite (proj2 (Z.ltb_lt _ _)) by lia. cbn [run_bind].
  rewrite (proj2 (Z.ltb_lt _ _)) by lia. cbn [run_bind].
  unfold client_record, hello_body. rewrite Lx, Ls.
  assert (Zlen (TLS_VERSION_12 ++ replicate 32 0 ++ [32] ++ take 32 tape ++
    be_bytes 2 (Zlen CIPHER_SUITES) ++ CIPHER_SUITES ++ [Zlen [0x00]] ++ [0x00] ++
    be_bytes 2 (66 + Zlen hostname) ++ sni_extension hostname ++ FIXED_EXTENSIONS)
    = 171 + Zlen hostname) as ->.
  { unfold Zlen, sni_extension.
    rewrite !length_app, !length_be_bytes, length_sni_list, length_take_le by lia. simpl. lia. }
  do 2 f_equal. change (Zlen FIXED_EXTENSIONS) with 57. change (Zlen CIPHER_SUITES) with 32.
  rewrite !(Z.mod_small _ (2 ^ 16)) by lia.
  unfold sni_extension, sni_list. rewrite <- !app_assoc.
  replace (4 + (2 + (3 + Zlen hostname)) + 57) with (66 + Zlen hostname) by lia.
  replace (2 + 32 + 1 + 32 + 2 + 32 + 2 + 2 + (66 + Zlen hostname)) with (171 + Zlen hostname) by lia.
  replace (2 + (3 + Zlen hostname)) with (5 + Zlen hostname) by lia. reflexivity.
Qed.

(** The [random] field sits at [11..43] of a record, whatever it holds. *)
Lemma client_record_split version sid suites comp exts :
  length version = 2%nat ->
  exists pre post, length pre = 11%nat /\ forall random, length random = 32%nat ->
    client_record version (hello_body random sid suites comp exts) = pre ++ random ++ post.
Proof.
  intros Lv. set (n := Zlen (hello_body (replicate 32 0) sid suites comp exts)).
  exists ([TLS_RECORD_HANDSHAKE] ++ version ++ be_bytes 2 (4 + n)
    ++ [TLS_HANDSHAKE_CLIENT_HELLO] ++ u24_be n ++ TLS_VERSION_12).
  exists ([Zlen sid] ++ sid ++ be_bytes 2 (Zlen suites) ++ suites
    ++ [Zlen comp] ++ comp ++ be_bytes 2 (Zlen exts) ++ exts).
  split; [by rewrite !length_app, length_be_bytes, Lv|].
  intros r L. unfold client_record.
  assert (Zlen (hello_body r sid suites comp exts) = n) as ->
    by (unfold n, Zlen; by rewrite !length_hello_body).
  unfold hello_body. by rewrite <- !app_assoc.
Qed.

Lemma slice_hello_random random sid suites comp exts :
  length random = 32%nat -> slice 2 34 (hello_body random sid suites comp exts) = random.
Proof.
  intros. unfold slice, hello_body, TLS_VERSION_12. cbn [app drop Nat.sub].
  by apply take_app_length'.
Qed.

(** Signing then parsing any hello of the right shape. *)
Lemma sign_parse version sid suites comp exts secret now random :
  length version = 2%nat -> length random = 32%nat ->
  Zlen sid < 256 -> 2 <= Zlen suites < 2 ^ 16 -> Zlen comp < 256 -> Zlen exts < 2 ^ 16 ->
  4 + Zlen (hello_body random sid suites comp exts) < 2 ^ 16 ->
  exists record,
    sign_faketls_client_hello (client_record version (hello_body random sid suites comp exts))
      secret now = Done record /\
    slice 11 43 record = signature secret (splice 11 (replicate 32 0) record) now /\
    parse_faketls_client_hello record secret =
      run_bind (parse_sni_extension exts) (fun hostname =>
        Done (Some (mkClientHello (slice 11 43 record) sid (select_tls13_cipher_suite suites) hostname))) /\
    (exists random', length random' = 32%nat /\
       record = client_record version (hello_body random' sid suites comp exts)).
Proof.
  intros Lv Lr H1 H2 H3 H4 H5.
  destruct (client_record_split version sid suites comp exts Lv) as (pre & post & Lp & E).
  rewrite (E random Lr), sign_spec by done. eexists. split; [done|].
  set (sg := signature secret (pre ++ replicate 32 0 ++ post) now).
  assert (length sg = 32%nat) as Ls by apply length_signature.
  assert (slice 11 43 (pre ++ sg ++ post) = sg) as Hsl.
  { unfold slice. rewrite drop_app_length' by lia. by apply take_app_length'. }
  assert (splice 11 (replicate 32 0) (pre ++ sg ++ post) = pre ++ replicate 32 0 ++ post) as Hz.
  { rewrite <- Lp. apply splice_mid. rewrite length_replicate. lia. }
  rewrite Hsl, Hz. split; [done|]. split; [|by exists sg; rewrite E].
  rewrite <- E, parse_record_format; rewrite ?E by done.
  - rewrite slice_hello_random by done. by rewrite parse_hello_body_format.
  - done.
  - rewrite length_hello_body by done. lia.
  - revert H5. unfold Zlen. by rewrite !length_hello_body.
  - rewrite Hz, slice_hello_random by done.
    unfold sg, signature. rewrite take_app_length'; [done|].
    rewrite length_take, length_hmac_sha256. done.
  - done.
Qed.
(** Building, signing and parsing a ClientHello. *)
Lemma hello_roundtrip hostname secret now tape :
  utf8_valid hostname = true -> Zlen hostname <= 65000 -> (32 <= length tape)%nat ->
  exists unsigned record,
    build_faketls_client_hello hostname tape = Done (unsigned, drop 32 tape) /\
    sign_faketls_client_hello unsigned secret now = Done record /\
    parse_faketls_client_hello record secret =
      Done (Some (mkClientHello (slice 11 43 record) (take 32 tape) [0x13; 0x01] (Some hostname))) /\
    from_le (xor_bytes (slice 39 43 record)
               (slice 28 32 (hmac_sha256 secret (splice 11 (replicate 32 0) record)))) = now mod 2 ^ 32 /\
    exists body, record = client_record TLS_RECORD_VERSION body /\ Zlen body = 171 + Zlen hostname.
Proof.
  intros Hu Hh Ht. pose proof (Zlen_range hostname).
  assert (Zlen (take 32 tape) = 32) as Ls by (unfold Zlen; rewrite length_take_le by lia; done).
  assert (Zlen (sni_extension hostname ++ FIXED_EXTENSIONS) = 66 + Zlen hostname) as Lx.
  { unfold Zlen, sni_extension. rewrite !length_app, length_sni_list. simpl. lia. }
  destruct (sign_parse TLS_RECORD_VERSION (take 32 tape) CIPHER_SUITES [0x00]
    (sni_extension hostname ++ FIXED_EXTENSIONS) secret now (replicate 32 0)) as (record & E1 & E2 & E3 & random' & Lr & Er);
    rewrite ?Ls, ?Lx; try done; try lia.
  { unfold Zlen. rewrite length_hello_body by done. unfold Zlen in *. change (length CIPHER_SUITES) with 32%nat.
    change (length [0x00]) with 1%nat. lia. }
  eexists _, record. rewrite build_client_hello_format by done. split_and!; [done|done| | |].
  - rewrite E3, parse_sni_format by lia. unfold from_utf8. by rewrite Hu.
  - apply signature_stamp in E2. by rewrite E2.
  - eexists. split; [exact Er|]. unfold Zlen. rewrite length_hello_body by done. unfold Zlen in *.
    change (length CIPHER_SUITES) with 32%nat. change (length [0x00]) with 1%nat. lia.
Qed.

(** A ClientHello for a host name that fits is built and signed. *)
Lemma client_hello_signed hostname tape secret now :
  Zlen hostname <= 65000 -> (32 <= length tape)%nat ->
  exists u hello, build_faketls_client_hello hostname tape = Done (u, drop 32 tape) /\
    sign_faketls_client_hello u secret now = Done hello.
Proof.
  intros Hh Ht. rewrite build_client_hello_format by done.
  destruct (client_record_split TLS_RECORD_VERSION (take 32 tape) CIPHER_SUITES [0x00]
    (sni_extension hostname ++ FIXED_EXTENSIONS)) as (pre & post & Lp & E); [done|].
  eexists _, _. split; [done|]. rewrite (E (replicate 32 0)) by done. by apply sign_spec.
Qed.
End faketls_lemmas.

(** ** Lemmas: records on the wire *)
Definition tls_record (ty : Z) (payload : bytes) : bytes :=
  [ty] ++ TLS_VERSION_12 ++ be_bytes 2 (Zlen payload) ++ payload.

Lemma length_tls_record ty payload : length (tls_record ty payload) = (5 + length payload)%nat.
Proof. done. Qed.

Lemma read_exact_app n x rest : length x = n -> read_exact n (x ++ rest) = Some (x, rest).
Proof.
  intros <-. unfold read_exact. rewrite (proj2 (Nat.leb_le _ _)) by len.
  by rewrite take_app_length, drop_app_length.
Qed.

Lemma read_exact_Some n r x rest : read_exact n r = Some (x, rest) -> r = x ++ rest /\ length x = n.
Proof.
  unfold read_exact. case_test; intros; simplify_eq. boolify. rewrite take_drop. split; [done|len].
Qed.

(** Reading back the header and the payload of a record. *)
Lemma read_record_header ty payload rest :
  Zlen payload < 2 ^ 16 ->
  exists header, read_exact 5 (tls_record ty payload ++ rest) = Some (header, payload ++ rest) /\
    header_byte header 0 = ty /\ [header_byte header 1; header_byte header 2] = TLS_VERSION_12 /\
    header_len header = Zlen payload.
Proof.
  intros Hp. pose proof (Zlen_range payload).
  exists ([ty] ++ TLS_VERSION_12 ++ be_bytes 2 (Zlen payload)).
  split; [|split; [done|split; [done|]]].
  - unfold tls_record. rewrite <- !app_assoc. rewrite !(app_assoc _ _ (payload ++ rest)).
    by apply read_exact_app.
  - unfold header_len. change (from_be (be_bytes 2 (Zlen payload)) = Zlen payload).
    rewrite from_be_bytes. apply Z.mod_small. lia.
Qed.

Lemma read_payload payload rest :
  read_exact (Z.to_nat (Zlen payload)) (payload ++ rest) = Some (payload, rest).
Proof. apply read_exact_app. unfold Zlen. lia. Qed.

Lemma drain_loop_record n ty payload rest :
  Zlen payload <= TLS_MAX_RECORD_PAYLOAD + 256 ->
  drain_loop (S n) (tls_record ty payload ++ rest) =
    (if (ty =? TLS_RECORD_HANDSHAKE) || (ty =? TLS_RECORD_CHANGE_CIPHER_SPEC) then drain_loop n rest
     else if ty =? TLS_RECORD_APPLICATION_DATA then (true, rest) else (false, rest)).
Proof.
  unfold TLS_MAX_RECORD_PAYLOAD. intros Hp.
  destruct (read_record_header ty payload rest) as (header & E & E0 & E1 & E2); [lia|].
  cbn [drain_loop]. rewrite E, E0, E1, E2, bool_decide_eq_true_2 by done. cbn [negb].
  unfold TLS_MAX_RECORD_PAYLOAD. rewrite (proj2 (Z.ltb_ge _ _)) by lia.
  by rewrite read_payload.
Qed.

(** The server's flight: what [drain_faketls_server_hello] accepts. *)
Definition skipped_record (r : Z * bytes) : Prop :=
  (r.1 = TLS_RECORD_HANDSHAKE \/ r.1 = TLS_RECORD_CHANGE_CIPHER_SPEC) /\
  Zlen r.2 <= TLS_MAX_RECORD_PAYLOAD + 256.

Definition flight (skipped : list (Z * bytes)) (finished : bytes) : bytes :=
  concat (map (fun r => tls_record r.1 r.2) skipped) ++
  tls_record TLS_RECORD_APPLICATION_DATA finished.

Lemma drain_loop_flight n skipped finished rest :
  (length skipped < n)%nat -> Forall skipped_record skipped ->
  Zlen finished <= TLS_MAX_RECORD_PAYLOAD + 256 ->
  drain_loop n (flight skipped finished ++ rest) = (true, rest).
Proof.
  intros Hn HF Hp. revert n Hn. unfold flight.
  induction HF as [|[ty p] skipped [Ht Hl] HF IH]; intros [|n] Hn;
    cbn [length map concat fst snd app] in *; try lia.
  - by rewrite drain_loop_record.
  - rewrite <- !app_assoc in *. rewrite drain_loop_record by done.
    destruct Ht as [-> | ->]; cbn [Z.eqb orb]; apply IH; lia.
Qed.

Lemma header_bytes header :
  length header = 5%nat -> bytes_ok header ->
  header = [header_byte header 0; header_byte header 1; header_byte header 2]
           ++ be_bytes 2 (header_len header) /\ 0 <= header_len header < 2 ^ 16.
Proof.
  intros L Hb. destruct header as [|a [|b [|c [|d [|e [|]]]]]]; try done.
  unfold header_len, header_byte. simpl nth.
  repeat (apply Forall_cons_1 in Hb as [? Hb]). unfold byte_ok in *.
  change (from_be [d; e]) with (e + 256 * (d + 256 * 0)).
  split; [|lia]. set (n := e + 256 * (d + 256 * 0)).
  change (be_bytes 2 n) with [n / 256 mod 256; n mod 256].
  assert (n / 256 mod 256 = d) as -> by (unfold n; Z.div_mod_to_equations; lia).
  assert (n mod 256 = e) as -> by (unfold n; Z.div_mod_to_equations; lia). done.
Qed.

Lemma drain_loop_true n reader rest :
  bytes_ok reader -> drain_loop n reader = (true, rest) ->
  exists skipped finished, reader = flight skipped finished ++ rest /\
    (length skipped < n)%nat /\ Forall skipped_record skipped /\
    Zlen finished <= TLS_MAX_RECORD_PAYLOAD + 256.
Proof.
  revert reader. induction n as [|n IH]; intros reader Hb H; simpl in H; [done|].
  destruct (read_exact 5 reader) as [[header r1]|] eqn:E1; [|done].
  apply read_exact_Some in E1 as [-> L5]. apply Forall_app in Hb as [Hh Hb].
  destruct (header_bytes header L5 Hh) as [Eh Hl].
  case_bool_decide as Hv; simpl in H; [|done].
  case_test; [done|]. boolify.
  destruct (read_exact (Z.to_nat (header_len header)) r1) as [[p r2]|] eqn:E2; [|done].
  apply read_exact_Some in E2 as [-> Lp]. apply Forall_app in Hb as [Hp Hb].
  assert (header_len header = Zlen p) as Ep by (unfold Zlen; lia).
  assert (header ++ p ++ r2 = tls_record (header_byte header 0) p ++ r2) as Er.
  { rewrite Eh at 1. unfold tls_record. rewrite <- Hv, Ep. by rewrite <- !app_assoc. }
  rewrite Er. case_test.
  - destruct (IH r2 Hb H) as (sk & fin & -> & Hn & HF & Hfin).
    exists ((header_byte header 0, p) :: sk), fin. unfold flight. simpl. rewrite <- !app_assoc.
    split_and!; [done|lia| |done]. constructor; [|done]. split; [|simpl; lia].
    apply orb_true_iff in Heqb0 as [?|?]; boolify; auto.
  - case_test; simplify_eq. boolify. exists [], p. unfold flight. simpl.
    split_and!; [by rewrite Heqb1|lia|constructor|lia].
Qed.

(** ** Lemmas: the ServerHello flight *)
Section server_flight.
Context {C : Crypto} `{!CryptoLaws C}.

Lemma push_header_record out ty payload n :
  Zlen payload = n -> n < 2 ^ 16 ->
  push_tls_record_header out ty n ++ payload = out ++ tls_record ty payload.
Proof.
  intros <- Hn. pose proof (Zlen_range payload).
  unfold push_tls_record_header, tls_record, wrap. rewrite Z.mod_small by lia.
  by rewrite <- !app_assoc.
Qed.

(** The ServerHello handshake message, and the two records that follow it. *)
Definition server_message (random sid key : bytes) (s : Z) : bytes :=
  [TLS_HANDSHAKE_SERVER_HELLO] ++ u24_be (86 + Zlen sid) ++ TLS_VERSION_12 ++ random
  ++ [u8_of (Zlen sid)] ++ sid ++ [0x13; s] ++ SERVER_HELLO_EXTENSIONS ++ key.

Definition server_flight (random sid key : bytes) (s : Z) (cert : bytes) : bytes :=
  flight [(TLS_RECORD_HANDSHAKE, server_message random sid key s);
          (TLS_RECORD_CHANGE_CIPHER_SPEC, [TLS_CHANGE_CIPHER_SPEC_VALUE])] cert.

Lemma Zlen_server_message random sid key s :
  length random = 32%nat -> length key = 32%nat ->
  Zlen (server_message random sid key s) = 90 + Zlen sid.
Proof.
  intros L1 L2. unfold Zlen, server_message. rewrite !length_app, L1, L2. simpl. lia.
Qed.

Lemma server_flight_split sid key s cert :
  length key = 32%nat ->
  exists pre post, length pre = 11%nat /\ forall random, length random = 32%nat ->
    server_flight random sid key s cert = pre ++ random ++ post.
Proof.
  intros Lk.
  exists ([TLS_RECORD_HANDSHAKE] ++ TLS_VERSION_12 ++ be_bytes 2 (90 + Zlen sid)
    ++ [TLS_HANDSHAKE_SERVER_HELLO] ++ u24_be (86 + Zlen sid) ++ TLS_VERSION_12).
  exists ([u8_of (Zlen sid)] ++ sid ++ [0x13; s] ++ SERVER_HELLO_EXTENSIONS ++ key
    ++ tls_record TLS_RECORD_CHANGE_CIPHER_SPEC [TLS_CHANGE_CIPHER_SPEC_VALUE]
    ++ tls_record TLS_RECORD_APPLICATION_DATA cert).
  split; [done|]. intros r L. unfold server_flight, flight. cbn [map concat fst snd].
  unfold tls_record at 1. rewrite Zlen_server_message by done. unfold server_message.
  rewrite app_nil_r. by rewrite <- !app_assoc.
Qed.

Lemma server_flight_drains random sid key s cert rest :
  length random = 32%nat -> length key = 32%nat -> Zlen sid < 256 -> Zlen cert <= 16640 ->
  drain_faketls_server_hello (server_flight random sid key s cert ++ rest) = (true, rest).
Proof.
  intros L1 L2 H1 H2. apply drain_loop_flight; [simpl; unfold TLS_MAX_HANDSHAKE_RECORDS; lia| |done].
  repeat constructor; simpl; auto; [rewrite Zlen_server_message by done|];
    unfold TLS_MAX_RECORD_PAYLOAD; [lia|done].
Qed.

Lemma server_flight_records random sid key s cert :
  (([] ++ tls_record TLS_RECORD_HANDSHAKE (server_message random sid key s))
   ++ tls_record TLS_RECORD_CHANGE_CIPHER_SPEC [TLS_CHANGE_CIPHER_SPEC_VALUE])
  ++ tls_record TLS_RECORD_APPLICATION_DATA cert = server_flight random sid key s cert.
Proof. unfold server_flight, flight. cbn [map concat fst snd]. by rewrite app_nil_r, <- !app_assoc. Qed.

Lemma server_hello_flight secret h tape s :
  (length (ch_session_id h) <= 255)%nat ->
  ch_cipher_suite h = [0x13; s] -> (4151 <= length tape)%nat ->
  exists packet tape', build_faketls_server_hello secret h tape = Done (packet, tape') /\
    (forall rest, drain_faketls_server_hello (packet ++ rest) = (true, rest)) /\
    slice 11 43 packet = hmac_sha256 secret (ch_random h ++ splice 11 (replicate 32 0) packet).
Proof.
  intros HS HC Ht. set (sid := ch_session_id h) in *.
  set (cert_len := 1024 + from_le (take 4 (drop 32 tape)) mod 3092).
  assert (1024 <= cert_len <= 4115) as Hc.
  { pose proof (Z.mod_pos_bound (from_le (take 4 (drop 32 tape))) 3092). lia. }
  set (key := take 32 tape). set (cert := take (Z.to_nat cert_len) (drop 4 (drop 32 tape))).
  assert (length key = 32%nat) as Lk by (unfold key; len).
  assert (Zlen cert = cert_len) as Lc.
  { unfold cert, Zlen. rewrite length_take, !length_drop. lia. }
  assert (Zlen sid < 256) as Hsid by (unfold Zlen; lia).
  destruct (server_flight_split sid key s cert Lk) as (pre & post & Lp & E).
  set (digest := hmac_sha256 secret (ch_random h ++ server_flight (replicate 32 0) sid key s cert)).
  assert (length digest = 32%nat) as Ld by apply length_hmac_sha256.
  exists (server_flight digest sid key s cert), (drop (Z.to_nat cert_len) (drop 4 (drop 32 tape))).
  split_and!.
  - unfold build_faketls_server_hello, fill_bytes.
    rewrite (proj2 (Nat.leb_le _ _)) by lia. cbn [run_bind].
    rewrite (proj2 (Nat.leb_le _ _)) by len. cbn [run_bind]. fold cert_len key.
    rewrite (proj2 (Nat.leb_le _ _)) by (rewrite !length_drop; lia). cbn [run_bind].
    fold cert sid. rewrite HC.
    change ([TLS_HANDSHAKE_SERVER_HELLO] ++ _) with (server_message (replicate 32 0) sid key s).
    rewrite (push_header_record [] TLS_RECORD_HANDSHAKE) by (rewrite ?Zlen_server_message by done; lia).
    rewrite (push_header_record _ _ [TLS_CHANGE_CIPHER_SPEC_VALUE] 1) by done.
    rewrite (push_header_record _ _ cert) by (done || lia).
    rewrite server_flight_records. fold digest. rewrite (E (replicate 32 0)) by done.
    rewrite splice_run_mid by (rewrite ?length_replicate; done). by rewrite E.
  - intros rest. apply server_flight_drains; try done. lia.
  - rewrite (E digest) by done.
    assert (splice 11 (replicate 32 0) (pre ++ digest ++ post) = pre ++ replicate 32 0 ++ post) as ->.
    { rewrite <- Lp. apply splice_mid. rewrite length_replicate. lia. }
    rewrite <- (E (replicate 32 0)) by done. unfold slice. rewrite drop_app_length' by lia. by apply take_app_length'.
Qed.
Lemma server_hello_length secret h tape packet tape' :
  (length (ch_session_id h) <= 255)%nat -> length (ch_cipher_suite h) = 2%nat ->
  build_faketls_server_hello secret h tape = Done (packet, tape') -> Zlen packet <= 4600.
Proof.
  intros HS HC H. unfold build_faketls_server_hello in H.
  apply run_bind_Done in H as ([key t1] & E1 & H). apply fill_bytes_Done in E1 as [L1 _].
  apply run_bind_Done in H as ([word t2] & E2 & H). apply fill_bytes_Done in E2 as [_ _].
  set (cert_len := 1024 + from_le word mod 3092) in H.
  apply run_bind_Done in H as ([cert t3] & E3 & H). apply fill_bytes_Done in E3 as [L3 _].
  apply run_bind_Done in H as (pk & E4 & H). injection H as -> _.
  assert (1024 <= cert_len <= 4115) as Hc.
  { pose proof (Z.mod_pos_bound (from_le word) 3092). lia. }
  apply splice_run_Done in E4 as [Hle ->]. unfold Zlen. rewrite length_splice by done.
  unfold push_tls_record_header. rewrite !length_app, !length_be_bytes, L1, L3, HC.
  simpl length. lia.
Qed.
End server_flight.

(** ** Lemmas: Application Data *)
Lemma read_appdata_record buf_len payload rest :
  Zlen payload <= buf_len -> Zlen payload < 2 ^ 16 ->
  read_tls_appdata buf_len (tls_record TLS_RECORD_APPLICATION_DATA payload ++ rest)
    = Done (payload, rest).
Proof.
  intros Hb Hp. destruct (read_record_header TLS_RECORD_APPLICATION_DATA payload rest Hp)
    as (header & E & E0 & _ & E2).
  unfold read_tls_appdata. cbn [read_appdata_loop]. rewrite E, E0, E2.
  rewrite (proj2 (Z.ltb_ge _ _)) by lia. rewrite Z.eqb_refl. by rewrite read_payload.
Qed.

(** A reader yields [payloads] by successive calls, and [rest] is left. *)
Fixpoint reads (buf_len : Z) (reader : bytes) (payloads : list bytes) (rest : bytes) : Prop :=
  match payloads with
  | [] => reader = rest
  | p :: payloads => exists reader', read_tls_appdata buf_len reader = Done (p, reader') /\
      reads buf_len reader' payloads rest
  end.

Definition appdata_records (payloads : list bytes) : bytes :=
  concat (map (tls_record TLS_RECORD_APPLICATION_DATA) payloads).

Lemma reads_records buf_len payloads rest :
  TLS_MAX_RECORD_PAYLOAD <= buf_len -> Forall (fun p => Zlen p <= TLS_MAX_RECORD_PAYLOAD) payloads ->
  reads buf_len (appdata_records payloads ++ rest) payloads rest.
Proof.
  unfold TLS_MAX_RECORD_PAYLOAD. intros Hb HF. induction HF as [|p ps Hp HF IH]; [done|].
  exists (appdata_records ps ++ rest). split; [|done].
  unfold appdata_records. cbn [map concat]. rewrite <- app_assoc.
  apply read_appdata_record; lia.
Qed.

(** Every call of [read_tls_appdata] returns: the loop only goes on after
    consuming a record. *)
Lemma returns_read_appdata fuel buf_len reader :
  (length reader < fuel)%nat -> returns (read_appdata_loop fuel buf_len reader).
Proof.
  revert reader. induction fuel as [|fuel IH]; intros reader Hf; [lia|]. cbn [read_appdata_loop].
  destruct (read_exact 5 reader) as [[header r]|] eqn:E; [|apply returns_Done].
  apply read_exact_Some in E as [-> L]. rewrite length_app in Hf.
  repeat case_test; try apply returns_Done;
    (destruct (read_exact _ r) as [[p r']|] eqn:E; [|apply returns_Done]); [apply returns_Done|].
  apply read_exact_Some in E as [-> _]. apply IH. rewrite length_app in Hf. lia.
Qed.

Section writing.
Context {W : Type} (write_all : W -> bytes -> option W) (written : W -> bytes).
Hypothesis write_all_appends : forall w b w', write_all w b = Some w' -> written w' = written w ++ b.

Lemma write_appdata_loop_spec fuel data offset :
  (length data - offset <= fuel)%nat -> (offset <= length data)%nat ->
  exists payloads, concat payloads = drop offset data /\
    Forall (fun p => 0 < Zlen p <= TLS_MAX_RECORD_PAYLOAD) payloads /\
    forall w, exists r, write_appdata_loop write_all fuel data offset w = Done r /\
      (forall w', r = Some w' -> written w' = written w ++ appdata_records payloads) /\
      ((forall w b, is_Some (write_all w b)) -> is_Some r).
Proof.
  revert offset. induction fuel as [|fuel IH]; intros offset Hf Ho; cbn [write_appdata_loop];
    destruct (offset <? length data)%nat eqn:El; boolify; try lia;
    try (exists []; rewrite drop_ge by lia; split; [done|split; [constructor|]]; intros w;
         exists (Some w); split_and!; [done| |done]; intros w' [= <-]; by rewrite app_nil_r).
  assert (TLS_MAX_APPDATA_WRITE = TLS_MAX_RECORD_PAYLOAD) as HM by done.
  assert (0 < TLS_MAX_RECORD_PAYLOAD < 2 ^ 16) as HR by done.
  set (end_ := Nat.min (offset + Z.to_nat TLS_MAX_APPDATA_WRITE) (length data)).
  assert (length (slice offset end_ data) = end_ - offset)%nat as Lc by (apply length_slice; lia).
  destruct (IH end_) as (ps & E & HF & HW); [lia|lia|].
  exists (slice offset end_ data :: ps). split_and!.
  { cbn [concat]. rewrite E. unfold slice. rewrite <- (take_drop (end_ - offset) (drop offset data)) at 2.
    rewrite drop_drop. do 3 f_equal. lia. }
  { constructor; [unfold Zlen; lia|done]. }
  intros w. fold end_. set (chunk := slice offset end_ data) in *.
  assert (u8_of (Z.shiftr (Zlen chunk) 8) :: u8_of (Zlen chunk) :: chunk
    = be_bytes 2 (Zlen chunk) ++ chunk) as Eh.
  { unfold u8_of, wrap. by rewrite Z.shiftr_div_pow2 by lia. }
  destruct (write_all w _) as [w1|] eqn:E1;
    [|exists None; split_and!; [done|done|intros Hall; apply eq_None_not_Some in E1; destruct E1; apply Hall]].
  destruct (write_all w1 chunk) as [w2|] eqn:E2;
    [|exists None; split_and!; [done|done|intros Hall; apply eq_None_not_Some in E2; destruct E2; apply Hall]].
  destruct (HW w2) as (r & Er & Hr1 & Hr2). exists r. split_and!; [done| |done].
  intros w' ->. rewrite (Hr1 w' eq_refl), (write_all_appends _ _ _ E2), (write_all_appends _ _ _ E1).
  unfold appdata_records. cbn [map concat]. rewrite <- !app_assoc. f_equal.
  rewrite (app_assoc _ chunk). f_equal. unfold tls_record. simpl. by rewrite Eh.
Qed.
End writing.

(** ** Properties *)
Section faketls_properties.
Context {C : Crypto} `{!CryptoLaws C}.

(** FakeTLS handshake round trip: the ClientHello built for a hostname and
    signed with a secret is accepted under that secret, for every clock value;
    the parser reads back the hostname, the session id and TLS_AES_128_GCM, and
    the last four bytes of the random field carry the 32-bit time stamp. *)
Theorem faketls_hello_roundtrip hostname secret now tape :
  utf8_valid hostname = true -> Zlen hostname <= 65000 -> (32 <= length tape)%nat ->
  exists unsigned record,
    build_faketls_client_hello hostname tape = Done (unsigned, drop 32 tape) /\
    sign_faketls_client_hello unsigned secret now = Done record /\
    parse_faketls_client_hello record secret =
      Done (Some (mkClientHello (slice 11 43 record) (take 32 tape) [0x13; 0x01] (Some hostname))) /\
    from_le (xor_bytes (slice 39 43 record)
               (slice 28 32 (hmac_sha256 secret (splice 11 (replicate 32 0) record)))) = now mod 2 ^ 32.
Proof.
  intros Hu Hh Ht. destruct (hello_roundtrip hostname secret now tape Hu Hh Ht)
    as (u & r & H1 & H2 & H3 & H4 & _). by exists u, r.
Qed.

(** The ClientHello parser on untrusted bytes: it never panics and never
    runs out of the record, and it accepts only records whose random field
    starts with the HMAC of the record with that field zeroed; the suite it will
    answer with is always one of the three TLS 1.3 suites. *)
Theorem faketls_hello_authentic record secret :
  bytes_ok record ->
  exists r, parse_faketls_client_hello record secret = Done r /\
    forall h, r = Some h ->
      (47 <= length record)%nat /\ ch_random h = slice 11 43 record /\
      take 28 (ch_random h) = take 28 (hmac_sha256 secret (splice 11 (replicate 32 0) record)) /\
      (length (ch_session_id h) <= 255)%nat /\
      (exists s, ch_cipher_suite h = [0x13; s] /\ 1 <= s <= 3).
Proof.
  intros Hb. destruct (returns_parse_hello record secret) as [r E]. exists r. split; [done|].
  intros h ->. by apply parse_hello_Some.
Qed.

(** The answer to an accepted ClientHello completes the handshake: the
    three records of the server's flight are drained by the FakeTLS client,
    which is left exactly at the first byte of the data phase, and the server's
    random is the HMAC of the client's random and the flight. *)
Theorem faketls_server_hello_drains record secret h tape :
  bytes_ok record -> parse_faketls_client_hello record secret = Done (Some h) ->
  (4151 <= length tape)%nat ->
  exists packet tape', build_faketls_server_hello secret h tape = Done (packet, tape') /\
    (forall rest, drain_faketls_server_hello (packet ++ rest) = (true, rest)) /\
    slice 11 43 packet = hmac_sha256 secret (ch_random h ++ splice 11 (replicate 32 0) packet).
Proof.
  intros Hb (_ & _ & _ & HS & s & HC & _)%parse_hello_Some Ht; [|done].
  by apply server_hello_flight with s.
Qed.

(** Exactly which server flights the client accepts: at most 19 handshake
    or change-cipher-spec records, then one Application Data record, each TLS
    1.2 and at most 2^14 + 256 bytes; it stops right after them. *)
Theorem faketls_drain_decides reader rest :
  bytes_ok reader ->
  drain_faketls_server_hello reader = (true, rest) <->
  exists skipped finished, reader = flight skipped finished ++ rest /\
    (length skipped < 20)%nat /\ Forall skipped_record skipped /\
    Zlen finished <= TLS_MAX_RECORD_PAYLOAD + 256.
Proof.
  intros Hb. split; [by apply drain_loop_true|].
  intros (sk & fin & -> & Hn & HF & Hp). by apply drain_loop_flight.
Qed.

(** Application Data round trip: writing [data] ends; when every write
    succeeds the wire carries records of 1 to 2^14 bytes, none of them empty
    (an empty one reads as end of stream), from which successive reads return
    payloads that concatenate to [data]. *)
Theorem appdata_roundtrip {W} (write_all : W -> bytes -> option W) (written : W -> bytes)
    data w buf_len :
  (forall w b w', write_all w b = Some w' -> written w' = written w ++ b) ->
  (forall w b, is_Some (write_all w b)) -> TLS_MAX_RECORD_PAYLOAD <= buf_len ->
  exists w' wire payloads,
    write_tls_appdata write_all data w = Done (Some w') /\ written w' = written w ++ wire /\
    concat payloads = data /\ Forall (fun p => 0 < Zlen p <= TLS_MAX_RECORD_PAYLOAD) payloads /\
    forall rest, reads buf_len (wire ++ rest) payloads rest.
Proof.
  intros Hlaw Hok Hbuf.
  destruct (write_appdata_loop_spec write_all written Hlaw (length data) data 0)
    as (ps & E & HF & HW); [lia|lia|].
  destruct (HW w) as (r & Er & Hr & HS). destruct (HS Hok) as [w' ->].
  exists w', (appdata_records ps), ps. split_and!; try done; [by apply Hr|].
  intros rest. apply reads_records; [done|]. eapply Forall_impl; [|exact HF]. simpl. lia.
Qed.

(** [read_tls_appdata] returns on every byte stream, whatever the peer
    sends. *)
Lemma read_appdata_total buf_len reader : returns (read_tls_appdata buf_len reader).
Proof. apply returns_read_appdata. lia. Qed.
End faketls_properties.

(** *** Witnesses *)
Definition demo_hostname : bytes := [97; 46; 195; 169].

Lemma faketls_hello_roundtrip_witness :
  exists unsigned record,
    build_faketls_client_hello demo_hostname demo_tape = Done (unsigned, drop 32 demo_tape) /\
    sign_faketls_client_hello (C := toy_crypto) unsigned demo_secret 1700000000 = Done record /\
    parse_faketls_client_hello (C := toy_crypto) record demo_secret =
      Done (Some (mkClientHello (slice 11 43 record) (take 32 demo_tape) [0x13; 0x01]
        (Some demo_hostname))).
Proof.
  destruct (faketls_hello_roundtrip (C := toy_crypto) (CryptoLaws0 := toy_crypto_laws) demo_hostname
    demo_secret 1700000000 demo_tape) as (u & r & H1 & H2 & H3 & _).
  - reflexivity.
  - vm_compute. discriminate.
  - apply (bool_decide_unpack _). vm_compute. exact I.
  - exists u, r. split; [exact H1|split; [exact H2|exact H3]].
Defined.

(** A signed hello with a fresh session id, as the client sends it. *)
Definition demo_hello : bytes :=
  match build_faketls_client_hello demo_hostname demo_tape with
  | Done (unsigned, _) =>
      match sign_faketls_client_hello (C := toy_crypto) unsigned demo_secret 1700000000 with
      | Done record => record
      | _ => []
      end
  | _ => []
  end.

Lemma faketls_hello_authentic_witness :
  exists h, parse_faketls_client_hello (C := toy_crypto) demo_hello demo_secret = Done (Some h) /\
    take 28 (ch_random h) =
      take 28 (hmac_sha256 (Crypto := toy_crypto) demo_secret (splice 11 (replicate 32 0) demo_hello)).
Proof.
  destruct (faketls_hello_authentic (C := toy_crypto) (CryptoLaws0 := toy_crypto_laws)
    demo_hello demo_secret) as (r & H1 & H2).
  - apply (bool_decide_unpack _). vm_compute. exact I.
  - eexists. split; [vm_compute; reflexivity|].
    apply (H2 _). rewrite <- (f_equal (fun x => match x with Done r => r | _ => None end) H1).
    vm_compute. reflexivity.
Defined.

Definition demo_parsed : FakeTlsClientHello :=
  match parse_faketls_client_hello (C := toy_crypto) demo_hello demo_secret with
  | Done (Some h) => h
  | _ => mkClientHello [] [] [] None
  end.

Lemma faketls_server_hello_drains_witness :
  exists packet tape',
    build_faketls_server_hello (C := toy_crypto) demo_secret demo_parsed (replicate (Z.to_nat 4151) 5)
      = Done (packet, tape') /\
    drain_faketls_server_hello (packet ++ [1; 2; 3]) = (true, [1; 2; 3]).
Proof.
  destruct (faketls_server_hello_drains (C := toy_crypto) (CryptoLaws0 := toy_crypto_laws)
    demo_hello demo_secret demo_parsed (replicate (Z.to_nat 4151) 5)) as (packet & tape' & H1 & H2 & _).
  - apply (bool_decide_unpack _). vm_compute. exact I.
  - vm_compute. reflexivity.
  - rewrite length_replicate. apply Nat2Z.inj_le. vm_compute. discriminate.
  - exists packet, tape'. split; [exact H1|]. apply H2.
Defined.

Lemma faketls_drain_decides_witness :
  drain_faketls_server_hello (flight [(TLS_RECORD_HANDSHAKE, [9; 9])] [7] ++ [1]) = (true, [1]).
Proof.
  apply faketls_drain_decides.
  - apply (bool_decide_unpack _). vm_compute. exact I.
  - exists [(TLS_RECORD_HANDSHAKE, [9; 9])], [7]. split; [reflexivity|]. split; [simpl; lia|].
    split; [|vm_compute; discriminate].
    constructor; [|constructor]. split; [left; reflexivity|vm_compute; discriminate].
Defined.

Lemma appdata_roundtrip_witness :
  exists w', write_tls_appdata (fun w b => Some (w ++ b)) [1; 2; 3] [] = Done (Some w') /\
    w' = [0x17; 3; 3; 0; 3; 1; 2; 3].
Proof.
  destruct (appdata_roundtrip (fun w b => Some (w ++ b)) (fun w => w) [1; 2; 3] [] 16384)
    as (w' & wire & ps & H1 & _).
  - intros w b w' [= <-]. reflexivity.
  - intros w b. exists (w ++ b). reflexivity.
  - vm_compute. discriminate.
  - exists w'. split; [exact H1|]. vm_compute in H1. injection H1 as <-. reflexivity.
Defined.
