(* ===== verification/Config.v ===== *)
(** * config.rs: configuration and DC tables

    The parts of [Config] that decide behaviour: the DC tables, the parsers of
    [--dc-ip] and [--mtproto-proxy], shell-style argument splitting, the
    normalisation done after parsing, tier pinning and the secret used in the
    proxy link.  The command-line parser itself (clap) is not part of the
    repository; the [hex] crate is the class [Hex]. *)
From Stdlib Require Import String.
From stdpp Require Import gmap.
From S2P Require Import Prelude Text Ip CryptoApi Crypto.

Local Open Scope Z_scope.

(** ** DC tables *)
Definition DEFAULT_DC_IPS : list (Z * text) :=
  [(1, txt "149.154.175.50"); (2, txt "149.154.167.51"); (3, txt "149.154.175.100");
   (4, txt "149.154.167.91"); (5, txt "149.154.171.5"); (203, txt "91.105.192.100")].

Definition DC_OVERRIDES : list (Z * Z) := [(203, 2)].

Definition DEFAULT_DC_IP_TARGETS : list (Z * text) :=
  [(2, txt "149.154.167.220"); (4, txt "149.154.167.220")].

(** [iter().find_map(|(id, v)| (id == k).then_some(v))]. *)
Fixpoint find_key {A} (k : Z) (l : list (Z * A)) : option A :=
  match l with
  | [] => None
  | (id, v) :: l => if id =? k then Some v else find_key k l
  end.

(** [default_dc_ips] and [default_dc_overrides]: the tables as maps. *)
Definition default_dc_ips : gmap Z text :=
  fold_left (fun m kv => <[kv.1 := kv.2]> m) DEFAULT_DC_IPS empty.
Definition default_dc_overrides : gmap Z Z :=
  fold_left (fun m kv => <[kv.1 := kv.2]> m) DC_OVERRIDES empty.

Definition default_dc_ip (dc : Z) : option text := find_key dc DEFAULT_DC_IPS.

Definition websocket_dc (dc : Z) : Z := default dc (find_key dc DC_OVERRIDES).

(** ** The hex crate *)
Class Hex : Type := {
  hex_encode : bytes -> text;
  (** [hex::decode]: [None] for an odd length or a character that is not a
      hexadecimal digit. *)
  hex_decode : text -> option bytes;
}.

Class HexLaws (H : Hex) : Prop := {
  hex_decode_encode b : bytes_ok b -> hex_decode (hex_encode b) = Some b;
  (** Two characters per byte, in order. *)
  hex_decode_app s1 s2 b1 b2 :
    hex_decode s1 = Some b1 -> hex_decode s2 = Some b2 -> hex_decode (s1 ++ s2) = Some (b1 ++ b2);
  hex_decode_length s b : hex_decode s = Some b -> length s = (2 * length b)%nat;
  hex_decode_dd : hex_decode (txt "dd") = Some [0xdd];
  hex_decode_ee : hex_decode (txt "ee") = Some [0xee];
}.

(** ** Upstream tiers and proxies *)
Inductive UpstreamTier : Set :=
| Ws
| Cfworker
| Cfproxy
| Mtproto
| Tcp.

#[export] Instance UpstreamTier_eq_dec : EqDecision UpstreamTier.
Proof. solve_decision. Defined.

(** [impl Display for UpstreamTier]: clap's name of the variant. *)
Definition tier_name (t : UpstreamTier) : text :=
  match t with
  | Ws => txt "ws"
  | Cfworker => txt "cfworker"
  | Cfproxy => txt "cfproxy"
  | Mtproto => txt "mtproto"
  | Tcp => txt "tcp"
  end.

Record MtProtoProxy : Type := mkMtProtoProxy {
  mp_host : text;
  mp_port : Z;
  mp_secret : text;
  mp_secret_key : bytes;
  mp_faketls_hostname : option text;
}.

Section parsers.
Context {H : Hex}.

(** [s.rsplitn(3, ':')] with exactly three parts: host, port, secret. *)
Definition rsplit3 (s : text) : option (text * text * text) :=
  match rsplit_once 58 s with
  | None => None
  | Some (rest, secret) =>
      match rsplit_once 58 rest with
      | None => None
      | Some (host, port) => Some (host, port, secret)
      end
  end.

Definition parse_mtproto_proxy (s : text) : option MtProtoProxy :=
  match rsplit3 s with
  | None => None
  | Some (host, port_s, secret) =>
      match parse_uint 65535 port_s with
      | None => None
      | Some port =>
          match hex_decode secret with
          | None => None
          | Some raw_secret =>
              match faketls_hostname raw_secret with
              | None => Some (mkMtProtoProxy host port secret (secret_key raw_secret) None)
              | Some h =>
                  match from_utf8 h with
                  | None => None
                  | Some h => Some (mkMtProtoProxy host port secret (secret_key raw_secret) (Some h))
                  end
              end
          end
      end
  end.
End parsers.

Definition parse_dc_ip (s : text) : option (Z * text) :=
  match split_once 58 s with
  | None => None
  | Some (dc_s, ip_s) =>
      match parse_uint (2 ^ 32 - 1) dc_s with
      | None => None
      | Some dc => if is_ip ip_s then Some (dc, ip_s) else None
      end
  end.

(** ** Argument splitting *)
Record split_state : Type := mkSplit {
  ss_args : list text;
  ss_cur : text;
  ss_started : bool;
  ss_in_single : bool;
  ss_in_double : bool;
}.

Definition SQUOTE : text := [39].
Definition DQUOTE : text := [34].
Definition BACKSLASH : text := [92].

Definition teq (a b : text) : bool := bool_decide (a = b).

(** The loop over the characters; [None] is the trailing-backslash error. *)
Fixpoint split_cli_loop (cs : list text) (s : split_state) : option split_state :=
  match cs with
  | [] => Some s
  | c :: cs =>
      let '(mkSplit args cur started in_single in_double) := s in
      if teq c SQUOTE && negb in_double then
        split_cli_loop cs (mkSplit args cur true (negb in_single) in_double)
      else if teq c DQUOTE && negb in_single then
        split_cli_loop cs (mkSplit args cur true in_single (negb in_double))
      else if is_whitespace c && negb in_single && negb in_double then
        if started then split_cli_loop cs (mkSplit (args ++ [cur]) [] false in_single in_double)
        else split_cli_loop cs s
      else if teq c BACKSLASH && negb in_single then
        match cs with
        | next :: cs => split_cli_loop cs (mkSplit args (cur ++ next) true in_single in_double)
        | [] => None
        end
      else split_cli_loop cs (mkSplit args (cur ++ c) true in_single in_double)
  end.

Definition split_cli_args (line : text) : option (list text) :=
  match split_cli_loop (chars line) (mkSplit [] [] false false false) with
  | None => None
  | Some s =>
      if ss_in_single s || ss_in_double s then None
      else if ss_started s then Some (ss_args s ++ [ss_cur s]) else Some (ss_args s)
  end.

(** ** The configuration record: the fields the program's decisions read *)
Record Config : Type := mkConfig {
  c_host : option text;
  c_link_ip : option text;
  c_check : bool;
  c_check_listener : bool;
  c_secrets : list text;
  c_listen_faketls_domain : option text;
  c_dc_ip : list (Z * text);
  c_skip_tls_verify : bool;
  c_cf_domains : list text;
  c_default_domains : bool;
  c_cf_worker_domains : list text;
  c_cf_priority : bool;
  c_cf_balance : bool;
  c_cf_disable_tls : bool;
  c_mtproto_proxies : list MtProtoProxy;
  c_pinned_upstreams : list UpstreamTier;
  c_pinned_media_upstreams : list UpstreamTier;
  (** The timeout flags, in seconds. *)
  c_ws_connect_timeout : Z;
  c_ws_fail_probe_timeout : Z;
  c_ws_fail_cooldown : Z;
  c_ws_redirect_cooldown : Z;
  c_ip_fail_cooldown : Z;
  c_handshake_timeout : Z;
  c_tcp_fallback_timeout : Z;
  c_upstream_connect_timeout : Z;
  c_upstream_fail_cooldown : Z;
  c_cf_connect_timeout : Z;
  c_cf_fail_cooldown : Z;
  c_port : Z;
  c_pool_size : Z;
  c_pool_max_age : Z;
  c_max_connections : option Z;
  c_cf_ips : list text;
  c_fronting_domain : option text;
  c_outbound_proxy : option text;
  c_no_outbound_proxy : bool;
  c_no_proxy : option text;
  c_quiet : bool;
  c_verbose : bool;
  (** Read by nothing but the log setup, or kept for old command lines. *)
  c_log_file : option text;
  c_buf_kb : Z;
  c_fronting_cooldown : Z;
  c_fronting_fail_cooldown : Z;
}.

(** [config.cf_domains.extend(fetched)]. *)
Definition extend_cf_domains (fetched : list text) (c : Config) : Config :=
  mkConfig (c_host c) (c_link_ip c) (c_check c) (c_check_listener c) (c_secrets c)
    (c_listen_faketls_domain c) (c_dc_ip c) (c_skip_tls_verify c) (c_cf_domains c ++ fetched)
    (c_default_domains c) (c_cf_worker_domains c) (c_cf_priority c) (c_cf_balance c)
    (c_cf_disable_tls c) (c_mtproto_proxies c) (c_pinned_upstreams c) (c_pinned_media_upstreams c)
    (c_ws_connect_timeout c) (c_ws_fail_probe_timeout c) (c_ws_fail_cooldown c)
    (c_ws_redirect_cooldown c) (c_ip_fail_cooldown c) (c_handshake_timeout c)
    (c_tcp_fallback_timeout c) (c_upstream_connect_timeout c) (c_upstream_fail_cooldown c)
    (c_cf_connect_timeout c) (c_cf_fail_cooldown c) (c_port c) (c_pool_size c) (c_pool_max_age c)
    (c_max_connections c) (c_cf_ips c) (c_fronting_domain c) (c_outbound_proxy c)
    (c_no_outbound_proxy c) (c_no_proxy c) (c_quiet c) (c_verbose c)
    (c_log_file c) (c_buf_kb c) (c_fronting_cooldown c) (c_fronting_fail_cooldown c).

Definition normalize_cf_worker_domain (domain : text) : option text :=
  let domain := trim domain in
  if bool_decide (domain = []) then None
  else
    let domain :=
      match strip_prefix (txt "https://") domain with
      | Some d => d
      | None => default domain (strip_prefix (txt "http://") domain)
      end in
    let domain :=
      trim_end_matches 47 (match split_once 47 domain with Some (host, _) => host | None => domain end) in
    if bool_decide (domain = []) then None else Some domain.

(** The expansion of the legacy [--cf-priority] flag. *)
Definition legacy_tiers (c : Config) : list UpstreamTier :=
  (if bool_decide (c_cf_worker_domains c = []) then [] else [Cfworker])
  ++ (if negb (bool_decide (c_cf_domains c = [])) || c_default_domains c then [Cfproxy] else [])
  ++ [Ws]
  ++ (if bool_decide (length (c_mtproto_proxies c) = 0%nat) then [] else [Mtproto])
  ++ [Tcp].

Section defaults.
Context {H : Hex}.
Local Open Scope run_scope.

(** [hex::decode(secret).expect(..)]: a panic on a secret that is not hex. *)
Definition decode_secret_key (secret : text) : run bytes :=
  match hex_decode secret with
  | Some raw => Done (secret_key raw)
  | None => Panic
  end.

Fixpoint decode_secrets (secrets : list text) : run (list bytes) :=
  match secrets with
  | [] => Done []
  | s :: secrets =>
      let! k := decode_secret_key s in
      let! ks := decode_secrets secrets in
      Done (k :: ks)
  end.

Definition primary_secret (c : Config) : text :=
  match c_secrets c with s :: _ => s | [] => [] end.

Definition derive_listen_faketls_domain (c : Config) : option text :=
  match c_listen_faketls_domain c with
  | Some domain => Some domain
  | None =>
      match hex_decode (primary_secret c) with
      | None => None
      | Some raw => match faketls_hostname raw with None => None | Some h => from_utf8 h end
      end
  end.

Definition set_pins (p pm : list UpstreamTier) (c : Config) : Config :=
  mkConfig (c_host c) (c_link_ip c) (c_check c) (c_check_listener c) (c_secrets c)
    (c_listen_faketls_domain c) (c_dc_ip c) (c_skip_tls_verify c) (c_cf_domains c)
    (c_default_domains c) (c_cf_worker_domains c) (c_cf_priority c) (c_cf_balance c)
    (c_cf_disable_tls c) (c_mtproto_proxies c) p pm
    (c_ws_connect_timeout c) (c_ws_fail_probe_timeout c) (c_ws_fail_cooldown c)
    (c_ws_redirect_cooldown c) (c_ip_fail_cooldown c) (c_handshake_timeout c)
    (c_tcp_fallback_timeout c) (c_upstream_connect_timeout c) (c_upstream_fail_cooldown c)
    (c_cf_connect_timeout c) (c_cf_fail_cooldown c) (c_port c) (c_pool_size c) (c_pool_max_age c)
    (c_max_connections c) (c_cf_ips c) (c_fronting_domain c) (c_outbound_proxy c)
    (c_no_outbound_proxy c) (c_no_proxy c) (c_quiet c) (c_verbose c)
    (c_log_file c) (c_buf_kb c) (c_fronting_cooldown c) (c_fronting_fail_cooldown c).

(** The assignments of [with_defaults] before the pins. *)
Definition set_normalized (check : bool) (workers secrets : list text) (dc_ip : list (Z * text))
    (c : Config) : Config :=
  mkConfig (c_host c) (c_link_ip c) check (c_check_listener c) secrets
    (c_listen_faketls_domain c) dc_ip (c_skip_tls_verify c) (c_cf_domains c)
    (c_default_domains c) workers (c_cf_priority c) (c_cf_balance c)
    (c_cf_disable_tls c) (c_mtproto_proxies c) (c_pinned_upstreams c) (c_pinned_media_upstreams c)
    (c_ws_connect_timeout c) (c_ws_fail_probe_timeout c) (c_ws_fail_cooldown c)
    (c_ws_redirect_cooldown c) (c_ip_fail_cooldown c) (c_handshake_timeout c)
    (c_tcp_fallback_timeout c) (c_upstream_connect_timeout c) (c_upstream_fail_cooldown c)
    (c_cf_connect_timeout c) (c_cf_fail_cooldown c) (c_port c) (c_pool_size c) (c_pool_max_age c)
    (c_max_connections c) (c_cf_ips c) (c_fronting_domain c) (c_outbound_proxy c)
    (c_no_outbound_proxy c) (c_no_proxy c) (c_quiet c) (c_verbose c)
    (c_log_file c) (c_buf_kb c) (c_fronting_cooldown c) (c_fronting_fail_cooldown c).

(** The normalised configuration with the two [OnceLock] values it carries:
    the decoded secrets and the inbound FakeTLS domain.  [random16] is the
    random secret drawn when none is configured. *)
Definition with_defaults (random16 : bytes) (c : Config)
  : run (Config * list bytes * option text) :=
  let check := if c_check_listener c then true else c_check c in
  let workers := omap normalize_cf_worker_domain (c_cf_worker_domains c) in
  let secrets := match c_secrets c with [] => [hex_encode random16] | s => s end in
  let c := set_normalized check workers secrets (c_dc_ip c) c in
  let! normalized_secrets := decode_secrets (c_secrets c) in
  let domain := derive_listen_faketls_domain c in
  let dc_ip :=
    if bool_decide (c_dc_ip c = []) && bool_decide (c_cf_domains c = []) && negb (c_default_domains c)
    then DEFAULT_DC_IP_TARGETS else c_dc_ip c in
  let c := set_normalized check workers secrets dc_ip c in
  let c :=
    if c_cf_priority c then
      let legacy := legacy_tiers c in
      set_pins
        (match c_pinned_upstreams c with [] => legacy | p => p end)
        (match c_pinned_media_upstreams c with [] => legacy | p => p end) c
    else c in
  Done (c, normalized_secrets, domain).

(** [Config::try_from_cli_line]; [clap] is the command-line parser's verdict on
    an argument vector. *)
Definition try_from_cli_line (clap : list text -> result Config) (random16 : bytes) (line : text)
  : run (result (Config * list bytes * option text)) :=
  match split_cli_args (trim line) with
  | None => Done (Failure (txt "bad argument list"))
  | Some tokens =>
      let args :=
        match tokens with
        | first :: _ => if starts_with (txt "-") first then txt "tg-ws-proxy" :: tokens else tokens
        | [] => [txt "tg-ws-proxy"]
        end in
      match clap args with
      | Failure e => Done (Failure e)
      | Success c =>
          let! nc := with_defaults random16 c in
          Done (Success nc)
      end
  end.

(** [listen_domain] is the normalised inbound FakeTLS domain. *)
Definition link_secret_for (listen_domain : option text) (secret : text) : run text :=
  match listen_domain with
  | Some domain =>
      let! key := decode_secret_key secret in
      Done (txt "ee" ++ hex_encode key ++ hex_encode domain)
  | None =>
      if starts_with (txt "dd") secret || starts_with (txt "ee") secret then Done secret
      else Done (txt "dd" ++ secret)
  end.
End defaults.

Definition link_secret {H : Hex} (listen_domain : option text) (c : Config) : run text :=
  link_secret_for listen_domain (primary_secret c).

(** The two [OnceLock]s of a configuration, filled by [with_defaults] and on
    first use otherwise: [cell] is what is in the lock. *)
Definition normalized_secrets {H : Hex} (cell : option (list bytes)) (c : Config) : run (list bytes) :=
  match cell with Some keys => Done keys | None => decode_secrets (c_secrets c) end.

Definition normalized_listen_faketls_domain {H : Hex} (cell : option (option text)) (c : Config) : option text :=
  match cell with Some domain => domain | None => derive_listen_faketls_domain c end.

(** [secret_bytes]: the first of the normalised secrets. *)
Definition secret_bytes (normalized_secrets : list bytes) : bytes := hd [] normalized_secrets.

(** [dc_ip.iter().cloned().collect::<HashMap<_, _>>()]: a later pair replaces
    an earlier one. *)
Definition dc_redirects (c : Config) : gmap Z text :=
  fold_left (fun m kv => <[kv.1 := kv.2]> m) (c_dc_ip c) empty.

(** [dc_ip.iter().rev().find_map(..)]. *)
Definition dc_target_ip (c : Config) (dc : Z) : option text := find_key dc (reverse (c_dc_ip c)).

Definition forced_upstreams (c : Config) (is_media : bool) : option (list UpstreamTier) :=
  if is_media && negb (bool_decide (c_pinned_media_upstreams c = []))
  then Some (c_pinned_media_upstreams c)
  else if negb (bool_decide (c_pinned_upstreams c = [])) then Some (c_pinned_upstreams c)
  else None.

Definition tier_unconfigured (c : Config) (t : UpstreamTier) : bool :=
  match t with
  | Cfworker => bool_decide (c_cf_worker_domains c = [])
  | Cfproxy => bool_decide (c_cf_domains c = [])
  | Mtproto => bool_decide (length (c_mtproto_proxies c) = 0%nat)
  | Ws | Tcp => false
  end.

(** [Err] carries the flag and the tier of the message. *)
Definition validate_pinned_upstreams (c : Config) : option (text * UpstreamTier) :=
  match List.find (tier_unconfigured c) (c_pinned_upstreams c) with
  | Some t => Some (txt "--pinned-upstream", t)
  | None =>
      match List.find (tier_unconfigured c) (c_pinned_media_upstreams c) with
      | Some t => Some (txt "--pinned-media-upstream", t)
      | None => None
      end
  end.

(** The text of the error. *)
Definition pin_error (e : text * UpstreamTier) : text :=
  e.1 ++ txt " pins the " ++ tier_name e.2 ++
  txt " tier but nothing configures it (--cf-worker-domain / --cf-domain / --mtproto-proxy)".

Definition cf_worker_domain (c : Config) : option text := head (c_cf_worker_domains c).

(** [detect_lan_ip]; [local] is the local address of the connected UDP socket,
    if the socket could be opened and connected. *)
Definition v4_is_loopback (o : list Z) : bool := bool_decide (hd 0 o = 127).
Definition v4_is_link_local (o : list Z) : bool := bool_decide (take 2 o = [169; 254]).
Definition v4_is_unspecified (o : list Z) : bool := bool_decide (o = [0; 0; 0; 0]).

Definition detect_lan_ip (local : option IpAddr) : option text :=
  match local with
  | Some (V4 v4) =>
      if negb (v4_is_loopback v4) && negb (v4_is_link_local v4) && negb (v4_is_unspecified v4)
      then Some (v4_to_string v4) else None
  | _ => None
  end.

(** [bind_host] and [link_host]; [lan] is what [detect_lan_ip] finds. *)
Definition bind_host (lan : option text) (c : Config) : text :=
  match c_host c with
  | Some host => host
  | None => match lan with Some _ => txt "0.0.0.0" | None => txt "127.0.0.1" end
  end.

Definition link_host (lan : option text) (c : Config) : text :=
  match c_link_ip c with
  | Some ip => ip
  | None =>
      let bind := bind_host lan c in
      let bind_is_local :=
        teq bind (txt "0.0.0.0") || teq bind (txt "::") || teq bind (txt "127.0.0.1")
        || teq bind (txt "::1") in
      match bind_is_local, lan with
      | true, Some lan_ip => lan_ip
      | _, _ => bind
      end
  end.

(** ** Lemmas *)
Lemma fold_insert_lookup {A} (l : list (Z * A)) (m : gmap Z A) k :
  fold_left (fun m kv => <[kv.1 := kv.2]> m) l m !! k =
  match find_key k (reverse l) with Some v => Some v | None => m !! k end.
Proof.
  induction l as [|[k' v'] l IH] using rev_ind; [done|].
  rewrite fold_left_app, reverse_app. simpl. rewrite lookup_insert.
  destruct (Z.eqb_spec k' k) as [->|]; [by rewrite decide_True|by rewrite decide_False].
Qed.

Lemma find_key_None {A} k (l : list (Z * A)) : k ∉ l.*1 -> find_key k l = None.
Proof.
  induction l as [|[k' v] l IH]; [done|]. rewrite fmap_cons. intros Hk. apply not_elem_of_cons in Hk as [Hne Hk]. cbn [find_key].
  rewrite (proj2 (Z.eqb_neq _ _)) by (simpl in Hne; congruence). by apply IH.
Qed.

(** A table as a map against the table scanned. *)
Lemma table_lookup {A} (l : list (Z * A)) k :
  Forall (fun k => fold_left (fun m kv => <[kv.1 := kv.2]> m) l (empty : gmap Z A) !! k = find_key k l) l.*1 ->
  fold_left (fun m kv => <[kv.1 := kv.2]> m) l (empty : gmap Z A) !! k = find_key k l.
Proof.
  intros HF. destruct (decide (k ∈ l.*1)) as [Hin|Hin]; [by apply (proj1 (list.Forall_forall _ _) HF)|].
  rewrite fold_insert_lookup, !find_key_None; [done|done|]. by rewrite fmap_reverse, elem_of_reverse.
Qed.

Lemma find_none_forall {A} (f : A -> bool) l :
  Forall (fun x => f x = false) l -> List.find f l = None.
Proof. induction 1 as [|x l Hx Hl IH]; simpl; [done|]. by rewrite Hx. Qed.

Lemma legacy_tiers_configured c :
  negb (bool_decide (c_cf_domains c = [])) || negb (c_default_domains c) = true ->
  Forall (fun t => tier_unconfigured c t = false) (legacy_tiers c).
Proof.
  intros Hd. unfold legacy_tiers. repeat apply Forall_app_2; repeat constructor;
    repeat case_match; repeat constructor; simpl; boolify; try done.
  - by apply bool_decide_eq_false.
  - apply orb_true_iff in H. apply bool_decide_eq_false. intros E.
    rewrite E in *. destruct H as [H|H]; boolify; [done|].
    rewrite bool_decide_eq_true_2 in Hd by done. simpl in Hd. boolify. congruence.
  - by apply bool_decide_eq_false.
Qed.

(** *** Characters of a string built from characters *)
Definition char_ok (c : text) : Prop :=
  match c with [] => False | b :: _ => length c = char_len b end.

Lemma chars_loop_concat fuel cs :
  (length (concat cs) <= fuel)%nat -> Forall char_ok cs -> chars_loop fuel (concat cs) = cs.
Proof.
  intros Hf Hok. revert fuel Hf. induction Hok as [|c cs Hc Hok IH]; intros fuel Hf; [by destruct fuel|].
  destruct c as [|b c]; [done|]. simpl in Hc. cbn [concat] in *.
  destruct fuel as [|fuel]; [simpl in Hf; lia|].
  change ((b :: c) ++ concat cs) with (b :: (c ++ concat cs)) at 1. cbn [chars_loop].
  change (b :: (c ++ concat cs)) with ((b :: c) ++ concat cs).
  rewrite take_app_length', drop_app_length' by done. f_equal. apply IH.
  rewrite length_app in Hf. simpl in Hf. lia.
Qed.

Lemma chars_concat cs : Forall char_ok cs -> chars (concat cs) = cs.
Proof. by apply chars_loop_concat. Qed.

(** *** Quoting: every character escaped, the empty argument as a pair of
    quotes, one space between arguments. *)
Definition quote_chars (arg : list text) : list text :=
  match arg with
  | [] => [SQUOTE; SQUOTE]
  | _ => concat (map (fun c => [BACKSLASH; c]) arg)
  end.

Fixpoint quote_line (args : list (list text)) : list text :=
  match args with
  | [] => []
  | [a] => quote_chars a
  | a :: args => quote_chars a ++ [[32]] ++ quote_line args
  end.

Lemma split_escaped arg cs acc cur started :
  split_cli_loop (concat (map (fun c => [BACKSLASH; c]) arg) ++ cs) (mkSplit acc cur started false false)
  = split_cli_loop cs (mkSplit acc (cur ++ concat arg)
      (match arg with [] => started | _ => true end) false false).
Proof.
  revert cur started. induction arg as [|c arg IH]; intros cur started; simpl.
  - by rewrite app_nil_r.
  - rewrite IH, app_assoc. by destruct arg.
Qed.

Lemma split_quoted arg cs acc :
  split_cli_loop (quote_chars arg ++ cs) (mkSplit acc [] false false false)
  = split_cli_loop cs (mkSplit acc (concat arg) true false false).
Proof.
  destruct arg as [|c arg]; [done|]. unfold quote_chars. by rewrite split_escaped.
Qed.

Lemma split_quote_line arg args acc :
  exists cur, split_cli_loop (quote_line (arg :: args)) (mkSplit acc [] false false false)
    = Some (mkSplit (acc ++ removelast (map (@concat Z) (arg :: args))) cur true false false) /\
    cur = List.last (map (@concat Z) (arg :: args)) [].
Proof.
  revert arg acc. induction args as [|arg' args IH]; intros arg acc.
  - exists (concat arg). split; [|done]. cbn [quote_line map removelast].
    rewrite <- (app_nil_r (quote_chars arg)), split_quoted, app_nil_r. done.
  - destruct (IH arg' (acc ++ [concat arg])) as (cur & E & ->).
    eexists. split; [|done].
    change (quote_line (arg :: arg' :: args)) with (quote_chars arg ++ [[32]] ++ quote_line (arg' :: args)).
    rewrite split_quoted. cbn [app split_cli_loop].
    change (teq [32] SQUOTE) with false. change (teq [32] DQUOTE) with false.
    change (is_whitespace [32]) with true. cbn [andb negb].
    rewrite E, <- app_assoc. done.
Qed.

Lemma quote_line_ok args :
  Forall (Forall char_ok) args -> Forall char_ok (quote_line args).
Proof.
  assert (forall a, Forall char_ok a -> Forall char_ok (quote_chars a)) as Hq.
  { intros [|c a] Ha; [repeat constructor|]. unfold quote_chars.
    apply Forall_concat, Forall_fmap. eapply Forall_impl; [|exact Ha]. simpl.
    intros x Hx. repeat constructor. done. }
  induction 1 as [|a args Ha Hargs IH]; [constructor|].
  destruct args; [by apply Hq|]. simpl. apply Forall_app_2; [by apply Hq|]. by constructor.
Qed.

(** *** The key of a secret *)
Lemma secret_key_ok raw : bytes_ok raw -> bytes_ok (secret_key raw).
Proof. intros. unfold secret_key. case_match; auto with tgws. Qed.

Lemma mode_secret_key mode key host :
  mode = 0xdd \/ mode = 0xee -> length key = 16%nat -> secret_key (mode :: key ++ host) = key.
Proof.
  intros Hm L. unfold secret_key, has_mode_prefix.
  change PREFIXED_SECRET_LEN with 17%nat. change SECRET_MODE_PREFIX_LEN with 1%nat.
  rewrite (proj2 (Nat.leb_le _ _)) by (cbn [length]; rewrite length_app, L; lia).
  replace (first_byte_is _ _ || first_byte_is _ _) with true by (destruct Hm as [-> | ->]; done).
  unfold slice. cbn [andb drop Nat.sub]. by apply take_app_length'.
Qed.

Lemma ee_secret_key key host :
  length key = 16%nat -> secret_key (0xee :: key ++ host) = key.
Proof. apply mode_secret_key. auto. Qed.

Lemma dd_secret_key key : length key = 16%nat -> secret_key ([0xdd] ++ key) = key.
Proof.
  intros L. pose proof (mode_secret_key 0xdd key [] (or_introl eq_refl) L) as E.
  by rewrite app_nil_r in E.
Qed.

Lemma plain_secret_key key : length key = 16%nat -> secret_key key = key.
Proof. intros L. unfold secret_key, has_mode_prefix. by rewrite L. Qed.

Lemma ee_faketls_hostname key host :
  length key = 16%nat -> host <> [] -> faketls_hostname (0xee :: key ++ host) = Some host.
Proof.
  intros L Hne. unfold faketls_hostname. change PREFIXED_SECRET_LEN with 17%nat.
  rewrite (proj2 (Nat.ltb_lt _ _))
    by (cbn [length]; rewrite length_app, L; destruct host; [done|simpl; lia]).
  cbn [andb first_byte_is]. simpl drop. f_equal. by apply drop_app_length'.
Qed.

(** ** Properties *)

(** The lookups without a map agree with the maps they replace, for every
    DC: the reverse scan of [--dc-ip] on the routing path with the map the pool
    warms itself from (the last target given wins), and the built-in addresses
    and host name overrides with their tables. *)
Theorem dc_lookups_agree c dc :
  dc_redirects c !! dc = dc_target_ip c dc /\
  default_dc_ips !! dc = default_dc_ip dc /\
  default dc (default_dc_overrides !! dc) = websocket_dc dc.
Proof.
  split; [|split].
  - unfold dc_redirects, dc_target_ip. rewrite fold_insert_lookup. by case_match.
  - apply table_lookup. repeat constructor.
  - unfold websocket_dc. f_equal. apply table_lookup. repeat constructor.
Qed.

(** Splitting an argument line inverts quoting: any list of arguments, with
    any characters in them (quotes, backslashes, white space), each character
    escaped and the arguments separated by spaces, is read back as it was. *)
Theorem split_cli_args_roundtrip args :
  Forall (Forall char_ok) args ->
  split_cli_args (concat (quote_line args)) = Some (map (@concat Z) args).
Proof.
  intros Hok. unfold split_cli_args. rewrite chars_concat by by apply quote_line_ok.
  destruct args as [|arg args]; [done|].
  destruct (split_quote_line arg args []) as (cur & -> & ->).
  cbn [ss_in_single ss_in_double ss_started ss_args ss_cur orb app].
  f_equal. symmetry. by apply app_removelast_last.
Qed.

Section pin_properties.
Context {H : Hex}.

(** The legacy [--cf-priority] flag: after normalisation both traffic
    classes are pinned, an explicit pin is kept as it was, the expansion
    contains the direct tier and ends in TCP, and start-up accepts it (when the
    domain list of [--default-domains] is not still to be fetched). *)
Theorem cf_priority_expansion random16 c c' secrets domain :
  with_defaults random16 c = Done (c', secrets, domain) -> c_cf_priority c = true ->
  c_pinned_upstreams c = [] -> c_pinned_media_upstreams c = [] ->
  (c_cf_domains c = [] -> c_default_domains c = false) ->
  exists tiers, (forall is_media, forced_upstreams c' is_media = Some (tiers ++ [Tcp])) /\
    Ws ∈ tiers /\ validate_pinned_upstreams c' = None.
Proof.
  intros HW HP H1 H2 HD. unfold with_defaults in HW.
  apply run_bind_Done in HW as (ks & _ & HW). simpl in HW. rewrite HP, H1, H2 in HW.
  set (c0 := set_normalized _ _ _ _ _) in HW. simplify_eq.
  assert (c_cf_domains c0 = c_cf_domains c) as E1 by done.
  assert (c_default_domains c0 = c_default_domains c) as E2 by done.
  assert (Forall (fun t => tier_unconfigured c0 t = false) (legacy_tiers c0)) as HT.
  { apply legacy_tiers_configured. rewrite E1, E2. case_bool_decide; simpl; [|done].
    by rewrite HD. }
  assert (exists tiers, legacy_tiers c0 = tiers ++ [Tcp] /\ Ws ∈ tiers) as (tiers & Et & Hws).
  { unfold legacy_tiers. rewrite !app_assoc. eexists. split; [done|]. set_solver. }
  exists tiers. rewrite <- Et. split_and!; [|done|].
  - intros is_media. unfold forced_upstreams. cbn [set_pins c_pinned_upstreams c_pinned_media_upstreams].
    rewrite Et. rewrite !bool_decide_eq_false_2 by by destruct tiers.
    by destruct is_media.
  - unfold validate_pinned_upstreams. cbn [set_pins c_pinned_upstreams c_pinned_media_upstreams].
    by rewrite !find_none_forall.
Qed.

End pin_properties.

(** What [with_defaults] stores is what a lazy first use would compute, so a
    configuration answers the same either way. *)
Theorem normalized_cells_agree {H : Hex} random16 c0 c keys domain :
  with_defaults random16 c0 = Done (c, keys, domain) ->
  normalized_secrets None c = normalized_secrets (Some keys) c /\
  normalized_listen_faketls_domain None c = normalized_listen_faketls_domain (Some domain) c.
Proof.
  unfold with_defaults. intros (ks & Hks & E)%run_bind_Done. cbv zeta in E.
  unfold normalized_secrets, normalized_listen_faketls_domain.
  assert (ks = keys) as <- by (by injection E as _ <- _).
  rewrite <- Hks. injection E as <- <-. by repeat case_match.
Qed.

Section link_properties.
Context {H : Hex} `{!HexLaws H}.

(** The secret in the generated link carries the key the proxy uses: a
    client that decodes it derives the same key.  With an inbound FakeTLS
    domain the link also carries that domain; without one, secrets of 16 bytes
    are given the [dd] mode and prefixed secrets are passed on. *)
Theorem link_secret_same_key listen secret raw :
  hex_decode secret = Some raw -> bytes_ok raw ->
  match listen with
  | Some domain => length (secret_key raw) = 16%nat /\ bytes_ok domain
  | None => length raw = 16%nat \/ starts_with (txt "dd") secret || starts_with (txt "ee") secret = true
  end ->
  exists link, link_secret_for listen secret = Done link /\
    decode_secret_key link = decode_secret_key secret /\
    forall domain, listen = Some domain -> domain <> [] ->
      exists raw', hex_decode link = Some raw' /\ faketls_hostname raw' = Some domain.
Proof.
  intros Hd Hok Hl. unfold link_secret_for, decode_secret_key. rewrite Hd. cbn [run_bind].
  destruct listen as [domain|].
  - destruct Hl as [L Hdom]. eexists. split; [done|].
    assert (hex_decode (txt "ee" ++ hex_encode (secret_key raw) ++ hex_encode domain)
      = Some (0xee :: secret_key raw ++ domain)) as ->.
    { change (0xee :: secret_key raw ++ domain) with ([0xee] ++ secret_key raw ++ domain).
      repeat apply hex_decode_app; [apply hex_decode_ee| |by apply hex_decode_encode].
      apply hex_decode_encode. by apply secret_key_ok. }
    rewrite ee_secret_key by done. split; [done|].
    intros d [= <-] Hne. eexists. split; [done|]. by apply ee_faketls_hostname.
  - destruct (starts_with (txt "dd") secret || starts_with (txt "ee") secret) eqn:E.
    + exists secret. by rewrite Hd.
    + destruct Hl as [L|?]; [|done]. eexists. split; [done|].
      rewrite (hex_decode_app _ _ _ _ hex_decode_dd Hd). split; [|done]. f_equal.
      by rewrite dd_secret_key, plain_secret_key.
Qed.
End link_properties.

(** ** An executable instance of [Hex], for the witnesses *)
Definition hex_digit (n : Z) : Z := if n <? 10 then 48 + n else 87 + n.

Definition hex_value (b : Z) : option Z :=
  if between 48 57 b then Some (b - 48)
  else if between 97 102 b then Some (b - 87)
  else if between 65 70 b then Some (b - 55) else None.

Fixpoint plain_encode (b : bytes) : text :=
  match b with
  | [] => []
  | x :: b => hex_digit (x / 16) :: hex_digit (x mod 16) :: plain_encode b
  end.

Fixpoint plain_decode (s : text) : option bytes :=
  match s with
  | [] => Some []
  | [_] => None
  | h :: l :: s =>
      match hex_value h, hex_value l, plain_decode s with
      | Some h, Some l, Some b => Some (16 * h + l :: b)
      | _, _, _ => None
      end
  end.

Definition plain_hex : Hex := {| hex_encode := plain_encode; hex_decode := plain_decode |}.

Lemma hex_value_digit n : 0 <= n < 16 -> hex_value (hex_digit n) = Some n.
Proof.
  intros. unfold hex_value, hex_digit, between. repeat case_match; boolify;
    repeat match goal with H : (_ && _) = false |- _ => apply andb_false_iff in H as [?|?] end;
    boolify; try lia; f_equal; lia.
Qed.

Lemma plain_hex_laws : HexLaws plain_hex.
Proof.
  split; simpl.
  - induction 1 as [|x b Hx Hb IH]; simpl; [done|]. unfold byte_ok in Hx.
    rewrite !hex_value_digit, IH by (Z.div_mod_to_equations; lia). do 2 f_equal.
    Z.div_mod_to_equations; lia.
  - fix IH 1. intros [|h [|l s1]] s2 b1 b2 H1 H2; simpl in *; simplify_eq/=; [done|].
    destruct (hex_value h), (hex_value l), (plain_decode s1) eqn:E; simplify_eq/=.
    by rewrite (IH _ _ _ _ E H2).
  - fix IH 1. intros [|h [|l s]] b H; simpl in *; simplify_eq/=; [done|].
    destruct (hex_value h), (hex_value l), (plain_decode s) eqn:E; simplify_eq/=.
    rewrite (IH _ _ E). lia.
  - done.
  - done.
Qed.

(** ** Witnesses *)
Definition demo_config : Config :=
  mkConfig None None false true [txt "00112233445566778899aabbccddeeff"] None [] false
    [txt "cf.example"] false [txt " https://w.example/x "; txt "  "] true true false [] [] []
    10 2 30 300 3600 10 10 5 60 10 60 1443 4 120 None [] None None false None false false None 256 1800 60.

Definition demo_normalized : Config :=
  match with_defaults (H := plain_hex) [] demo_config with Done (c, _, _) => c | _ => demo_config end.

Lemma split_cli_args_roundtrip_witness :
  split_cli_args (concat (quote_line [[[45]; [34]; [92]]; []; [[32]; [0xc2; 0xa0]]]))
  = Some [[45; 34; 92]; []; [32; 0xc2; 0xa0]].
Proof.
  apply (split_cli_args_roundtrip [[[45]; [34]; [92]]; []; [[32]; [0xc2; 0xa0]]]).
  repeat constructor.
Defined.

Lemma cf_priority_expansion_witness :
  c_cf_worker_domains demo_normalized = [txt "w.example"] /\
  forced_upstreams demo_normalized true = Some [Cfworker; Cfproxy; Ws; Tcp] /\
  exists tiers, forced_upstreams demo_normalized false = Some (tiers ++ [Tcp]).
Proof.
  split; [vm_compute; reflexivity|]. split; [vm_compute; reflexivity|].
  destruct (cf_priority_expansion (H := plain_hex) [] demo_config demo_normalized
    [[0; 17; 34; 51; 68; 85; 102; 119; 136; 153; 170; 187; 204; 221; 238; 255]] None)
    as (tiers & E & _).
  - vm_compute. reflexivity.
  - reflexivity.
  - reflexivity.
  - reflexivity.
  - reflexivity.
  - exists tiers. apply E.
Defined.

Lemma link_secret_same_key_witness :
  exists link, link_secret_for (H := plain_hex) (Some (txt "a.b")) (txt "00112233445566778899aabbccddeeff")
    = Done link /\ link = txt "ee00112233445566778899aabbccddeeff612e62" /\
    decode_secret_key (H := plain_hex) link =
    decode_secret_key (H := plain_hex) (txt "00112233445566778899aabbccddeeff").
Proof.
  destruct (link_secret_same_key (H := plain_hex) (HexLaws0 := plain_hex_laws) (Some (txt "a.b"))
    (txt "00112233445566778899aabbccddeeff")
    [0; 17; 34; 51; 68; 85; 102; 119; 136; 153; 170; 187; 204; 221; 238; 255])
    as (link & E1 & E2 & _).
  - vm_compute. reflexivity.
  - apply (bool_decide_unpack _). vm_compute. exact I.
  - split; [reflexivity|]. apply (bool_decide_unpack _). vm_compute. exact I.
  - exists link. split; [exact E1|]. split; [|exact E2].
    vm_compute in E1. injection E1 as <-. vm_compute. reflexivity.
Defined.

(** A secret whose mode prefix is in upper case is prefixed a second time: the
    link does not carry the proxy's key. *)
Lemma link_secret_upper_case :
  exists link, link_secret_for (H := plain_hex) None (txt "DD00112233445566778899aabbccddeeff") = Done link /\
    decode_secret_key (H := plain_hex) link <>
    decode_secret_key (H := plain_hex) (txt "DD00112233445566778899aabbccddeeff").
Proof. eexists. split; [vm_compute; reflexivity|]. vm_compute. discriminate. Qed.
