(* ===== verification/Cli.v ===== *)
(** * config.rs: the command line

    The [#[arg(..)]] table of [Config]: for every field its flag, its environment
    variable, its default and the parser of its values, applied the way the clap
    crate documents it.  What clap makes of an argument vector (which flags are
    known, which take a value, which may be repeated) and its parsers for
    numbers and booleans are the class [Clap]. *)
From Stdlib Require Import String.
From stdpp Require Import gmap.
From S2P Require Import Prelude Text Ip CryptoApi Crypto Config.

Local Open Scope string_scope.
Local Open Scope list_scope.
Local Open Scope Z_scope.

Class Clap : Type := {
  (** The values an argument vector gives to each long flag, or the usage
      error; a boolean flag that is present has no value. *)
  given_values : list text -> result (text -> option (list text));
  (** The value parsers of the unsigned integers up to a maximum, and of [bool]. *)
  uint_value : Z -> text -> option Z;
  bool_value : text -> option bool;
}.

Class ClapLaws (K : Clap) : Prop := {
  uint_value_range max s v : uint_value max s = Some v -> 0 <= v <= max;
  uint_value_dec max v : 0 <= v < 10 ^ 20 -> v <= max -> uint_value max (dec v) = Some v;
  given_nothing argv0 : exists g, given_values [argv0] = Success g /\ forall flag, g flag = None;
}.

(** ** One setting *)
Section setting.
Context {K : Clap} (given : text -> option (list text)) (env : text -> option text).

(** The command line before the environment before the default. *)
Definition raw_values (flag : string) (var : option string) (default : option string) : option (list text) :=
  match given (txt flag) with
  | Some vs => Some vs
  | None =>
      match var with
      | Some var =>
          match env (txt var) with
          | Some v => Some [v]
          | None => match default with Some d => Some [txt d] | None => None end
          end
      | None => match default with Some d => Some [txt d] | None => None end
      end
  end.

Definition usage {A} (flag : string) : result A := Failure (txt "invalid value for --" ++ txt flag).

(** A field of type [T], of type [Option<T>], and of type [bool]. *)
Definition opt_value {A} (parse : text -> option A) (flag : string) (var default : option string) : result (option A) :=
  match raw_values flag var default with
  | None => Success None
  | Some (v :: _) => match parse v with Some a => Success (Some a) | None => usage flag end
  | Some [] => usage flag
  end.

Definition value {A} (parse : text -> option A) (flag : string) (var default : option string) : result A :=
  let? v := opt_value parse flag var default in
  match v with Some a => Success a | None => usage flag end.

Definition flag_value (flag var : string) : result bool :=
  match given (txt flag) with
  | Some _ => Success true
  | None =>
      match env (txt var) with
      | Some v => match bool_value v with Some b => Success b | None => usage flag end
      | None => Success false
      end
  end.

Fixpoint parse_all {A} (parse : text -> option A) (flag : string) (vs : list text) : result (list A) :=
  match vs with
  | [] => Success []
  | v :: vs =>
      match parse v with
      | Some a => let? rest := parse_all parse flag vs in Success (a :: rest)
      | None => usage flag
      end
  end.

(** A field of type [Vec<T>]: every occurrence, each cut at its commas when the
    flag has [value_delimiter = ',']. *)
Definition values {A} (parse : text -> option A) (delimited : bool) (flag : string) (var : option string)
  : result (list A) :=
  let vs := default [] (raw_values flag var None) in
  parse_all parse flag (if delimited then flat_map (split 44) vs else vs).
End setting.

(** ** The table *)
Section table.
Context {K : Clap} {H : Hex} (usize_max : Z) (given : text -> option (list text)) (env : text -> option text).

Abbreviation text_value := (fun v : text => Some v).
Definition u64_max : Z := 2 ^ 64 - 1.
Abbreviation seconds flag var d := (value given env (uint_value u64_max) flag (Some var) (Some d)).

Definition tier_value (v : text) : option UpstreamTier :=
  List.find (fun t => teq (tier_name t) v) [Ws; Cfworker; Cfproxy; Mtproto; Tcp].

(** [std::net::IpAddr], kept in its printed form. *)
Definition ip_value (v : text) : option text :=
  match parse_ip v with Some ip => Some (ip_to_string ip) | None => None end.

Record listen_settings : Type := mkListen {
  ls_port : Z;
  ls_host : option text;
  ls_secrets : list text;
  ls_listen_faketls_domain : option text;
  ls_dc_ip : list (Z * text);
  ls_buf_kb : Z;
  ls_pool_size : Z;
  ls_max_connections : option Z;
}.

Definition listen_args : result listen_settings :=
  let? port := value given env (uint_value 65535) "port" (Some "TG_PORT") (Some "1443") in
  let? host := opt_value given env text_value "host" (Some "TG_HOST") None in
  let? secrets := values given env text_value true "secret" (Some "TG_SECRET") in
  let? domain := opt_value given env text_value "listen-faketls-domain" (Some "TG_LISTEN_FAKETLS_DOMAIN") None in
  let? dc_ip := values given env parse_dc_ip false "dc-ip" None in
  let? buf_kb := value given env (uint_value usize_max) "buf-kb" (Some "TG_BUF_KB") (Some "256") in
  let? pool_size := value given env (uint_value usize_max) "pool-size" (Some "TG_POOL_SIZE") (Some "4") in
  let? max := opt_value given env (uint_value usize_max) "max-connections" (Some "TG_MAX_CONNECTIONS") None in
  Success (mkListen port host secrets domain dc_ip buf_kb pool_size max).

Record log_settings : Type := mkLog {
  lg_verbose : bool;
  lg_skip_tls_verify : bool;
  lg_quiet : bool;
  lg_log_file : option text;
}.

Definition log_args : result log_settings :=
  let? verbose := flag_value given env "verbose" "TG_VERBOSE" in
  let? skip := flag_value given env "danger-accept-invalid-certs" "TG_SKIP_TLS_VERIFY" in
  let? quiet := flag_value given env "quiet" "TG_QUIET" in
  let? log_file := opt_value given env text_value "log-file" (Some "TG_LOG_FILE") None in
  Success (mkLog verbose skip quiet log_file).

Record upstream_settings : Type := mkUpstreams {
  us_mtproto_proxies : list MtProtoProxy;
  us_link_ip : option text;
  us_cf_domains : list text;
  us_cf_worker_domains : list text;
  us_cf_priority : bool;
  us_cf_balance : bool;
  us_cf_disable_tls : bool;
  us_pinned : list UpstreamTier;
  us_pinned_media : list UpstreamTier;
  us_cf_ips : list text;
}.

Definition upstream_args : result upstream_settings :=
  let? proxies := values given env parse_mtproto_proxy true "mtproto-proxy" (Some "TG_MTPROTO_PROXY") in
  let? link_ip := opt_value given env text_value "link-ip" (Some "TG_LINK_IP") None in
  let? cf := values given env text_value true "cf-domain" (Some "TG_CF_DOMAIN") in
  let? workers := values given env text_value true "cf-worker-domain" (Some "TG_CF_WORKER_DOMAIN") in
  let? priority := flag_value given env "cf-priority" "TG_CF_PRIORITY" in
  let? balance := flag_value given env "cf-balance" "TG_CF_BALANCE" in
  let? disable_tls := flag_value given env "cf-disable-tls" "TG_CF_DISABLE_TLS" in
  let? pinned := values given env tier_value true "pinned-upstream" (Some "TG_PINNED_UPSTREAM") in
  let? media := values given env tier_value true "pinned-media-upstream" (Some "TG_PINNED_MEDIA_UPSTREAM") in
  let? ips := values given env ip_value true "cf-ip" (Some "TG_CF_IP") in
  Success (mkUpstreams proxies link_ip cf workers priority balance disable_tls pinned media ips).

Record time_settings : Type := mkTimes {
  ts_ws_connect : Z;
  ts_ws_fail_probe : Z;
  ts_ws_fail : Z;
  ts_ws_redirect : Z;
  ts_ip_fail : Z;
  ts_handshake : Z;
  ts_tcp_fallback : Z;
  ts_upstream_connect : Z;
  ts_upstream_fail : Z;
  ts_cf_connect : Z;
  ts_cf_fail : Z;
}.

Definition time_args : result time_settings :=
  let? ws := seconds "ws-connect-timeout" "TG_WS_CONNECT_TIMEOUT" "10" in
  let? probe := seconds "ws-fail-probe-timeout" "TG_WS_FAIL_PROBE_TIMEOUT" "2" in
  let? fail := seconds "ws-fail-cooldown" "TG_WS_FAIL_COOLDOWN" "30" in
  let? redirect := seconds "ws-redirect-cooldown" "TG_WS_REDIRECT_COOLDOWN" "300" in
  let? ip := seconds "ip-fail-cooldown" "TG_IP_FAIL_COOLDOWN" "3600" in
  let? handshake := seconds "handshake-timeout" "TG_HANDSHAKE_TIMEOUT" "10" in
  let? tcp := seconds "tcp-fallback-timeout" "TG_TCP_FALLBACK_TIMEOUT" "10" in
  let? up := seconds "upstream-connect-timeout" "TG_UPSTREAM_CONNECT_TIMEOUT" "5" in
  let? upf := seconds "upstream-fail-cooldown" "TG_UPSTREAM_FAIL_COOLDOWN" "60" in
  let? cf := seconds "cf-connect-timeout" "TG_CF_CONNECT_TIMEOUT" "10" in
  let? cff := seconds "cf-fail-cooldown" "TG_CF_FAIL_COOLDOWN" "60" in
  Success (mkTimes ws probe fail redirect ip handshake tcp up upf cf cff).

Record fronting_settings : Type := mkFronting {
  fs_domain : option text;
  fs_cooldown : Z;
  fs_fail_cooldown : Z;
  fs_pool_max_age : Z;
}.

Definition fronting_args : result fronting_settings :=
  let? domain := opt_value given env text_value "fronting-domain" (Some "TG_FRONTING_DOMAIN") None in
  let? cooldown := seconds "fronting-cooldown" "TG_FRONTING_COOLDOWN" "1800" in
  let? fail := seconds "fronting-fail-cooldown" "TG_FRONTING_FAIL_COOLDOWN" "60" in
  let? age := seconds "pool-max-age" "TG_POOL_MAX_AGE" "55" in
  Success (mkFronting domain cooldown fail age).

Record run_settings : Type := mkRun {
  rs_check : bool;
  rs_check_listener : bool;
  rs_default_domains : bool;
  rs_outbound_proxy : option text;
  rs_no_outbound_proxy : bool;
  rs_no_proxy : option text;
}.

Definition run_args : result run_settings :=
  let? check := flag_value given env "check" "TG_CHECK" in
  let? listener := flag_value given env "check-listener" "TG_CHECK_LISTENER" in
  let? domains := flag_value given env "default-domains" "TG_DEFAULT_DOMAINS" in
  let? proxy := opt_value given env text_value "outbound-proxy" (Some "TG_OUTBOUND_PROXY") None in
  let? no_proxy := flag_value given env "no-outbound-proxy" "TG_NO_OUTBOUND_PROXY" in
  let? list := opt_value given env text_value "no-proxy" (Some "TG_NO_PROXY") None in
  Success (mkRun check listener domains proxy no_proxy list).

Definition assemble (l : listen_settings) (g : log_settings) (u : upstream_settings) (t : time_settings)
    (f : fronting_settings) (r : run_settings) : Config :=
  mkConfig (ls_host l) (us_link_ip u) (rs_check r) (rs_check_listener r) (ls_secrets l)
    (ls_listen_faketls_domain l) (ls_dc_ip l) (lg_skip_tls_verify g) (us_cf_domains u)
    (rs_default_domains r) (us_cf_worker_domains u) (us_cf_priority u) (us_cf_balance u)
    (us_cf_disable_tls u) (us_mtproto_proxies u) (us_pinned u) (us_pinned_media u)
    (ts_ws_connect t) (ts_ws_fail_probe t) (ts_ws_fail t) (ts_ws_redirect t) (ts_ip_fail t)
    (ts_handshake t) (ts_tcp_fallback t) (ts_upstream_connect t) (ts_upstream_fail t)
    (ts_cf_connect t) (ts_cf_fail t) (ls_port l) (ls_pool_size l) (fs_pool_max_age f)
    (ls_max_connections l) (us_cf_ips u) (fs_domain f) (rs_outbound_proxy r)
    (rs_no_outbound_proxy r) (rs_no_proxy r) (lg_quiet g) (lg_verbose g)
    (lg_log_file g) (ls_buf_kb l) (fs_cooldown f) (fs_fail_cooldown f).

Definition config_of : result Config :=
  let? l := listen_args in
  let? g := log_args in
  let? u := upstream_args in
  let? t := time_args in
  let? f := fronting_args in
  let? r := run_args in
  Success (assemble l g u t f r).
End table.

(** [Config::try_parse_from] and [Config::from_args]; [from_args] exits the
    process on a usage error. *)
Section parse.
Context {K : Clap} {H : Hex} (usize_max : Z) (env : text -> option text).

Definition try_parse_from (args : list text) : result Config :=
  let? given := given_values args in
  config_of usize_max given env.

Definition from_args (random16 : bytes) (args : list text) : run (result (Config * list bytes * option text)) :=
  match try_parse_from args with
  | Failure e => Done (Failure e)
  | Success c => run_bind (with_defaults random16 c) (fun nc => Done (Success nc))
  end.
End parse.

(** ** Lemmas *)
Section lemmas.
Context {K : Clap} (given : text -> option (list text)) (env : text -> option text).

Lemma result_bind_inv {A B} (m : result A) (k : A -> result B) b :
  result_bind m k = Success b -> exists a, m = Success a /\ k a = Success b.
Proof. destruct m; [eauto|done]. Qed.

Lemma opt_value_inv {A} (parse : text -> option A) flag var d a :
  opt_value given env parse flag var d = Success (Some a) -> exists v, parse v = Some a.
Proof. unfold opt_value. repeat case_match; intros; simplify_eq; eauto. Qed.

Lemma value_inv {A} (parse : text -> option A) flag var d a :
  value given env parse flag var d = Success a -> exists v, parse v = Some a.
Proof.
  unfold value. intros ([b|] & Hb & Hv)%result_bind_inv; [|done]. simplify_eq. by eapply opt_value_inv.
Qed.

Lemma parse_all_inv {A} (parse : text -> option A) flag vs l :
  parse_all parse flag vs = Success l -> Forall2 (fun v a => parse v = Some a) vs l.
Proof.
  revert l. induction vs as [|v vs IH]; intros l H; cbn [parse_all] in H; [simplify_eq; constructor|].
  destruct (parse v) eqn:E; [|done]. apply result_bind_inv in H as (rest & Hr & H). simplify_eq. constructor; auto.
Qed.

Lemma parse_all_text flag vs : parse_all (fun v : text => Some v) flag vs = Success vs.
Proof. induction vs as [|v vs IH]; [done|]. cbn [parse_all]. by rewrite IH. Qed.

Lemma values_inv {A} (parse : text -> option A) delimited flag var l :
  values given env parse delimited flag var = Success l -> Forall (fun a => exists v, parse v = Some a) l.
Proof.
  unfold values. intros H%parse_all_inv. eapply Forall2_Forall_r; [exact H|]. apply Forall_true. eauto.
Qed.
End lemmas.

Ltac inv_results :=
  repeat match goal with
  | H : result_bind _ _ = Success _ |- _ => apply result_bind_inv in H as (? & ? & H)
  end.

(** ** Properties *)

(** What a parsed configuration is guaranteed to be: every number fits the
    field that holds it, every address parses, every upstream proxy has a port
    and a secret that decodes to the key beside it. *)
Record config_ok {H : Hex} (usize_max : Z) (c : Config) : Prop := {
  ok_port : 0 <= c_port c <= 65535;
  ok_sizes : 0 <= c_pool_size c <= usize_max /\ 0 <= c_buf_kb c <= usize_max;
  ok_max m : c_max_connections c = Some m -> 0 <= m <= usize_max;
  ok_dc_ip : Forall (fun e => 0 <= e.1 <= 2 ^ 32 - 1 /\ is_ip e.2 = true) (c_dc_ip c);
  ok_cf_ips : Forall (fun ip => exists a, ip = ip_to_string a) (c_cf_ips c);
  ok_proxies : Forall (fun p => 0 <= mp_port p <= 65535 /\
    exists raw, hex_decode (mp_secret p) = Some raw /\ mp_secret_key p = secret_key raw) (c_mtproto_proxies c);
  ok_times : Forall (fun s => 0 <= s <= u64_max)
    [c_ws_connect_timeout c; c_ws_fail_probe_timeout c; c_ws_fail_cooldown c; c_ws_redirect_cooldown c;
     c_ip_fail_cooldown c; c_handshake_timeout c; c_tcp_fallback_timeout c; c_upstream_connect_timeout c;
     c_upstream_fail_cooldown c; c_cf_connect_timeout c; c_cf_fail_cooldown c; c_pool_max_age c;
     c_fronting_cooldown c; c_fronting_fail_cooldown c];
}.

Section groups.
Context {K : Clap} `{!ClapLaws K} {H : Hex} (usize_max : Z) (given : text -> option (list text)).
Context (env : text -> option text).

Lemma uint_value_ok max flag var d v :
  value given env (uint_value max) flag var d = Success v -> 0 <= v <= max.
Proof. intros (? & ?%uint_value_range)%value_inv. done. Qed.

Lemma parse_dc_ip_ok v e : parse_dc_ip v = Some e -> 0 <= e.1 <= 2 ^ 32 - 1 /\ is_ip e.2 = true.
Proof.
  unfold parse_dc_ip. repeat case_match; intros; simplify_eq. split; [|done].
  by eapply parse_uint_range; [|done].
Qed.

Lemma parse_mtproto_proxy_ok v p : parse_mtproto_proxy v = Some p ->
  0 <= mp_port p <= 65535 /\
  exists raw, hex_decode (mp_secret p) = Some raw /\ mp_secret_key p = secret_key raw.
Proof.
  unfold parse_mtproto_proxy. repeat case_match; intros; simplify_eq; simpl.
  all: split; [by eapply parse_uint_range; [|done]|eauto].
Qed.

Lemma listen_args_ok l : listen_args usize_max given env = Success l ->
  0 <= ls_port l <= 65535 /\ (0 <= ls_pool_size l <= usize_max /\ 0 <= ls_buf_kb l <= usize_max) /\
  (forall m, ls_max_connections l = Some m -> 0 <= m <= usize_max) /\
  Forall (fun e => 0 <= e.1 <= 2 ^ 32 - 1 /\ is_ip e.2 = true) (ls_dc_ip l).
Proof.
  unfold listen_args. intros HL. inv_results. simplify_eq. simpl.
  refine (conj _ (conj (conj _ _) (conj _ _))).
  all: try (eapply uint_value_ok; eassumption).
  - intros m ->. match goal with HM : opt_value _ _ _ "max-connections" _ _ = _ |- _ =>
      apply opt_value_inv in HM as (? & ?%uint_value_range) end. done.
  - match goal with HD : values _ _ parse_dc_ip _ _ _ = _ |- _ => apply values_inv in HD; revert HD end.
    apply Forall_impl. intros e (v & He). by eapply parse_dc_ip_ok.
Qed.

Lemma upstream_args_ok u : upstream_args given env = Success u ->
  Forall (fun ip => exists a, ip = ip_to_string a) (us_cf_ips u) /\
  Forall (fun p => 0 <= mp_port p <= 65535 /\
    exists raw, hex_decode (mp_secret p) = Some raw /\ mp_secret_key p = secret_key raw) (us_mtproto_proxies u).
Proof.
  unfold upstream_args. intros HU. inv_results. simplify_eq. simpl. split.
  - match goal with HD : values _ _ ip_value _ _ _ = _ |- _ => apply values_inv in HD; revert HD end.
    apply Forall_impl. unfold ip_value. intros e (v & He). case_match; simplify_eq. eauto.
  - match goal with HD : values _ _ parse_mtproto_proxy _ _ _ = _ |- _ => apply values_inv in HD; revert HD end.
    apply Forall_impl. intros e (v & He). by eapply parse_mtproto_proxy_ok.
Qed.

Lemma time_args_ok t : time_args given env = Success t ->
  Forall (fun s => 0 <= s <= u64_max)
    [ts_ws_connect t; ts_ws_fail_probe t; ts_ws_fail t; ts_ws_redirect t; ts_ip_fail t; ts_handshake t;
     ts_tcp_fallback t; ts_upstream_connect t; ts_upstream_fail t; ts_cf_connect t; ts_cf_fail t].
Proof.
  unfold time_args. intros HT. inv_results. simplify_eq. simpl.
  repeat (apply List.Forall_cons; [eapply uint_value_ok; eassumption|]). constructor.
Qed.

Lemma fronting_args_ok f : fronting_args given env = Success f ->
  Forall (fun s => 0 <= s <= u64_max) [fs_pool_max_age f; fs_cooldown f; fs_fail_cooldown f].
Proof.
  unfold fronting_args. intros HF. inv_results. simplify_eq. simpl.
  repeat (apply List.Forall_cons; [eapply uint_value_ok; eassumption|]). constructor.
Qed.
End groups.

(** Every group of the table yields settings of its types. *)
Lemma cli_config_typed_ok {K : Clap} `{!ClapLaws K} {H : Hex} usize_max env args c :
  try_parse_from usize_max env args = Success c -> config_ok usize_max c.
Proof.
  intros (given & _ & HC)%result_bind_inv. unfold config_of in HC. inv_results. simplify_eq.
  match goal with HL : listen_args _ _ _ = _ |- _ => apply listen_args_ok in HL as (? & ? & ? & ?) end.
  match goal with HU : upstream_args _ _ = _ |- _ => apply upstream_args_ok in HU as (? & ?) end.
  match goal with HT : time_args _ _ = _ |- _ => apply time_args_ok in HT; rename HT into Ht end.
  match goal with HF : fronting_args _ _ = _ |- _ => apply fronting_args_ok in HF; rename HF into Hf end.
  constructor; try done. exact (Forall_app_2 _ _ _ Ht Hf).
Qed.

(** What the table makes of an empty command line and environment. *)
Definition default_config : Config :=
  mkConfig None None false false [] None [] false [] false [] false false false [] [] []
    10 2 30 300 3600 10 10 5 60 10 60 1443 4 55 None [] None None false None false false None 256 1800 60.

Lemma cli_defaults {K : Clap} `{!ClapLaws K} {H : Hex} usize_max env argv0 :
  256 <= usize_max -> (forall v, env v = None) -> try_parse_from usize_max env [argv0] = Success default_config.
Proof.
  intros Hu He. unfold try_parse_from. destruct (given_nothing argv0) as (g & -> & Hg). cbn [result_bind].
  assert (forall max v s, dec v = s -> 0 <= v < 10 ^ 20 -> v <= max -> uint_value max s = Some v) as HU.
  { intros max v s <-. apply uint_value_dec. }
  unfold config_of, listen_args, log_args, upstream_args, time_args, fronting_args, run_args, value, opt_value,
    values, flag_value, raw_values.
  rewrite !Hg, !He. cbn [default flat_map parse_all result_bind].
  rewrite (HU 65535 1443), (HU usize_max 256), (HU usize_max 4), (HU u64_max 10), (HU u64_max 2),
    (HU u64_max 30), (HU u64_max 300), (HU u64_max 3600), (HU u64_max 5), (HU u64_max 60),
    (HU u64_max 1800), (HU u64_max 55); try (vm_compute; reflexivity); try (unfold u64_max; lia).
Qed.

(** *** A concrete command-line parser *)

(** Flags spelled [--flag=value]; [--flag] alone is present without a value. *)
Fixpoint plain_given (args : list text) (flag : text) : option (list text) :=
  match args with
  | [] => None
  | arg :: args =>
      let rest := plain_given args flag in
      match strip_prefix (txt "--" ++ flag) arg with
      | Some [] => Some (default [] rest)
      | Some (61 :: v) => Some (v :: default [] rest)
      | _ => rest
      end
  end.

Definition plain_clap : Clap := {|
  given_values args := match args with [] => Failure [] | _ :: args => Success (plain_given args) end;
  uint_value max s := if max <? 0 then None else parse_uint max s;
  bool_value s := if teq s (txt "true") then Some true else if teq s (txt "false") then Some false else None;
|}.

Lemma plain_clap_laws : ClapLaws plain_clap.
Proof.
  constructor.
  - intros max s v. simpl. case_test; boolify; [done|]. by apply parse_uint_range.
  - intros max v Hv Hm. simpl. case_test; boolify; [lia|]. by apply parse_uint_dec.
  - intros argv0. simpl. eauto.
Qed.
