(* ===== verification/CliPrint.v ===== *)
(** * config.rs: the command line, printed

    A printer for the flag table of [Cli]: every field of a configuration under
    the flag and the environment variable the [#[arg(..)]] attribute names for
    it, with its value spelled out.  Parsing what it prints gives the
    configuration back, from the command line and from the environment. *)
From Stdlib Require Import String.
From stdpp Require Import gmap.
From S2P Require Import Prelude Text Ip CryptoApi Crypto Config Cli.

Local Open Scope string_scope.
Local Open Scope list_scope.
Local Open Scope Z_scope.

(** ** What clap documents of an argument vector *)

(** A flag takes one value, takes values as often as it is given, or takes none. *)
Inductive flag_kind : Set :=
| Single
| Multi
| Switch.

#[export] Instance flag_kind_eq_dec : EqDecision flag_kind.
Proof. solve_decision. Defined.

(** The long flags of [Config], by the type of their field. *)
Definition FLAGS : list (string * flag_kind) :=
  [("port", Single); ("host", Single); ("secret", Multi); ("listen-faketls-domain", Single); ("dc-ip", Multi);
   ("buf-kb", Single); ("pool-size", Single); ("max-connections", Single); ("verbose", Switch);
   ("danger-accept-invalid-certs", Switch); ("quiet", Switch); ("log-file", Single); ("mtproto-proxy", Multi);
   ("link-ip", Single); ("cf-domain", Multi); ("cf-worker-domain", Multi); ("cf-priority", Switch);
   ("cf-balance", Switch); ("cf-disable-tls", Switch); ("pinned-upstream", Multi); ("pinned-media-upstream", Multi);
   ("cf-ip", Multi); ("ws-connect-timeout", Single); ("ws-fail-probe-timeout", Single); ("ws-fail-cooldown", Single);
   ("ws-redirect-cooldown", Single); ("ip-fail-cooldown", Single); ("handshake-timeout", Single);
   ("tcp-fallback-timeout", Single); ("upstream-connect-timeout", Single); ("upstream-fail-cooldown", Single);
   ("cf-connect-timeout", Single); ("cf-fail-cooldown", Single); ("fronting-domain", Single);
   ("fronting-cooldown", Single); ("fronting-fail-cooldown", Single); ("pool-max-age", Single); ("check", Switch);
   ("check-listener", Switch); ("default-domains", Switch); ("outbound-proxy", Single); ("no-outbound-proxy", Switch);
   ("no-proxy", Single)].

(** [--flag=value], or [--flag] alone. *)
Definition spelled (o : text * option text) : text :=
  txt "--" ++ o.1 ++ match o.2 with Some v => 61 :: v | None => [] end.

(** The values the occurrences of one flag carry; [None] when there is none. *)
Definition occurrences (flag : text) (os : list (text * option text)) : option (list text) :=
  match List.filter (fun o => teq o.1 flag) os with
  | [] => None
  | qs => Some (omap snd qs)
  end.

Definition well_spelled (os : list (text * option text)) : Prop :=
  Forall (fun o => exists flag kind, o.1 = txt flag /\ (flag, kind) ∈ FLAGS /\ (o.2 = None <-> kind = Switch)) os /\
  forall flag kind, (flag, kind) ∈ FLAGS -> kind <> Multi ->
    (length (List.filter (fun o => teq o.1 (txt flag)) os) <= 1)%nat.

Class ClapSpelling (K : Clap) : Prop := {
  given_spelled argv0 os : well_spelled os ->
    exists g, given_values (argv0 :: map spelled os) = Success g /\
      forall flag kind, (flag, kind) ∈ FLAGS -> g (txt flag) = occurrences (txt flag) os;
  bool_value_true : bool_value (txt "true") = Some true;
}.

(** ** The printer *)

(** How a field is shown: one value; a value that may be missing; values in one
    comma-separated list; a value per occurrence; a switch. *)
Inductive shown : Type :=
| One (v : text)
| Maybe (o : option text)
| Several (vs : list text)
| Each (vs : list text)
| On (b : bool).

Fixpoint commas (vs : list text) : text :=
  match vs with
  | [] => []
  | [v] => v
  | v :: vs => v ++ 44 :: commas vs
  end.

Definition show_dc_ip (e : Z * text) : text := dec e.1 ++ 58 :: e.2.
Definition show_proxy (p : MtProtoProxy) : text := mp_host p ++ 58 :: dec (mp_port p) ++ 58 :: mp_secret p.

(** Every field with its flag and its variable. *)
Definition table (c : Config) : list (string * option string * shown) :=
  [("port", Some "TG_PORT", One (dec (c_port c)));
   ("host", Some "TG_HOST", Maybe (c_host c));
   ("secret", Some "TG_SECRET", Several (c_secrets c));
   ("listen-faketls-domain", Some "TG_LISTEN_FAKETLS_DOMAIN", Maybe (c_listen_faketls_domain c));
   ("dc-ip", None, Each (map show_dc_ip (c_dc_ip c)));
   ("buf-kb", Some "TG_BUF_KB", One (dec (c_buf_kb c)));
   ("pool-size", Some "TG_POOL_SIZE", One (dec (c_pool_size c)));
   ("max-connections", Some "TG_MAX_CONNECTIONS", Maybe (option_map dec (c_max_connections c)));
   ("verbose", Some "TG_VERBOSE", On (c_verbose c));
   ("danger-accept-invalid-certs", Some "TG_SKIP_TLS_VERIFY", On (c_skip_tls_verify c));
   ("quiet", Some "TG_QUIET", On (c_quiet c));
   ("log-file", Some "TG_LOG_FILE", Maybe (c_log_file c));
   ("mtproto-proxy", Some "TG_MTPROTO_PROXY", Several (map show_proxy (c_mtproto_proxies c)));
   ("link-ip", Some "TG_LINK_IP", Maybe (c_link_ip c));
   ("cf-domain", Some "TG_CF_DOMAIN", Several (c_cf_domains c));
   ("cf-worker-domain", Some "TG_CF_WORKER_DOMAIN", Several (c_cf_worker_domains c));
   ("cf-priority", Some "TG_CF_PRIORITY", On (c_cf_priority c));
   ("cf-balance", Some "TG_CF_BALANCE", On (c_cf_balance c));
   ("cf-disable-tls", Some "TG_CF_DISABLE_TLS", On (c_cf_disable_tls c));
   ("pinned-upstream", Some "TG_PINNED_UPSTREAM", Several (map tier_name (c_pinned_upstreams c)));
   ("pinned-media-upstream", Some "TG_PINNED_MEDIA_UPSTREAM", Several (map tier_name (c_pinned_media_upstreams c)));
   ("cf-ip", Some "TG_CF_IP", Several (c_cf_ips c));
   ("ws-connect-timeout", Some "TG_WS_CONNECT_TIMEOUT", One (dec (c_ws_connect_timeout c)));
   ("ws-fail-probe-timeout", Some "TG_WS_FAIL_PROBE_TIMEOUT", One (dec (c_ws_fail_probe_timeout c)));
   ("ws-fail-cooldown", Some "TG_WS_FAIL_COOLDOWN", One (dec (c_ws_fail_cooldown c)));
   ("ws-redirect-cooldown", Some "TG_WS_REDIRECT_COOLDOWN", One (dec (c_ws_redirect_cooldown c)));
   ("ip-fail-cooldown", Some "TG_IP_FAIL_COOLDOWN", One (dec (c_ip_fail_cooldown c)));
   ("handshake-timeout", Some "TG_HANDSHAKE_TIMEOUT", One (dec (c_handshake_timeout c)));
   ("tcp-fallback-timeout", Some "TG_TCP_FALLBACK_TIMEOUT", One (dec (c_tcp_fallback_timeout c)));
   ("upstream-connect-timeout", Some "TG_UPSTREAM_CONNECT_TIMEOUT", One (dec (c_upstream_connect_timeout c)));
   ("upstream-fail-cooldown", Some "TG_UPSTREAM_FAIL_COOLDOWN", One (dec (c_upstream_fail_cooldown c)));
   ("cf-connect-timeout", Some "TG_CF_CONNECT_TIMEOUT", One (dec (c_cf_connect_timeout c)));
   ("cf-fail-cooldown", Some "TG_CF_FAIL_COOLDOWN", One (dec (c_cf_fail_cooldown c)));
   ("fronting-domain", Some "TG_FRONTING_DOMAIN", Maybe (c_fronting_domain c));
   ("fronting-cooldown", Some "TG_FRONTING_COOLDOWN", One (dec (c_fronting_cooldown c)));
   ("fronting-fail-cooldown", Some "TG_FRONTING_FAIL_COOLDOWN", One (dec (c_fronting_fail_cooldown c)));
   ("pool-max-age", Some "TG_POOL_MAX_AGE", One (dec (c_pool_max_age c)));
   ("check", Some "TG_CHECK", On (c_check c));
   ("check-listener", Some "TG_CHECK_LISTENER", On (c_check_listener c));
   ("default-domains", Some "TG_DEFAULT_DOMAINS", On (c_default_domains c));
   ("outbound-proxy", Some "TG_OUTBOUND_PROXY", Maybe (c_outbound_proxy c));
   ("no-outbound-proxy", Some "TG_NO_OUTBOUND_PROXY", On (c_no_outbound_proxy c));
   ("no-proxy", Some "TG_NO_PROXY", Maybe (c_no_proxy c))].

(** The occurrences that spell a field on the command line. *)
Definition cli_values (s : shown) : list (option text) :=
  match s with
  | One v => [Some v]
  | Maybe (Some v) => [Some v]
  | Maybe None => []
  | Several [] => []
  | Several vs => [Some (commas vs)]
  | Each vs => map Some vs
  | On true => [None]
  | On false => []
  end.

Definition entry_occurrences (e : string * option string * shown) : list (text * option text) :=
  map (fun v => (txt e.1.1, v)) (cli_values e.2).

Definition args_of (c : Config) : list text := map spelled (concat (map entry_occurrences (table c))).

(** What a field puts into its environment variable. *)
Definition env_text (s : shown) : option text :=
  match s with
  | One v => Some v
  | Maybe o => o
  | Several [] => None
  | Several vs => Some (commas vs)
  | Each _ => None
  | On true => Some (txt "true")
  | On false => None
  end.

Definition env_of (c : Config) (var : text) : option text :=
  match List.find (fun e => match e.1.2 with Some v => teq (txt v) var | None => false end) (table c) with
  | Some e => env_text e.2
  | None => None
  end.

(** ** Lemmas: values *)
Lemma split_nonempty d s : split d s <> [].
Proof. destruct s as [|b s]; cbn [split]; [done|]. case_match; [done|]. by case_match. Qed.

Lemma split_free d v : d ∉ v -> split d v = [v].
Proof.
  induction v as [|b v IH]; [done|]. rewrite not_elem_of_cons. intros [Hb Hv]. cbn [split].
  rewrite (proj2 (Z.eqb_neq _ _)) by congruence. by rewrite IH.
Qed.

Lemma split_cons d v s : d ∉ v -> split d (v ++ d :: s) = v :: split d s.
Proof.
  induction v as [|b v IH]; cbn [app split]; [by rewrite Z.eqb_refl|].
  rewrite not_elem_of_cons. intros [Hb Hv]. rewrite (proj2 (Z.eqb_neq _ _)) by congruence. by rewrite IH.
Qed.

Lemma split_commas vs : vs <> [] -> Forall (fun v => 44 ∉ v) vs -> split 44 (commas vs) = vs.
Proof.
  intros Hn HF. induction HF as [|v vs Hv HF IH]; [done|]. destruct vs as [|w vs]; [by apply split_free|].
  change (commas (v :: w :: vs)) with (v ++ 44 :: commas (w :: vs)). rewrite split_cons by done. by rewrite IH.
Qed.

Lemma dec_free d n : 58 <= d \/ d < 48 -> d ∉ dec n.
Proof.
  intros Hd. unfold dec. assert (d ∉ @nil Z) as Hnil by apply not_elem_of_nil. revert Hnil. generalize (@nil Z) as acc.
  generalize 20%nat as fuel. intros fuel. revert n. induction fuel as [|fuel IH]; intros n acc Hacc; cbn [dec_loop]; [done|].
  pose proof (Z.mod_pos_bound n 10 ltac:(lia)).
  assert (d ∉ (48 + n mod 10) :: acc) by (rewrite not_elem_of_cons; split; [lia|done]).
  case_match; [done|by apply IH].
Qed.

Lemma rsplit_once_app d x y : d ∉ y -> rsplit_once d (x ++ d :: y) = Some (x, y).
Proof.
  intros Hy. unfold rsplit_once. rewrite reverse_app, reverse_cons, <- app_assoc. cbn [app].
  rewrite split_once_app by (by rewrite elem_of_reverse). by rewrite !reverse_involutive.
Qed.

Lemma show_dc_ip_parses e :
  0 <= e.1 <= 2 ^ 32 - 1 -> is_ip e.2 = true -> parse_dc_ip (show_dc_ip e) = Some e.
Proof.
  intros Hd Hi. unfold parse_dc_ip, show_dc_ip. rewrite split_once_app by (apply dec_free; lia).
  rewrite parse_uint_dec by lia. rewrite Hi. by destruct e.
Qed.

Lemma tier_name_parses t : tier_value (tier_name t) = Some t.
Proof. by destruct t. Qed.

(** An upstream proxy that a [HOST:PORT:SECRET] can name: the key and the
    FakeTLS host name are those of its secret. *)
Definition proxy_ok {H : Hex} (p : MtProtoProxy) : Prop :=
  0 <= mp_port p <= 65535 /\ (58 ∉ mp_secret p) /\ (44 ∉ show_proxy p) /\
  exists raw, hex_decode (mp_secret p) = Some raw /\ mp_secret_key p = secret_key raw /\
    match faketls_hostname raw with
    | None => mp_faketls_hostname p = None
    | Some h => is_Some (mp_faketls_hostname p) /\ from_utf8 h = mp_faketls_hostname p
    end.

Lemma show_proxy_parses {H : Hex} p : proxy_ok p -> parse_mtproto_proxy (show_proxy p) = Some p.
Proof.
  intros (Hp & Hs & _ & raw & Er & Ek & Eh). unfold parse_mtproto_proxy, rsplit3, show_proxy.
  replace (mp_host p ++ 58 :: dec (mp_port p) ++ 58 :: mp_secret p)
    with ((mp_host p ++ 58 :: dec (mp_port p)) ++ 58 :: mp_secret p) by (by rewrite <- app_assoc).
  rewrite rsplit_once_app by done. rewrite rsplit_once_app by (apply dec_free; lia).
  rewrite parse_uint_dec by lia. rewrite Er. destruct p as [host port secret key hostname]; cbn in *. subst key.
  destruct (faketls_hostname raw) as [h|]; [|by subst]. destruct Eh as [[h' ->] ->]. done.
Qed.

(** ** Lemmas: what the table is told *)

(** The sources give the entry the value it shows. *)
Definition told (given : text -> option (list text)) (env : text -> option text) {K : Clap}
    (e : string * option string * shown) : Prop :=
  let '(flag, var, s) := e in
  match s with
  | One v => forall d, raw_values given env flag var d = Some [v]
  | Maybe o => raw_values given env flag var None = option_map (fun v => [v]) o
  | Several vs => flat_map (split 44) (default [] (raw_values given env flag var None)) = vs
  | Each vs => default [] (raw_values given env flag var None) = vs
  | On b => forall v, var = Some v -> flag_value given env flag v = Success b
  end.

Section told.
Context {K : Clap} `{!ClapLaws K} (given : text -> option (list text)) (env : text -> option text).

Lemma told_number flag var d max n :
  told given env (flag, var, One (dec n)) -> 0 <= n < 10 ^ 20 -> n <= max ->
  value given env (uint_value max) flag var d = Success n.
Proof. intros Ht Hn Hm. unfold value, opt_value. unfold told in Ht. rewrite Ht. by rewrite uint_value_dec. Qed.

Lemma told_text flag var o :
  told given env (flag, var, Maybe o) -> opt_value given env (fun v : text => Some v) flag var None = Success o.
Proof. intros Ht. unfold opt_value. unfold told in Ht. rewrite Ht. by destruct o. Qed.

Lemma told_limit flag var max m :
  told given env (flag, var, Maybe (option_map dec m)) -> (forall n, m = Some n -> 0 <= n < 10 ^ 20 /\ n <= max) ->
  opt_value given env (uint_value max) flag var None = Success m.
Proof.
  intros Ht Hm. unfold opt_value. unfold told in Ht. rewrite Ht. destruct m as [n|]; [|done]. cbn [option_map].
  destruct (Hm n eq_refl). by rewrite uint_value_dec.
Qed.

Lemma parse_all_shown {A} (parse : text -> option A) (show : A -> text) flag l :
  Forall (fun a => parse (show a) = Some a) l -> parse_all parse flag (map show l) = Success l.
Proof. induction 1 as [|a l Ha _ IH]; [done|]. cbn [map parse_all]. by rewrite Ha, IH. Qed.

Lemma told_list {A} (parse : text -> option A) (show : A -> text) flag var l :
  told given env (flag, var, Several (map show l)) -> Forall (fun a => parse (show a) = Some a) l ->
  values given env parse true flag var = Success l.
Proof. intros Ht HF. unfold values. unfold told in Ht. rewrite Ht. by apply parse_all_shown. Qed.

Lemma told_texts flag var l :
  told given env (flag, var, Several l) -> values given env (fun v : text => Some v) true flag var = Success l.
Proof. intros Ht. unfold values. unfold told in Ht. rewrite Ht. apply parse_all_text. Qed.

Lemma told_each {A} (parse : text -> option A) (show : A -> text) flag var l :
  told given env (flag, var, Each (map show l)) -> Forall (fun a => parse (show a) = Some a) l ->
  values given env parse false flag var = Success l.
Proof. intros Ht HF. unfold values. unfold told in Ht. rewrite Ht. by apply parse_all_shown. Qed.

Lemma told_switch flag v b : told given env (flag, Some v, On b) -> flag_value given env flag v = Success b.
Proof. intros Ht. by apply Ht. Qed.
End told.

(** A configuration the printer can spell: of the types [config_ok] states, with
    addresses in their printed form, proxies [HOST:PORT:SECRET] can name, and no
    comma inside an element of a comma-separated list. *)
Record printable {H : Hex} (usize_max : Z) (c : Config) : Prop := {
  pt_ok : config_ok usize_max c;
  pt_ips : Forall (fun ip => ip_value ip = Some ip /\ 44 ∉ ip) (c_cf_ips c);
  pt_proxies : Forall proxy_ok (c_mtproto_proxies c);
  pt_lists : Forall (fun v => 44 ∉ v) (c_secrets c ++ c_cf_domains c ++ c_cf_worker_domains c);
}.

Lemma told_config {K : Clap} `{!ClapLaws K} {H : Hex} usize_max given env c :
  usize_max <= u64_max -> printable usize_max c -> Forall (told given env) (table c) ->
  config_of usize_max given env = Success c.
Proof.
  intros Hu [[Hport [Hsz1 Hsz2] Hmax Hdc _ _ Ht] Hips Hpx _] HT. unfold u64_max in *. unfold table in HT.
  repeat match type of HT with Forall _ (_ :: _) => apply Forall_cons_1 in HT as [?Hs HT] end.
  repeat match type of Ht with Forall _ (_ :: _) => apply Forall_cons_1 in Ht as [?Hn Ht] end.
  assert (Forall (fun e => parse_dc_ip (show_dc_ip e) = Some e) (c_dc_ip c)) as Hdc'
    by (eapply Forall_impl; [|exact Hdc]; intros e [? ?]; by apply show_dc_ip_parses).
  assert (Forall (fun p => parse_mtproto_proxy (show_proxy p) = Some p) (c_mtproto_proxies c)) as Hpx'
    by (eapply Forall_impl; [|exact Hpx]; intros p; apply show_proxy_parses).
  assert (forall ts, Forall (fun t => tier_value (tier_name t) = Some t) ts) as Htier
    by (intros ts; apply list.Forall_forall; intros t _; apply tier_name_parses).
  assert (Forall (fun ip => ip_value (id ip) = Some ip) (c_cf_ips c)) as Hips'
    by (eapply Forall_impl; [|exact Hips]; by intros ip [? _]).
  unfold config_of, listen_args, log_args, upstream_args, time_args, fronting_args, run_args, u64_max.
  repeat match goal with
  | Ht : told _ _ (?f, ?y, One (dec ?n)) |- context [value given env (uint_value ?m) ?f ?y ?d] =>
      rewrite (told_number given env f y d m n Ht) by lia
  | Ht : told _ _ (?f, ?y, Maybe ?o) |- context [opt_value given env (fun v => Some v) ?f ?y None] =>
      rewrite (told_text given env f y o Ht)
  | Ht : told _ _ (?f, Some ?y, On ?b) |- context [flag_value given env ?f ?y] =>
      rewrite (told_switch given env f y b Ht)
  | Ht : told _ _ (?f, ?y, Several ?l) |- context [values given env (fun v => Some v) true ?f ?y] =>
      rewrite (told_texts given env f y l Ht)
  | Ht : told _ _ (?f, ?y, Several (map tier_name ?l)) |- context [values given env tier_value true ?f ?y] =>
      rewrite (told_list given env tier_value tier_name f y l Ht (Htier l))
  | Ht : told _ _ (?f, ?y, Several (map show_proxy ?l)) |- context [values given env parse_mtproto_proxy true ?f ?y] =>
      rewrite (told_list given env parse_mtproto_proxy show_proxy f y l Ht Hpx')
  | Ht : told _ _ (?f, ?y, Each (map show_dc_ip ?l)) |- context [values given env parse_dc_ip false ?f ?y] =>
      rewrite (told_each given env parse_dc_ip show_dc_ip f y l Ht Hdc')
  | Ht : told _ _ (?f, ?y, Maybe (option_map dec ?m)) |- context [opt_value given env (uint_value ?k) ?f ?y None] =>
      rewrite (told_limit given env f y k m Ht) by (intros n En; specialize (Hmax n En); lia)
  | Ht : told _ _ ("cf-ip", ?y, Several ?l) |- context [values given env ip_value true "cf-ip" ?y] =>
      rewrite (told_list given env ip_value id "cf-ip" y l) by (rewrite ?map_id; done)
  end.
  cbn [result_bind]. by destruct c.
Qed.

(** ** Lemmas: from the command line *)
Definition entry_flag (e : string * option string * shown) : text := txt e.1.1.

Lemma entry_filter f e :
  List.filter (fun o => teq o.1 f) (entry_occurrences e) = if teq (entry_flag e) f then entry_occurrences e else [].
Proof.
  unfold entry_occurrences, entry_flag. induction (cli_values e.2) as [|v vs IH]; cbn [map List.filter]; [by case_match|].
  rewrite IH. cbn [fst]. by destruct (teq (txt e.1.1) f).
Qed.

Lemma filter_absent f l :
  f ∉ map entry_flag l -> List.filter (fun o => teq o.1 f) (concat (map entry_occurrences l)) = [].
Proof.
  induction l as [|e l IH]; [done|]. cbn [map concat]. rewrite not_elem_of_cons. intros [Hf Hl].
  rewrite List.filter_app, entry_filter, IH by done. unfold teq. by rewrite bool_decide_false.
Qed.

Lemma filter_entry e l :
  NoDup (map entry_flag l) -> e ∈ l ->
  List.filter (fun o => teq o.1 (entry_flag e)) (concat (map entry_occurrences l)) = entry_occurrences e.
Proof.
  induction l as [|x l IH]; [by intros _ H%not_elem_of_nil|]. cbn [map concat]. intros [Hx HN]%list.NoDup_cons He.
  rewrite List.filter_app, entry_filter. apply elem_of_cons in He as [->|He].
  - rewrite filter_absent by done. unfold teq. by rewrite bool_decide_true, app_nil_r.
  - rewrite IH by done. unfold teq. rewrite bool_decide_false; [done|]. intros E. apply Hx. rewrite E.
    apply list_elem_of_fmap. by exists e.
Qed.

Lemma table_flags c : NoDup (map entry_flag (table c)).
Proof. apply (bool_decide_unpack (NoDup (map entry_flag (table c)))). vm_compute. exact I. Qed.

Definition kind_of (s : shown) : flag_kind :=
  match s with One _ | Maybe _ => Single | Several _ | Each _ => Multi | On _ => Switch end.

Lemma table_kinds c : map (fun e => (e.1.1, kind_of e.2)) (table c) = FLAGS.
Proof. reflexivity. Qed.

Lemma cli_values_kind s v : v ∈ cli_values s -> (v = None <-> kind_of s = Switch).
Proof.
  destruct s as [x|[x|]|[|x xs]|xs|[]]; cbn; rewrite ?elem_of_cons, ?list_elem_of_fmap; set_solver.
Qed.

Lemma cli_values_single s : kind_of s <> Multi -> (length (cli_values s) <= 1)%nat.
Proof. destruct s as [x|[x|]|[|x xs]|xs|[]]; cbn; try done; lia. Qed.

Lemma args_spelled c : well_spelled (concat (map entry_occurrences (table c))).
Proof.
  split.
  - apply list.Forall_forall. intros o Ho. rewrite list_elem_of_In, in_concat in Ho.
    destruct Ho as (l & Hl & Ho). apply in_map_iff in Hl as (e & <- & He). apply in_map_iff in Ho as (v & <- & Hv).
    exists e.1.1, (kind_of e.2). split; [done|]. split; [|by apply cli_values_kind, list_elem_of_In].
    rewrite <- (table_kinds c). apply list_elem_of_fmap. exists e. split; [done|by apply list_elem_of_In].
  - intros flag kind Hk Hm. rewrite <- (table_kinds c) in Hk. apply list_elem_of_fmap in Hk as (e & [= -> ->] & He).
    change (txt e.1.1) with (entry_flag e). rewrite filter_entry by (done || apply table_flags).
    unfold entry_occurrences. rewrite length_map. by apply cli_values_single.
Qed.

Lemma entry_values c e :
  e ∈ table c ->
  occurrences (entry_flag e) (concat (map entry_occurrences (table c))) =
    match cli_values e.2 with [] => None | vs => Some (omap id vs) end.
Proof.
  intros He. unfold occurrences. rewrite filter_entry by (done || apply table_flags). unfold entry_occurrences.
  assert (forall vs : list (option text), omap snd (map (fun v => (txt e.1.1, v)) vs) = omap id vs) as HO
    by (induction vs as [|[] vs IH]; [done|cbn; by rewrite <- IH..]).
  destruct (cli_values e.2) as [|v vs]; [done|]. cbn [map]. by rewrite <- HO.
Qed.

(** No comma inside an element of a comma-separated entry. *)
Definition entry_free (e : string * option string * shown) : Prop :=
  match e.2 with Several vs => Forall (fun v => 44 ∉ v) vs | _ => True end.

Lemma printable_free {H : Hex} usize_max c : printable usize_max c -> Forall entry_free (table c).
Proof.
  intros [_ Hips Hpx Hl]. apply Forall_app in Hl as [Hs [Hd Hw]%Forall_app].
  assert (forall ts, Forall (fun v => 44 ∉ v) (map tier_name ts)) as Ht.
  { intros ts. apply Forall_fmap, list.Forall_forall. intros t _.
    apply (bool_decide_unpack (44 ∉ tier_name t)). by destruct t. }
  assert (Forall (fun v => 44 ∉ v) (map show_proxy (c_mtproto_proxies c))) as Hp
    by (apply Forall_fmap; eapply Forall_impl; [|exact Hpx]; by intros p (_ & _ & ? & _)).
  assert (Forall (fun v => 44 ∉ v) (c_cf_ips c)) as Hi by (eapply Forall_impl; [|exact Hips]; by intros ip [_ ?]).
  unfold table. repeat (apply List.Forall_cons; [by try apply Ht|]). constructor.
Qed.

(** What the command line leaves out is not set in the environment either. *)
Definition silent (env : text -> option text) (c : Config) : Prop :=
  forall flag v s, (flag, Some v, s) ∈ table c -> cli_values s = [] -> env (txt v) = None.

(** Only [--dc-ip] has no variable, and a switch always has one. *)
Lemma flags_told {K : Clap} (g : text -> option (list text)) env c e :
  silent env c -> e ∈ table c -> entry_free e ->
  g (entry_flag e) = match cli_values e.2 with [] => None | vs => Some (omap id vs) end -> told g env e.
Proof.
  intros Hs He Hf Hg. destruct e as [[flag var] s]. unfold entry_flag in Hg. cbn [fst snd] in *. unfold entry_free in Hf. cbn in Hf.
  assert (cli_values s = [] -> forall d, raw_values g env flag var d = match d with Some d => Some [txt d] | None => None end) as Hnone.
  { intros Ec d. unfold raw_values. rewrite Hg, Ec. destruct var as [v|]; [|done]. by rewrite (Hs flag v s He Ec). }
  assert (forall vs, match cli_values s with [] => None | vs => Some (omap id vs) end = Some vs ->
    forall d, raw_values g env flag var d = Some vs) as Hsome.
  { intros vs Ev d. unfold raw_values. by rewrite Hg, Ev. }
  destruct s as [x|[x|]|[|x xs]|[|x xs]|b]; unfold told.
  - by apply Hsome.
  - by rewrite (Hsome [x] eq_refl).
  - by rewrite Hnone.
  - by rewrite Hnone.
  - rewrite (Hsome [commas (x :: xs)] eq_refl). transitivity (split 44 (commas (x :: xs)) ++ []); [done|]. rewrite app_nil_r. by apply split_commas.
  - by rewrite Hnone.
  - rewrite (Hsome (x :: xs)); [done|]. assert (forall l : list text, omap id (map Some l) = l) as HO
      by (induction l as [|y l IH]; [done|cbn; by rewrite IH]).
    cbn [cli_values map]. f_equal. exact (HO (x :: xs)).
  - intros v ->. unfold flag_value. rewrite Hg. destruct b; [done|]. by rewrite (Hs flag v (On false) He eq_refl).
Qed.

(** ** Lemmas: from the environment *)
Definition entry_var (e : string * option string * shown) : option text := option_map txt e.1.2.

Lemma table_vars c : NoDup (omap entry_var (table c)).
Proof. apply (bool_decide_unpack (NoDup (omap entry_var (table c)))). vm_compute. exact I. Qed.

Lemma find_var (e : string * option string * shown) v l :
  NoDup (omap entry_var l) -> e ∈ l -> e.1.2 = Some v ->
  List.find (fun e => match e.1.2 with Some w => teq (txt w) (txt v) | None => false end) l = Some e.
Proof.
  induction l as [|x l IH]; [by intros _ H%not_elem_of_nil|]. intros HN He Hv. cbn [List.find].
  apply elem_of_cons in He as [->|He]; [rewrite Hv; unfold teq; by rewrite bool_decide_true|].
  destruct (x.1.2) as [w|] eqn:Ew.
  - assert (omap entry_var (x :: l) = txt w :: omap entry_var l) as E by (cbn; unfold entry_var at 1; by rewrite Ew).
    rewrite E in HN. apply list.NoDup_cons in HN as [Hx HN]. unfold teq. rewrite bool_decide_false; [by apply IH|].
    intros E'. apply Hx. rewrite E'. apply list_elem_of_omap. exists e. split; [done|]. unfold entry_var. by rewrite Hv.
  - apply IH; try done. by assert (omap entry_var (x :: l) = omap entry_var l) as <- by (cbn; unfold entry_var at 1; by rewrite Ew).
Qed.

Lemma env_told {K : Clap} `{!ClapSpelling K} (g : text -> option (list text)) c e :
  (forall flag, g flag = None) -> c_dc_ip c = [] -> e ∈ table c -> entry_free e -> told g (env_of c) e.
Proof.
  intros Hg Hd He Hf. destruct e as [[flag var] s].
  assert (forall v, var = Some v -> env_of c (txt v) = env_text s) as Henv.
  { intros v ->. unfold env_of. by rewrite (find_var (flag, Some v, s)) by (done || apply table_vars). }
  assert (var = None -> s = Each []) as Hnone.
  { intros ->. clear -He Hd. unfold table in He. rewrite Hd in He. cbn [map] in He.
    repeat (apply elem_of_cons in He as [He|He]; [by simplify_eq|]). by apply not_elem_of_nil in He. }
  assert (forall d, raw_values g (env_of c) flag var d =
    match env_text s with Some x => Some [x] | None => match d with Some d => Some [txt d] | None => None end end) as Hraw.
  { intros d. unfold raw_values. rewrite Hg. destruct var as [v|]; [by rewrite (Henv v eq_refl)|]. by rewrite (Hnone eq_refl). }
  unfold entry_free in Hf. cbn in Hf. destruct s as [x|o|vs|vs|b]; unfold told.
  - intros d. by rewrite Hraw.
  - rewrite Hraw. by destruct o.
  - rewrite Hraw. destruct vs as [|x xs]; [done|]. transitivity (split 44 (commas (x :: xs)) ++ []); [done|]. rewrite app_nil_r. by apply split_commas.
  - rewrite Hraw. cbn. destruct var as [v|]; [|by injection (Hnone eq_refl) as ->].
    exfalso. clear -He. unfold table in He. repeat (apply elem_of_cons in He as [He|He]; [by simplify_eq|]).
    by apply not_elem_of_nil in He.
  - intros v ->. unfold flag_value. rewrite Hg, (Henv v eq_refl). destruct b; [|done]. cbn. by rewrite bool_value_true.
Qed.

(** ** Property *)

(** C28. Printing and parsing the settings are inverse: every printable
    configuration, spelled as a command line, parses to itself, whatever the
    environment says about the settings spelled (the command line wins); and
    spelled as environment variables, with an empty command line, it parses to
    itself too ([--dc-ip], the one setting without a variable, left out).  So
    each of the 43 settings is read from its own flag and its own variable, and
    its value survives. *)
Theorem cli_roundtrip {K : Clap} `{!ClapLaws K} `{!ClapSpelling K} {H : Hex} usize_max env argv0 c :
  usize_max <= u64_max -> printable usize_max c ->
  (silent env c -> try_parse_from usize_max env (argv0 :: args_of c) = Success c) /\
  (c_dc_ip c = [] -> try_parse_from usize_max (env_of c) [argv0] = Success c).
Proof.
  intros Hu Hp. pose proof (printable_free usize_max c Hp) as HF. rewrite list.Forall_forall in HF. split.
  - intros Hs. unfold try_parse_from, args_of. destruct (given_spelled argv0 _ (args_spelled c)) as (g & -> & Hg).
    cbn [result_bind]. apply told_config; [done|done|]. apply list.Forall_forall. intros e He.
    apply (flags_told g env c e Hs He (HF e He)). rewrite <- (entry_values c e He).
    apply (Hg e.1.1 (kind_of e.2)). rewrite <- (table_kinds c). apply list_elem_of_fmap. by exists e.
  - intros Hd. unfold try_parse_from. destruct (given_nothing argv0) as (g & -> & Hg). cbn [result_bind].
    apply told_config; [done|done|]. apply list.Forall_forall. intros e He. by apply (env_told g c e Hg Hd He (HF e He)).
Qed.

(** *** Witness: the concrete parser of [Cli] reads what is spelled *)
Lemma flag_free flag kind : (flag, kind) ∈ FLAGS -> 61 ∉ txt flag.
Proof.
  intros Hf. assert (Forall (fun e => 61 ∉ txt e.1) FLAGS) as HF
    by (apply (bool_decide_unpack (Forall _ FLAGS)); vm_compute; exact I).
  rewrite list.Forall_forall in HF. exact (HF _ Hf).
Qed.

Lemma strip_spelled f flag (v : option text) :
  61 ∉ f -> 61 ∉ flag -> f <> flag ->
  match strip_prefix (txt "--" ++ flag) (spelled (f, v)) with
  | Some [] | Some (61 :: _) => False
  | _ => True
  end.
Proof.
  intros Hf Hg Hne. unfold spelled. cbn [fst snd].
  destruct (strip_prefix _ _) as [r|] eqn:E; [|done]. apply strip_prefix_Some in E.
  rewrite <- app_assoc in E. apply app_inv_head in E.
  assert (r <> [] /\ forall w, r <> 61 :: w) as [Hn Hw].
  { destruct v as [v|]; split.
    - intros ->. rewrite app_nil_r in E. apply Hg. rewrite <- E. set_solver.
    - intros w ->. apply (f_equal (split_once 61)) in E. rewrite !split_once_app in E by done. by injection E.
    - intros ->. rewrite !app_nil_r in E. done.
    - intros w ->. rewrite app_nil_r in E. apply Hf. rewrite E. set_solver. }
  destruct r as [|b r]; [done|]. destruct (decide (b = 61)) as [->|Hb]; [by apply (Hw r)|].
  destruct b as [|p|p]; try done. repeat (destruct p as [p|p|]; try done).
Qed.

Lemma occurrences_hit flag v os :
  occurrences flag ((flag, v) :: os) = Some (match v with Some v => [v] | None => [] end ++ default [] (occurrences flag os)).
Proof.
  unfold occurrences. cbn [List.filter fst]. unfold teq at 1. rewrite bool_decide_true by done.
  destruct (List.filter _ os); by destruct v.
Qed.

Lemma occurrences_miss flag f v os : f <> flag -> occurrences flag ((f, v) :: os) = occurrences flag os.
Proof. intros Hne. unfold occurrences. cbn [List.filter fst]. unfold teq at 1. by rewrite bool_decide_false. Qed.

Lemma plain_spelled flag os :
  61 ∉ flag -> Forall (fun o => 61 ∉ o.1) os -> plain_given (map spelled os) flag = occurrences flag os.
Proof.
  intros Hg. induction 1 as [|[f v] os Hf _ IH]; [done|]. cbn [map plain_given]. rewrite IH.
  destruct (decide (f = flag)) as [->|Hne].
  - rewrite occurrences_hit. assert (strip_prefix (txt "--" ++ flag) (spelled (flag, v))
      = Some match v with Some v => 61 :: v | None => [] end) as ->; [|by destruct v].
    unfold spelled. cbn [fst snd]. rewrite app_assoc. apply strip_prefix_app.
  - rewrite occurrences_miss by done. pose proof (strip_spelled f flag v Hf Hg Hne) as HS.
    destruct (strip_prefix _ _) as [[|b r]|]; [done| |done].
    destruct b as [|p|p]; try done. repeat (destruct p as [p|p|]; try done).
Qed.

Lemma plain_clap_spelling : ClapSpelling plain_clap.
Proof.
  constructor; [|done]. intros argv0 os [Hos _]. eexists. split; [done|]. intros flag kind Hk.
  apply plain_spelled; [by eapply flag_free|]. eapply Forall_impl; [|exact Hos].
  intros o (f & k & -> & Hf & _). by eapply flag_free.
Qed.

Definition demo_full : Config :=
  mkConfig (Some (txt "0.0.0.0")) None false false [txt "00112233445566778899aabbccddeeff"; []] None [] true
    [txt "a.example"; txt "b.example"] false [txt "w.example"] false true false
    [mkMtProtoProxy (txt "proxy.example") 8443 (txt "dd00112233445566778899aabbccddeeff")
       [0; 17; 34; 51; 68; 85; 102; 119; 136; 153; 170; 187; 204; 221; 238; 255] None]
    [Cfproxy; Tcp] [Ws] 10 2 31 301 3600 11 12 5 61 13 62 443 8 55 (Some 100) [txt "104.16.0.1"] (Some (txt "front.example"))
    None true (Some (txt "localhost,10.0.0.0")) false true None 256 1800 60.

Lemma demo_full_printable : printable (H := plain_hex) u64_max demo_full.
Proof.
  constructor.
  - constructor; cbn; try (unfold u64_max; lia).
    + intros m [= <-]. unfold u64_max. lia.
    + constructor.
    + apply List.Forall_cons; [|constructor]. exists (V4 [104; 16; 0; 1]). reflexivity.
    + apply List.Forall_cons; [|constructor]. split; [cbn; lia|]. eexists. split; vm_compute; reflexivity.
    + unfold u64_max. repeat (apply List.Forall_cons; [lia|]). constructor.
  - apply List.Forall_cons; [|constructor]. split; [vm_compute; reflexivity|].
    apply (bool_decide_unpack (44 ∉ _)). vm_compute. exact I.
  - apply List.Forall_cons; [|constructor]. split; [cbn; lia|].
    split; [apply (bool_decide_unpack (58 ∉ _)); vm_compute; exact I|].
    split; [apply (bool_decide_unpack (44 ∉ _)); vm_compute; exact I|].
    eexists. split; [vm_compute; reflexivity|]. split; vm_compute; reflexivity.
  - apply (bool_decide_unpack (Forall _ _)). vm_compute. exact I.
Qed.

Lemma cli_roundtrip_witness :
  try_parse_from (K := plain_clap) (H := plain_hex) u64_max (fun _ => None) (txt "tg-ws-proxy" :: args_of demo_full)
    = Success demo_full /\
  try_parse_from (K := plain_clap) (H := plain_hex) u64_max (env_of demo_full) [txt "tg-ws-proxy"] = Success demo_full.
Proof.
  destruct (@cli_roundtrip plain_clap plain_clap_laws plain_clap_spelling plain_hex u64_max (fun _ => None) (txt "tg-ws-proxy")
    demo_full) as [H1 H2].
  - reflexivity.
  - exact demo_full_printable.
  - split; [apply H1; intros flag v s _ _; reflexivity|apply H2; reflexivity].
Defined.
