(* ===== verification/Limits.v ===== *)
(** * limits.rs: the connection cap

    The soft limit of open files as read from [/proc/self/limits], and the
    number of concurrent connections it allows.  Arithmetic is [usize] with the
    saturating operations of the source; [usize_max] is the target's maximum. *)
From Stdlib Require Import String.
From S2P Require Import Prelude Text.

Local Open Scope Z_scope.

Definition DEFAULT_NOFILE_LIMIT : Z := 1024.
Definition UNLIMITED_MAX_CONNECTIONS : Z := 512.
Definition RUNTIME_RESERVED_FDS : Z := 32.
Definition FDS_PER_CONNECTION : Z := 2.
Definition FDS_PER_POOL_SLOT : Z := 2.
Definition MIN_MAX_CONNECTIONS : Z := 4.

Section limits.
Context (usize_max : Z).

Definition saturating_mul (a b : Z) : Z := Z.min (a * b) usize_max.
Definition saturating_add (a b : Z) : Z := Z.min (a + b) usize_max.
Definition saturating_sub (a b : Z) : Z := Z.max 0 (a - b).

Definition auto_max_connections (fd_limit pool_size dc_buckets : Z) : Z :=
  if fd_limit =? usize_max then UNLIMITED_MAX_CONNECTIONS
  else
    let pool_fds := saturating_mul (saturating_mul pool_size dc_buckets) FDS_PER_POOL_SLOT in
    let reserved := saturating_add (saturating_add 1 pool_fds) RUNTIME_RESERVED_FDS in
    Z.max (saturating_sub fd_limit reserved / FDS_PER_CONNECTION) MIN_MAX_CONNECTIONS.

(** The [return]s of the loop over the lines. *)
Fixpoint nofile_lines (ls : list text) : option Z :=
  match ls with
  | [] => None
  | line :: ls =>
      if starts_with (txt "Max open files") line then
        match split_whitespace line !! 3%nat with
        | Some soft =>
            if bool_decide (soft = txt "unlimited") then Some usize_max
            else match parse_uint usize_max soft with Some n => Some n | None => nofile_lines ls end
        | None => nofile_lines ls
        end
      else nofile_lines ls
  end.

(** [content]: what reading [/proc/self/limits] gave. *)
Definition soft_nofile_limit (content : option text) : Z :=
  match content with
  | Some content => default DEFAULT_NOFILE_LIMIT (nofile_lines (lines content))
  | None => DEFAULT_NOFILE_LIMIT
  end.

(** The cap fits the descriptor budget: with a limit that leaves room for
    the minimum, the listener, two descriptors per pool slot, the runtime's
    reserve and two descriptors per admitted connection never exceed the limit,
    and the cap is the largest that fits; it is never below four. *)
Lemma max_connections_fit fd_limit pool_size dc_buckets :
  0 <= pool_size -> 0 <= dc_buckets -> 0 <= fd_limit < usize_max ->
  let n := auto_max_connections fd_limit pool_size dc_buckets in
  let reserved := 1 + pool_size * dc_buckets * FDS_PER_POOL_SLOT + RUNTIME_RESERVED_FDS in
  MIN_MAX_CONNECTIONS <= n /\
  (reserved + MIN_MAX_CONNECTIONS * FDS_PER_CONNECTION <= fd_limit ->
   reserved + n * FDS_PER_CONNECTION <= fd_limit < reserved + (n + 1) * FDS_PER_CONNECTION) /\
  (fd_limit < reserved + MIN_MAX_CONNECTIONS * FDS_PER_CONNECTION -> n = MIN_MAX_CONNECTIONS).
Proof.
  intros H1 H2 H3. unfold auto_max_connections. rewrite (proj2 (Z.eqb_neq _ _)) by lia.
  cbv zeta. unfold saturating_mul, saturating_add, saturating_sub, FDS_PER_POOL_SLOT,
    RUNTIME_RESERVED_FDS, FDS_PER_CONNECTION, MIN_MAX_CONNECTIONS.
  assert (0 <= pool_size * dc_buckets) as HP by nia. revert HP.
  generalize (pool_size * dc_buckets) as p. intros p HP.
  Z.div_mod_to_equations. lia.
Qed.
End limits.

Lemma max_connections_fit_witness :
  auto_max_connections (2 ^ 64 - 1) 1024 4 12 = 447 /\
  1 + 4 * 12 * FDS_PER_POOL_SLOT + RUNTIME_RESERVED_FDS + 447 * FDS_PER_CONNECTION <= 1024.
Proof.
  split; [reflexivity|].
  destruct (max_connections_fit (2 ^ 64 - 1) 1024 4 12) as (_ & H & _); [lia|lia|lia|].
  apply H. vm_compute. discriminate.
Defined.
