(* ===== verification/WsClient.v ===== *)
(** * ws_client.rs: dialling Telegram's WebSocket endpoints

    The network (the outbound connector's TCP connect, the TLS handshake and
    the WebSocket upgrade, the clock) is the class [Network]; what the model
    keeps is every dial the code makes, in order, with all its parameters, and
    the process-wide state of the file: the edge rotation counter and the two
    edge cooldown maps. *)
From Stdlib Require Import String.
From stdpp Require Import gmap.
From S2P Require Import Prelude Text CryptoApi Crypto Config.

Local Open Scope Z_scope.

Definition media_tag (is_media : bool) : text := if is_media then txt "m" else [].

(** ** CooldownMap *)
Section cooldown.
Context {K : Type} `{Countable K}.

(** [None] until the first [set]; an entry is the instant the cooldown ends. *)
Abbreviation CooldownMap := (option (gmap K Z)).

Definition cooldown_set (now : Z) (key : K) (cooldown : Z) (m : CooldownMap) : CooldownMap :=
  Some (<[key := now + cooldown]> (default empty m)).

Definition cooldown_clear (key : K) (m : CooldownMap) : CooldownMap :=
  match m with Some entries => Some (delete key entries) | None => None end.

Definition cooldown_active (now : Z) (key : K) (m : CooldownMap) : bool :=
  match m with
  | Some entries => match entries !! key with Some until => now <? until | None => false end
  | None => false
  end.
End cooldown.

Abbreviation CooldownMap K := (option (gmap K Z)).

(** ** Dials *)
Record Dial : Type := mkDial {
  d_ip : text;
  d_port : Z;
  d_domain : text;
  d_path : text;
  d_binary : bool;
  d_skip_tls_verify : bool;
  d_timeout : Z;
  d_sni_override : option text;
  d_tls : bool;
}.

(** What the connect of the TCP stream can give. *)
Inductive tcp_reply : Type :=
| TcpConnected
| TcpTimedOut (reason : text)
| TcpFailed (reason : text).

(** What the upgrade can give, under its timeout: a response with the stream,
    tungstenite's [Error::Http] with a status, another error, or no answer. *)
Inductive upgrade_reply (S : Type) : Type :=
| UpgradeResponse (ws : S) (status : Z)
| UpgradeHttpError (status : Z)
| UpgradeError (reason : text)
| UpgradeElapsed.
Arguments UpgradeResponse {S} ws status.
Arguments UpgradeHttpError {S} status.
Arguments UpgradeError {S} reason.
Arguments UpgradeElapsed {S}.

(** The outside world, indexed by the number of dials made before. *)
Class Network : Type := {
  stream : Type;
  tcp_connect : nat -> Dial -> tcp_reply;
  (** [url.into_client_request()]: the error for a malformed URL. *)
  bad_url : Dial -> option text;
  upgrade : nat -> Dial -> upgrade_reply stream;
  (** Time spent in a dial. *)
  dial_time : nat -> Dial -> Z;
  (** [OutboundConnector::connects_directly]. *)
  connects_directly : text -> Z -> bool;
}.

(** The process-wide state of the dialling code. *)
Record net : Type := mkNet {
  n_now : Z;
  n_dials : list Dial;
  n_cf_ip_rotation : Z;
  n_edge_tls_fail : CooldownMap text;
  n_edge_plaintext_fail : CooldownMap text;
}.

Definition after_dial (d : Dial) (spent : Z) (w : net) : net :=
  mkNet (n_now w + spent) (n_dials w ++ [d]) (n_cf_ip_rotation w) (n_edge_tls_fail w)
    (n_edge_plaintext_fail w).

Definition set_rotation (r : Z) (w : net) : net :=
  mkNet (n_now w) (n_dials w) r (n_edge_tls_fail w) (n_edge_plaintext_fail w).

(** The map for the mode: [CF_EDGE_PLAINTEXT_FAIL] or [CF_EDGE_TLS_FAIL]. *)
Definition edge_fail (disable_tls : bool) (w : net) : CooldownMap text :=
  if disable_tls then n_edge_plaintext_fail w else n_edge_tls_fail w.

Definition set_edge_fail (disable_tls : bool) (m : CooldownMap text) (w : net) : net :=
  if disable_tls
  then mkNet (n_now w) (n_dials w) (n_cf_ip_rotation w) (n_edge_tls_fail w) m
  else mkNet (n_now w) (n_dials w) (n_cf_ip_rotation w) m (n_edge_plaintext_fail w).

Record CfDialOpts : Type := mkCfDialOpts {
  o_cf_ips : list text;
  o_disable_tls : bool;
  o_fail_cooldown : Z;
}.

(** [(0..l.len()).map(|o| l[(first + o) % l.len()])]. *)
Definition rotated {A} (first : nat) (l : list A) : list A :=
  omap (fun offset => l !! ((first + offset) mod length l)%nat) (seq 0 (length l)).

(** ** Host names *)
Definition ordered_records (base dash_one : text) (is_media : bool) : list text :=
  if is_media then [dash_one; base] else [base; dash_one].

Definition ws_domains (dc : Z) (is_media : bool) : list text :=
  let effective_dc := websocket_dc dc in
  ordered_records
    (txt "kws" ++ dec effective_dc ++ txt ".web.telegram.org")
    (txt "kws" ++ dec effective_dc ++ txt "-1.web.telegram.org") is_media.

Definition cf_ws_domains (dc : Z) (cf_domains : list text) (is_media : bool) : list text :=
  map (fun cf_domain => txt "kws" ++ dec dc ++ txt "." ++ cf_domain) cf_domains.

Definition cf_worker_path (dst : text) (dc : Z) (is_media : bool) : text :=
  txt "/apiws?dst=" ++ dst ++ txt "&dc=" ++ dec dc ++ txt "&media=" ++ dec (if is_media then 1 else 0).

Section ws_client.
Context {N : Network} (usize_max : Z).
Local Open Scope run_scope.

Inductive WsConnectResult : Type :=
| Connected (ws : stream)
| Redirect (code : Z)
| Failed (reason : text)
| ConnectTimedOut (reason : text)
| TimedOut.

Record WsAttempt : Type := mkWsAttempt {
  at_ws : option stream;
  at_all_redirects : bool;
  at_upgrade_timed_out : bool;
  at_connect_timed_out : bool;
}.

Definition is_redirect_status (status : Z) : bool :=
  (status =? 301) || (status =? 302) || (status =? 303) || (status =? 307) || (status =? 308).

(** [connect_ws_with_path]: one dial and the classification of its outcome. *)
Definition connect_ws_with_path (ip domain path : text) (binary skip_tls_verify : bool)
    (timeout : Z) (sni_override : option text) (disable_tls : bool) (w : net)
  : WsConnectResult * net :=
  let port := if disable_tls then 80 else 443 in
  let d := mkDial ip port domain path binary skip_tls_verify timeout sni_override (negb disable_tls) in
  let n := length (n_dials w) in
  let w := after_dial d (dial_time n d) w in
  match tcp_connect n d with
  | TcpTimedOut reason => (ConnectTimedOut reason, w)
  | TcpFailed reason => (Failed reason, w)
  | TcpConnected =>
      match bad_url d with
      | Some e => (Failed (txt "bad URL: " ++ e), w)
      | None =>
          match upgrade n d with
          | UpgradeResponse ws status =>
              if status =? 101 then (Connected ws, w)
              else if is_redirect_status status then (Redirect status, w)
              else (Failed (txt "unexpected HTTP status " ++ dec status), w)
          | UpgradeHttpError status =>
              if is_redirect_status status then (Redirect status, w)
              else (Failed (txt "HTTP " ++ dec status ++ txt " from server"), w)
          | UpgradeError reason => (Failed reason, w)
          | UpgradeElapsed => (TimedOut, w)
          end
      end
  end.

(** ** Direct WebSocket *)
Fixpoint ws_domain_loop (domains : list text) (ip : text) (skip_tls_verify : bool) (timeout : Z)
    (sni_override : option text) (all_redirects upgrade_to connect_to : bool) (w : net)
  : WsAttempt * net :=
  match domains with
  | [] => (mkWsAttempt None all_redirects upgrade_to connect_to, w)
  | domain :: domains =>
      let '(r, w) := connect_ws_with_path ip domain (txt "/apiws") true skip_tls_verify timeout
                       sni_override false w in
      let go := ws_domain_loop domains ip skip_tls_verify timeout sni_override in
      match r with
      | Connected ws => (mkWsAttempt (Some ws) false false false, w)
      | Redirect _ => go all_redirects upgrade_to connect_to w
      | Failed _ => go false upgrade_to connect_to w
      | TimedOut => go false true connect_to w
      | ConnectTimedOut _ => go false upgrade_to true w
      end
  end.

Definition connect_ws_for_dc_with_outbound (ip : text) (dc : Z) (is_media skip_tls_verify : bool)
    (timeout : Z) (sni_override : option text) (w : net) : WsAttempt * net :=
  ws_domain_loop (ws_domains dc is_media) ip skip_tls_verify timeout sni_override true false false w.

(** ** Cloudflare edges *)
Definition cf_ip_start (ips : list text) (w : net) : nat * net :=
  if (length ips <=? 1)%nat then (0%nat, w)
  else
    let r := n_cf_ip_rotation w in
    (Z.to_nat (r mod Z.of_nat (length ips)),
     set_rotation (if r =? usize_max then 0 else r + 1) w).

Definition cf_ip_attempts (ips : list text) (first : nat) (cooldowns : CooldownMap text)
    (now : Z) (uses_cooldown : text -> bool) : list text :=
  let is_cooling ip := uses_cooldown ip && cooldown_active now ip cooldowns in
  let all_cooling := forallb is_cooling ips in
  let limit := if all_cooling then 1%nat else length ips in
  take limit (base.filter (fun ip => all_cooling || negb (is_cooling ip) = true) (rotated first ips)).

(** The loop over the edges; the two options are [last_non_redirect] and
    [last_redirect]. *)
Fixpoint cf_edge_loop (attempts : list text) (domain path : text) (binary skip_tls_verify : bool)
    (timeout : Z) (opts : CfDialOpts) (last_non_redirect : option WsConnectResult)
    (last_redirect : option Z) (w : net) : run (WsConnectResult * net) :=
  match attempts with
  | [] =>
      match last_non_redirect with
      | Some r => Done (r, w)
      | None => match last_redirect with Some code => Done (Redirect code, w) | None => Panic end
      end
  | ip :: attempts =>
      let disable_tls := o_disable_tls opts in
      let port := if disable_tls then 80 else 443 in
      let direct := connects_directly ip port in
      let '(r, w) := connect_ws_with_path ip domain path binary skip_tls_verify timeout None
                       disable_tls w in
      let cleared := set_edge_fail disable_tls (cooldown_clear ip (edge_fail disable_tls w)) w in
      let go := cf_edge_loop attempts domain path binary skip_tls_verify timeout opts in
      match r with
      | Connected ws => Done (Connected ws, cleared)
      | Redirect code => go last_non_redirect (Some code) cleared
      | Failed reason => go (Some (Failed reason)) last_redirect cleared
      | TimedOut => go (Some TimedOut) last_redirect cleared
      | ConnectTimedOut reason =>
          let w := if direct
                   then set_edge_fail disable_tls
                          (cooldown_set (n_now w) ip (o_fail_cooldown opts) (edge_fail disable_tls w)) w
                   else w in
          go (Some (ConnectTimedOut reason)) last_redirect w
      end
  end.

Definition connect_cf_with_path (domain path : text) (binary skip_tls_verify : bool) (timeout : Z)
    (opts : CfDialOpts) (w : net) : run (WsConnectResult * net) :=
  match o_cf_ips opts with
  | [] => Done (connect_ws_with_path domain domain path binary skip_tls_verify timeout None
                  (o_disable_tls opts) w)
  | ips =>
      let '(first, w) := cf_ip_start ips w in
      let port := if o_disable_tls opts then 80 else 443 in
      let attempts := cf_ip_attempts ips first (edge_fail (o_disable_tls opts) w) (n_now w)
                        (fun ip => connects_directly ip port) in
      cf_edge_loop attempts domain path binary skip_tls_verify timeout opts None None w
  end.

(** ** Cloudflare domains *)
Record CfAttempts : Type := mkCfAttempts {
  ca_dc : Z;
  ca_domains : list text;
  ca_first_domain : nat;
  ca_next_ordinal : nat;
  ca_pending_retry : option nat;
}.

Definition cf_attempts_with_offset (dc : Z) (domains : list text) (first_domain : nat) : CfAttempts :=
  mkCfAttempts dc domains
    (if bool_decide (domains = []) then 0%nat else (first_domain mod length domains)%nat) 0 None.

(** [self.domains[i]]: the index is a remainder by the length. *)
Definition ca_domain (a : CfAttempts) (i : nat) : text := nth i (ca_domains a) [].

Definition ca_hostname (a : CfAttempts) (domain_index : nat) : text :=
  txt "kws" ++ dec (ca_dc a) ++ txt "." ++ ca_domain a domain_index.

Definition ca_index (a : CfAttempts) (ordinal : nat) : nat :=
  ((ca_first_domain a + ordinal) mod length (ca_domains a))%nat.

(** The [while] loop of [next_domain], [fuel] ordinals left. *)
Fixpoint next_domain_loop (fuel : nat) (a : CfAttempts) : option text * CfAttempts :=
  match fuel with
  | O => (None, a)
  | S fuel =>
      let ordinal := ca_next_ordinal a in
      let a := mkCfAttempts (ca_dc a) (ca_domains a) (ca_first_domain a) (S ordinal)
                 (ca_pending_retry a) in
      let domain_index := ca_index a ordinal in
      if existsb (fun prior => bool_decide (ca_domain a (ca_index a prior) = ca_domain a domain_index))
           (seq 0 ordinal)
      then next_domain_loop fuel a
      else
        (Some (ca_hostname a domain_index),
         mkCfAttempts (ca_dc a) (ca_domains a) (ca_first_domain a) (ca_next_ordinal a)
           (Some domain_index))
  end.

Definition next_domain (a : CfAttempts) : option text * CfAttempts :=
  match ca_pending_retry a with
  | Some domain_index =>
      (Some (ca_hostname a domain_index),
       mkCfAttempts (ca_dc a) (ca_domains a) (ca_first_domain a) (ca_next_ordinal a) None)
  | None => next_domain_loop (length (ca_domains a) - ca_next_ordinal a) a
  end.

Definition note_timed_out (a : CfAttempts) : CfAttempts :=
  mkCfAttempts (ca_dc a) (ca_domains a) (ca_first_domain a) (ca_next_ordinal a) None.

(** The [while let] loop of the Cloudflare connect. *)
Fixpoint cf_domain_loop (fuel : nat) (a : CfAttempts) (skip_tls_verify : bool) (timeout : Z)
    (opts : CfDialOpts) (all_redirects : bool) (w : net)
  : run (option stream * option text * bool * net) :=
  match next_domain a with
  | (None, _) => Done (None, None, all_redirects, w)
  | (Some domain, a) =>
      match fuel with
      | O => OutOfFuel
      | S fuel =>
          let! (r, w) := connect_cf_with_path domain (txt "/apiws") true skip_tls_verify timeout opts w in
          let go := fun a => cf_domain_loop fuel a skip_tls_verify timeout opts in
          match r with
          | Connected ws => Done (Some ws, Some domain, false, w)
          | Redirect _ => go a all_redirects w
          | Failed _ => go a false w
          | TimedOut | ConnectTimedOut _ => go (note_timed_out a) false w
          end
      end
  end.

Definition connect_cf_ws_for_dc_with_outbound_ordered (dc : Z) (cf_domains : list text)
    (is_media skip_tls_verify : bool) (timeout : Z) (first_domain : nat) (opts : CfDialOpts) (w : net)
  : run (option stream * option text * bool * net) :=
  cf_domain_loop (2 * length cf_domains) (cf_attempts_with_offset dc cf_domains first_domain)
    skip_tls_verify timeout opts true w.

Definition connect_cf_record_with_outbound_opts (record : text) (skip_tls_verify : bool) (timeout : Z)
    (opts : CfDialOpts) (w : net) : run (option stream * net) :=
  let! (r, w) := connect_cf_with_path record (txt "/apiws") true skip_tls_verify timeout opts w in
  match r with
  | Connected ws => Done (Some ws, w)
  | _ => Done (None, w)
  end.

Definition connect_cf_worker_ws_for_dc_with_outbound_opts (worker_domain dst : text) (dc : Z)
    (is_media skip_tls_verify : bool) (timeout : Z) (opts : CfDialOpts) (w : net)
  : run (option stream * net) :=
  let path := cf_worker_path dst dc is_media in
  let! (r, w) := connect_cf_with_path worker_domain path false skip_tls_verify timeout opts w in
  match r with
  | Connected ws => Done (Some ws, w)
  | Redirect _ | Failed _ | TimedOut | ConnectTimedOut _ => Done (None, w)
  end.
End ws_client.
Arguments WsConnectResult {N}.
Arguments WsAttempt {N}.

(** ** Lemmas: rotation *)
Lemma omap_lookup_shift {A} (l : list A) (g : nat -> nat) a b m :
  (forall j, (j < m)%nat -> g (a + j)%nat = (b + j)%nat) ->
  omap (fun i => l !! g i) (seq a m) = take m (drop b l).
Proof.
  revert a b. induction m as [|m IH]; intros a b Hg; [done|].
  assert (g a = b) as E0 by (rewrite <- (Nat.add_0_r a), Hg; lia).
  specialize (IH (S a) (S b)). unfold omap in *. simpl. rewrite E0, IH.
  - destruct (l !! b) as [x|] eqn:E; [by rewrite (drop_S l x b E)|].
    apply lookup_ge_None in E. by rewrite !drop_ge, !take_nil by lia.
  - intros j Hj. rewrite Nat.add_succ_comm, Hg by lia. lia.
Qed.

Lemma rotated_spec {A} first (l : list A) :
  (first < length l)%nat -> rotated first l = drop first l ++ take first l.
Proof.
  intros Hf. unfold rotated. set (n := length l).
  replace (seq 0 n) with (seq 0 (n - first) ++ seq (n - first) first)
    by (change (n - first)%nat with (0 + (n - first))%nat at 2;
        rewrite <- seq_app; f_equal; lia).
  rewrite omap_app. f_equal.
  - rewrite (omap_lookup_shift _ (fun i => (first + i) mod n)%nat 0 first).
    + apply take_ge. len.
    + intros j Hj. apply Nat.mod_small. lia.
  - rewrite (omap_lookup_shift _ (fun i => (first + i) mod n)%nat (n - first) 0); [done|].
    intros j Hj. replace (first + (n - first + j))%nat with (j + 1 * n)%nat by lia.
    rewrite Nat.Div0.mod_add. apply Nat.mod_small. lia.
Qed.

Lemma rotated_permutation {A} first (l : list A) :
  (first < length l)%nat -> rotated first l ≡ₚ l.
Proof. intros. rewrite rotated_spec by done. by rewrite Permutation_app_comm, take_drop. Qed.

Lemma length_rotated {A} first (l : list A) : (first < length l)%nat -> length (rotated first l) = length l.
Proof. intros. by rewrite rotated_permutation. Qed.

Lemma lookup_rotated {A} first (l : list A) i :
  (first < length l)%nat -> (i < length l)%nat ->
  rotated first l !! i = l !! ((first + i) mod length l)%nat.
Proof.
  intros Hf Hi. rewrite rotated_spec by done.
  destruct (decide (i < length l - first)%nat).
  - rewrite lookup_app_l by len. rewrite lookup_drop, Nat.mod_small by lia. done.
  - rewrite lookup_app_r by len. rewrite length_drop, lookup_take_lt by lia.
    f_equal. symmetry. replace (first + i)%nat with (i - (length l - first) + 1 * length l)%nat by lia.
    rewrite Nat.Div0.mod_add, Nat.mod_small; lia.
Qed.

(** ** Reference: the walk over Cloudflare domains *)

(** First occurrences, in order. *)
Fixpoint distinct (seen l : list text) : list text :=
  match l with
  | [] => []
  | x :: l => if bool_decide (x ∈ seen) then distinct (seen ++ [x]) l else x :: distinct (seen ++ [x]) l
  end.

Section reference_walk.
Context {N : Network} (usize_max : Z) (skip_tls_verify : bool) (timeout : Z) (opts : CfDialOpts).
Local Open Scope run_scope.

Definition dial_record (host : text) (w : net) : run (WsConnectResult * net) :=
  connect_cf_with_path usize_max host (txt "/apiws") true skip_tls_verify timeout opts w.

(** Each host twice in a row, the second time only if the first was answered. *)
Fixpoint cf_walk (hosts : list text) (all_redirects : bool) (w : net)
  : run (option stream * option text * bool * net) :=
  match hosts with
  | [] => Done (None, None, all_redirects, w)
  | host :: hosts =>
      let again (all_redirects : bool) (w : net) :=
        let! (r, w) := dial_record host w in
        match r with
        | Connected ws => Done (Some ws, Some host, false, w)
        | Redirect _ => cf_walk hosts all_redirects w
        | _ => cf_walk hosts false w
        end in
      let! (r, w) := dial_record host w in
      match r with
      | Connected ws => Done (Some ws, Some host, false, w)
      | Redirect _ => again all_redirects w
      | Failed _ => again false w
      | TimedOut | ConnectTimedOut _ => cf_walk hosts false w
      end
  end.

(** The state of the iterator against the rotated list [ds] of domains. *)
Definition attempts_at (dc : Z) (ds : list text) (i : nat) (a : CfAttempts) : Prop :=
  ca_dc a = dc /\ ca_next_ordinal a = i /\ length (ca_domains a) = length ds /\ (i <= length ds)%nat /\
  forall j, (j < length ds)%nat -> ds !! j = Some (ca_domain a (ca_index a j)).

Lemma next_domain_loop_spec dc ds i a :
  attempts_at dc ds i a ->
  match distinct (take i ds) (drop i ds) with
  | [] => fst (next_domain_loop (length ds - i) a) = None
  | x :: rest => exists a' k,
      next_domain_loop (length ds - i) a = (Some (txt "kws" ++ dec dc ++ txt "." ++ x), a') /\
      attempts_at dc ds k a' /\ rest = distinct (take k ds) (drop k ds) /\
      exists p, ca_pending_retry a' = Some p /\ ca_domain a' p = x
  end.
Proof.
  remember (length ds - i)%nat as fuel eqn:Ef. revert i a Ef.
  induction fuel as [|fuel IH]; intros i a Ef (Hdc & Hi & Hl & Hle & Hd).
  { rewrite drop_ge by lia. done. }
  assert (i < length ds)%nat as Hlt by lia. pose proof (Hd i Hlt) as Hx.
  set (x := ca_domain a (ca_index a i)) in *.
  rewrite (drop_S _ _ _ Hx). cbn [distinct next_domain_loop]. rewrite Hi.
  set (a1 := mkCfAttempts (ca_dc a) (ca_domains a) (ca_first_domain a) (S i) (ca_pending_retry a)).
  change (ca_domain a1 (ca_index a1 i)) with x.
  assert (existsb (fun prior => bool_decide (ca_domain a1 (ca_index a1 prior) = x)) (seq 0 i)
    = bool_decide (x ∈ take i ds)) as ->.
  { apply eq_true_iff_eq. rewrite existsb_exists, bool_decide_eq_true, elem_of_take. split.
    - intros (j & Hj & E). apply bool_decide_eq_true in E. apply in_seq in Hj.
      exists j. rewrite Hd by lia. split; [by f_equal|lia].
    - intros (j & Hj & Hji). exists j. rewrite Hd in Hj by lia. simplify_eq.
      rewrite in_seq, bool_decide_eq_true. split; [lia|done]. }
  rewrite <- (take_S_r _ _ _ Hx).
  assert (attempts_at dc ds (S i) a1) as Ha1 by (unfold attempts_at; auto).
  destruct (bool_decide (x ∈ take i ds)).
  - apply (IH (S i) a1); [lia|done].
  - eexists _, (S i). split; [rewrite <- Hdc; reflexivity|]. split; [exact Ha1|]. split; [done|].
    exists (ca_index a1 i). done.
Qed.

(** What the loop still has to do: a pending retry, then the domains left. *)
Definition walk_from (dc : Z) (pending : option text) (left : list text) (all_redirects : bool) (w : net)
  : run (option stream * option text * bool * net) :=
  let hosts := map (fun d => txt "kws" ++ dec dc ++ txt "." ++ d) left in
  match pending with
  | None => cf_walk hosts all_redirects w
  | Some x =>
      let host := txt "kws" ++ dec dc ++ txt "." ++ x in
      let! (r, w) := dial_record host w in
      match r with
      | Connected ws => Done (Some ws, Some host, false, w)
      | Redirect _ => cf_walk hosts all_redirects w
      | _ => cf_walk hosts false w
      end
  end.

Lemma cf_domain_loop_walk dc ds i fuel a pending all_redirects w :
  attempts_at dc ds i a ->
  match ca_pending_retry a, pending with
  | None, None => True
  | Some p, Some x => ca_domain a p = x
  | _, _ => False
  end ->
  (2 * length (distinct (take i ds) (drop i ds)) + match pending with Some _ => 1 | None => 0 end <= fuel)%nat ->
  cf_domain_loop usize_max fuel a skip_tls_verify timeout opts all_redirects w =
  walk_from dc pending (distinct (take i ds) (drop i ds)) all_redirects w.
Proof.
  revert i a pending all_redirects w.
  induction fuel as [|fuel IH]; intros i a pending all_redirects w Ha Hp Hf;
    pose proof Ha as (Hdc & Hi & Hl & Hle & Hd);
    (destruct pending as [x|]; destruct (ca_pending_retry a) as [p|] eqn:Ep; try done).
  - lia.
  - pose proof (next_domain_loop_spec dc ds i a Ha) as HS.
    destruct (distinct (take i ds) (drop i ds)); [|simpl in Hf; lia].
    cbn [cf_domain_loop]. unfold next_domain. rewrite Ep, Hi, Hl.
    destruct (next_domain_loop _ a) as [o a']. simpl in HS. by subst o.
  - cbn [cf_domain_loop]. unfold next_domain. rewrite Ep.
    unfold walk_from, dial_record, ca_hostname. rewrite Hdc, Hp.
    destruct (connect_cf_with_path _ _ _ _ _ _ _ _) as [[r w']| |]; cbn [run_bind]; try done.
    destruct r; try done; rewrite (IH i _ None); try done; try (by destruct Ha as (?&?&?&?&?)); lia.
  - pose proof (next_domain_loop_spec dc ds i a Ha) as HS.
    cbn [cf_domain_loop]. unfold next_domain. rewrite Ep, Hi, Hl.
    destruct (distinct (take i ds) (drop i ds)) as [|x rest] eqn:Ex.
    { destruct (next_domain_loop _ a) as [o a']. simpl in HS. by subst o. }
    destruct HS as (a' & k & -> & Ha' & Er & p & Ep' & Ex'). subst rest.
    unfold walk_from. cbn [map cf_walk]. unfold dial_record at 1.
    destruct (connect_cf_with_path _ _ _ _ _ _ _ _) as [[r w']| |]; cbn [run_bind]; try done.
    simpl in Hf.
    destruct r; try done;
      first [rewrite (IH k a' (Some x)) by (rewrite ?Ep'; first [done|lia]); done
            |rewrite (IH k (note_timed_out a') None);
              [done|by destruct Ha' as (?&?&?&?&?)|done|lia]].
Qed.
End reference_walk.

(** ** Outcomes of dials *)
Section outcomes.
Context {N : Network} (usize_max : Z).

(** The classification of dial number [n]. *)
Definition dial_outcome (n : nat) (d : Dial) : WsConnectResult :=
  match tcp_connect n d with
  | TcpTimedOut reason => ConnectTimedOut reason
  | TcpFailed reason => Failed reason
  | TcpConnected =>
      match bad_url d with
      | Some e => Failed (txt "bad URL: " ++ e)
      | None =>
          match upgrade n d with
          | UpgradeResponse ws status =>
              if status =? 101 then Connected ws
              else if is_redirect_status status then Redirect status
              else Failed (txt "unexpected HTTP status " ++ dec status)
          | UpgradeHttpError status =>
              if is_redirect_status status then Redirect status
              else Failed (txt "HTTP " ++ dec status ++ txt " from server")
          | UpgradeError reason => Failed reason
          | UpgradeElapsed => TimedOut
          end
      end
  end.

Definition outcome_of (d : Dial) (w : net) : WsConnectResult := dial_outcome (length (n_dials w)) d.

Lemma connect_ws_outcome ip domain path binary skip timeout sni (disable_tls : bool) w :
  let d := mkDial ip (if disable_tls then 80 else 443) domain path binary skip timeout sni
             (negb disable_tls) in
  connect_ws_with_path ip domain path binary skip timeout sni disable_tls w =
    (outcome_of d w, after_dial d (dial_time (length (n_dials w)) d) w).
Proof.
  unfold connect_ws_with_path, outcome_of, dial_outcome. cbv zeta.
  repeat case_match; simplify_eq; done.
Qed.

Definition is_connected (r : WsConnectResult) : bool :=
  match r with Connected _ => true | _ => false end.
Definition is_redirect (r : WsConnectResult) : bool :=
  match r with Redirect _ => true | _ => false end.
Definition is_upgrade_timeout (r : WsConnectResult) : bool :=
  match r with TimedOut => true | _ => false end.
Definition is_connect_timeout (r : WsConnectResult) : bool :=
  match r with ConnectTimedOut _ => true | _ => false end.

(** The outcomes of dials made one after the other, from number [n] on. *)
Fixpoint outcomes (n : nat) (ds : list Dial) : list WsConnectResult :=
  match ds with
  | [] => []
  | d :: ds => dial_outcome n d :: outcomes (S n) ds
  end.

Lemma length_outcomes n ds : length (outcomes n ds) = length ds.
Proof. revert n. induction ds; intros; simpl; auto. Qed.

(** [dialled w ds w']: exactly the dials [ds] were made between [w] and [w']. *)
Definition dialled (w : net) (ds : list Dial) (w' : net) : Prop := n_dials w' = n_dials w ++ ds.

Lemma dialled_cons w d spent ds w' :
  dialled (after_dial d spent w) ds w' -> dialled w (d :: ds) w'.
Proof. unfold dialled. simpl. intros ->. by rewrite <- app_assoc. Qed.

Lemma length_after_dial w d spent : length (n_dials (after_dial d spent w)) = S (length (n_dials w)).
Proof. simpl. len. Qed.

(** *** The direct loop *)
Lemma ws_domain_loop_spec domains ip skip timeout sni ar ut ct w :
  let mk domain := mkDial ip 443 domain (txt "/apiws") true skip timeout sni true in
  let rs := outcomes (length (n_dials w)) (map mk domains) in
  exists att w', ws_domain_loop domains ip skip timeout sni ar ut ct w = (att, w') /\
    ((exists k ws, rs !! k = Some (Connected ws) /\ existsb is_connected (take k rs) = false /\
        dialled w (take (S k) (map mk domains)) w' /\ att = mkWsAttempt (Some ws) false false false) \/
     (existsb is_connected rs = false /\ dialled w (map mk domains) w' /\
      att = mkWsAttempt None (ar && forallb is_redirect rs) (ut || existsb is_upgrade_timeout rs)
              (ct || existsb is_connect_timeout rs))).
Proof.
  cbv zeta. revert ar ut ct w. induction domains as [|domain domains IH]; intros ar ut ct w.
  { exists (mkWsAttempt None ar ut ct), w. split; [done|]. right. simpl.
    rewrite !orb_false_r, andb_true_r. unfold dialled. by rewrite app_nil_r. }
  cbn [ws_domain_loop map]. rewrite connect_ws_outcome. cbn [negb].
  set (mk := fun domain : text => mkDial ip 443 domain (txt "/apiws") true skip timeout sni true).
  change (mkDial ip 443 domain (txt "/apiws") true skip timeout sni true) with (mk domain).
  set (w1 := after_dial (mk domain) _ w).
  assert (length (n_dials w1) = S (length (n_dials w))) as L by apply length_after_dial.
  cbn [outcomes]. change (dial_outcome (length (n_dials w)) (mk domain)) with (outcome_of (mk domain) w).
  assert (forall a u c, exists att w', ws_domain_loop domains ip skip timeout sni a u c w1 = (att, w') /\ _)
    as IH1 by (intros a u c; exact (IH a u c w1)). rewrite L in IH1. clear IH.
  destruct (outcome_of (mk domain) w) as [ws|code|reason|reason|] eqn:Eo;
    [exists (mkWsAttempt (Some ws) false false false), w1; split; [done|]; left;
     exists 0%nat, ws; by split_and!
    |destruct (IH1 ar ut ct) as (att & w' & E & HC)
    |destruct (IH1 false ut ct) as (att & w' & E & HC)
    |destruct (IH1 false ut true) as (att & w' & E & HC)
    |destruct (IH1 false true ct) as (att & w' & E & HC)];
    rewrite E; exists att, w'; (split; [reflexivity|]);
    (destruct HC as [(k & ws & H1 & H2 & H3 & ->)|(H1 & H2 & ->)];
    [left; exists (S k), ws; split_and!; [done|done|by eapply dialled_cons|done]
    |right; split_and!; [exact H1|by eapply dialled_cons|];
     cbn [forallb existsb is_redirect is_upgrade_timeout is_connect_timeout andb orb];
     by rewrite ?andb_false_r, ?orb_true_r]).
Qed.

(** *** The edge loop *)
Definition edge_dial (domain path : text) (binary skip : bool) (timeout : Z) (disable_tls : bool)
    (ip : text) : Dial :=
  mkDial ip (if disable_tls then 80 else 443) domain path binary skip timeout None (negb disable_tls).

Lemma dials_set_edge_fail b m w : n_dials (set_edge_fail b m w) = n_dials w.
Proof. by destruct b. Qed.

(** What the loop over the edges yields from dials [ds], given the last results
    [lnr] and [lr] kept so far. *)
Definition edge_loop_result (lnr : option WsConnectResult) (lr : option Z) (w : net)
    (ds : list Dial) (r : WsConnectResult) (w' : net) : Prop :=
  let rs := outcomes (length (n_dials w)) ds in
  (exists k ws, rs !! k = Some (Connected ws) /\ existsb is_connected (take k rs) = false /\
      dialled w (take (S k) ds) w' /\ r = Connected ws) \/
  (existsb is_connected rs = false /\ dialled w ds w' /\
    (r ∈ rs \/ lnr = Some r \/ exists c, lr = Some c /\ r = Redirect c) /\
    is_redirect r = match lnr with None => true | Some _ => false end && forallb is_redirect rs).

(** One dial that does not connect, before the rest of the loop. *)
Lemma edge_loop_result_cons d ds lnr lr lnr' lr' w w2 r w' :
  let o := dial_outcome (length (n_dials w)) d in
  is_connected o = false -> n_dials w2 = n_dials w ++ [d] ->
  (exists c, o = Redirect c /\ lnr' = lnr /\ lr' = Some c) \/
  (is_redirect o = false /\ lnr' = Some o /\ lr' = lr) ->
  edge_loop_result lnr' lr' w2 ds r w' -> edge_loop_result lnr lr w (d :: ds) r w'.
Proof.
  cbv zeta. intros Hc E2 Ho.
  assert (forall ds w', dialled w2 ds w' -> dialled w (d :: ds) w') as HD.
  { intros ds' w'' HD. unfold dialled in *. rewrite HD, E2. by rewrite <- app_assoc. }
  unfold edge_loop_result. rewrite E2, length_app, Nat.add_1_r. cbn [outcomes].
  set (o := dial_outcome _ d) in *.
  intros [(k & ws & H1 & H2 & H3 & ->)|(H1 & H2 & H3 & H4)].
  - left. exists (S k), ws. split_and!; [done| |by apply HD|done]. simpl. by rewrite Hc.
  - right. split_and!; [simpl; by rewrite Hc|by apply HD| |]; clear H2;
      destruct Ho as [(c & -> & -> & ->)|(Hr & -> & ->)].
    + destruct H3 as [?|[?|(? & ? & ?)]]; simplify_eq; auto; left; set_solver.
    + destruct H3 as [?|[?|?]]; simplify_eq; auto; left; set_solver.
    + done.
    + simpl. rewrite Hr, andb_false_r. done.
Qed.

Lemma cf_edge_loop_spec attempts domain path binary skip timeout opts lnr lr w :
  (forall x, lnr = Some x -> is_redirect x = false) ->
  attempts <> [] \/ lnr <> None \/ lr <> None ->
  exists r w',
    cf_edge_loop attempts domain path binary skip timeout opts lnr lr w = Done (r, w') /\
    edge_loop_result lnr lr w
      (map (edge_dial domain path binary skip timeout (o_disable_tls opts)) attempts) r w'.
Proof.
  revert lnr lr w. induction attempts as [|ip attempts IH]; intros lnr lr w Hlnr Hne.
  { assert (dialled w [] w) as HD by (unfold dialled; by rewrite app_nil_r).
    destruct lnr as [x|]; [|destruct lr as [code|]].
    - exists x, w. split; [done|]. right. split_and!; try done; [auto|]. by rewrite Hlnr.
    - exists (Redirect code), w. split; [done|]. right. split_and!; try done. eauto.
    - by destruct Hne as [?|[?|?]]. }
  cbn [cf_edge_loop map]. rewrite connect_ws_outcome.
  fold (edge_dial domain path binary skip timeout (o_disable_tls opts) ip).
  set (ed := edge_dial domain path binary skip timeout (o_disable_tls opts)) in *.
  set (w1 := after_dial (ed ip) _ w).
  pose proof (fun b m => dials_set_edge_fail b m w1 : _ = n_dials w ++ [ed ip]) as Hd.
  pose proof (fun lnr' lr' => edge_loop_result_cons (ed ip) (map ed attempts) lnr lr lnr' lr' w) as Hstep.
  cbv zeta in Hstep.
  change (dial_outcome (length (n_dials w)) (ed ip)) with (outcome_of (ed ip) w) in *.
  destruct (outcome_of (ed ip) w) as [ws|code|reason|reason|] eqn:Eo.
  { eexists _, _. split; [done|]. left. exists 0%nat, ws. split_and!; try done.
    - cbn. by f_equal.
    - apply Hd. }
  all: match goal with |- context [cf_edge_loop _ _ _ _ _ _ _ ?a ?b ?c] =>
      destruct (IH a b c) as (r & w' & -> & HC); [try naive_solver; by intros ? [= <-]|auto|]
    end; exists r, w'; split; [done|]; eapply Hstep, HC;
    [done|(apply Hd || by destruct (connects_directly _ _))|eauto].
Qed.
End outcomes.

(** ** Lemmas: the iterator at its start *)
Lemma length_distinct seen l : (length (distinct seen l) <= length l)%nat.
Proof.
  revert seen. induction l as [|x l IH]; intros seen; simpl; [lia|].
  specialize (IH (seen ++ [x])). case_bool_decide; simpl; lia.
Qed.

Lemma length_rotated_le {A} first (l : list A) : (length (rotated (first mod length l) l) <= length l)%nat.
Proof.
  destruct l as [|x l]; [done|]. rewrite length_rotated; [done|]. apply Nat.mod_upper_bound. done.
Qed.

Lemma attempts_at_start dc domains first :
  attempts_at dc (rotated (first mod length domains) domains) 0
    (cf_attempts_with_offset dc domains first).
Proof.
  destruct domains as [|x l]; [split_and!; try done; simpl; intros; lia|]. set (domains := x :: l).
  assert (first mod length domains < length domains)%nat as Hf by by apply Nat.mod_upper_bound.
  unfold cf_attempts_with_offset. rewrite bool_decide_eq_false_2 by done.
  split_and!; try done; [by rewrite length_rotated|lia|].
  intros j Hj. rewrite length_rotated in Hj by done. rewrite lookup_rotated by done.
  unfold ca_domain, ca_index. cbn [ca_domains ca_first_domain].
  destruct (nth_lookup_or_length domains ((first mod length domains + j) mod length domains) [])
    as [?|Hge]; [done|].
  pose proof (Nat.mod_upper_bound (first mod length domains + j) (length domains)). lia.
Qed.

(** ** Lemmas: which edges are tried *)
Lemma filter_all_true {A} (f : A -> bool) (l : list A) :
  (forall x, f x = true) -> base.filter (fun x => f x = true) l = l.
Proof. intros H. induction l as [|x l IH]; [done|]. rewrite filter_cons_True by apply H. by rewrite IH. Qed.

Lemma cf_ip_attempts_cooling ips first m now uses :
  forallb (fun ip => uses ip && cooldown_active now ip m) ips = true ->
  cf_ip_attempts ips first m now uses = take 1 (rotated first ips).
Proof. intros E. unfold cf_ip_attempts. rewrite E. by rewrite filter_all_true. Qed.

Lemma cf_ip_attempts_open ips first m now uses :
  (first < length ips)%nat ->
  forallb (fun ip => uses ip && cooldown_active now ip m) ips = false ->
  cf_ip_attempts ips first m now uses =
    base.filter (fun ip => negb (uses ip && cooldown_active now ip m) = true) (rotated first ips).
Proof.
  intros Hf E. unfold cf_ip_attempts. rewrite E. apply take_ge.
  rewrite <- (length_rotated first ips Hf). apply length_filter.
Qed.

Lemma forallb_false_elem {A} (f : A -> bool) l : forallb f l = false -> exists x, x ∈ l /\ f x = false.
Proof.
  induction l as [|x l IH]; simpl; [done|]. intros [E|E]%andb_false_iff.
  - exists x. set_solver.
  - destruct (IH E) as (y & ? & ?). exists y. set_solver.
Qed.

Lemma cf_ip_attempts_nonempty ips first m now uses :
  (first < length ips)%nat -> cf_ip_attempts ips first m now uses <> [].
Proof.
  intros Hf. destruct (forallb (fun ip => uses ip && cooldown_active now ip m) ips) eqn:E.
  - rewrite cf_ip_attempts_cooling by done. pose proof (length_rotated first ips Hf).
    destruct (rotated first ips); [simpl in *; lia|done].
  - rewrite cf_ip_attempts_open by done. destruct (forallb_false_elem _ _ E) as (ip & Hin & Hc).
    assert (ip ∈ base.filter (fun ip => negb (uses ip && cooldown_active now ip m) = true) (rotated first ips)).
    { apply list_elem_of_filter. split; [by rewrite Hc|]. by rewrite rotated_permutation. }
    intros E0. rewrite E0 in *. set_solver.
Qed.

Lemma cf_ip_start_lt {N : Network} usize_max ips w :
  ips <> [] -> (fst (cf_ip_start usize_max ips w) < length ips)%nat.
Proof.
  intros Hne. unfold cf_ip_start. case_test; simpl; [destruct ips; [done|simpl; lia]|]. boolify.
  pose proof (Z.mod_pos_bound (n_cf_ip_rotation w) (Z.of_nat (length ips))). lia.
Qed.

(** ** Lemmas: where a connection comes from *)
Section provenance.
Context {N : Network} (usize_max : Z).

(** A stream is the result of some dial with the property [P]. *)
Definition from_dial (P : Dial -> Prop) (ws : stream) : Prop :=
  exists n d, dial_outcome n d = Connected ws /\ P d.

Lemma from_dial_mono (P Q : Dial -> Prop) ws :
  (forall d, P d -> Q d) -> from_dial P ws -> from_dial Q ws.
Proof. intros H (n & d & E & HP). exists n, d. auto. Qed.

Lemma outcomes_lookup n ds k r :
  outcomes n ds !! k = Some r -> exists d, ds !! k = Some d /\ dial_outcome (n + k) d = r.
Proof.
  revert n k. induction ds as [|d ds IH]; intros n [|k] E; simplify_eq/=.
  - exists d. by rewrite Nat.add_0_r.
  - destruct (IH _ _ E) as (d' & ? & ?). exists d'. split; [done|]. by rewrite Nat.add_succ_comm in *.
Qed.

Lemma outcomes_connected n ds k ws (P : Dial -> Prop) :
  outcomes n ds !! k = Some (Connected ws) -> Forall P ds -> from_dial P ws.
Proof.
  intros (d & Hd & E)%outcomes_lookup HP. exists (n + k)%nat, d. split; [done|].
  by eapply Forall_lookup_1.
Qed.

Lemma ws_for_dc_connected ip dc is_media skip timeout sni w att w' ws :
  connect_ws_for_dc_with_outbound ip dc is_media skip timeout sni w = (att, w') ->
  at_ws att = Some ws ->
  from_dial (fun d => d_ip d = ip /\ d_port d = 443 /\ d_domain d ∈ ws_domains dc is_media /\
    d_path d = txt "/apiws" /\ d_sni_override d = sni /\ d_tls d = true /\
    d_skip_tls_verify d = skip) ws.
Proof.
  unfold connect_ws_for_dc_with_outbound. intros E Ha.
  destruct (ws_domain_loop_spec (ws_domains dc is_media) ip skip timeout sni true false false w)
    as (att' & w1 & E' & [(k & ws' & Hk & _ & _ & ->)|(_ & _ & ->)]); rewrite E' in E; simplify_eq/=.
  eapply outcomes_connected; [exact Hk|]. apply Forall_fmap, Forall_forall.
  intros domain Hd. split_and!; try done. by apply list_elem_of_In.
Qed.

Lemma cf_connect_cases domain path binary skip timeout opts w :
  exists r w', connect_cf_with_path usize_max domain path binary skip timeout opts w = Done (r, w') /\
    forall ws, r = Connected ws ->
      from_dial (fun d => exists ip, d = edge_dial domain path binary skip timeout (o_disable_tls opts) ip) ws.
Proof.
  unfold connect_cf_with_path. destruct (o_cf_ips opts) as [|ip0 ips] eqn:Eips.
  - rewrite connect_ws_outcome. eexists _, _. split; [done|]. intros ws E.
    eexists _, _. split; [exact E|]. by exists domain.
  - set (all := ip0 :: ips). pose proof (cf_ip_start_lt usize_max all w) as Hf.
    destruct (cf_ip_start usize_max all w) as [first w0].
    set (attempts := cf_ip_attempts _ _ _ _ _).
    assert (attempts <> []) as Hne by by apply cf_ip_attempts_nonempty, Hf.
    destruct (cf_edge_loop_spec attempts domain path binary skip timeout opts None None w0)
      as (r & w' & E & HC); [done|by left|].
    exists r, w'. split; [done|]. intros ws ->.
    destruct HC as [(k & ws' & Hk & _ & _ & Er)|(H1 & _ & H3 & _)].
    + injection Er as <-. eapply outcomes_connected; [exact Hk|].
      apply Forall_fmap, Forall_forall. intros ip _. by exists ip.
    + exfalso. destruct H3 as [H3|[?|(? & ? & ?)]]; [|done..].
      apply not_true_iff_false in H1. apply H1, existsb_exists. exists (Connected ws).
      split; [by apply list_elem_of_In|done].
Qed.
(** The iterator against the reference walk. *)
Lemma cf_ordered_walk dc cf_domains is_media skip timeout first opts w :
  connect_cf_ws_for_dc_with_outbound_ordered usize_max dc cf_domains is_media skip timeout first opts w =
  cf_walk usize_max skip timeout opts
    (map (fun d => txt "kws" ++ dec dc ++ txt "." ++ d)
       (distinct [] (rotated (first mod length cf_domains) cf_domains))) true w.
Proof.
  unfold connect_cf_ws_for_dc_with_outbound_ordered.
  set (ds := rotated (first mod length cf_domains) cf_domains).
  rewrite (cf_domain_loop_walk usize_max skip timeout opts dc ds 0 _ _ None); [done| |done|].
  - apply attempts_at_start.
  - rewrite drop_0, take_0, Nat.add_0_r. apply Nat.mul_le_mono_l.
    etransitivity; [apply length_distinct|]. apply length_rotated_le.
Qed.

(** The walk ends, and what it returns was dialled at the record it names. *)
Lemma cf_walk_connected skip timeout opts hosts all_redirects w :
  exists ws host ar w', cf_walk usize_max skip timeout opts hosts all_redirects w = Done (ws, host, ar, w') /\
    forall s, ws = Some s -> exists h, host = Some h /\ h ∈ hosts /\
      from_dial (fun d => exists ip, d = edge_dial h (txt "/apiws") true skip timeout (o_disable_tls opts) ip) s.
Proof.
  assert (forall host w, exists r w', dial_record usize_max skip timeout opts host w = Done (r, w') /\
    forall s, r = Connected s ->
      from_dial (fun d => exists ip, d = edge_dial host (txt "/apiws") true skip timeout (o_disable_tls opts) ip) s) as HD
    by (intros; apply cf_connect_cases).
  revert all_redirects w. induction hosts as [|host hosts IH]; intros ar w; cbn [cf_walk].
  { by exists None, None, ar, w. }
  assert (forall ar w, exists ws h ar' w', cf_walk usize_max skip timeout opts hosts ar w = Done (ws, h, ar', w') /\
    forall s, ws = Some s -> exists h', h = Some h' /\ h' ∈ host :: hosts /\
      from_dial (fun d => exists ip, d = edge_dial h' (txt "/apiws") true skip timeout (o_disable_tls opts) ip) s) as IH'.
  { intros ar0 w0. destruct (IH ar0 w0) as (ws & h & ar' & w' & E & H). exists ws, h, ar', w'. split; [done|].
    intros s Hs. destruct (H s Hs) as (h' & ? & ? & ?). exists h'. split_and!; [done|by apply elem_of_cons; right|done]. }
  destruct (HD host w) as (r & w1 & -> & Hs). cbn [run_bind].
  destruct r as [ws| | | |]; try apply IH';
    [exists (Some ws), (Some host), false, w1; split; [done|]; intros s [= <-]; exists host;
     split_and!; [done|apply elem_of_cons; by left|by apply Hs]|..];
    (destruct (HD host w1) as (r & w2 & -> & Hs2); cbn [run_bind];
     destruct r as [ws| | | |]; try apply IH';
     exists (Some ws), (Some host), false, w2; split; [done|]; intros s' [= <-]; exists host;
     split_and!; [done|apply elem_of_cons; by left|by apply Hs2]).
Qed.
End provenance.

(** ** Properties *)

(** Which preferred edges a Cloudflare connect tries: while some edge is
    not cooling down, exactly the edges that are not, each at its place in the
    rotation; when all are cooling down, exactly the first of the rotation, so
    the list is never empty and an outage cannot lock every edge out. *)
Theorem cf_edges_selected ips first m now uses :
  (first < length ips)%nat ->
  let cooling ip := uses ip && cooldown_active now ip m in
  let tried := cf_ip_attempts ips first m now uses in
  tried <> [] /\
  (forallb cooling ips = true -> tried = take 1 (drop first ips)) /\
  (forallb cooling ips = false ->
     (forall ip, ip ∈ tried <-> ip ∈ ips /\ cooling ip = false) /\
     tried `sublist_of` drop first ips ++ take first ips).
Proof.
  intros Hf. cbv zeta. split_and!; [by apply cf_ip_attempts_nonempty| |].
  - intros E. rewrite cf_ip_attempts_cooling, rotated_spec by done.
    apply take_app_le. len.
  - intros E. rewrite cf_ip_attempts_open by done. split.
    + intros ip. rewrite list_elem_of_filter, negb_true_iff, rotated_permutation by done. tauto.
    + rewrite <- rotated_spec by done. apply sublist_filter.
Qed.

Section ws_properties.
Context {N : Network} (usize_max : Z).

(** The dials a Cloudflare connect makes if none of them connects. *)
Definition cf_dials (domain path : text) (binary skip : bool) (timeout : Z) (opts : CfDialOpts)
    (w : net) : list Dial :=
  let port := if o_disable_tls opts then 80 else 443 in
  map (edge_dial domain path binary skip timeout (o_disable_tls opts))
    match o_cf_ips opts with
    | [] => [domain]
    | ips => cf_ip_attempts ips (fst (cf_ip_start usize_max ips w)) (edge_fail (o_disable_tls opts) w)
               (n_now w) (fun ip => connects_directly ip port)
    end.

(** A Cloudflare connect never panics (the [expect] is never reached)
    whatever the cooldowns and the network do: it dials the host name, or the
    selected preferred edges in order, always with the domain as host and no
    SNI override; it returns the first connection, trying nothing after it, or
    else, after all of them, an outcome one of them gave, a redirect only when
    every one redirected. *)
Theorem cf_connect_total domain path binary skip timeout opts w :
  let dials := cf_dials domain path binary skip timeout opts w in
  let rs := outcomes (length (n_dials w)) dials in
  exists r w', connect_cf_with_path usize_max domain path binary skip timeout opts w = Done (r, w') /\
    ((exists k ws, rs !! k = Some (Connected ws) /\ existsb is_connected (take k rs) = false /\
        dialled w (take (S k) dials) w' /\ r = Connected ws) \/
     (existsb is_connected rs = false /\ dialled w dials w' /\ r ∈ rs /\
      is_redirect r = forallb is_redirect rs)).
Proof.
  cbv zeta. unfold connect_cf_with_path, cf_dials. destruct (o_cf_ips opts) as [|ip0 ips] eqn:Eips.
  - rewrite connect_ws_outcome. eexists _, _. split; [done|]. cbn [map outcomes].
    fold (edge_dial domain path binary skip timeout (o_disable_tls opts) domain).
    set (d := edge_dial _ _ _ _ _ _ _).
    change (dial_outcome (length (n_dials w)) d) with (outcome_of d w).
    destruct (outcome_of d w) as [ws| | | |] eqn:E;
      [left; exists 0%nat, ws; by split_and!|right; split_and!; try done; set_solver..].
  - set (all := ip0 :: ips). pose proof (cf_ip_start_lt usize_max all w) as Hf.
    destruct (cf_ip_start usize_max all w) as [first w0] eqn:Es. cbn [fst] in *.
    assert (exists r, w0 = set_rotation r w) as [rot ->].
    { unfold cf_ip_start in Es. case_test; simplify_eq; eauto.
      exists (n_cf_ip_rotation w0). by destruct w0. }
    assert (edge_fail (o_disable_tls opts) (set_rotation rot w) = edge_fail (o_disable_tls opts) w) as ->
      by (unfold edge_fail; by case_match).
    set (attempts := cf_ip_attempts _ _ _ _ _).
    assert (attempts <> []) as Hne by by apply cf_ip_attempts_nonempty, Hf.
    destruct (cf_edge_loop_spec attempts domain path binary skip timeout opts None None
      (set_rotation rot w)) as (r & w' & E & HC); [done|by left|].
    exists r, w'. split; [done|].
    destruct HC as [HC|(H1 & H2 & H3 & H4)]; [by left|]. right. split_and!; try done.
    destruct H3 as [?|[?|(? & ? & ?)]]; done.
Qed.

(** The Cloudflare domain iterator implements the reference walk: the
    distinct domains in rotation order, each [kws] record dialled twice in a
    row unless the first attempt timed out; the loop ends. *)
Theorem cf_domains_walk dc cf_domains is_media skip timeout first opts w :
  connect_cf_ws_for_dc_with_outbound_ordered usize_max dc cf_domains is_media skip timeout first opts w =
  cf_walk usize_max skip timeout opts
    (map (fun d => txt "kws" ++ dec dc ++ txt "." ++ d)
       (distinct [] (rotated (first mod length cf_domains) cf_domains))) true w.
Proof. apply cf_ordered_walk. Qed.
End ws_properties.

(** *** Witness *)
Lemma cf_edges_selected_witness :
  let m := cooldown_set 100 (txt "10.0.0.2") 50 None in
  cf_ip_attempts [txt "10.0.0.1"; txt "10.0.0.2"; txt "10.0.0.3"] 1 m 120 (fun _ => true)
    = [txt "10.0.0.3"; txt "10.0.0.1"] /\
  cf_ip_attempts [txt "10.0.0.1"; txt "10.0.0.2"; txt "10.0.0.3"] 1 m 120 (fun _ => true) <> [].
Proof.
  split; [vm_compute; reflexivity|].
  refine (proj1 (cf_edges_selected _ 1 _ 120 (fun _ => true) _)). simpl. lia.
Defined.
