(* ===== verification/Dialing.v ===== *)
(** * The network the program dials through

    The class [Network] of the WebSocket client, discharged by the outbound
    connector: a dial opens a socket with [Outbound.connect] and upgrades it.
    What remains outside is the class [WsUpgrade]: TLS and the HTTP upgrade over
    an open socket. *)
From Stdlib Require Import String.
From stdpp Require Import gmap.
From S2P Require Import Prelude Text Ip Outbound CryptoApi Crypto Config WsClient.

Local Open Scope Z_scope.

Class WsUpgrade {K : Sockets} : Type := {
  ws_stream : Type;
  ws_bad_url : Dial -> option text;
  ws_upgrade : nat -> socket -> Dial -> upgrade_reply ws_stream;
  ws_time : nat -> Dial -> Z;
}.

Section network.
Context {U : OutboundCrates} {K : Sockets} {W : WsUpgrade} (c : OutboundConfig).

(** [outbound.connect(ip, port, timeout)] for the [n]-th dial. *)
Definition dial_connect (n : nat) (d : Dial) : (socket + OutboundError) * list request :=
  connect n c (d_ip d) (d_port d) (d_timeout d).

Definition outbound_network : Network := {|
  stream := ws_stream;
  tcp_connect n d :=
    match fst (dial_connect n d) with
    | inl _ => TcpConnected
    | inr e => if oe_timed_out e then TcpTimedOut (oe_reason e) else TcpFailed (oe_reason e)
    end;
  bad_url := ws_bad_url;
  upgrade n d :=
    match fst (dial_connect n d) with
    | inl s => ws_upgrade n s d
    | inr e => UpgradeError (oe_reason e)
    end;
  dial_time := ws_time;
  WsClient.connects_directly := Outbound.connects_directly c;
|}.

(** ** Lemmas *)
Lemma dial_connect_routed n d :
  match fst (dial_connect n d) with
  | inl _ => within n (d_timeout d) = true
  | inr e => oe_timed_out e = negb (within n (d_timeout d))
  end /\ routed c (d_ip d) (d_port d) (snd (dial_connect n d)).
Proof. unfold dial_connect. destruct (connect _ _ _ _ _) as [r reqs] eqn:E. exact (connect_routed _ _ _ _ _ _ _ E). Qed.

Lemma edge_fail_after_dial (N : Network) b d spent w : edge_fail b (after_dial d spent w) = edge_fail b w.
Proof. done. Qed.

Lemma edge_fail_set b m w : edge_fail b (set_edge_fail b m w) = m.
Proof. by destruct b. Qed.

(** Clearing an edge adds no cooldown. *)
Definition cools_no_more (m m' : CooldownMap text) : Prop :=
  forall ip until, (default ∅ m') !! ip = Some until -> (default ∅ m) !! ip = Some until.

#[local] Instance cools_no_more_preorder : PreOrder cools_no_more.
Proof. split; [by intros m ip u|]. intros m1 m2 m3 H1 H2 ip u Hu. by apply H1, H2. Qed.

Lemma clear_cools_no_more ip m : cools_no_more m (cooldown_clear ip m).
Proof.
  intros ip' u. destruct m as [m|]; [|done]. cbn. rewrite lookup_delete_Some. by intros [_ ?].
Qed.

Lemma edge_loop_no_cooldown attempts domain path binary skip timeout opts lnr lr w r w' :
  (forall ip, ip ∈ attempts -> Outbound.connects_directly c ip (if o_disable_tls opts then 80 else 443) = false) ->
  cf_edge_loop (N := outbound_network) attempts domain path binary skip timeout opts lnr lr w = Done (r, w') ->
  cools_no_more (edge_fail (o_disable_tls opts) w) (edge_fail (o_disable_tls opts) w').
Proof.
  revert lnr lr w. induction attempts as [|ip attempts IH]; intros lnr lr w Hd; cbn [cf_edge_loop].
  { repeat case_match; intros; simplify_eq; reflexivity. }
  rewrite connect_ws_outcome. set (d := mkDial _ _ _ _ _ _ _ _ _). set (w1 := after_dial d _ w).
  assert (forall lnr lr m, cools_no_more (edge_fail (o_disable_tls opts) w) m ->
    cf_edge_loop (N := outbound_network) attempts domain path binary skip timeout opts lnr lr
      (set_edge_fail (o_disable_tls opts) m w1) = Done (r, w') ->
    cools_no_more (edge_fail (o_disable_tls opts) w) (edge_fail (o_disable_tls opts) w')) as Hgo.
  { intros lnr' lr' m Hm E. etrans; [exact Hm|]. apply IH in E; [by rewrite edge_fail_set in E|].
    intros ip' Hin. apply Hd. by right. }
  pose proof (clear_cools_no_more ip (edge_fail (o_disable_tls opts) w)) as Hc.
  change (WsClient.connects_directly ip (if o_disable_tls opts then 80 else 443))
    with (Outbound.connects_directly c ip (if o_disable_tls opts then 80 else 443)). rewrite (Hd ip) by by left.
  destruct (outcome_of d w); cbv iota; intros E.
  - simplify_eq. by rewrite edge_fail_set.
  - by eapply Hgo, E.
  - by eapply Hgo, E.
  - apply IH in E; [exact E|]. intros ip' Hin. apply Hd. by right.
  - by eapply Hgo, E.
Qed.

(** ** Properties *)

(** A WebSocket dial through the connector: the requests it makes follow the
    outbound proxy settings; it is classed as a connect timeout, the class that
    cools an address down, exactly when the connector's time ran out; and a
    connection it yields was upgraded with status 101 over the socket that the
    connector opened. *)
Theorem dial_classified ip domain path binary skip timeout sni disable_tls w r w' :
  connect_ws_with_path (N := outbound_network) ip domain path binary skip timeout sni disable_tls w = (r, w') ->
  let n := length (n_dials w) in
  let port := if disable_tls then 80 else 443 in
  exists d, n_dials w' = n_dials w ++ [d] /\ d_ip d = ip /\ d_port d = port /\ d_timeout d = timeout /\
    routed c ip port (snd (dial_connect n d)) /\
    ((exists e, r = ConnectTimedOut (N := outbound_network) e) <-> within n timeout = false) /\
    (forall ws, r = Connected (N := outbound_network) ws ->
       exists s, fst (dial_connect n d) = inl s /\ ws_upgrade n s d = UpgradeResponse ws 101).
Proof.
  unfold connect_ws_with_path. cbv zeta. set (d := mkDial _ _ _ _ _ _ _ _ _). set (n := length (n_dials w)).
  cbn [tcp_connect bad_url upgrade outbound_network]. destruct (dial_connect_routed n d) as [HT HR]. intros E.
  exists d. cbn [d_ip d_port d_timeout d] in *.
  assert (n_dials w' = n_dials w ++ [d]) as Hw by (repeat case_match; simplify_eq; done).
  split_and!; try done.
  - destruct (fst (dial_connect n d)) as [s|e] eqn:Ed.
    + rewrite HT. split; [|done]. intros [e ->]. repeat case_match; simplify_eq.
    + rewrite HT in E. destruct (within n timeout); simplify_eq/=; [split; [by intros [? ?]|done]|]. split; eauto.
  - intros ws ->. destruct (fst (dial_connect n d)) as [s|e] eqn:Ed; [|repeat case_match; simplify_eq].
    exists s. split; [done|]. repeat case_match; simplify_eq; boolify; by subst.
Qed.

(** The upgrade behind a connection. *)
Lemma dial_upgraded ip domain path binary skip timeout sni (disable_tls : bool) w ws w' :
  connect_ws_with_path (N := outbound_network) ip domain path binary skip timeout sni disable_tls w
    = (Connected (N := outbound_network) ws, w') ->
  exists s, ws_upgrade (length (n_dials w)) s
    (mkDial ip (if disable_tls then 80 else 443) domain path binary skip timeout sni (negb disable_tls))
    = UpgradeResponse ws 101.
Proof.
  unfold connect_ws_with_path. cbn [tcp_connect bad_url upgrade outbound_network]. intros E.
  destruct (fst (dial_connect _ _)) as [s|e]; [|repeat case_match; simplify_eq].
  exists s. repeat case_match; simplify_eq; boolify; by subst.
Qed.

(** An edge that is reached through a proxy is never put on cooldown: when no
    preferred Cloudflare address is dialled directly, a connect that times out
    says nothing about the edge, and the cooldown map gains no entry. *)
Theorem proxied_edges_never_cool domain path binary skip timeout opts usize_max w r w' :
  o_cf_ips opts <> [] ->
  (forall ip, ip ∈ o_cf_ips opts -> Outbound.connects_directly c ip (if o_disable_tls opts then 80 else 443) = false) ->
  connect_cf_with_path (N := outbound_network) usize_max domain path binary skip timeout opts w = Done (r, w') ->
  forall ip until, (default ∅ (edge_fail (o_disable_tls opts) w')) !! ip = Some until ->
    (default ∅ (edge_fail (o_disable_tls opts) w)) !! ip = Some until.
Proof.
  intros Hne Hd. unfold connect_cf_with_path. destruct (o_cf_ips opts) as [|ip0 ips] eqn:Eips; [done|].
  set (all := ip0 :: ips) in *. pose proof (cf_ip_start_lt (N := outbound_network) usize_max all w Hne) as Hf.
  destruct (cf_ip_start usize_max all w) as [first w0] eqn:Es. cbn [fst] in Hf.
  assert (edge_fail (o_disable_tls opts) w0 = edge_fail (o_disable_tls opts) w) as <-.
  { unfold cf_ip_start in Es. case_test; simplify_eq; [done|]. unfold edge_fail. by case_match. }
  intros E. eapply edge_loop_no_cooldown; [|exact E].
  intros ip Hin. apply Hd. unfold cf_ip_attempts in Hin. apply elem_of_take in Hin as (i & Hi & _).
  apply list_elem_of_lookup_2, list_elem_of_filter in Hi as [_ Hi]. by rewrite rotated_permutation in Hi.
Qed.
End network.

(** ** The public dialling functions of ws_client.rs *)
(** [CfDialOpts::DEFAULT], and the same with plaintext chosen. *)
Definition cf_opts_default : CfDialOpts := mkCfDialOpts [] false 0.
Definition cf_opts_mode (disable_tls : bool) : CfDialOpts :=
  mkCfDialOpts (o_cf_ips cf_opts_default) disable_tls (o_fail_cooldown cf_opts_default).

(** [OutboundConnector::direct()]. *)
Definition direct {U : OutboundCrates} : OutboundConfig := mkOutboundConfig None None.

Section api.
Context {U : OutboundCrates} {K : Sockets} {W : WsUpgrade} (usize_max : Z).
Local Open Scope run_scope.
Implicit Types outbound : OutboundConfig.
Abbreviation dialled_stream := (stream (Network := outbound_network direct)).

Definition connect_ws_with_outbound_mode (ip domain : text) (skip_tls_verify : bool) (timeout : Z) outbound
    (sni_override : option text) (disable_tls : bool) (w : net) :=
  connect_ws_with_path (N := outbound_network outbound) ip domain (txt "/apiws") true skip_tls_verify timeout
    sni_override disable_tls w.

Definition connect_ws_with_outbound (ip domain : text) (skip_tls_verify : bool) (timeout : Z) outbound
    (sni_override : option text) (w : net) :=
  connect_ws_with_outbound_mode ip domain skip_tls_verify timeout outbound sni_override false w.

Definition connect_ws (ip domain : text) (skip_tls_verify : bool) (timeout : Z) (w : net) :=
  connect_ws_with_outbound ip domain skip_tls_verify timeout direct None w.

Definition connect_ws_for_dc (ip : text) (dc : Z) (is_media skip_tls_verify : bool) (timeout : Z) (w : net)
  : option dialled_stream * bool * net :=
  let '(attempt, w) := connect_ws_for_dc_with_outbound (N := outbound_network direct) ip dc is_media
                         skip_tls_verify timeout None w in
  (at_ws attempt, at_all_redirects attempt, w).

Definition connect_cf_ws_for_dc_with_outbound_opts (dc : Z) (cf_domains : list text)
    (is_media skip_tls_verify : bool) (timeout : Z) outbound (opts : CfDialOpts) (w : net) :=
  connect_cf_ws_for_dc_with_outbound_ordered (N := outbound_network outbound) usize_max dc cf_domains is_media
    skip_tls_verify timeout 0 opts w.

Definition connect_cf_ws_for_dc_with_outbound_mode (dc : Z) (cf_domains : list text)
    (is_media skip_tls_verify : bool) (timeout : Z) outbound (disable_tls : bool) (w : net) :=
  connect_cf_ws_for_dc_with_outbound_opts dc cf_domains is_media skip_tls_verify timeout outbound
    (cf_opts_mode disable_tls) w.

Definition connect_cf_ws_for_dc_with_outbound (dc : Z) (cf_domains : list text)
    (is_media skip_tls_verify : bool) (timeout : Z) outbound (w : net) :=
  connect_cf_ws_for_dc_with_outbound_opts dc cf_domains is_media skip_tls_verify timeout outbound
    cf_opts_default w.

Definition connect_cf_ws_for_dc (dc : Z) (cf_domains : list text) (is_media skip_tls_verify : bool)
    (timeout : Z) (w : net) :=
  connect_cf_ws_for_dc_with_outbound_mode dc cf_domains is_media skip_tls_verify timeout direct false w.

Definition connect_cf_record_with_outbound_mode (record : text) (skip_tls_verify : bool) (timeout : Z)
    outbound (disable_tls : bool) (w : net) :=
  connect_cf_record_with_outbound_opts (N := outbound_network outbound) usize_max record skip_tls_verify timeout
    (cf_opts_mode disable_tls) w.

Definition connect_cf_record_with_outbound (record : text) (skip_tls_verify : bool) (timeout : Z)
    outbound (w : net) :=
  connect_cf_record_with_outbound_opts (N := outbound_network outbound) usize_max record skip_tls_verify timeout
    cf_opts_default w.

Definition connect_cf_worker_ws_for_dc_with_outbound_mode (worker_domain dst : text) (dc : Z)
    (is_media skip_tls_verify : bool) (timeout : Z) outbound (disable_tls : bool) (w : net) :=
  connect_cf_worker_ws_for_dc_with_outbound_opts (N := outbound_network outbound) usize_max worker_domain dst dc
    is_media skip_tls_verify timeout (cf_opts_mode disable_tls) w.

Definition connect_cf_worker_ws_for_dc_with_outbound (worker_domain dst : text) (dc : Z)
    (is_media skip_tls_verify : bool) (timeout : Z) outbound (w : net) :=
  connect_cf_worker_ws_for_dc_with_outbound_opts (N := outbound_network outbound) usize_max worker_domain dst dc
    is_media skip_tls_verify timeout cf_opts_default w.

Definition connect_cf_worker_ws_for_dc (worker_domain dst : text) (dc : Z) (is_media skip_tls_verify : bool)
    (timeout : Z) (w : net) :=
  connect_cf_worker_ws_for_dc_with_outbound_mode worker_domain dst dc is_media skip_tls_verify timeout direct
    false w.

(** A call that only dials: over TLS to port 443 and without a fronted name,
    unless plaintext was asked for; no cooldown and no rotation moves. *)
Definition only_dials (disable_tls : bool) (w w' : net) : Prop :=
  n_cf_ip_rotation w' = n_cf_ip_rotation w /\ n_edge_tls_fail w' = n_edge_tls_fail w /\
  n_edge_plaintext_fail w' = n_edge_plaintext_fail w /\
  exists ds, n_dials w' = n_dials w ++ ds /\
    Forall (fun d => d_tls d = negb disable_tls /\ d_port d = (if disable_tls then 80 else 443) /\
                     d_sni_override d = None) ds.

#[local] Instance only_dials_preorder b : PreOrder (only_dials b).
Proof.
  split.
  - intros w. split_and!; try done. exists []. by rewrite app_nil_r.
  - intros w1 w2 w3 (R1 & T1 & P1 & ds1 & D1 & F1) (R2 & T2 & P2 & ds2 & D2 & F2).
    split_and!; try congruence. exists (ds1 ++ ds2). rewrite D2, D1, app_assoc, Forall_app. done.
Qed.

Lemma one_dial_only (N : Network) ip domain path binary skip timeout disable_tls w :
  only_dials disable_tls w (snd (connect_ws_with_path ip domain path binary skip timeout None disable_tls w)).
Proof.
  rewrite connect_ws_outcome. cbn [snd]. split_and!; try done. eexists [_]. split; [done|].
  by repeat constructor.
Qed.

Lemma domain_loop_only (N : Network) domains ip skip timeout a u k w :
  only_dials false w (snd (ws_domain_loop domains ip skip timeout None a u k w)).
Proof.
  revert a u k w. induction domains as [|domain domains IH]; intros a u k w; cbn [ws_domain_loop]; [reflexivity|].
  pose proof (one_dial_only N ip domain (txt "/apiws") true skip timeout false w) as H.
  destruct (connect_ws_with_path _ _ _ _ _ _ _ _ w) as [r w1]. cbn [snd] in H.
  destruct r; [exact H|by (etrans; [exact H|apply IH])..].
Qed.

Lemma no_edges_only (N : Network) domain path binary skip timeout disable_tls w :
  exists r w', connect_cf_with_path usize_max domain path binary skip timeout (cf_opts_mode disable_tls) w = Done (r, w') /\
    only_dials disable_tls w w'.
Proof.
  unfold connect_cf_with_path. cbn [o_cf_ips o_disable_tls cf_opts_mode cf_opts_default].
  pose proof (one_dial_only N domain domain path binary skip timeout disable_tls w) as H.
  destruct (connect_ws_with_path _ _ _ _ _ _ _ _ w) as [r w1]. eauto.
Qed.

Lemma walk_only (N : Network) skip timeout disable_tls hosts a w :
  exists r w', cf_walk usize_max skip timeout (cf_opts_mode disable_tls) hosts a w = Done (r, w') /\
    only_dials disable_tls w w'.
Proof.
  assert (forall host w a (k : bool -> net -> run (option stream * option text * bool * net)),
    (forall a w, exists r w', k a w = Done (r, w') /\ only_dials disable_tls w w') ->
    exists r w', (let! (r, w) := dial_record usize_max skip timeout (cf_opts_mode disable_tls) host w in
      match r with
      | Connected ws => Done (Some ws, Some host, false, w)
      | Redirect _ => k a w
      | _ => k false w
      end) = Done (r, w') /\ only_dials disable_tls w w') as Hone.
  { intros host w0 a0 k Hk. unfold dial_record.
    destruct (no_edges_only N host (txt "/apiws") true skip timeout disable_tls w0) as (r & w1 & -> & H1).
    cbn [run_bind]. destruct r;
      [by eauto|(edestruct Hk as (r2 & w2 & -> & H2); exists r2, w2; split; [done|by etrans])..]. }
  revert a w. induction hosts as [|host hosts IH]; intros a w; cbn [cf_walk]; [by eexists _, w|].
  destruct (no_edges_only N host (txt "/apiws") true skip timeout disable_tls w) as (r & w1 & E1 & H1).
  change (dial_record usize_max skip timeout (cf_opts_mode disable_tls) host w = Done (r, w1)) in E1.
  rewrite E1. cbn [run_bind].
  destruct r as [ws| | | |];
    [by eauto|(edestruct (Hone host w1) as (r2 & w2 & E2 & H2); [exact IH|]; rewrite E2; exists r2, w2; split; [done|by etrans])..
    |edestruct IH as (r2 & w2 & -> & H2); exists r2, w2; split; [done|by etrans]
    |edestruct IH as (r2 & w2 & -> & H2); exists r2, w2; split; [done|by etrans]].
Qed.

(** The public dialling functions always return, and only dial: over TLS to
    port 443 without a fronted name (or to port 80 when plaintext is asked for),
    with the shared edge cooldowns and the edge rotation left alone. *)
Theorem public_dials_only outbound ip domain record worker dst cf_domains dc is_media skip timeout disable_tls w :
  only_dials false w (snd (connect_ws ip domain skip timeout w)) /\
  only_dials false w (snd (connect_ws_for_dc ip dc is_media skip timeout w)) /\
  only_dials disable_tls w (snd (connect_ws_with_outbound_mode ip domain skip timeout outbound None disable_tls w)) /\
  (exists r w', connect_cf_ws_for_dc dc cf_domains is_media skip timeout w = Done (r, w') /\ only_dials false w w') /\
  (exists r w', connect_cf_ws_for_dc_with_outbound_mode dc cf_domains is_media skip timeout outbound disable_tls w
     = Done (r, w') /\ only_dials disable_tls w w') /\
  (exists r w', connect_cf_record_with_outbound_mode record skip timeout outbound disable_tls w = Done (r, w') /\
     only_dials disable_tls w w') /\
  (exists r w', connect_cf_worker_ws_for_dc worker dst dc is_media skip timeout w = Done (r, w') /\
     only_dials false w w').
Proof.
  assert (forall (N : Network) path binary d b, exists r w',
    (let! (r, w) := connect_cf_with_path usize_max d path binary skip timeout (cf_opts_mode b) w in
     match r with Connected ws => Done (Some ws, w) | _ => Done (None, w) end) = Done (r, w') /\
    only_dials b w w') as Hcf.
  { intros N path binary d b. destruct (no_edges_only N d path binary skip timeout b w) as (r & w' & -> & H).
    cbn [run_bind]. destruct r; eauto. }
  split_and!.
  - apply one_dial_only.
  - unfold connect_ws_for_dc, connect_ws_for_dc_with_outbound.
    pose proof (domain_loop_only (outbound_network direct) (ws_domains dc is_media) ip skip timeout true false false w) as H.
    by destruct (ws_domain_loop _ _ _ _ _ _ _ _ w).
  - apply one_dial_only.
  - unfold connect_cf_ws_for_dc, connect_cf_ws_for_dc_with_outbound_mode, connect_cf_ws_for_dc_with_outbound_opts.
    rewrite cf_ordered_walk. apply walk_only.
  - unfold connect_cf_ws_for_dc_with_outbound_mode, connect_cf_ws_for_dc_with_outbound_opts.
    rewrite cf_ordered_walk. apply walk_only.
  - apply Hcf.
  - apply (Hcf (outbound_network direct)).
Qed.
End api.

(** *** Witnesses *)
Definition demo_upgrade : WsUpgrade (K := demo_sockets) := {|
  ws_stream := nat;
  ws_bad_url _ := None;
  ws_upgrade n _ _ := UpgradeResponse n 101;
  ws_time _ _ := 5;
|}.

Definition demo_cf_opts : CfDialOpts := mkCfDialOpts [txt "104.16.0.1"; txt "104.16.0.2"] false 60000.

Definition demo_dial_state : net := mkNet 0 [] 0 None None.

Lemma dial_classified_witness :
  exists d w' r, connect_ws_with_path (N := outbound_network (U := demo_crates) (W := demo_upgrade) (demo_config_of demo_outbound))
      (txt "149.154.167.220") (txt "kws2.web.telegram.org") (txt "/apiws") true false 10000 None false demo_dial_state = (r, w') /\
    n_dials w' = [d] /\ d_port d = 443.
Proof.
  destruct (connect_ws_with_path (N := outbound_network (U := demo_crates) (W := demo_upgrade) (demo_config_of demo_outbound))
      (txt "149.154.167.220") (txt "kws2.web.telegram.org") (txt "/apiws") true false 10000 None false demo_dial_state)
    as [r w'] eqn:E.
  destruct (dial_classified (U := demo_crates) (W := demo_upgrade) (demo_config_of demo_outbound) _ _ _ _ _ _ _ _ _ _ _ E)
    as (d & Hd & _ & Hp & _).
  exists d, w', r. split; [reflexivity|]. split; [exact Hd|exact Hp].
Defined.

Lemma proxied_edges_never_cool_witness :
  exists r w', connect_cf_with_path (N := outbound_network (U := demo_crates) (W := demo_upgrade) (demo_config_of demo_outbound))
      (2 ^ 64 - 1) (txt "kws2.cf.example") (txt "/apiws") true false 10000 demo_cf_opts demo_dial_state = Done (r, w') /\
    forall ip until, (default ∅ (edge_fail false w')) !! ip = Some until -> False.
Proof.
  destruct (cf_connect_cases (N := outbound_network (U := demo_crates) (W := demo_upgrade) (demo_config_of demo_outbound))
    (2 ^ 64 - 1) (txt "kws2.cf.example") (txt "/apiws") true false 10000 demo_cf_opts demo_dial_state) as (r & w' & E & _).
  exists r, w'. split; [exact E|]. intros ip until Hu.
  refine (_ (proxied_edges_never_cool (U := demo_crates) (W := demo_upgrade) (demo_config_of demo_outbound)
    _ _ _ _ _ _ _ _ _ _ _ _ E ip until Hu)).
  - discriminate.
  - discriminate.
  - intros ip' Hin. apply list_elem_of_In in Hin. destruct Hin as [<-|[<-|[]]]; vm_compute; reflexivity.
Defined.
