(* ===== verification/Tls.v ===== *)
(** * ws_client.rs: TLS and the WebSocket upgrade

    How an open socket becomes a WebSocket: the upgrade request, the choice of
    the TLS name and of one of the two shared client configurations, and their
    session stores.  It discharges the class [WsUpgrade] of [Dialing].  The TLS
    and WebSocket protocols themselves, and the WebPKI verifier over the bundled
    roots, are the class [Rustls]. *)
From Stdlib Require Import String.
From stdpp Require Import base list relations.
From S2P Require Import Prelude Text Ip Outbound CryptoApi Crypto Config WsClient Dialing.

Local Open Scope Z_scope.

(** ** Certificate verifiers *)
Inductive SignatureScheme : Set :=
| RSA_PKCS1_SHA256
| RSA_PKCS1_SHA384
| RSA_PKCS1_SHA512
| ECDSA_NISTP256_SHA256
| ECDSA_NISTP384_SHA384
| ECDSA_NISTP521_SHA512
| RSA_PSS_SHA256
| RSA_PSS_SHA384
| RSA_PSS_SHA512
| ED25519.

(** The trait [ServerCertVerifier]. *)
Record ServerCertVerifier {certificate : Type} : Type := mkVerifier {
  verify_server_cert : certificate -> text -> result unit;
  verify_tls12_signature : bytes -> certificate -> bytes -> result unit;
  verify_tls13_signature : bytes -> certificate -> bytes -> result unit;
  supported_verify_schemes : list SignatureScheme;
}.
Arguments ServerCertVerifier : clear implicits.

Definition NoVerifier {certificate} : ServerCertVerifier certificate := {|
  verify_server_cert _ _ := Success tt;
  verify_tls12_signature _ _ _ := Success tt;
  verify_tls13_signature _ _ _ := Success tt;
  supported_verify_schemes :=
    [RSA_PKCS1_SHA256; RSA_PKCS1_SHA384; RSA_PKCS1_SHA512; ECDSA_NISTP256_SHA256; ECDSA_NISTP384_SHA384;
     ECDSA_NISTP521_SHA512; RSA_PSS_SHA256; RSA_PSS_SHA384; RSA_PSS_SHA512; ED25519];
|}.

(** ** The upgrade request *)
Record ws_request : Type := mkRequest {
  rq_url : text;
  rq_headers : list (text * text);
}.

Definition USER_AGENT : text :=
  txt "Mozilla/5.0 (Windows NT 10.0; Win64; x64) AppleWebKit/537.36 (KHTML, like Gecko) Chrome/131.0.0.0 Safari/537.36".

Definition request_of (d : Dial) : ws_request :=
  let scheme := if d_tls d then txt "wss" else txt "ws" in
  mkRequest (scheme ++ txt "://" ++ d_domain d ++ d_path d)
    ((if d_binary d then [(txt "Sec-WebSocket-Protocol", txt "binary")] else []) ++
     [(txt "Origin", txt "https://web.telegram.org"); (txt "User-Agent", USER_AGENT)]).

Definition WS_MAX_FRAME : Z := 4 * 1024 * 1024.
Definition WS_WRITE_BUFFER : Z := 16 * 1024.

Record WebSocketConfig : Type := mkWebSocketConfig {
  write_buffer_size : Z;
  max_frame_size : option Z;
  max_message_size : option Z;
}.

(** The other fields keep the crate's defaults. *)
Definition ws_config : WebSocketConfig := mkWebSocketConfig WS_WRITE_BUFFER (Some WS_MAX_FRAME) (Some WS_MAX_FRAME).

(** ** The crates *)

(** A TLS handshake: no answer in time, failed, or established with the peer's
    certificate; the last two leave the session store behind. *)
Inductive tls_reply (certificate : Type) : Type :=
| TlsElapsed
| TlsFailed (e : text) (sessions : list (text * certificate))
| TlsEstablished (cert : certificate) (resumed : bool) (sessions : list (text * certificate)).
Arguments TlsElapsed {_}.
Arguments TlsFailed {_} _ _.
Arguments TlsEstablished {_} _ _ _.

Class Rustls {K : Sockets} : Type := {
  certificate : Type;
  ws_conn : Type;
  (** [ServerName::try_from]. *)
  server_name_ok : text -> bool;
  (** The verifier of [with_root_certificates(webpki_roots::TLS_SERVER_ROOTS)]. *)
  webpki_verifier : ServerCertVerifier certificate;
  (** The [n]-th dial's handshake for a server name, with a configuration's
      verifier, the capacity of its session store and the sessions in it. *)
  tls_connect : nat -> socket -> ServerCertVerifier certificate -> Z -> list (text * certificate) -> text
                -> tls_reply certificate;
  (** [url.into_client_request()]. *)
  url_error : text -> option text;
  (** The HTTP upgrade over the stream of the [n]-th dial. *)
  ws_handshake : nat -> ws_request -> WebSocketConfig -> upgrade_reply ws_conn;
  upgrade_time : nat -> Dial -> Z;
}.

(** What rustls documents: a full handshake succeeds only when the
    configuration's verifier accepts the certificate for the name; a handshake
    is abbreviated only with a session of the same configuration and name, and
    the peer is then the one of that session; a handshake adds at most a session
    of its own; the store keeps to its capacity. *)
Class RustlsLaws {K : Sockets} (R : Rustls) : Prop := {
  full_handshake_verified n s v cap store name cert store' :
    tls_connect n s v cap store name = TlsEstablished cert false store' -> verify_server_cert v cert name = Success tt;
  resumption_stored n s v cap store name cert store' :
    tls_connect n s v cap store name = TlsEstablished cert true store' -> (name, cert) ∈ store;
  established_stores n s v cap store name cert resumed store' e :
    tls_connect n s v cap store name = TlsEstablished cert resumed store' -> e ∈ store' -> e ∈ store \/ e = (name, cert);
  failed_stores n s v cap store name reason store' e :
    tls_connect n s v cap store name = TlsFailed reason store' -> e ∈ store' -> e ∈ store;
  established_bounded n s v cap store name cert resumed store' :
    tls_connect n s v cap store name = TlsEstablished cert resumed store' -> Z.of_nat (length store) <= cap ->
    Z.of_nat (length store') <= cap;
  failed_bounded n s v cap store name reason store' :
    tls_connect n s v cap store name = TlsFailed reason store' -> Z.of_nat (length store) <= cap ->
    Z.of_nat (length store') <= cap;
}.

(** ** The shared client configurations *)
Section tls.
Context {K : Sockets} {R : Rustls}.

Definition TLS_SESSION_CACHE_SIZE : Z := 256.

Record ClientConfig : Type := mkClientConfig {
  cc_verifier : ServerCertVerifier certificate;
  cc_cache_size : Z;
  cc_sessions : list (text * certificate);
}.

(** The two [OnceLock]s; a [config_ref] is the [Arc] of one of them. *)
Record tls_state : Type := mkTlsState {
  VERIFYING_CONFIG : option ClientConfig;
  NO_VERIFY_CONFIG : option ClientConfig;
}.

Definition tls_init : tls_state := mkTlsState None None.

Inductive config_ref : Set :=
| VerifyingRef
| NoVerifyRef.

Definition verifying_rustls_config (st : tls_state) : config_ref * tls_state :=
  match VERIFYING_CONFIG st with
  | Some _ => (VerifyingRef, st)
  | None =>
      let config := mkClientConfig webpki_verifier TLS_SESSION_CACHE_SIZE [] in
      (VerifyingRef, mkTlsState (Some config) (NO_VERIFY_CONFIG st))
  end.

Definition no_verify_rustls_config (st : tls_state) : config_ref * tls_state :=
  match NO_VERIFY_CONFIG st with
  | Some _ => (NoVerifyRef, st)
  | None =>
      let config := mkClientConfig NoVerifier TLS_SESSION_CACHE_SIZE [] in
      (NoVerifyRef, mkTlsState (VERIFYING_CONFIG st) (Some config))
  end.

Definition build_tls_connector (skip_verify : bool) (st : tls_state) : config_ref * tls_state :=
  if skip_verify then no_verify_rustls_config st else verifying_rustls_config st.

Definition config_at (r : config_ref) (st : tls_state) : option ClientConfig :=
  match r with VerifyingRef => VERIFYING_CONFIG st | NoVerifyRef => NO_VERIFY_CONFIG st end.

Definition set_sessions (r : config_ref) (sessions : list (text * certificate)) (st : tls_state) : tls_state :=
  let set c := mkClientConfig (cc_verifier c) (cc_cache_size c) sessions in
  match r with
  | VerifyingRef => mkTlsState (option_map set (VERIFYING_CONFIG st)) (NO_VERIFY_CONFIG st)
  | NoVerifyRef => mkTlsState (VERIFYING_CONFIG st) (option_map set (NO_VERIFY_CONFIG st))
  end.

(** [TlsConnector::connect(name, tcp)] with a shared configuration, whose store
    it reads and fills. *)
Definition connector_connect (n : nat) (s : socket) (r : config_ref) (name : text) (st : tls_state)
  : tls_reply certificate * tls_state :=
  match config_at r st with
  | None => (TlsFailed [] [], st)
  | Some c =>
      let reply := tls_connect n s (cc_verifier c) (cc_cache_size c) (cc_sessions c) name in
      (reply,
       match reply with
       | TlsElapsed => st
       | TlsFailed _ sessions | TlsEstablished _ _ sessions => set_sessions r sessions st
       end)
  end.

(** [MaybeTlsStream]: the transport under a WebSocket, with the name the TLS
    handshake was made for and the certificate of the peer. *)
Inductive transport : Type :=
| PlainTransport
| RustlsTransport (name : text) (cert : certificate).

Definition TgWsStream : Type := ws_conn * transport.

(** [client_async_with_config]. *)
Definition client_async (n : nat) (request : ws_request) (t : transport) : upgrade_reply TgWsStream :=
  match ws_handshake n request ws_config with
  | UpgradeResponse ws status => UpgradeResponse (ws, t) status
  | UpgradeHttpError status => UpgradeHttpError status
  | UpgradeError e => UpgradeError e
  | UpgradeElapsed => UpgradeElapsed
  end.

(** [host] is the host of [request]'s URL; without an override it is also the
    name of the TLS handshake.  The URL is [scheme://domain/path], so for a domain
    that is a plain host name, without a port or user part, it is that domain. *)
Definition tls_handshake_and_upgrade (n : nat) (tcp : socket) (request : ws_request) (host : text)
    (skip_tls_verify : bool) (sni_override : option text) (st : tls_state)
  : upgrade_reply TgWsStream * tls_state :=
  match sni_override with
  | Some sni =>
      if server_name_ok sni then
        let '(config, st) := no_verify_rustls_config st in
        let '(reply, st) := connector_connect n tcp config sni st in
        match reply with
        | TlsElapsed => (UpgradeElapsed, st)
        | TlsFailed e _ => (UpgradeError e, st)
        | TlsEstablished cert _ _ => (client_async n request (RustlsTransport sni cert), st)
        end
      else (UpgradeError (txt "URL error: No host name in the URL"), st)
  | None =>
      let '(connector, st) := build_tls_connector skip_tls_verify st in
      if server_name_ok host then
        let '(reply, st) := connector_connect n tcp connector host st in
        match reply with
        | TlsElapsed => (UpgradeElapsed, st)
        | TlsFailed e _ => (UpgradeError e, st)
        | TlsEstablished cert _ _ => (client_async n request (RustlsTransport host cert), st)
        end
      else (UpgradeError (txt "TLS error: Invalid DNS name"), st)
  end.

(** The upgrade of [connect_ws_with_path]. *)
Definition ws_upgrade_step (n : nat) (tcp : socket) (d : Dial) (st : tls_state)
  : upgrade_reply TgWsStream * tls_state :=
  let request := request_of d in
  if d_tls d then tls_handshake_and_upgrade n tcp request (d_domain d) (d_skip_tls_verify d) (d_sni_override d) st
  else (client_async n request PlainTransport, st).

(** Dials in any order, each moving the shared state. *)
Inductive tls_step : tls_state -> tls_state -> Prop :=
| step_dial n s d st : tls_step st (snd (ws_upgrade_step n s d st)).

Definition tls_reachable : tls_state -> Prop := rtc tls_step tls_init.

(** The promise of [Dialing]: [at_dial n] is the state the [n]-th dial meets. *)
Definition tls_upgrade (at_dial : nat -> tls_state) : WsUpgrade := {|
  ws_stream := TgWsStream;
  ws_bad_url d := url_error (rq_url (request_of d));
  ws_upgrade n s d := fst (ws_upgrade_step n s d (at_dial n));
  ws_time := upgrade_time;
|}.
End tls.

(** ** Properties *)
Section tls_properties.
Context {U : OutboundCrates} {K : Sockets} {R : Rustls} `{!RustlsLaws R}.

Definition sessions_verified (c : ClientConfig) : Prop :=
  Forall (fun e => verify_server_cert webpki_verifier e.2 e.1 = Success tt) (cc_sessions c).

Record tls_inv (st : tls_state) : Prop := {
  ti_verifying c : VERIFYING_CONFIG st = Some c ->
    cc_verifier c = webpki_verifier /\ cc_cache_size c = TLS_SESSION_CACHE_SIZE /\
    Z.of_nat (length (cc_sessions c)) <= TLS_SESSION_CACHE_SIZE /\ sessions_verified c;
  ti_no_verify c : NO_VERIFY_CONFIG st = Some c ->
    cc_verifier c = NoVerifier /\ cc_cache_size c = TLS_SESSION_CACHE_SIZE /\
    Z.of_nat (length (cc_sessions c)) <= TLS_SESSION_CACHE_SIZE;
}.

Lemma tls_init_inv : tls_inv tls_init.
Proof. by split. Qed.

Lemma verifying_inv st : tls_inv st -> tls_inv (snd (verifying_rustls_config st)).
Proof.
  intros HI. unfold verifying_rustls_config. destruct (VERIFYING_CONFIG st) eqn:E; [done|].
  split; cbn; [|apply HI]. intros c [= <-]. split_and!; try done. constructor.
Qed.

Lemma no_verify_inv st : tls_inv st -> tls_inv (snd (no_verify_rustls_config st)).
Proof.
  intros HI. unfold no_verify_rustls_config. destruct (NO_VERIFY_CONFIG st) eqn:E; [done|].
  split; cbn; [apply HI|]. by intros c [= <-].
Qed.

(** A handshake with the verifying configuration ends at a verified peer, and
    either configuration keeps its invariant. *)
Lemma connector_connect_spec n s r name st :
  tls_inv st -> is_Some (config_at r st) ->
  let '(reply, st') := connector_connect n s r name st in
  tls_inv st' /\
  (r = VerifyingRef -> forall cert resumed store, reply = TlsEstablished cert resumed store ->
     verify_server_cert webpki_verifier cert name = Success tt).
Proof.
  intros [Hv Hn] [c Hc]. unfold connector_connect. rewrite Hc. destruct r; cbn [config_at] in Hc.
  - destruct (Hv c Hc) as (Ev & Es & Hl & Hs). rewrite Ev, Es. unfold sessions_verified in Hs.
    rewrite list.Forall_forall in Hs.
    destruct (tls_connect _ _ _ _ _ _) as [|e store|cert resumed store] eqn:E; cbn [set_sessions]; rewrite ?Hc.
    + split; [exact (Build_tls_inv _ Hv Hn)|done].
    + split; [|done]. split; [|exact Hn]. cbn. intros c' [= <-]. cbn. split_and!; try done.
      * by eapply failed_bounded.
      * apply list.Forall_forall. intros x Hx. apply Hs. by eapply failed_stores.
    + assert (verify_server_cert webpki_verifier cert name = Success tt) as Hcert.
      { destruct resumed; [|by eapply full_handshake_verified].
        apply resumption_stored in E. exact (Hs _ E). }
      split; [|by intros _ ? ? ? [= <- _ _]]. split; [|exact Hn]. cbn. intros c' [= <-]. cbn. split_and!; try done.
      * by eapply established_bounded.
      * apply list.Forall_forall. intros x Hx. eapply established_stores in E as [?| ->]; [by apply Hs|done|done].
  - destruct (Hn c Hc) as (Ev & Es & Hl). rewrite Es.
    destruct (tls_connect _ _ _ _ _ _) as [|e store|cert resumed store] eqn:E; cbn [set_sessions]; rewrite ?Hc;
      (split; [|done]).
    + exact (Build_tls_inv _ Hv Hn).
    + split; [exact Hv|]. cbn. intros c' [= <-]. cbn. split_and!; try done. by eapply failed_bounded.
    + split; [exact Hv|]. cbn. intros c' [= <-]. cbn. split_and!; try done. by eapply established_bounded.
Qed.

Lemma config_built skip st :
  let '(r, st') := build_tls_connector skip st in
  is_Some (config_at r st') /\ r = (if skip then NoVerifyRef else VerifyingRef) /\ (tls_inv st -> tls_inv st').
Proof.
  unfold build_tls_connector. destruct skip.
  - pose proof (no_verify_inv st) as HI. unfold no_verify_rustls_config in *.
    destruct (NO_VERIFY_CONFIG st) eqn:E; cbn in *; split_and!; try done; by rewrite E.
  - pose proof (verifying_inv st) as HI. unfold verifying_rustls_config in *.
    destruct (VERIFYING_CONFIG st) eqn:E; cbn in *; split_and!; try done; by rewrite E.
Qed.

(** One upgrade: the invariant is kept, and what a connection rests on. *)
Lemma upgrade_step_spec n s d st :
  tls_inv st ->
  let '(reply, st') := ws_upgrade_step n s d st in
  tls_inv st' /\
  forall ws t status, reply = UpgradeResponse (ws, t) status ->
    ws_handshake n (request_of d) ws_config = UpgradeResponse ws status /\
    match t with
    | PlainTransport => d_tls d = false
    | RustlsTransport name cert =>
        d_tls d = true /\ name = default (d_domain d) (d_sni_override d) /\ server_name_ok name = true /\
        (d_skip_tls_verify d = false -> d_sni_override d = None ->
         verify_server_cert webpki_verifier cert (d_domain d) = Success tt)
    end.
Proof.
  intros HI. unfold ws_upgrade_step. destruct (d_tls d) eqn:Et.
  2:{ split; [done|]. unfold client_async. intros ws t status E. by repeat case_match; simplify_eq. }
  unfold tls_handshake_and_upgrade. destruct (d_sni_override d) as [sni|].
  - destruct (server_name_ok sni) eqn:En; [|done].
    pose proof (config_built true st) as Hb. cbn [build_tls_connector] in Hb.
    destruct (no_verify_rustls_config st) as [r st1]. destruct Hb as (Hc & _ & HI1).
    pose proof (connector_connect_spec n s r sni st1 (HI1 HI) Hc) as Hs.
    destruct (connector_connect n s r sni st1) as [reply st2]. destruct Hs as [HI2 _].
    destruct reply; (split; [done|]); try done. unfold client_async. intros ws t status E.
    repeat case_match; simplify_eq. by split_and!.
  - pose proof (config_built (d_skip_tls_verify d) st) as Hb.
    destruct (build_tls_connector (d_skip_tls_verify d) st) as [r st1]. destruct Hb as (Hc & -> & HI1).
    destruct (server_name_ok (d_domain d)) eqn:En; [|by split; [apply HI1|]].
    pose proof (connector_connect_spec n s _ (d_domain d) st1 (HI1 HI) Hc) as Hs.
    destruct (connector_connect n s _ (d_domain d) st1) as [reply st2]. destruct Hs as [HI2 Hv].
    destruct reply; (split; [done|]); try done. unfold client_async. intros ws t status E.
    destruct (ws_handshake _ _ _); simplify_eq. split_and!; try done. intros Hk _. rewrite Hk in Hv. by eapply Hv.
Qed.

Lemma tls_reachable_inv st : tls_reachable st -> tls_inv st.
Proof.
  intros Hr. refine (rtc_ind_l (fun st' => tls_inv st' -> tls_inv st) _ _ _ _ Hr tls_init_inv); [done|].
  intros x y [n s d st0] _ IH Hx. apply IH. pose proof (upgrade_step_spec n s d st0 Hx) as HS.
  destruct (ws_upgrade_step n s d st0). by destruct HS.
Qed.

(** C10. Who is at the other end of a WebSocket.  Whatever connections were made
    before, verified, unverified and fronted ones in any order: a connection
    over TLS without a fronted name, made without
    [--danger-accept-invalid-certs], ends at a peer whose certificate the WebPKI
    verifier accepts for the very domain that was dialled, also when the
    handshake resumed an earlier session; a fronted one presents the fronting
    name to the network, and the request inside still asks for the domain; only
    a plaintext dial skips TLS.  Neither session store outgrows its size. *)
Theorem ws_peer_verified c at_dial ip domain path binary skip timeout sni disable_tls w ws t w' :
  (forall n, tls_reachable (at_dial n)) ->
  connect_ws_with_path (N := outbound_network (W := tls_upgrade at_dial) c) ip domain path binary skip timeout sni
    disable_tls w = (Connected (N := outbound_network (W := tls_upgrade at_dial) c) (ws, t), w') ->
  let scheme := if disable_tls then txt "ws" else txt "wss" in
  (exists request, ws_handshake (length (n_dials w)) request ws_config = UpgradeResponse ws 101 /\
     rq_url request = scheme ++ txt "://" ++ domain ++ path) /\
  match t with
  | PlainTransport => disable_tls = true
  | RustlsTransport name cert =>
      disable_tls = false /\ name = default domain sni /\
      (skip = false -> sni = None -> verify_server_cert webpki_verifier cert domain = Success tt)
  end /\
  forall n cc, VERIFYING_CONFIG (at_dial n) = Some cc \/ NO_VERIFY_CONFIG (at_dial n) = Some cc ->
    Z.of_nat (length (cc_sessions cc)) <= TLS_SESSION_CACHE_SIZE.
Proof.
  intros Hr HC. cbv zeta.
  destruct (dial_upgraded (W := tls_upgrade at_dial) c ip domain path binary skip timeout sni disable_tls w (ws, t) w' HC)
    as (s & Hu). cbn [ws_upgrade tls_upgrade] in Hu.
  set (d := mkDial _ _ _ _ _ _ _ _ _) in Hu.
  pose proof (upgrade_step_spec (length (n_dials w)) s d _ (tls_reachable_inv _ (Hr (length (n_dials w))))) as HS.
  destruct (ws_upgrade_step _ s d _) as [reply st']. destruct HS as [_ HS]. destruct (HS ws t 101 Hu) as [Hh Ht].
  split_and!.
  - exists (request_of d). split; [done|]. by destruct disable_tls.
  - destruct t as [|name cert]; cbn in Ht; [by destruct disable_tls|].
    destruct Ht as (Ht & -> & _ & Hv). by destruct disable_tls.
  - intros n cc. destruct (tls_reachable_inv _ (Hr n)) as [Hv Hn]. intros [Hc|Hc]; [by apply Hv|by apply Hn].
Qed.
End tls_properties.

(** ** A witness *)

(** A certificate is the name it was issued for; dials with an odd number meet
    an impostor. *)
Definition demo_webpki : ServerCertVerifier text := {|
  verify_server_cert cert name := if bool_decide (cert = name) then Success tt else Failure (txt "not valid for name");
  verify_tls12_signature _ _ _ := Success tt;
  verify_tls13_signature _ _ _ := Success tt;
  supported_verify_schemes := [ED25519];
|}.

Definition demo_handshake (n : nat) (v : ServerCertVerifier text) (cap : Z) (store : list (text * text)) (name : text)
  : tls_reply text :=
  match List.find (fun e => bool_decide (e.1 = name)) store with
  | Some e => TlsEstablished e.2 true store
  | None =>
      let cert := if Nat.odd n then txt "impostor" else name in
      match verify_server_cert v cert name with
      | Success _ =>
          TlsEstablished cert false (if Z.of_nat (length store) <? cap then (name, cert) :: store else store)
      | Failure e => TlsFailed e store
      end
  end.

Definition demo_rustls : Rustls (K := demo_sockets) := {|
  certificate := text;
  ws_conn := nat;
  server_name_ok _ := true;
  webpki_verifier := demo_webpki;
  tls_connect n _ := demo_handshake n;
  url_error _ := None;
  ws_handshake n _ _ := UpgradeResponse n 101;
  upgrade_time _ _ := 0;
|}.

Lemma demo_rustls_laws : RustlsLaws demo_rustls.
Proof.
  assert (forall n v cap store name,
    (exists cert, demo_handshake n v cap store name = TlsEstablished cert true store /\ (name, cert) ∈ store) \/
    (exists cert, verify_server_cert v cert name = Success tt /\ demo_handshake n v cap store name =
       TlsEstablished cert false (if Z.of_nat (length store) <? cap then (name, cert) :: store else store)) \/
    exists e, demo_handshake n v cap store name = TlsFailed e store) as Hd.
  { intros n v cap store name. unfold demo_handshake. destruct (List.find _ store) as [[name' cert]|] eqn:Ef.
    - left. exists cert. split; [done|]. apply find_some in Ef as [Hin Hb]. boolify. simpl in Hb. subst.
      by apply list_elem_of_In.
    - right. destruct (verify_server_cert v _ name) as [[]|e] eqn:Ev; [left|right]; eauto. }
  split; cbn [tls_connect demo_rustls]; intros n s v cap store name; intros;
    destruct (Hd n v cap store name) as [(cert0 & E & Hin)|[(cert0 & Hv & E)|(e0 & E)]];
    match goal with HX : demo_handshake _ _ _ _ _ = ?r |- _ =>
      pose proof (eq_trans (eq_sym E) HX) as EQ; clear HX; first [discriminate EQ|injection EQ as EQ; subst] end;
    try done; eauto.
  - case_match; set_solver.
  - cbn in *. destruct (Z.ltb_spec (Z.of_nat (length store)) cap); cbn [length]; lia.
Qed.

Definition demo_dial (skip : bool) : Dial :=
  mkDial (txt "149.154.167.220") 443 (txt "kws2.web.telegram.org") (txt "/apiws") true skip 10000 None true.

(** After an unverified connection to an impostor. *)
Definition demo_tls_state : tls_state (R := demo_rustls) :=
  snd (ws_upgrade_step (R := demo_rustls) 1 tt (demo_dial true) tls_init).

Lemma ws_peer_verified_witness :
  verify_server_cert demo_webpki (txt "kws2.web.telegram.org") (txt "kws2.web.telegram.org") = Success tt.
Proof.
  destruct (@ws_peer_verified demo_crates demo_sockets demo_rustls demo_rustls_laws (direct (U := demo_crates))
    (fun _ => demo_tls_state) (txt "149.154.167.220") (txt "kws2.web.telegram.org") (txt "/apiws") true false 10000 None false
    (mkNet 0 [] 0 None None) 0%nat (RustlsTransport (R := demo_rustls) (txt "kws2.web.telegram.org") (txt "kws2.web.telegram.org"))
    (mkNet 0 [demo_dial false] 0 None None)) as (_ & (_ & _ & Hv) & _).
  - intros n. eapply rtc_l; [apply (step_dial (K := demo_sockets) (R := demo_rustls) 1 (tt : socket (Sockets := demo_sockets)) (demo_dial true))|]. apply rtc_refl.
  - vm_compute. reflexivity.
  - apply Hv; reflexivity.
Defined.
