(* ===== verification/Pool.v ===== *)
(** * pool.rs: the pre-warmed connection pool

    The pool's two maps of idle connections and its two reservation sets, the
    operations the routing path calls, and the background tasks they spawn.  A
    spawned task is an element of [p_tasks]; [pool_step] interleaves the
    clients' calls, the phases of every task (before and after its connects)
    and the start-up warm-up in any order. *)
From Stdlib Require Import String.
From S2P Require Import Prelude Text CryptoApi Crypto Config WsClient.
From stdpp Require Import list gmap.

Local Open Scope Z_scope.

Definition CF_POOL_MAX : nat := 1.
Definition WARMUP_BUCKET_CONCURRENCY : nat := 2.

Inductive CfTier : Set :=
| Worker
| Proxy.

#[export] Instance CfTier_eq_dec : EqDecision CfTier.
Proof. solve_decision. Defined.

#[export] Instance CfTier_countable : Countable CfTier.
Proof.
  refine (inj_countable' (fun t => match t with Worker => true | Proxy => false end)
            (fun b : bool => if b then Worker else Proxy) _).
  by intros [].
Defined.

Abbreviation CfKey := (CfTier * Z * bool)%type.
Abbreviation PoolKey := (Z * bool)%type.

(** runtime.rs: what the pool reads of the shared runtime. *)
Record Runtime : Type := mkRuntime {
  rt_cf_ips : list text;
  rt_cf_fail_cooldown : Z;
  rt_fronting_domain : option text;
}.

Record CfTarget : Type := mkCfTarget {
  tg_tier : CfTier;
  tg_dc : Z;
  tg_is_media : bool;
  tg_dst : text;
  tg_domain : text;
  tg_skip_tls_verify : bool;
  tg_connect_timeout : Z;
  tg_disable_tls : bool;
}.

Definition tg_key (t : CfTarget) : CfKey := (tg_tier t, tg_dc t, tg_is_media t).

Section pool.
Context {N : Network} (usize_max : Z).
(** [ws.next().now_or_never().is_some()] at an instant. *)
Context (has_message : stream -> Z -> bool).
Context (rt : Runtime).
(** The targets the routing path may ask spares for. *)
Context (asked : CfTarget -> Prop).

Record PoolEntry : Type := mkPoolEntry {
  pe_ws : stream;
  pe_created : Z;
}.

Record CfEntry : Type := mkCfEntry {
  ce_ws : stream;
  ce_created : Z;
  ce_domain : text;
  ce_dst : text;
  ce_skip_tls_verify : bool;
  ce_connect_timeout : Z;
  ce_disable_tls : bool;
}.

(** A background task: spawned, or inside its connects. *)
Inductive task : Type :=
| Refill (key : PoolKey) (target_ip : text) (skip_tls : bool)
| RefillConnecting (key : PoolKey) (target_ip : text) (skip_tls : bool) (needed : nat)
| CfRefill (target : CfTarget)
| CfRefillConnecting (target : CfTarget)
| Warming (key : PoolKey) (ip : text) (skip_tls : bool).

Record WsPool : Type := mkWsPool {
  p_pool_size : nat;
  p_max_age : Z;
  p_idle : gmap PoolKey (list PoolEntry);
  p_cf_idle : gmap CfKey (list CfEntry);
  p_cf_refilling : gset CfKey;
  p_refilling : gset PoolKey;
  p_tasks : list task;
  (** Warm-up jobs not started yet. *)
  p_warm_jobs : list (PoolKey * text * bool);
}.

Definition pool_with_runtime (pool_size : nat) (max_age : Z) : WsPool :=
  mkWsPool pool_size max_age empty empty empty empty [] [].

Definition set_idle (m : gmap PoolKey (list PoolEntry)) (p : WsPool) : WsPool :=
  mkWsPool (p_pool_size p) (p_max_age p) m (p_cf_idle p) (p_cf_refilling p) (p_refilling p)
    (p_tasks p) (p_warm_jobs p).
Definition set_cf_idle (m : gmap CfKey (list CfEntry)) (p : WsPool) : WsPool :=
  mkWsPool (p_pool_size p) (p_max_age p) (p_idle p) m (p_cf_refilling p) (p_refilling p)
    (p_tasks p) (p_warm_jobs p).
Definition set_cf_refilling (s : gset CfKey) (p : WsPool) : WsPool :=
  mkWsPool (p_pool_size p) (p_max_age p) (p_idle p) (p_cf_idle p) s (p_refilling p)
    (p_tasks p) (p_warm_jobs p).
Definition set_refilling (s : gset PoolKey) (p : WsPool) : WsPool :=
  mkWsPool (p_pool_size p) (p_max_age p) (p_idle p) (p_cf_idle p) (p_cf_refilling p) s
    (p_tasks p) (p_warm_jobs p).
Definition set_tasks (ts : list task) (p : WsPool) : WsPool :=
  mkWsPool (p_pool_size p) (p_max_age p) (p_idle p) (p_cf_idle p) (p_cf_refilling p) (p_refilling p)
    ts (p_warm_jobs p).
Definition set_warm_jobs (js : list (PoolKey * text * bool)) (p : WsPool) : WsPool :=
  mkWsPool (p_pool_size p) (p_max_age p) (p_idle p) (p_cf_idle p) (p_cf_refilling p) (p_refilling p)
    (p_tasks p) js.

(** [tokio::spawn]. *)
Definition spawn (t : task) (p : WsPool) : WsPool := set_tasks (p_tasks p ++ [t]) p.

(** [HashSet::insert]: whether the key was new. *)
Definition reserve_refill (key : PoolKey) (p : WsPool) : bool * WsPool :=
  (bool_decide (key ∉ p_refilling p), set_refilling ({[key]} ∪ p_refilling p) p).

Definition reserve_cf_refill (key : CfKey) (p : WsPool) : bool * WsPool :=
  (bool_decide (key ∉ p_cf_refilling p), set_cf_refilling ({[key]} ∪ p_cf_refilling p) p).

Definition schedule_refill (dc : Z) (is_media : bool) (target_ip : text) (skip_tls : bool)
    (p : WsPool) : WsPool :=
  if (p_pool_size p =? 0)%nat then p
  else
    let '(reserved, p) := reserve_refill (dc, is_media) p in
    if reserved then spawn (Refill (dc, is_media) target_ip skip_tls) p else p.

(** [now.saturating_duration_since(created)]. *)
Definition age (now created : Z) : Z := Z.max 0 (now - created).

(** The [while let Some(entry) = bucket.pop()] loop, on the reversed bucket:
    stale and answering entries are dropped. *)
Fixpoint pop_loop (now max_age : Z) (rev_bucket : list PoolEntry) : option stream * list PoolEntry :=
  match rev_bucket with
  | [] => (None, [])
  | entry :: rev_bucket =>
      if max_age <? age now (pe_created entry) then pop_loop now max_age rev_bucket
      else if has_message (pe_ws entry) now then pop_loop now max_age rev_bucket
      else (Some (pe_ws entry), rev_bucket)
  end.

Definition bucket_of (key : PoolKey) (p : WsPool) : list PoolEntry := default [] (p_idle p !! key).

Definition pool_get (dc : Z) (is_media : bool) (target_ip : text) (skip_tls allow_refill : bool)
    (now : Z) (p : WsPool) : option stream * WsPool :=
  let key := (dc, is_media) in
  let '(ws, rest) := pop_loop now (p_max_age p) (reverse (bucket_of key p)) in
  let p := set_idle (<[key := reverse rest]> (p_idle p)) p in
  (ws, if allow_refill then schedule_refill dc is_media target_ip skip_tls p else p).

Definition cf_prefetch (target : CfTarget) (p : WsPool) : WsPool :=
  if (p_pool_size p =? 0)%nat then p
  else
    let '(reserved, p) := reserve_cf_refill (tg_key target) p in
    if reserved then spawn (CfRefill target) p else p.

Fixpoint cf_pop_loop (now max_age : Z) (rev_bucket : list CfEntry) : option CfEntry * list CfEntry :=
  match rev_bucket with
  | [] => (None, [])
  | entry :: rev_bucket =>
      if (max_age <? age now (ce_created entry)) || has_message (ce_ws entry) now
      then cf_pop_loop now max_age rev_bucket
      else (Some entry, rev_bucket)
  end.

Definition cf_get (tier : CfTier) (dc : Z) (is_media : bool) (now : Z) (p : WsPool)
  : option (stream * text) * WsPool :=
  match p_cf_idle p !! (tier, dc, is_media) with
  | None => (None, p)
  | Some bucket =>
      let '(hit, rest) := cf_pop_loop now (p_max_age p) (reverse bucket) in
      let p := set_cf_idle (<[(tier, dc, is_media) := reverse rest]> (p_cf_idle p)) p in
      match hit with
      | None => (None, p)
      | Some entry =>
          (Some (ce_ws entry, ce_domain entry),
           cf_prefetch (mkCfTarget tier dc is_media (ce_dst entry) (ce_domain entry)
             (ce_skip_tls_verify entry) (ce_connect_timeout entry) (ce_disable_tls entry)) p)
      end
  end.

(** *** The refill task: from its start to its connects, and from there to its
    end; [RefillGuard]'s drop at every end. *)
Definition drop_guard (key : PoolKey) (p : WsPool) : WsPool := set_refilling (p_refilling p ∖ {[key]}) p.
Definition drop_cf_guard (key : CfKey) (p : WsPool) : WsPool :=
  set_cf_refilling (p_cf_refilling p ∖ {[key]}) p.

Definition refill_begin (key : PoolKey) (target_ip : text) (skip_tls : bool) (p : WsPool)
  : option task * WsPool :=
  let current := length (bucket_of key p) in
  if (p_pool_size p <=? current)%nat then (None, drop_guard key p)
  else (Some (RefillConnecting key target_ip skip_tls (p_pool_size p - current)), p).

Definition new_entries (now : Z) (conns : list stream) : list PoolEntry :=
  map (fun ws => mkPoolEntry ws now) conns.

Definition refill_finish (key : PoolKey) (conns : list stream) (now : Z) (p : WsPool) : WsPool :=
  match conns with
  | [] => drop_guard key p
  | _ =>
      let bucket := bucket_of key p in
      let can_add := (p_pool_size p - length bucket)%nat in
      drop_guard key
        (set_idle (<[key := bucket ++ new_entries now (take can_add conns)]> (p_idle p)) p)
  end.

Definition cf_budget (p : WsPool) : nat := Nat.min CF_POOL_MAX (p_pool_size p).

Definition cf_bucket_of (key : CfKey) (p : WsPool) : list CfEntry := default [] (p_cf_idle p !! key).

Definition cf_refill_begin (target : CfTarget) (p : WsPool) : option task * WsPool :=
  let key := tg_key target in
  if (cf_budget p <=? length (cf_bucket_of key p))%nat then (None, drop_cf_guard key p)
  else (Some (CfRefillConnecting target), p).

Definition cf_refill_finish (target : CfTarget) (ws : option stream) (now : Z) (p : WsPool) : WsPool :=
  let key := tg_key target in
  match ws with
  | None => drop_cf_guard key p
  | Some ws =>
      let bucket := cf_bucket_of key p in
      let entry := mkCfEntry ws now (tg_domain target) (tg_dst target) (tg_skip_tls_verify target)
                     (tg_connect_timeout target) (tg_disable_tls target) in
      drop_cf_guard key
        (set_cf_idle
           (<[key := if (length bucket <? cf_budget p)%nat then bucket ++ [entry] else bucket]>
              (p_cf_idle p)) p)
  end.

(** [cf_connect_one]: the tier decides how the spare is dialled. *)
Definition cf_connect_one (target : CfTarget) (w : net) : run (option stream * net) :=
  let opts := mkCfDialOpts (rt_cf_ips rt) (tg_disable_tls target) (rt_cf_fail_cooldown rt) in
  match tg_tier target with
  | Worker =>
      connect_cf_worker_ws_for_dc_with_outbound_opts usize_max (tg_domain target) (tg_dst target)
        (tg_dc target) (tg_is_media target) (tg_skip_tls_verify target) (tg_connect_timeout target) opts w
  | Proxy =>
      connect_cf_record_with_outbound_opts usize_max (tg_domain target) (tg_skip_tls_verify target)
        (tg_connect_timeout target) opts w
  end.

(** [connect_batch]: up to [count] attempts, their results in the order they
    complete, stopping at the first failure.  Two are in flight at a time and
    other tasks dial in between, so each attempt sees some state of the
    network. *)
Inductive connect_batch (ip : text) (key : PoolKey) (skip_tls : bool) : nat -> list stream -> Prop :=
| batch_all : connect_batch ip key skip_tls 0 []
| batch_connected n w att w' ws conns :
    connect_ws_for_dc_with_outbound ip key.1 key.2 skip_tls 8000 (rt_fronting_domain rt) w = (att, w') ->
    at_ws att = Some ws -> connect_batch ip key skip_tls n conns ->
    connect_batch ip key skip_tls (S n) (ws :: conns)
| batch_failed n w att w' :
    connect_ws_for_dc_with_outbound ip key.1 key.2 skip_tls 8000 (rt_fronting_domain rt) w = (att, w') ->
    at_ws att = None -> connect_batch ip key skip_tls (S n) [].

(** *** Warm-up *)
Definition pinned_off_ws (c : Config) (is_media : bool) : bool :=
  match forced_upstreams c is_media with
  | Some tiers => negb (bool_decide (Ws ∈ tiers))
  | None => false
  end.

(** The jobs for one target: both traffic classes, less the pinned-off ones. *)
Definition dc_jobs (c : Config) (target : Z * text) : list (PoolKey * text * bool) :=
  omap (fun is_media : bool =>
          if pinned_off_ws c is_media then None
          else Some ((target.1, is_media), target.2, c_skip_tls_verify c)) [false; true].

(** The jobs of [warmup], in some order of the map's entries. *)
Definition warmup_jobs (c : Config) : list (PoolKey * text * bool) :=
  concat (map (dc_jobs c) (map_to_list (dc_redirects c))).

Definition warmup (c : Config) (p : WsPool) : WsPool := set_warm_jobs (warmup_jobs c) p.

Definition warmup_push (key : PoolKey) (conns : list stream) (now : Z) (p : WsPool) : WsPool :=
  set_idle (<[key := bucket_of key p ++ new_entries now conns]> (p_idle p)) p.

Definition is_warming (t : task) : bool := match t with Warming _ _ _ => true | _ => false end.

(** Replace a task of the list by what it became. *)
Definition task_becomes (before after : list task) (t : option task) (p : WsPool) : WsPool :=
  set_tasks (before ++ match t with Some t => [t] | None => [] end ++ after) p.

(** ** The interleaving *)
Inductive pool_step : WsPool -> WsPool -> Prop :=
| step_get dc is_media ip skip allow now p :
    pool_step p (pool_get dc is_media ip skip allow now p).2
| step_cf_get tier dc is_media now p :
    pool_step p (cf_get tier dc is_media now p).2
| step_cf_prefetch target p :
    asked target -> pool_step p (cf_prefetch target p)
| step_refill_begin before after key ip skip p t p' :
    p_tasks p = before ++ Refill key ip skip :: after ->
    refill_begin key ip skip p = (t, p') ->
    pool_step p (task_becomes before after t p')
| step_refill_finish before after key ip skip needed conns now p :
    p_tasks p = before ++ RefillConnecting key ip skip needed :: after ->
    connect_batch ip key skip needed conns ->
    pool_step p (task_becomes before after None (refill_finish key conns now p))
| step_cf_begin before after target p t p' :
    p_tasks p = before ++ CfRefill target :: after ->
    cf_refill_begin target p = (t, p') ->
    pool_step p (task_becomes before after t p')
| step_cf_finish before after target w ws w' now p :
    p_tasks p = before ++ CfRefillConnecting target :: after ->
    cf_connect_one target w = Done (ws, w') ->
    pool_step p (task_becomes before after None (cf_refill_finish target ws now p))
| step_warm_begin jobs1 jobs2 key ip skip p :
    p_warm_jobs p = jobs1 ++ (key, ip, skip) :: jobs2 ->
    (length (List.filter is_warming (p_tasks p)) < WARMUP_BUCKET_CONCURRENCY)%nat ->
    pool_step p (spawn (Warming key ip skip) (set_warm_jobs (jobs1 ++ jobs2) p))
| step_warm_finish before after key ip skip conns now p :
    p_tasks p = before ++ Warming key ip skip :: after ->
    connect_batch ip key skip (p_pool_size p) conns ->
    pool_step p (task_becomes before after None (warmup_push key conns now p)).

(** Start-up: a new pool with its warm-up jobs. *)
Definition pool_init (pool_size : nat) (max_age : Z) (c : Config) : WsPool :=
  warmup c (pool_with_runtime pool_size max_age).

Inductive reachable (pool_size : nat) (max_age : Z) (c : Config) : WsPool -> Prop :=
| reach_init : reachable pool_size max_age c (pool_init pool_size max_age c)
| reach_step p p' : reachable pool_size max_age c p -> pool_step p p' -> reachable pool_size max_age c p'.
End pool.

(** ** Invariants *)
Section pool_invariants.
Context {N : Network} (usize_max : Z) (has_message : stream -> Z -> bool) (rt : Runtime) (asked : CfTarget -> Prop).
Implicit Types (p : WsPool) (t : task) (ts : list task).

Definition refill_keys ts : list PoolKey :=
  omap (fun t => match t with Refill k _ _ | RefillConnecting k _ _ _ => Some k | _ => None end) ts.

Definition cf_keys ts : list CfKey :=
  omap (fun t => match t with CfRefill g | CfRefillConnecting g => Some (tg_key g) | _ => None end) ts.

(** Connections a task of bucket [k] may be holding. *)
Definition refill_load (k : PoolKey) t : nat :=
  match t with RefillConnecting k' _ _ n => if decide (k' = k) then n else 0 | _ => 0 end.

Definition warm_load (k : PoolKey) t : nat :=
  match t with Warming k' _ _ => if decide (k' = k) then 1 else 0 | _ => 0 end.

Definition job_load (k : PoolKey) (j : PoolKey * text * bool) : nat :=
  if decide (j.1.1 = k) then 1 else 0.

Definition total {A} (f : A -> nat) (l : list A) : nat := list_sum (map f l).

Lemma total_app {A} (f : A -> nat) l1 l2 : total f (l1 ++ l2) = (total f l1 + total f l2)%nat.
Proof. unfold total. by rewrite map_app, list_sum_app. Qed.

Lemma total_cons {A} (f : A -> nat) x l : total f (x :: l) = (f x + total f l)%nat.
Proof. done. Qed.

Definition warm_total (k : PoolKey) p : nat :=
  (total (warm_load k) (p_tasks p) + total (job_load k) (p_warm_jobs p))%nat.

(** Provenance of the pooled streams. *)
Definition direct_dial (k : PoolKey) (d : Dial) : Prop :=
  d_domain d ∈ ws_domains k.1 k.2 /\ d_path d = txt "/apiws" /\ d_tls d = true /\ d_port d = 443 /\
  d_sni_override d = rt_fronting_domain rt.

(** The dial a target describes, whatever edge address it goes to: the target's
    own host name, a Worker's path with the destination, the DC and the class,
    and Telegram's path otherwise. *)
Definition tier_dial (t : CfTarget) (d : Dial) : Prop :=
  exists ip, d = edge_dial (tg_domain t)
    (match tg_tier t with Worker => cf_worker_path (tg_dst t) (tg_dc t) (tg_is_media t) | Proxy => txt "/apiws" end)
    (match tg_tier t with Worker => false | Proxy => true end)
    (tg_skip_tls_verify t) (tg_connect_timeout t) (tg_disable_tls t) ip.

(** The target an idle spare of a bucket records. *)
Definition entry_target (k : CfKey) (e : CfEntry) : CfTarget :=
  mkCfTarget k.1.1 k.1.2 k.2 (ce_dst e) (ce_domain e) (ce_skip_tls_verify e) (ce_connect_timeout e) (ce_disable_tls e).

Record pool_inv (ps : nat) p : Prop := {
  inv_size : p_pool_size p = ps;
  inv_refill_keys : NoDup (refill_keys (p_tasks p));
  inv_refilling k : k ∈ p_refilling p <-> k ∈ refill_keys (p_tasks p);
  inv_cf_keys : NoDup (cf_keys (p_tasks p));
  inv_cf_refilling k : k ∈ p_cf_refilling p <-> k ∈ cf_keys (p_tasks p);
  inv_cf_bucket k : (length (cf_bucket_of k p) <= Nat.min CF_POOL_MAX ps)%nat;
  inv_warm k : (warm_total k p <= 1)%nat;
  inv_fds k : (length (bucket_of k p) + total (refill_load k) (p_tasks p) + ps * warm_total k p
               <= 2 * ps)%nat;
  inv_direct k : Forall (fun e => from_dial (direct_dial k) (pe_ws e)) (bucket_of k p);
  inv_cf k : Forall (fun e => from_dial (tier_dial (entry_target k e)) (ce_ws e)) (cf_bucket_of k p);
}.

(** *** Buckets *)
Lemma bucket_insert k k' b p :
  bucket_of k' (set_idle (<[k := b]> (p_idle p)) p) = if decide (k = k') then b else bucket_of k' p.
Proof. unfold bucket_of. simpl. rewrite lookup_insert. by case_decide. Qed.

Lemma cf_bucket_insert k k' b p :
  cf_bucket_of k' (set_cf_idle (<[k := b]> (p_cf_idle p)) p) =
    if decide (k = k') then b else cf_bucket_of k' p.
Proof. unfold cf_bucket_of. simpl. rewrite lookup_insert. by case_decide. Qed.

(** A bucket may be replaced by one of acceptable size and provenance. *)
Lemma inv_set_idle ps k b p :
  pool_inv ps p ->
  (length b + total (refill_load k) (p_tasks p) + ps * warm_total k p <= 2 * ps)%nat ->
  Forall (fun e => from_dial (direct_dial k) (pe_ws e)) b ->
  pool_inv ps (set_idle (<[k := b]> (p_idle p)) p).
Proof.
  intros [] Hb HF. split; try done.
  - intros k'. rewrite bucket_insert. case_decide; [by subst|apply inv_fds0].
  - intros k'. rewrite bucket_insert. case_decide; [by subst|apply inv_direct0].
Qed.

Lemma inv_set_cf_idle ps k b p :
  pool_inv ps p -> (length b <= Nat.min CF_POOL_MAX ps)%nat ->
  Forall (fun e => from_dial (tier_dial (entry_target k e)) (ce_ws e)) b ->
  pool_inv ps (set_cf_idle (<[k := b]> (p_cf_idle p)) p).
Proof.
  intros [] Hb HF. split; try done.
  - intros k'. rewrite cf_bucket_insert. case_decide; [by subst|apply inv_cf_bucket0].
  - intros k'. rewrite cf_bucket_insert. case_decide; [by subst|apply inv_cf0].
Qed.

(** *** Popping *)
Lemma cf_pop_elem now max_age rb e rest :
  cf_pop_loop has_message now max_age (reverse rb) = (Some e, rest) -> e ∈ rb.
Proof.
  rewrite <- elem_of_reverse. generalize (reverse rb) as l. induction l as [|x l IH]; cbn [cf_pop_loop]; [done|].
  case_test; [intros H; apply elem_of_cons; right; by apply IH|].
  intros [= <- <-]. apply elem_of_cons. by left.
Qed.

Lemma pop_loop_suffix now max_age rb :
  exists dropped, rb = dropped ++ (pop_loop has_message now max_age rb).2.
Proof.
  induction rb as [|e rb [d IH]]; [by exists []|]. cbn [pop_loop].
  repeat case_test; [exists (e :: d); simpl; by f_equal..|by exists [e]].
Qed.

Lemma cf_pop_loop_suffix now max_age rb :
  exists dropped, rb = dropped ++ (cf_pop_loop has_message now max_age rb).2.
Proof.
  induction rb as [|e rb [d IH]]; [by exists []|]. cbn [cf_pop_loop].
  case_test; [exists (e :: d); simpl; by f_equal|by exists [e]].
Qed.

Lemma pop_rest {A} (b dropped rest : list A) (P : A -> Prop) :
  reverse b = dropped ++ rest -> Forall P b ->
  (length (reverse rest) <= length b)%nat /\ Forall P (reverse rest).
Proof.
  intros E HF. apply (f_equal reverse) in E. rewrite reverse_involutive, reverse_app in E.
  subst b. apply Forall_app in HF as [HF _]. split; [len|done].
Qed.

(** *** The task list *)
Lemma refill_keys_app ts1 ts2 : refill_keys (ts1 ++ ts2) = refill_keys ts1 ++ refill_keys ts2.
Proof. apply omap_app. Qed.

Lemma cf_keys_app ts1 ts2 : cf_keys (ts1 ++ ts2) = cf_keys ts1 ++ cf_keys ts2.
Proof. apply omap_app. Qed.

(** Replacing a task [t] by [t'] (or nothing), with the reservation sets and
    the warm-up jobs adjusted to it. *)
Definition opt_tasks (t : option task) : list task := match t with Some t => [t] | None => [] end.

Lemma inv_replace ps p before after (t t' : option task) refilling' cf_refilling' jobs' :
  pool_inv ps p -> p_tasks p = before ++ opt_tasks t ++ after ->
  NoDup (refill_keys before ++ refill_keys (opt_tasks t') ++ refill_keys after) ->
  (forall k, k ∈ refilling' <-> k ∈ refill_keys before ++ refill_keys (opt_tasks t') ++ refill_keys after) ->
  NoDup (cf_keys before ++ cf_keys (opt_tasks t') ++ cf_keys after) ->
  (forall k, k ∈ cf_refilling' <-> k ∈ cf_keys before ++ cf_keys (opt_tasks t') ++ cf_keys after) ->
  (forall k, total (warm_load k) (opt_tasks t') + total (job_load k) jobs' <=
     total (warm_load k) (opt_tasks t) + total (job_load k) (p_warm_jobs p))%nat ->
  (forall k, length (bucket_of k p) + total (refill_load k) (opt_tasks t') <=
             length (bucket_of k p) + total (refill_load k) (opt_tasks t)
             \/ total (refill_load k) before = 0 /\ total (refill_load k) after = 0 /\
                length (bucket_of k p) + total (refill_load k) (opt_tasks t') <= ps)%nat ->
  pool_inv ps (mkWsPool (p_pool_size p) (p_max_age p) (p_idle p) (p_cf_idle p) cf_refilling' refilling'
    (before ++ opt_tasks t' ++ after) jobs').
Proof.
  intros [] Et H1 H2 H3 H4 H5 H6. unfold warm_total in *. rewrite Et in *.
  rewrite !refill_keys_app, !cf_keys_app in *.
  setoid_rewrite total_app in inv_warm0. setoid_rewrite total_app in inv_warm0.
  setoid_rewrite total_app in inv_fds0. setoid_rewrite total_app in inv_fds0.
  split; try done; unfold warm_total; simpl; rewrite ?refill_keys_app, ?cf_keys_app; try done.
  - intros k. rewrite !total_app. specialize (H5 k). specialize (inv_warm0 k). lia.
  - intros k. change (length (bucket_of k _)) with (length (bucket_of k p)). rewrite !total_app.
    specialize (H5 k). specialize (H6 k). specialize (inv_warm0 k). specialize (inv_fds0 k).
    nia.
Qed.

(** *** Reservations *)
Lemma inv_schedule_refill ps dc is_media ip skip p :
  pool_inv ps p -> pool_inv ps (schedule_refill dc is_media ip skip p).
Proof.
  intros Hinv. pose proof Hinv as []. unfold schedule_refill, reserve_refill.
  case_test; [done|]. case_bool_decide as Hk.
  - apply (inv_replace ps p (p_tasks p) [] None (Some (Refill (dc, is_media) ip skip))
      ({[(dc, is_media)]} ∪ p_refilling p) (p_cf_refilling p) (p_warm_jobs p)); simpl; try done.
    + by rewrite app_nil_r.
    + apply NoDup_app. split_and!; [done| |apply NoDup_singleton].
      intros x Hx. rewrite list_elem_of_singleton. intros ->. apply Hk. by apply inv_refilling0.
    + intros k. rewrite elem_of_union, elem_of_singleton, inv_refilling0, elem_of_app,
        list_elem_of_singleton. tauto.
    + by rewrite app_nil_r.
    + intros k. by rewrite app_nil_r.
    + intros k. by left.
  - split; try done. intros k. simpl. rewrite elem_of_union, elem_of_singleton, <- inv_refilling0.
    naive_solver.
Qed.

Lemma inv_cf_prefetch ps target p : pool_inv ps p -> pool_inv ps (cf_prefetch target p).
Proof.
  intros Hinv. pose proof Hinv as []. unfold cf_prefetch, reserve_cf_refill.
  case_test; [done|]. case_bool_decide as Hk.
  - apply (inv_replace ps p (p_tasks p) [] None (Some (CfRefill target))
      (p_refilling p) ({[tg_key target]} ∪ p_cf_refilling p) (p_warm_jobs p)); simpl; try done.
    + by rewrite app_nil_r.
    + by rewrite app_nil_r.
    + intros k. by rewrite app_nil_r.
    + apply NoDup_app. split_and!; [done| |apply NoDup_singleton].
      intros x Hx. rewrite list_elem_of_singleton. intros ->. apply Hk. by apply inv_cf_refilling0.
    + intros k. rewrite elem_of_union, elem_of_singleton, inv_cf_refilling0, elem_of_app,
        list_elem_of_singleton. tauto.
    + intros k. by left.
  - split; try done. intros k. simpl. rewrite elem_of_union, elem_of_singleton, <- inv_cf_refilling0.
    naive_solver.
Qed.

(** *** The clients' calls *)
Lemma inv_pool_get ps dc is_media ip skip allow now p :
  pool_inv ps p -> pool_inv ps (pool_get has_message dc is_media ip skip allow now p).2.
Proof.
  intros Hinv. unfold pool_get. set (k := (dc, is_media)).
  destruct (pop_loop_suffix now (p_max_age p) (reverse (bucket_of k p))) as [dropped E].
  destruct (pop_loop has_message now (p_max_age p) (reverse (bucket_of k p))) as [ws rest]. simpl in *.
  destruct (pop_rest _ _ _ _ E (inv_direct _ _ Hinv k)) as [Hl HF].
  assert (pool_inv ps (set_idle (<[k := reverse rest]> (p_idle p)) p)) as Hinv'.
  { apply inv_set_idle; [done| |done]. pose proof (inv_fds _ _ Hinv k). lia. }
  destruct allow; [by apply inv_schedule_refill|done].
Qed.

Lemma inv_cf_get ps tier dc is_media now p :
  pool_inv ps p -> pool_inv ps (cf_get has_message tier dc is_media now p).2.
Proof.
  intros Hinv. unfold cf_get. set (k := (tier, dc, is_media)).
  destruct (p_cf_idle p !! k) as [b|] eqn:Eb; [|done].
  assert (cf_bucket_of k p = b) as Ebk by (unfold cf_bucket_of; by rewrite Eb).
  destruct (cf_pop_loop_suffix now (p_max_age p) (reverse b)) as [dropped E].
  destruct (cf_pop_loop has_message now (p_max_age p) (reverse b)) as [hit rest]. simpl in *.
  pose proof (inv_cf _ _ Hinv k) as HF. rewrite Ebk in HF.
  destruct (pop_rest _ _ _ _ E HF) as [Hl HF'].
  assert (pool_inv ps (set_cf_idle (<[k := reverse rest]> (p_cf_idle p)) p)) as Hinv'.
  { apply inv_set_cf_idle; [done| |done]. pose proof (inv_cf_bucket _ _ Hinv k) as Hc.
    rewrite Ebk in Hc. lia. }
  destruct hit; [by apply inv_cf_prefetch|done].
Qed.

(** *** Removing a reserved key *)
Lemma reserved_drop {A} `{Countable A} (s : gset A) (x k : A) (l1 l2 : list A) :
  NoDup (l1 ++ x :: l2) -> (forall k, k ∈ s <-> k ∈ l1 ++ x :: l2) ->
  NoDup (l1 ++ l2) /\ (k ∈ s ∖ {[x]} <-> k ∈ l1 ++ l2).
Proof.
  intros Hnd Hs. rewrite <- Permutation_middle in Hnd. apply NoDup_cons in Hnd as [Hx Hnd].
  split; [done|]. rewrite elem_of_difference, Hs, not_elem_of_singleton.
  rewrite <- Permutation_middle, elem_of_cons. set_solver.
Qed.

(** A refill key occurs once, so no other task of its bucket holds connections. *)
Lemma total_refill_other k ts : k ∉ refill_keys ts -> total (refill_load k) ts = 0%nat.
Proof.
  induction ts as [|t ts IH]; [done|]. rewrite total_cons. intros Hk.
  assert (k ∉ refill_keys ts) as Hts.
  { intros ?. apply Hk. unfold refill_keys in *. simpl. destruct t; simpl; set_solver. }
  rewrite IH by done. destruct t as [| k' ip sk n| | |]; simpl; try done.
  case_decide; [|done]. subst. exfalso. apply Hk. unfold refill_keys. simpl. set_solver.
Qed.

(** *** The refill task *)
Lemma inv_refill_begin ps before after key ip skip p (t : option task) p' :
  pool_inv ps p -> p_tasks p = before ++ Refill key ip skip :: after ->
  refill_begin key ip skip p = (t, p') -> pool_inv ps (task_becomes before after t p').
Proof.
  intros Hinv Et. pose proof Hinv as []. unfold refill_begin. rewrite Et in *.
  rewrite !refill_keys_app, !cf_keys_app in *.
  change (refill_keys (Refill key ip skip :: after)) with (key :: refill_keys after) in *.
  change (cf_keys (Refill key ip skip :: after)) with (cf_keys after) in *.
  case_test; intros [= <- <-].
  - apply (inv_replace ps p before after (Some (Refill key ip skip)) None (p_refilling p ∖ {[key]})
      (p_cf_refilling p) (p_warm_jobs p)); simpl; try done.
    + apply (reserved_drop (p_refilling p) key key); done.
    + intros k. by apply reserved_drop.
    + intros k. by left.
  - boolify.
    apply (inv_replace ps p before after (Some (Refill key ip skip))
      (Some (RefillConnecting key ip skip (p_pool_size p - length (bucket_of key p))))
      (p_refilling p) (p_cf_refilling p) (p_warm_jobs p)); try done.
    intros k. cbn [opt_tasks]. rewrite !total_cons. cbn [refill_load].
    case_decide; [|by left]. subst k. right.
    rewrite <- Permutation_middle in inv_refill_keys0.
    apply NoDup_cons in inv_refill_keys0 as [Hx _]. rewrite elem_of_app in Hx.
    rewrite !total_refill_other by tauto. unfold total. simpl. lia.
Qed.

Lemma connect_batch_length ip k skip n conns :
  connect_batch rt ip k skip n conns -> (length conns <= n)%nat.
Proof. induction 1; simpl; lia. Qed.

Lemma connect_batch_from ip k skip n conns now :
  connect_batch rt ip k skip n conns ->
  Forall (fun e => from_dial (direct_dial k) (pe_ws e)) (new_entries now conns).
Proof.
  induction 1 as [|n w att w' ws conns E Ha H IH|]; constructor; [|done].
  eapply from_dial_mono; [|by eapply ws_for_dc_connected].
  simpl. intros d (? & ? & ? & ? & ? & ? & ?). by split_and!.
Qed.

(** Ending a task that held a refill key: its load and its reservation go. *)
Lemma inv_end_refill ps before after key ip skip n p :
  pool_inv ps p -> p_tasks p = before ++ RefillConnecting key ip skip n :: after ->
  pool_inv ps (task_becomes before after None (drop_guard key p)) /\
  total (refill_load key) (before ++ after) = 0%nat.
Proof.
  intros Hinv Et. pose proof Hinv as []. rewrite Et in *. rewrite !refill_keys_app, !cf_keys_app in *.
  change (refill_keys (RefillConnecting key ip skip n :: after)) with (key :: refill_keys after) in *.
  change (cf_keys (RefillConnecting key ip skip n :: after)) with (cf_keys after) in *.
  split.
  - apply (inv_replace ps p before after (Some (RefillConnecting key ip skip n)) None
      (p_refilling p ∖ {[key]}) (p_cf_refilling p) (p_warm_jobs p)); simpl; try done.
    + apply (reserved_drop (p_refilling p) key key); done.
    + intros k. by apply reserved_drop.
    + intros k. left. unfold total. simpl. lia.
  - rewrite <- Permutation_middle in inv_refill_keys0.
    apply NoDup_cons in inv_refill_keys0 as [Hx _]. apply total_refill_other.
    by rewrite refill_keys_app.
Qed.

Lemma inv_refill_finish ps before after key ip skip n conns now p :
  pool_inv ps p -> p_tasks p = before ++ RefillConnecting key ip skip n :: after ->
  connect_batch rt ip key skip n conns ->
  pool_inv ps (task_becomes before after None (refill_finish key conns now p)).
Proof.
  intros Hinv Et Hb. destruct (inv_end_refill _ _ _ _ _ _ _ _ Hinv Et) as [Hend Hload].
  unfold refill_finish. destruct conns as [|ws conns]; [done|].
  set (cs := ws :: conns) in *.
  pose proof (inv_set_idle ps key
    (bucket_of key p ++ new_entries now (take (p_pool_size p - length (bucket_of key p)) cs))
    (task_becomes before after None (drop_guard key p)) Hend) as HS.
  apply HS; clear HS.
  - pose proof (inv_fds _ _ Hinv key) as Hf. unfold warm_total in *. rewrite Et in Hf.
    pose proof (connect_batch_length _ _ _ _ _ Hb). simpl p_tasks. simpl p_warm_jobs.
    rewrite Hload. rewrite !total_app, !total_cons in *. simpl in Hf.
    rewrite decide_True in Hf by done. unfold new_entries.
    rewrite length_app, length_map, length_take. lia.
  - apply Forall_app. split; [apply (inv_direct _ _ Hinv)|].
    pose proof (connect_batch_from _ _ _ _ _ now Hb) as HF. unfold new_entries in *.
    rewrite <- firstn_map. by apply Forall_take.
Qed.

(** *** The Cloudflare refill task *)
Lemma worker_connected domain dst dc is_media skip timeout opts w ws w' :
  connect_cf_worker_ws_for_dc_with_outbound_opts usize_max domain dst dc is_media skip timeout opts w
    = Done (Some ws, w') ->
  from_dial (tier_dial (mkCfTarget Worker dc is_media dst domain skip timeout (o_disable_tls opts))) ws.
Proof.
  unfold connect_cf_worker_ws_for_dc_with_outbound_opts.
  destruct (cf_connect_cases usize_max domain (cf_worker_path dst dc is_media) false skip timeout opts w)
    as (r & w1 & -> & H). cbn [run_bind]. destruct r; intros [= <- <-]. by apply H.
Qed.

Lemma record_connected record skip timeout opts w ws w' dc is_media dst :
  connect_cf_record_with_outbound_opts usize_max record skip timeout opts w = Done (Some ws, w') ->
  from_dial (tier_dial (mkCfTarget Proxy dc is_media dst record skip timeout (o_disable_tls opts))) ws.
Proof.
  unfold connect_cf_record_with_outbound_opts.
  destruct (cf_connect_cases usize_max record (txt "/apiws") true skip timeout opts w)
    as (r & w1 & -> & H). cbn [run_bind]. destruct r; intros [= <- <-]. by apply H.
Qed.

Lemma cf_connect_one_from target w ws w' :
  cf_connect_one usize_max rt target w = Done (Some ws, w') -> from_dial (tier_dial target) ws.
Proof.
  unfold cf_connect_one. destruct target as [tier dc is_media dst domain skip timeout plain]. cbn.
  destruct tier; intros E; [by apply worker_connected in E|by eapply record_connected in E].
Qed.

Lemma inv_cf_begin ps before after target p (t : option task) p' :
  pool_inv ps p -> p_tasks p = before ++ CfRefill target :: after ->
  cf_refill_begin target p = (t, p') -> pool_inv ps (task_becomes before after t p').
Proof.
  intros Hinv Et. pose proof Hinv as []. unfold cf_refill_begin. rewrite Et in *.
  rewrite !refill_keys_app, !cf_keys_app in *.
  change (refill_keys (CfRefill target :: after)) with (refill_keys after) in *.
  change (cf_keys (CfRefill target :: after)) with (tg_key target :: cf_keys after) in *.
  case_test; intros [= <- <-].
  - apply (inv_replace ps p before after (Some (CfRefill target)) None (p_refilling p)
      (p_cf_refilling p ∖ {[tg_key target]}) (p_warm_jobs p)); simpl; try done.
    + apply (reserved_drop (p_cf_refilling p) (tg_key target) (tg_key target)); done.
    + intros k. by apply reserved_drop.
    + intros k. by left.
  - apply (inv_replace ps p before after (Some (CfRefill target)) (Some (CfRefillConnecting target))
      (p_refilling p) (p_cf_refilling p) (p_warm_jobs p)); try done.
    intros k. by left.
Qed.

Lemma inv_cf_finish ps before after target w ws w' now p :
  pool_inv ps p -> p_tasks p = before ++ CfRefillConnecting target :: after ->
  cf_connect_one usize_max rt target w = Done (ws, w') ->
  pool_inv ps (task_becomes before after None (cf_refill_finish target ws now p)).
Proof.
  intros Hinv Et Hc.
  assert (pool_inv ps (task_becomes before after None (drop_cf_guard (tg_key target) p))) as Hend.
  { pose proof Hinv as []. rewrite Et in *. rewrite !refill_keys_app, !cf_keys_app in *.
    apply (inv_replace ps p before after (Some (CfRefillConnecting target)) None (p_refilling p)
      (p_cf_refilling p ∖ {[tg_key target]}) (p_warm_jobs p)); simpl; try done.
    + apply (reserved_drop (p_cf_refilling p) (tg_key target) (tg_key target)); done.
    + intros k. by apply reserved_drop.
    + intros k. by left. }
  unfold cf_refill_finish. destruct ws as [ws|]; [|done].
  set (entry := mkCfEntry ws now _ _ _ _ _).
  apply (inv_set_cf_idle ps (tg_key target)
    (if (length (cf_bucket_of (tg_key target) p) <? cf_budget p)%nat
     then cf_bucket_of (tg_key target) p ++ [entry] else cf_bucket_of (tg_key target) p)
    (task_becomes before after None (drop_cf_guard (tg_key target) p))); [done| |].
  - pose proof (inv_cf_bucket _ _ Hinv (tg_key target)). pose proof (inv_size _ _ Hinv).
    unfold cf_budget. case_test; boolify; [|done]. rewrite length_app. cbn [length]. lia.
  - pose proof (inv_cf _ _ Hinv (tg_key target)) as HF. case_test; [|done].
    apply Forall_app. split; [done|]. constructor; [|done]. by eapply cf_connect_one_from.
Qed.

(** *** Warm-up *)
Lemma inv_warm_begin ps jobs1 jobs2 key ip skip p :
  pool_inv ps p -> p_warm_jobs p = jobs1 ++ (key, ip, skip) :: jobs2 ->
  pool_inv ps (spawn (Warming key ip skip) (set_warm_jobs (jobs1 ++ jobs2) p)).
Proof.
  intros Hinv Ej. pose proof Hinv as [].
  apply (inv_replace ps p (p_tasks p) [] None (Some (Warming key ip skip)) (p_refilling p)
    (p_cf_refilling p) (jobs1 ++ jobs2)); simpl; rewrite ?app_nil_r; try done.
  - intros k. rewrite Ej, !total_app, !total_cons. change (total _ []) with 0%nat.
    change (job_load k (key, ip, skip)) with (warm_load k (Warming key ip skip)). lia.
  - intros k. by left.
Qed.

Lemma inv_warm_finish ps before after key ip skip conns now p :
  pool_inv ps p -> p_tasks p = before ++ Warming key ip skip :: after ->
  connect_batch rt ip key skip (p_pool_size p) conns ->
  pool_inv ps (task_becomes before after None (warmup_push key conns now p)).
Proof.
  intros Hinv Et Hb. pose proof Hinv as Hi. destruct Hi.
  assert (pool_inv ps (task_becomes before after None p)) as Hend.
  { rewrite Et in *. rewrite !refill_keys_app, !cf_keys_app in *.
    apply (inv_replace ps p before after (Some (Warming key ip skip)) None (p_refilling p)
      (p_cf_refilling p) (p_warm_jobs p)); simpl; try done.
    - intros k. lia.
    - intros k. by left. }
  apply (inv_set_idle ps key (bucket_of key p ++ new_entries now conns)
    (task_becomes before after None p)); [done| |].
  - specialize (inv_fds0 key). unfold warm_total in *. rewrite Et in inv_fds0.
    pose proof (connect_batch_length _ _ _ _ _ Hb). simpl p_tasks. simpl p_warm_jobs.
    rewrite !total_app, !total_cons in *. simpl in inv_fds0. rewrite decide_True in inv_fds0 by done.
    unfold new_entries. rewrite length_app, length_map. rewrite inv_size0 in *. unfold total in *. nia.
  - apply Forall_app. split; [done|]. by eapply connect_batch_from.
Qed.

Lemma inv_step ps p p' :
  pool_inv ps p -> pool_step usize_max has_message rt asked p p' -> pool_inv ps p'.
Proof.
  intros Hinv Hs. destruct Hs.
  - by apply inv_pool_get.
  - by apply inv_cf_get.
  - by apply inv_cf_prefetch.
  - by eapply inv_refill_begin.
  - by eapply inv_refill_finish.
  - by eapply inv_cf_begin.
  - by eapply inv_cf_finish.
  - by eapply inv_warm_begin.
  - by eapply inv_warm_finish.
Qed.

(** *** What the spares were asked for *)
Definition cf_pending ts : list CfTarget :=
  omap (fun t => match t with CfRefill g | CfRefillConnecting g => Some g | _ => None end) ts.

(** Every spare being dialled or lying idle has a target that was asked for. *)
Definition spares_asked p : Prop :=
  Forall asked (cf_pending (p_tasks p)) /\ forall k, Forall (fun e => asked (entry_target k e)) (cf_bucket_of k p).

Lemma cf_pending_app ts1 ts2 : cf_pending (ts1 ++ ts2) = cf_pending ts1 ++ cf_pending ts2.
Proof. apply omap_app. Qed.

Lemma asked_prefetch target p : asked target -> spares_asked p -> spares_asked (cf_prefetch target p).
Proof.
  intros Ha [Ht Hb]. unfold cf_prefetch, reserve_cf_refill. repeat case_match; simplify_eq; try done.
  split; [|done]. cbn [spawn set_tasks set_cf_refilling p_tasks]. rewrite cf_pending_app. apply Forall_app. split; [done|by repeat constructor].
Qed.

Lemma asked_set_cf_idle k b p :
  spares_asked p -> Forall (fun e => asked (entry_target k e)) b ->
  spares_asked (set_cf_idle (<[k := b]> (p_cf_idle p)) p).
Proof.
  intros [Ht Hb] HF. split; [done|]. intros k'. rewrite cf_bucket_insert. case_decide; [by subst|apply Hb].
Qed.

Lemma asked_cf_get tier dc is_media now p :
  spares_asked p -> spares_asked (cf_get has_message tier dc is_media now p).2.
Proof.
  intros Hp. unfold cf_get. set (k := (tier, dc, is_media)). destruct (p_cf_idle p !! k) as [b|] eqn:Eb; [|done].
  pose proof (proj2 Hp k) as HF. unfold cf_bucket_of in HF. rewrite Eb in HF. simpl in HF.
  destruct (cf_pop_loop_suffix now (p_max_age p) (reverse b)) as [dropped E].
  destruct (cf_pop_loop has_message now (p_max_age p) (reverse b)) as [hit rest] eqn:El. simpl in *.
  assert (spares_asked (set_cf_idle (<[k := reverse rest]> (p_cf_idle p)) p)) as Hp'.
  { apply asked_set_cf_idle; [done|]. by destruct (pop_rest _ _ _ _ E HF). }
  destruct hit as [e|]; [|done]. apply asked_prefetch; [|done].
  apply (proj1 (list.Forall_forall _ _) HF). by eapply cf_pop_elem.
Qed.

Lemma asked_becomes before after t (t' : option task) p p' :
  spares_asked p -> p_tasks p = before ++ t :: after ->
  Forall asked (cf_pending (opt_tasks t')) -> (forall k, Forall (fun e => asked (entry_target k e)) (cf_bucket_of k p')) ->
  spares_asked (task_becomes before after t' p').
Proof.
  intros [Ht _] Et Ha Hb. split; [|exact Hb]. rewrite Et, cf_pending_app in Ht. apply Forall_app in Ht as [H1 H2].
  cbn [task_becomes set_tasks p_tasks]. rewrite !cf_pending_app.
  change (t :: after) with ([t] ++ after) in H2. rewrite cf_pending_app in H2. apply Forall_app in H2 as [_ H2]. apply Forall_app. split; [done|]. by apply Forall_app.
Qed.

Lemma asked_step p p' : spares_asked p -> pool_step usize_max has_message rt asked p p' -> spares_asked p'.
Proof.
  intros Hp Hs. pose proof Hp as [Ht Hb]. destruct Hs.
  - unfold pool_get. destruct (pop_loop _ _ _ _) as [hit rest]. destruct allow; [|done].
    unfold schedule_refill, reserve_refill. cbn [snd]. repeat case_match; simplify_eq; try done.
    split; [|done]. cbn [spawn set_tasks p_tasks set_refilling set_idle]. rewrite cf_pending_app, app_nil_r. done.
  - by apply asked_cf_get.
  - by apply asked_prefetch.
  - unfold refill_begin in *. case_match; simplify_eq; by eapply asked_becomes.
  - eapply asked_becomes; [done..|]. unfold refill_finish. by case_match.
  - pose proof Ht as Hg. rewrite H, cf_pending_app in Hg. apply Forall_app in Hg as [_ [Hg _]%Forall_cons_1].
    unfold cf_refill_begin in *. case_match; simplify_eq; eapply asked_becomes; try done. by repeat constructor.
  - pose proof Ht as Hg. rewrite H, cf_pending_app in Hg. apply Forall_app in Hg as [_ [Hg _]%Forall_cons_1].
    eapply asked_becomes; [done..|]. unfold cf_refill_finish. destruct ws as [ws|]; [|done]. intros k.
    change (cf_bucket_of k (drop_cf_guard ?x ?q)) with (cf_bucket_of k q). rewrite cf_bucket_insert.
    case_decide; [subst k|done]. case_match; [|apply Hb]. apply Forall_app. split; [apply Hb|].
    constructor; [|done]. by destruct target.
  - split; [|done]. cbn [spawn set_tasks p_tasks set_warm_jobs]. rewrite cf_pending_app, app_nil_r. done.
  - by eapply asked_becomes.
Qed.
End pool_invariants.

(** Any target at all, for what does not depend on them. *)
Definition any_target (_ : CfTarget) : Prop := True.

Lemma spares_any {N : Network} p : spares_asked any_target p.
Proof. split; [by apply list.Forall_forall|]. intros k. by apply list.Forall_forall. Qed.

Lemma pool_step_mono {N : Network} usize_max has_message rt (asked asked' : CfTarget -> Prop) p p' :
  (forall t, asked t -> asked' t) ->
  pool_step usize_max has_message rt asked p p' -> pool_step usize_max has_message rt asked' p p'.
Proof. intros Hm Hs. destruct Hs; [econstructor; by eauto..]. Qed.

(** The kws record of a DC in a zone. *)
Definition kws_record (dc : Z) (zone : text) : text := txt "kws" ++ dec dc ++ txt "." ++ zone.

(** Where a Worker is told to connect to: the built-in address of the DC, or
    the configured one. *)
Definition worker_dst (c : Config) (dc : Z) : option text :=
  match default_dc_ip dc with Some ip => Some ip | None => dc_target_ip c dc end.

(** The spares a configuration calls for: a Worker of its list, towards the DC;
    the record of the DC in one of its zones, or, with [--cf-balance], such a
    zone itself. *)
Definition cf_asked (c : Config) (t : CfTarget) : Prop :=
  tg_skip_tls_verify t = c_skip_tls_verify c /\ tg_disable_tls t = c_cf_disable_tls c /\
  match tg_tier t with
  | Worker => tg_domain t ∈ c_cf_worker_domains c /\ worker_dst c (tg_dc t) = Some (tg_dst t)
  | Proxy => exists zone, zone ∈ c_cf_domains c /\
      (tg_domain t = kws_record (tg_dc t) zone \/ (c_cf_balance c = true /\ tg_domain t = zone))
  end.

(** How a connection of a Cloudflare bucket was dialled under a configuration:
    without an SNI of its own and with TLS unless it is switched off; a Worker of
    the list with the address, the DC and the class in the path; or Telegram's
    path at the record of the DC in a configured zone, with [--cf-balance]
    possibly at the zone itself. *)
Definition asked_dial (c : Config) (k : CfKey) (d : Dial) : Prop :=
  d_sni_override d = None /\ d_tls d = negb (c_cf_disable_tls c) /\ d_skip_tls_verify d = c_skip_tls_verify c /\
  match k.1.1 with
  | Worker => d_domain d ∈ c_cf_worker_domains c /\
      exists dst, worker_dst c k.1.2 = Some dst /\ d_path d = cf_worker_path dst k.1.2 k.2
  | Proxy => d_path d = txt "/apiws" /\ exists zone, zone ∈ c_cf_domains c /\
      (d_domain d = kws_record k.1.2 zone \/ (c_cf_balance c = true /\ d_domain d = zone))
  end.

Lemma asked_stream {N : Network} c t ws :
  cf_asked c t -> from_dial (tier_dial t) ws -> from_dial (asked_dial c (tg_key t)) ws.
Proof.
  intros (Hs & Ht & HA). apply from_dial_mono. intros d [ip ->].
  split; [done|]. split; [by rewrite <- Ht|]. split; [done|]. cbn [tg_key fst snd].
  destruct (tg_tier t); [destruct HA; by split; [|exists (tg_dst t)]|done].
Qed.

(** ** Start-up *)
Section startup.
Context {N : Network} (usize_max : Z) (has_message : stream -> Z -> bool) (rt : Runtime) (asked : CfTarget -> Prop).

Lemma elem_of_dc_jobs c x k ip skip :
  (k, ip, skip) ∈ dc_jobs c x <->
  k.1 = x.1 /\ ip = x.2 /\ skip = c_skip_tls_verify c /\ pinned_off_ws c k.2 = false.
Proof.
  unfold dc_jobs. rewrite list_elem_of_omap. destruct k as [dc m]. simpl. split.
  - intros (b & _ & E). destruct (pinned_off_ws c b) eqn:Ep; simplify_eq. done.
  - intros (-> & -> & -> & Ep). exists m. rewrite Ep. split; [|done]. destruct m; set_solver.
Qed.

Lemma total_dc_jobs c x k :
  (total (job_load k) (dc_jobs c x) <= if decide (k.1 = x.1) then 1 else 0)%nat.
Proof.
  unfold dc_jobs, total, job_load. destruct k as [dc m]. simpl.
  destruct (pinned_off_ws c false), (pinned_off_ws c true); simpl;
    repeat case_decide; simplify_eq/=; lia.
Qed.

Lemma total_jobs c k (l : list (Z * text)) :
  NoDup (map fst l) ->
  (total (job_load k) (concat (map (dc_jobs c) l)) <= if decide (k.1 ∈ map fst l) then 1 else 0)%nat.
Proof.
  induction l as [|x l IH]; simpl; intros HN; [done|].
  apply NoDup_cons in HN as [Hx HN]. specialize (IH HN). rewrite total_app.
  pose proof (total_dc_jobs c x k) as Hd.
  repeat case_decide; try lia; exfalso;
    try match goal with E : k.1 = x.1 |- _ => rewrite <- E in * end; set_solver.
Qed.

Lemma inv_init ps max_age c : pool_inv rt ps (pool_init ps max_age c).
Proof.
  assert (forall k, warm_total k (pool_init ps max_age c) <= 1)%nat as Hw.
  { intros k. unfold warm_total. simpl.
    pose proof (total_jobs c k (map_to_list (dc_redirects c))) as HT.
    specialize (HT (NoDup_fst_map_to_list _)). fold (warmup_jobs c) in HT. case_decide; lia. }
  split; try done.
  - apply NoDup_nil_2.
  - intros k. simpl. set_solver.
  - apply NoDup_nil_2.
  - intros k. simpl. set_solver.
  - intros k. unfold cf_bucket_of. simpl. rewrite lookup_empty. simpl. lia.
  - intros k. unfold bucket_of. simpl p_idle. rewrite lookup_empty. specialize (Hw k).
    change (total _ (p_tasks _)) with 0%nat. simpl length. nia.
Qed.

Lemma reachable_inv ps max_age c p :
  reachable usize_max has_message rt asked ps max_age c p -> pool_inv rt ps p.
Proof. induction 1; [apply inv_init|by eapply inv_step]. Qed.

Lemma reachable_asked ps max_age c p :
  reachable usize_max has_message rt asked ps max_age c p -> spares_asked asked p.
Proof. induction 1; [|by eapply asked_step]. split; [constructor|]. intros k. unfold cf_bucket_of. simpl. by rewrite lookup_empty. Qed.

Lemma pop_loop_spec now max_age rb :
  let usable e := negb (max_age <? age now (pe_created e)) && negb (has_message (pe_ws e) now) in
  match pop_loop has_message now max_age rb with
  | (None, rest) => rest = [] /\ Forall (fun e => usable e = false) rb
  | (Some ws, rest) => exists stale e, rb = stale ++ e :: rest /\ pe_ws e = ws /\ usable e = true /\
      Forall (fun e => usable e = false) stale
  end.
Proof.
  cbv zeta. induction rb as [|e rb IH]; simpl; [done|].
  destruct (max_age <? age now (pe_created e)) eqn:E1; [|destruct (has_message (pe_ws e) now) eqn:E2].
  3: { exists [], e. rewrite E1, E2. by split_and!. }
  all: destruct (pop_loop has_message now max_age rb) as [[ws|] rest];
    [destruct IH as (st & e' & -> & ? & ? & ?); exists (e :: st), e'; split_and!; try done;
     constructor; [by rewrite ?E1, ?E2, ?andb_false_r|done]
    |destruct IH as [-> ?]; split; [done|]; constructor; [by rewrite ?E1, ?E2, ?andb_false_r|done]].
Qed.
End startup.

(** ** Properties *)
Section pool_properties.
Context {N : Network} (usize_max : Z) (has_message : stream -> Z -> bool) (rt : Runtime) (asked : CfTarget -> Prop).

(** C12. Bounds of the pool in every interleaving of client calls, background
    refills and warm-up: each bucket has at most one refill in flight, and the
    reservation sets name exactly the refills in flight; a Cloudflare bucket
    never holds more than one connection (none when pooling is off); the idle
    connections of a bucket and those its tasks may be opening are at most two
    per pool slot, what the descriptor budget reserves. *)
Theorem pool_bounds ps max_age c p :
  reachable usize_max has_message rt asked ps max_age c p ->
  NoDup (refill_keys (p_tasks p)) /\
  (forall k, k ∈ p_refilling p <-> k ∈ refill_keys (p_tasks p)) /\
  NoDup (cf_keys (p_tasks p)) /\
  (forall k, k ∈ p_cf_refilling p <-> k ∈ cf_keys (p_tasks p)) /\
  (forall k, length (cf_bucket_of k p) <= Nat.min CF_POOL_MAX ps)%nat /\
  (forall k, length (bucket_of k p) + total (refill_load k) (p_tasks p)
             + ps * total (warm_load k) (p_tasks p) <= 2 * ps)%nat.
Proof.
  intros Hr. apply reachable_inv in Hr as []. split_and!; try done.
  intros k. specialize (inv_fds0 k). unfold warm_total in *. nia.
Qed.

(** C26. Every pooled connection is what its bucket says.  A direct one was
    dialled over TLS on port 443, to a host name of its DC and class, with the
    fronting SNI when fronting is configured (the real SNI is never shown).  A
    Cloudflare spare was dialled with exactly the host name, path, TLS mode and
    timeout its entry records, without an SNI of its own; when the routing path
    asks only for the spares its configuration calls for, that is, for the
    Worker tier, a configured Worker with the address, the DC and the class of
    the bucket in its path, and for the proxy tier the kws record of the
    bucket's DC in a configured zone, or, with [--cf-balance] and only then, a
    bare zone. *)
Theorem pool_streams ps max_age c p :
  reachable usize_max has_message rt (cf_asked c) ps max_age c p ->
  (forall k, Forall (fun e => from_dial (direct_dial rt k) (pe_ws e)) (bucket_of k p)) /\
  (forall k, Forall (fun e => from_dial (tier_dial (entry_target k e)) (ce_ws e)) (cf_bucket_of k p)) /\
  (forall k, Forall (fun e => from_dial (asked_dial c k) (ce_ws e)) (cf_bucket_of k p)).
Proof.
  intros Hr. pose proof Hr as [_ Ha]%reachable_asked. apply reachable_inv in Hr as [].
  split; [done|]. split; [done|]. intros k. apply list.Forall_forall. intros e He.
  pose proof (proj1 (list.Forall_forall _ _) (Ha k) e He) as HA.
  pose proof (proj1 (list.Forall_forall _ _) (inv_cf0 k) e He) as Hd.
  destruct k as [[tier dc] is_media]. by apply (asked_stream c _ _ HA Hd).
Qed.

(** A pool hit is the most recently pooled connection that is neither
    older than the maximum age nor has anything to read; exactly the unusable
    ones above it are dropped, on a miss the whole bucket is.  A refill is
    started if the caller allows it, pooling is on and none is in flight for
    the bucket. *)
Theorem pool_get_freshest dc is_media ip skip allow now p :
  let k := (dc, is_media) in
  let usable e := negb (p_max_age p <? age now (pe_created e)) && negb (has_message (pe_ws e) now) in
  let '(hit, p') := pool_get has_message dc is_media ip skip allow now p in
  match hit with
  | None => bucket_of k p' = [] /\ Forall (fun e => usable e = false) (bucket_of k p)
  | Some ws => exists e stale, bucket_of k p = bucket_of k p' ++ e :: stale /\ pe_ws e = ws /\
      usable e = true /\ Forall (fun e => usable e = false) stale
  end /\
  (forall k', k' <> k -> bucket_of k' p' = bucket_of k' p) /\
  p_tasks p' = p_tasks p ++
    (if allow && negb (p_pool_size p =? 0)%nat && bool_decide (k ∉ p_refilling p)
     then [Refill k ip skip] else []).
Proof.
  cbv zeta. unfold pool_get. set (k := (dc, is_media)).
  pose proof (pop_loop_spec has_message now (p_max_age p) (reverse (bucket_of k p))) as HP. cbv zeta in HP.
  destruct (pop_loop has_message now (p_max_age p) (reverse (bucket_of k p))) as [hit rest].
  set (p1 := set_idle (<[k := reverse rest]> (p_idle p)) p).
  assert (forall k', bucket_of k' (if allow then schedule_refill dc is_media ip skip p1 else p1)
    = bucket_of k' p1) as Hb.
  { intros k'. destruct allow; [|done]. unfold schedule_refill, reserve_refill. by repeat case_match. }
  rewrite Hb. setoid_rewrite Hb. unfold p1 at 1 2. rewrite bucket_insert, decide_True by done.
  split_and!.
  - destruct hit as [ws|].
    + destruct HP as (stale & e & E & He & Hu & HF). exists e, (reverse stale).
      apply (f_equal reverse) in E. rewrite reverse_involutive, reverse_app, reverse_cons in E.
      rewrite E, <- app_assoc. split_and!; try done. by apply Forall_reverse.
    + destruct HP as [-> HF]. split; [done|]. apply Forall_reverse in HF. by rewrite reverse_involutive in HF.
  - intros k' Hne. unfold p1. rewrite bucket_insert, decide_False; done.
  - destruct allow; simpl; [|by rewrite app_nil_r]. unfold schedule_refill, reserve_refill. simpl.
    destruct (p_pool_size p =? 0)%nat; simpl; [by rewrite app_nil_r|].
    fold k. case_bool_decide; simpl; [done|by rewrite app_nil_r].
Qed.

(** Warm-up pre-connects exactly the classes that can use the direct tier:
    one job per DC with a [--dc-ip] target and traffic class not pinned away
    from [ws], to that target. *)
Theorem warmup_jobs_exact c dc is_media ip skip :
  ((dc, is_media), ip, skip) ∈ warmup_jobs c <->
  dc_redirects c !! dc = Some ip /\ skip = c_skip_tls_verify c /\
  forall tiers, forced_upstreams c is_media = Some tiers -> Ws ∈ tiers.
Proof.
  unfold warmup_jobs. rewrite list_elem_of_In, in_concat. split.
  - intros (l & Hl & Hin). apply in_map_iff in Hl as ([dc' ip'] & <- & Hm).
    apply list_elem_of_In, elem_of_dc_jobs in Hin as (E1 & -> & -> & Hp).
    apply list_elem_of_In, elem_of_map_to_list in Hm. simpl in E1. subst dc'. split_and!; [done|done|].
    intros tiers Et. unfold pinned_off_ws in Hp. simpl in Hp. rewrite Et in Hp. by boolify.
  - intros (Hm & -> & Hp). exists (dc_jobs c (dc, ip)). split.
    + apply in_map, list_elem_of_In, elem_of_map_to_list. done.
    + apply list_elem_of_In, elem_of_dc_jobs. split_and!; try done. unfold pinned_off_ws. simpl.
      destruct (forced_upstreams c is_media) as [tiers|]; [|done].
      apply negb_false_iff, bool_decide_eq_true. by apply Hp.
Qed.
End pool_properties.

(** *** Witnesses: an always-answering network, two slots, one refill done *)
Definition demo_network : Network := {|
  stream := nat * Dial;
  tcp_connect _ _ := TcpConnected;
  bad_url _ := None;
  upgrade n d := UpgradeResponse (n, d) 101;
  dial_time _ _ := 20;
  connects_directly _ _ := true;
|}.

Definition demo_runtime : Runtime := mkRuntime [] 60000 (Some (txt "front.example")).

Definition demo_pool0 : WsPool (N := demo_network) := pool_init 2 60000 demo_config.

Definition demo_pool1 : WsPool (N := demo_network) :=
  (pool_get (N := demo_network) (fun _ _ => false) 2 false (txt "10.0.0.1") false true 0 demo_pool0).2.

Definition demo_pool2 : WsPool (N := demo_network) :=
  task_becomes (N := demo_network) [] []
    (refill_begin (N := demo_network) (2, false) (txt "10.0.0.1") false demo_pool1).1
    (refill_begin (N := demo_network) (2, false) (txt "10.0.0.1") false demo_pool1).2.

Lemma demo_reachable asked :
  reachable (N := demo_network) (2 ^ 64 - 1) (fun _ _ => false) demo_runtime asked 2 60000 demo_config demo_pool2.
Proof.
  eapply reach_step; [eapply reach_step; [apply reach_init|apply step_get]|].
  eapply (step_refill_begin _ _ _ _ [] [] (2, false) (txt "10.0.0.1") false); [|apply surjective_pairing].
  vm_compute. reflexivity.
Qed.

Definition demo_net : net := mkNet 0 [] 0 None None.

Definition demo_conns : list (stream (Network := demo_network)) :=
  match at_ws (connect_ws_for_dc_with_outbound (N := demo_network) (txt "10.0.0.1") 2 false false 8000
                 (Some (txt "front.example")) demo_net).1 with
  | Some ws => [ws; ws]
  | None => []
  end.

Definition demo_pool3 : WsPool (N := demo_network) :=
  task_becomes (N := demo_network) [] [] None
    (refill_finish (N := demo_network) (2, false) demo_conns 40 demo_pool2).

Lemma demo_batch : connect_batch (N := demo_network) demo_runtime (txt "10.0.0.1") (2, false) false 2 demo_conns.
Proof.
  eapply batch_connected with (w := demo_net); [apply surjective_pairing|vm_compute; reflexivity|].
  eapply batch_connected with (w := demo_net); [apply surjective_pairing|vm_compute; reflexivity|].
  apply batch_all.
Qed.

Lemma demo_reachable3 asked :
  reachable (N := demo_network) (2 ^ 64 - 1) (fun _ _ => false) demo_runtime asked 2 60000 demo_config demo_pool3.
Proof.
  eapply reach_step; [apply demo_reachable|].
  eapply (step_refill_finish (N := demo_network) _ _ _ _ [] [] (2, false) (txt "10.0.0.1") false 2
    demo_conns 40); [vm_compute; reflexivity|apply demo_batch].
Qed.

(** A spare of the proxy tier, asked for, dialled and pooled. *)
Definition demo_target : CfTarget :=
  mkCfTarget Proxy 2 false [] (txt "kws2.cf.example") false 10000 false.

Definition demo_spare : option (stream (Network := demo_network)) :=
  match cf_connect_one (N := demo_network) (2 ^ 64 - 1) demo_runtime demo_target demo_net with
  | Done (ws, _) => ws
  | _ => None
  end.

Definition demo_pool4 : WsPool (N := demo_network) :=
  let p := cf_prefetch demo_target demo_pool3 in
  let p := task_becomes (N := demo_network) [] [] (cf_refill_begin demo_target p).1 (cf_refill_begin demo_target p).2 in
  task_becomes (N := demo_network) [] [] None (cf_refill_finish (N := demo_network) demo_target demo_spare 60 p).

Lemma demo_reachable4 :
  reachable (N := demo_network) (2 ^ 64 - 1) (fun _ _ => false) demo_runtime (cf_asked demo_config) 2 60000 demo_config
    demo_pool4.
Proof.
  eapply reach_step; [eapply reach_step; [eapply reach_step; [apply demo_reachable3|]|]|].
  - apply (step_cf_prefetch _ _ _ _ demo_target). split; [done|]. split; [done|]. exists (txt "cf.example").
    split; [left|by left].
  - eapply (step_cf_begin _ _ _ _ [] [] demo_target); [vm_compute; reflexivity|apply surjective_pairing].
  - eapply (step_cf_finish _ _ _ _ [] [] demo_target demo_net); vm_compute; reflexivity.
Qed.

Lemma pool_bounds_witness :
  NoDup (refill_keys (p_tasks demo_pool2)) /\
  total (refill_load (2, false)) (p_tasks demo_pool2) = 2%nat.
Proof.
  split; [|vm_compute; reflexivity].
  exact (proj1 (pool_bounds (N := demo_network) _ _ _ _ _ _ _ _ (demo_reachable any_target))).
Defined.

Lemma pool_streams_witness :
  length (bucket_of (N := demo_network) (2, false) demo_pool4) = 2%nat /\
  Forall (fun e => from_dial (direct_dial demo_runtime (2, false)) (pe_ws e))
    (bucket_of (N := demo_network) (2, false) demo_pool4) /\
  length (cf_bucket_of (N := demo_network) (Proxy, 2, false) demo_pool4) = 1%nat /\
  Forall (fun e => from_dial (tier_dial (entry_target (Proxy, 2, false) e)) (ce_ws e))
    (cf_bucket_of (N := demo_network) (Proxy, 2, false) demo_pool4).
Proof.
  destruct (pool_streams (N := demo_network) _ _ _ _ _ _ _ demo_reachable4) as (H1 & H2 & _).
  split; [vm_compute; reflexivity|]. split; [exact (H1 (2, false))|].
  split; [vm_compute; reflexivity|exact (H2 (Proxy, 2, false))].
Defined.
