(* ===== verification/Session.v ===== *)
(** * proxy.rs: both ends of a session

    The inbound side: the FakeTLS handshake of a client ([accept_inbound_faketls]),
    the 64-byte init read out of it, what was read past the init
    ([PendingData]) and the client's reader and writer.  The outbound side: the
    connection to an upstream MTProto proxy ([connect_mtproto_upstream]).

    A TCP connection is [tcp]: the bytes still to arrive before end of stream,
    the sizes the socket will cut reads into, the bytes written, and how many
    more can be written before the connection breaks. *)
From Stdlib Require Import String.
From S2P Require Import Prelude Text CryptoApi Crypto FakeTls Config.

Local Open Scope Z_scope.

Definition RELAY_BUF_SIZE : nat := Z.to_nat (16 * 1024).
Definition TLS_READ_HEADROOM : Z := 256.
Definition CLIENT_READ_BUF_SIZE : nat := Z.to_nat (TLS_MAX_RECORD_PAYLOAD + TLS_READ_HEADROOM).

Record tcp : Type := mkTcp {
  t_in : bytes;
  t_cuts : list nat;
  t_out : bytes;
  t_room : nat;
}.

Definition set_in (reader : bytes) (t : tcp) : tcp := mkTcp reader (t_cuts t) (t_out t) (t_room t).

(** [write_all]: [None] once the peer is gone. *)
Definition tcp_write_all (t : tcp) (data : bytes) : option tcp :=
  if (length data <=? t_room t)%nat
  then Some (mkTcp (t_in t) (t_cuts t) (t_out t ++ data) (t_room t - length data))
  else None.

(** [read(&mut buf)]: at least one byte unless the stream ended, never more
    than the buffer holds or the socket has ready; [Ok(0)] is the empty list. *)
Definition tcp_read (buf_len : nat) (t : tcp) : bytes * tcp :=
  let ready := match t_cuts t with [] => length (t_in t) | c :: _ => S c end in
  let n := Nat.min buf_len ready in
  (take n (t_in t), mkTcp (drop n (t_in t)) (tail (t_cuts t)) (t_out t) (t_room t)).

(** ** PendingData *)
Record PendingData : Type := mkPendingData {
  pd_data : bytes;
  pd_offset : nat;
}.

Definition pending_default : PendingData := mkPendingData [] 0.

(** [buf[..n]] of the [Some(n)] the source returns. *)
Definition pending_read (buf_len : nat) (p : PendingData) : option bytes * PendingData :=
  if (length (pd_data p) <? pd_offset p)%nat then (None, p)
  else
    match drop (pd_offset p) (pd_data p) with
    | [] => (None, p)
    | remaining =>
        let n := Nat.min buf_len (length remaining) in
        let offset := (pd_offset p + n)%nat in
        (Some (take n remaining),
         if (offset =? length (pd_data p))%nat then mkPendingData [] 0
         else mkPendingData (pd_data p) offset)
    end.

(** ** The client's reader and writer *)
Inductive ClientReader : Type :=
| PlainReader (reader : tcp)
| FakeTlsReader (reader : tcp) (pending : PendingData).

Inductive ClientWriter : Type :=
| PlainWriter (writer : tcp)
| FakeTlsWriter (writer : tcp).

Section session.
Context {C : Crypto}.
Local Open Scope run_scope.

Definition client_read (buf_len : nat) (r : ClientReader) : run (bytes * ClientReader) :=
  match r with
  | PlainReader reader =>
      let '(data, reader) := tcp_read buf_len reader in Done (data, PlainReader reader)
  | FakeTlsReader reader pending =>
      match pending_read buf_len pending with
      | (Some data, pending) => Done (data, FakeTlsReader reader pending)
      | (None, pending) =>
          let! (data, rest) := read_tls_appdata (Z.of_nat buf_len) (t_in reader) in
          Done (data, FakeTlsReader (set_in rest reader) pending)
      end
  end.

(** [ClientReader::drain]: the raw stream is copied to nowhere until it ends. *)
Definition client_drain (r : ClientReader) : tcp :=
  match r with PlainReader t | FakeTlsReader t _ => set_in [] t end.

Definition client_write_all (w : ClientWriter) (data : bytes) : run (option ClientWriter) :=
  match w with
  | PlainWriter writer =>
      Done (match tcp_write_all writer data with Some t => Some (PlainWriter t) | None => None end)
  | FakeTlsWriter writer =>
      let! r := write_tls_appdata tcp_write_all data writer in
      Done (match r with Some t => Some (FakeTlsWriter t) | None => None end)
  end.

(** ** The inbound handshake *)

(** [secrets.iter().find_map(|secret| parse_faketls_client_hello(..))]. *)
Fixpoint find_hello (record : bytes) (secrets : list bytes)
  : run (option (FakeTlsClientHello * bytes)) :=
  match secrets with
  | [] => Done None
  | secret :: secrets =>
      let! h := parse_faketls_client_hello record secret in
      match h with
      | Some hello => Done (Some (hello, secret))
      | None => find_hello record secrets
      end
  end.

Definition MAX_INBOUND_PAYLOAD : Z := TLS_MAX_RECORD_PAYLOAD + TLS_READ_HEADROOM.

(** The [while filled < handshake_buf.len()] loop. *)
Fixpoint init_loop (fuel : nat) (handshake_buf : bytes) (filled : nat) (reader : bytes)
  : run (option (bytes * PendingData) * bytes) :=
  if (filled <? length handshake_buf)%nat then
    match fuel with
    | O => OutOfFuel
    | S fuel =>
        match read_tls_record_bytes MAX_INBOUND_PAYLOAD reader with
        | (Ok (Some record), reader) =>
            let! record_type := index record 0 in
            let! payload_len := usize_sub (Z.of_nat (length record)) 5 in
            let payload_len := Z.to_nat payload_len in
            if record_type =? TLS_RECORD_CHANGE_CIPHER_SPEC
            then init_loop fuel handshake_buf filled reader
            else if negb (record_type =? TLS_RECORD_APPLICATION_DATA) || (payload_len =? 0)%nat
            then Done (None, reader)
            else
              let take := Nat.min payload_len (length handshake_buf - filled) in
              let! part := slice_run 5 (5 + take) record in
              let! handshake_buf := splice_run filled part handshake_buf in
              let filled := (filled + take)%nat in
              if negb (take =? payload_len)%nat
              then Done (Some (handshake_buf, mkPendingData record (5 + take)), reader)
              else init_loop fuel handshake_buf filled reader
        | (_, reader) => Done (None, reader)
        end
    end
  else Done (Some (handshake_buf, pending_default), reader).

Definition accept_inbound_faketls (secrets : list bytes) (expected_domain : text) (t : tcp)
    (tape : bytes) : run (option (bytes * PendingData) * tcp * bytes) :=
  match read_tls_record_bytes MAX_INBOUND_PAYLOAD (t_in t) with
  | (Ok (Some record), reader) =>
      let t := set_in reader t in
      let! record_type := index record 0 in
      let! version := slice_run 1 3 record in
      if negb (record_type =? TLS_RECORD_HANDSHAKE) || negb (bool_decide (version = [0x03; 0x01]))
      then Done (None, t, tape)
      else
        let! found := find_hello record secrets in
        match found with
        | None => Done (None, t, tape)
        | Some (hello, matched_secret) =>
            if negb (bool_decide (ch_hostname hello = Some expected_domain)) then Done (None, t, tape)
            else
              let! (server_hello, tape) := build_faketls_server_hello matched_secret hello tape in
              match tcp_write_all t server_hello with
              | None => Done (None, t, tape)
              | Some t =>
                  let! (r, reader) := init_loop (S (length (t_in t))) (replicate 64 0) 0 (t_in t) in
                  Done (r, set_in reader t, tape)
              end
        end
  | (_, reader) => Done (None, set_in reader t, tape)
  end.

Definition read_inbound_handshake (secrets : list bytes) (faketls_domain : option text) (t : tcp)
    (tape : bytes) : run (option (bytes * PendingData) * tcp * bytes) :=
  match faketls_domain with
  | Some domain => accept_inbound_faketls secrets domain t tape
  | None =>
      match read_exact 64 (t_in t) with
      | Some (handshake_buf, reader) => Done (Some (handshake_buf, pending_default), set_in reader t, tape)
      | None => Done (None, set_in [] t, tape)
      end
  end.

Definition split_mtproto_init_and_pending (data : bytes) : run (option (bytes * bytes)) :=
  if (length data <? 64)%nat then Done None
  else
    let! handshake_buf := slice_run 0 64 data in
    let! pending := slice_run 64 (length data) data in
    Done (Some (handshake_buf, pending)).

(** ** Upstream MTProto proxies *)
Record UpstreamConnection : Type := mkUpstreamConnection {
  uc_tcp : tcp;
  uc_enc : cipher;
  uc_dec : cipher;
  uc_faketls : bool;
}.

(** [connected] is the outcome of the TCP connect; [now] the system clock. *)
Definition connect_mtproto_upstream (proxy : MtProtoProxy) (dc_idx : Z) (proto : ProtoTag)
    (connected : option tcp) (now : Z) (tape : bytes) : run (option UpstreamConnection * bytes) :=
  match connected with
  | None => Done (None, tape)
  | Some t =>
      let key_bytes := mp_secret_key proxy in
      let! r := generate_client_handshake key_bytes dc_idx proto tape in
      let '(handshake, enc, dec, tape) := r in
      match mp_faketls_hostname proxy with
      | None =>
          match tcp_write_all t handshake with
          | None => Done (None, tape)
          | Some t => Done (Some (mkUpstreamConnection t enc dec false), tape)
          end
      | Some hostname =>
          let! (client_hello, tape) := build_faketls_client_hello hostname tape in
          let! client_hello := sign_faketls_client_hello client_hello key_bytes now in
          match tcp_write_all t client_hello with
          | None => Done (None, tape)
          | Some t =>
              let '(drained, reader) := drain_faketls_server_hello (t_in t) in
              if negb drained then Done (None, tape)
              else
                let! w := write_tls_appdata tcp_write_all handshake (set_in reader t) in
                match w with
                | None => Done (None, tape)
                | Some t => Done (Some (mkUpstreamConnection t enc dec true), tape)
                end
          end
      end
  end.
End session.

(** ** Lemmas: records *)

(** A record as it travels: type, version bytes, payload. *)
Abbreviation rec := (Z * bytes * bytes)%type.

Definition raw_record (r : rec) : bytes :=
  [r.1.1] ++ r.1.2 ++ be_bytes 2 (Zlen r.2) ++ r.2.

Definition wire (rs : list rec) : bytes := concat (map raw_record rs).

Lemma wire_cons r rs : wire (r :: rs) = raw_record r ++ wire rs.
Proof. done. Qed.

Definition is_appdata (r : rec) : bool := r.1.1 =? TLS_RECORD_APPLICATION_DATA.

(** The Application Data the records carry. *)
Definition app_payloads (rs : list rec) : bytes := concat (map snd (List.filter is_appdata rs)).

(** What a client may send in its data phase: change-cipher-spec records, which
    are skipped, and non-empty Application Data records that fit the buffer. *)
Definition client_record_ok (r : rec) : Prop :=
  length r.1.2 = 2%nat /\ Zlen r.2 <= MAX_INBOUND_PAYLOAD /\
  (r.1.1 = TLS_RECORD_CHANGE_CIPHER_SPEC \/ (r.1.1 = TLS_RECORD_APPLICATION_DATA /\ r.2 <> [])).

#[export] Instance client_record_ok_dec r : Decision (client_record_ok r).
Proof. unfold client_record_ok. apply _. Defined.

Lemma length_raw_record r : length r.1.2 = 2%nat -> length (raw_record r) = (5 + length r.2)%nat.
Proof. intros E. unfold raw_record. rewrite !length_app, length_be_bytes, E. simpl. lia. Qed.

Lemma read_raw_header r rest :
  length r.1.2 = 2%nat -> Zlen r.2 < 2 ^ 16 ->
  exists header, read_exact 5 (raw_record r ++ rest) = Some (header, r.2 ++ rest) /\
    header ++ r.2 = raw_record r /\ header_byte header 0 = r.1.1 /\ header_len header = Zlen r.2.
Proof.
  destruct r as [[ty v] p]. cbn [fst snd]. intros Lv Hp. pose proof (Zlen_range p).
  destruct v as [|v1 [|v2 [|]]]; try done.
  exists ([ty; v1; v2] ++ be_bytes 2 (Zlen p)). split_and!; try done.
  unfold header_len. change (from_be (be_bytes 2 (Zlen p)) = Zlen p).
  rewrite from_be_bytes. apply Z.mod_small. lia.
Qed.

Lemma read_record_bytes_raw r rest :
  length r.1.2 = 2%nat -> Zlen r.2 <= MAX_INBOUND_PAYLOAD ->
  read_tls_record_bytes MAX_INBOUND_PAYLOAD (raw_record r ++ rest) = (Ok (Some (raw_record r)), rest).
Proof.
  intros Lv Hp. unfold MAX_INBOUND_PAYLOAD, TLS_MAX_RECORD_PAYLOAD, TLS_READ_HEADROOM in *.
  destruct (read_raw_header r rest) as (header & E & E1 & E2 & E3); [done|lia|].
  unfold read_tls_record_bytes. rewrite E, E3, (proj2 (Z.ltb_ge _ _)) by lia.
  by rewrite read_payload, E1.
Qed.

(** Conversely, whatever is read is a record and was at the head of the stream. *)
Lemma read_record_bytes_Some reader record rest :
  bytes_ok reader -> read_tls_record_bytes MAX_INBOUND_PAYLOAD reader = (Ok (Some record), rest) ->
  exists r, record = raw_record r /\ reader = raw_record r ++ rest /\ length r.1.2 = 2%nat /\
    Zlen r.2 <= MAX_INBOUND_PAYLOAD.
Proof.
  intros Hb H. unfold read_tls_record_bytes in H.
  destruct (read_exact 5 reader) as [[header r1]|] eqn:E1; [|done].
  apply read_exact_Some in E1 as [-> L5]. apply Forall_app in Hb as [Hh Hb].
  destruct (header_bytes header L5 Hh) as [Eh Hl]. case_test; [done|]. boolify.
  destruct (read_exact (Z.to_nat (header_len header)) r1) as [[p r2]|] eqn:E2; [|done]. simplify_eq.
  apply read_exact_Some in E2 as [-> Lp]. apply Forall_app in Hb as [Hp Hb].
  assert (header_len header = Zlen p) as Ep by (unfold Zlen; lia).
  exists (header_byte header 0, [header_byte header 1; header_byte header 2], p).
  assert (header ++ p = raw_record (header_byte header 0, [header_byte header 1; header_byte header 2], p))
    as <-; [|by rewrite <- app_assoc; split_and!; try done; simpl; lia].
  unfold raw_record. cbn [fst snd]. rewrite <- Ep. rewrite Eh at 1. by rewrite <- !app_assoc.
Qed.

Lemma read_record_bytes_rest reader res rest :
  read_tls_record_bytes MAX_INBOUND_PAYLOAD reader = (res, rest) ->
  bytes_ok reader -> bytes_ok rest /\ (length rest <= length reader)%nat.
Proof.
  unfold read_tls_record_bytes. intros H Hb.
  destruct (read_exact 5 reader) as [[header r1]|] eqn:E1; [|simplify_eq; split; [done|simpl; lia]].
  apply read_exact_Some in E1 as [-> L5]. apply Forall_app in Hb as [Hh Hb]. case_test; simplify_eq.
  { split; [done|len]. }
  destruct (read_exact (Z.to_nat (header_len header)) r1) as [[p r2]|] eqn:E2; simplify_eq.
  - apply read_exact_Some in E2 as [-> Lp]. apply Forall_app in Hb as [Hp Hb]. split; [done|len].
  - split; [done|simpl; lia].
Qed.

(** ** Lemmas: reading the init *)
Definition pending_left (p : PendingData) : bytes := drop (pd_offset p) (pd_data p).

(** One Application Data record of the init loop. *)
Lemma init_loop_record fuel buf filled r rest :
  length buf = 64%nat -> (filled < 64)%nat -> client_record_ok r ->
  init_loop (S fuel) buf filled (raw_record r ++ rest) =
    if r.1.1 =? TLS_RECORD_CHANGE_CIPHER_SPEC then init_loop fuel buf filled rest
    else
      let n := Nat.min (length r.2) (64 - filled) in
      let buf := splice filled (take n r.2) buf in
      if (n =? length r.2)%nat then init_loop fuel buf (filled + n) rest
      else Done (Some (buf, mkPendingData (raw_record r) (5 + n)), rest).
Proof.
  intros Lb Hf (Lv & Hp & Ht). cbn [init_loop]. rewrite Lb, (proj2 (Nat.ltb_lt _ _)) by done.
  rewrite read_record_bytes_raw by done.
  assert (index (raw_record r) 0 = Done r.1.1) as -> by done. cbn [run_bind].
  rewrite length_raw_record by done. unfold usize_sub.
  rewrite (proj2 (Z.leb_le _ _)) by lia. cbn [run_bind].
  replace (Z.to_nat (Z.of_nat (5 + length r.2) - 5)) with (length r.2) by lia.
  destruct (r.1.1 =? TLS_RECORD_CHANGE_CIPHER_SPEC) eqn:Ec; [done|]. boolify.
  destruct Ht as [?|[-> Hne]]; [done|].
  assert (length r.2 <> 0%nat) as Hl by by intros ?%nil_length_inv.
  rewrite (proj2 (Nat.eqb_neq _ _)) by done. cbn [negb orb Z.eqb].
  rewrite Z.eqb_refl. cbn [negb orb]. set (n := Nat.min (length r.2) (64 - filled)).
  assert (slice 5 (5 + n) (raw_record r) = take n r.2) as Es.
  { unfold slice. replace (5 + n - 5)%nat with n by lia. f_equal. unfold raw_record.
    rewrite !app_assoc. apply drop_app_length'. by rewrite !length_app, length_be_bytes, Lv. }
  rewrite slice_run_ok by (rewrite ?length_raw_record by done; lia). cbn [run_bind]. rewrite Es.
  unfold splice_run. rewrite (proj2 (Nat.leb_le _ _)) by (rewrite length_take; lia). cbn [run_bind].
  by destruct (n =? length r.2)%nat.
Qed.

(** Any other record ends the handshake. *)
Lemma init_loop_bad fuel buf filled r rest :
  length buf = 64%nat -> (filled < 64)%nat -> length r.1.2 = 2%nat -> Zlen r.2 <= MAX_INBOUND_PAYLOAD ->
  ~ client_record_ok r -> init_loop (S fuel) buf filled (raw_record r ++ rest) = Done (None, rest).
Proof.
  intros Lb Hf Lv Hp Hr. cbn [init_loop]. rewrite Lb, (proj2 (Nat.ltb_lt _ _)) by lia.
  rewrite read_record_bytes_raw by done.
  assert (index (raw_record r) 0 = Done r.1.1) as -> by done. cbn [run_bind].
  rewrite length_raw_record by done. unfold usize_sub. rewrite (proj2 (Z.leb_le _ _)) by lia. cbn [run_bind].
  replace (Z.to_nat (Z.of_nat (5 + length r.2) - 5)) with (length r.2) by lia.
  destruct (r.1.1 =? TLS_RECORD_CHANGE_CIPHER_SPEC) eqn:Ec; boolify; [by destruct Hr; split_and!; auto|].
  destruct (r.1.1 =? TLS_RECORD_APPLICATION_DATA) eqn:Ea; [|done]. boolify.
  destruct (length r.2 =? 0)%nat eqn:El; [done|]. boolify. destruct Hr. split_and!; auto.
  right. split; [done|]. intros E. by rewrite E in El.
Qed.

(** Overwriting the next [n] bytes of the buffer keeps what was filled. *)
Lemma take_splice_filled (filled : nat) (x buf : bytes) :
  (filled + length x <= length buf)%nat ->
  take (filled + length x) (splice filled x buf) = take filled buf ++ x.
Proof.
  intros H. unfold splice. rewrite app_assoc. apply take_app_length'. len.
Qed.

(** One more record's share of the init in the buffer. *)
Lemma fill_step filled (p buf : bytes) :
  length buf = 64%nat -> (filled <= 64)%nat ->
  let n := Nat.min (length p) (64 - filled) in
  length (splice filled (take n p) buf) = 64%nat /\
  take (filled + n) (splice filled (take n p) buf) = take filled buf ++ take n p.
Proof.
  intros Lb Hf n. assert (length (take n p) = n) as Ln by (rewrite length_take; lia).
  split; [rewrite length_splice; lia|]. rewrite <- Ln at 1. apply take_splice_filled. lia.
Qed.

Lemma app_payloads_cons r rs :
  app_payloads (r :: rs) = (if is_appdata r then r.2 else []) ++ app_payloads rs.
Proof. unfold app_payloads. simpl. by destruct (is_appdata r). Qed.

Lemma app_payloads_app rs1 rs2 : app_payloads (rs1 ++ rs2) = app_payloads rs1 ++ app_payloads rs2.
Proof. unfold app_payloads. by rewrite List.filter_app, map_app, concat_app. Qed.

Lemma pending_left_record r n :
  length r.1.2 = 2%nat -> pending_left (mkPendingData (raw_record r) (5 + n)) = drop n r.2.
Proof.
  intros Lv. unfold pending_left. cbn [pd_data pd_offset]. rewrite <- drop_drop. f_equal.
  unfold raw_record. rewrite !app_assoc. apply drop_app_length'. by rewrite !length_app, length_be_bytes, Lv.
Qed.

(** Reading the init out of any acceptable records that carry enough: the init
    and what is pending are the payloads of the records consumed. *)
Lemma init_loop_reads fuel rs buf filled rest :
  length buf = 64%nat -> (filled <= 64)%nat -> (length rs < fuel)%nat ->
  Forall client_record_ok rs -> (64 - filled <= length (app_payloads rs))%nat ->
  exists rs1 rs2 hs p, rs = rs1 ++ rs2 /\
    init_loop fuel buf filled (wire rs ++ rest) = Done (Some (hs, p), wire rs2 ++ rest) /\
    length hs = 64%nat /\ hs ++ pending_left p = take filled buf ++ app_payloads rs1 /\
    (pd_offset p <= length (pd_data p))%nat.
Proof.
  revert rs buf filled. induction fuel as [|fuel IH]; intros rs buf filled Lb Hf Hfu HF Hn; [lia|].
  destruct (decide (filled = 64)%nat) as [->|Hne].
  { exists [], rs, buf, pending_default. cbn [init_loop]. rewrite Lb. cbn [Nat.ltb Nat.leb].
    split_and!; try done. unfold app_payloads. simpl. by rewrite !app_nil_r, take_ge by lia. }
  destruct HF as [|r rs Hr HF]; [cbn in Hn; lia|]. pose proof Hr as (Lv & Hp & Ht).
  rewrite app_payloads_cons, length_app in Hn. unfold is_appdata in Hn.
  change (wire (r :: rs)) with (raw_record r ++ wire rs). cbn [length] in *.
  rewrite <- app_assoc. rewrite init_loop_record by (done || lia). cbv zeta.
  destruct (r.1.1 =? TLS_RECORD_CHANGE_CIPHER_SPEC) eqn:Ec.
  { boolify. rewrite Ec in Hn. cbn in Hn.
    destruct (IH rs buf filled) as (rs1 & rs2 & hs & p & -> & E & L & EQ & Ho); try done; try lia.
    exists (r :: rs1), rs2, hs, p. rewrite app_payloads_cons. unfold is_appdata. rewrite Ec.
    split_and!; done. }
  boolify. destruct Ht as [?|[Ht Hnn]]; [done|]. rewrite Ht, Z.eqb_refl in Hn.
  set (n := Nat.min (length r.2) (64 - filled)).
  destruct (fill_step filled r.2 buf Lb Hf) as [Lb' Et]. fold n in Lb', Et.
  destruct (n =? length r.2)%nat eqn:En; boolify.
  - destruct (IH rs (splice filled (take n r.2) buf) (filled + n)%nat)
      as (rs1 & rs2 & hs & p & -> & E & L & EQ & Ho); try done; try lia.
    exists (r :: rs1), rs2, hs, p. rewrite app_payloads_cons. unfold is_appdata. rewrite Ht, Z.eqb_refl.
    split_and!; try done. rewrite EQ, Et, <- app_assoc. by rewrite En, firstn_all.
  - assert (filled + n = 64)%nat as E64 by lia.
    exists [r], rs, (splice filled (take n r.2) buf), (mkPendingData (raw_record r) (5 + n)).
    split_and!; try done.
    + rewrite pending_left_record by done. rewrite app_payloads_cons. unfold is_appdata.
      rewrite Ht, Z.eqb_refl. unfold app_payloads. simpl. rewrite app_nil_r.
      rewrite E64, take_ge in Et by lia. by rewrite Et, <- app_assoc, take_drop.
    + cbn [pd_data pd_offset]. rewrite length_raw_record by done. lia.
Qed.

(** On arbitrary bytes the loop returns, and what it accepts were acceptable
    records. *)
Lemma init_loop_total fuel buf filled reader :
  bytes_ok reader -> length buf = 64%nat -> (filled <= 64)%nat -> (length reader < fuel)%nat ->
  exists res rest, init_loop fuel buf filled reader = Done (res, rest) /\
    forall hs p, res = Some (hs, p) -> exists rs, Forall client_record_ok rs /\
      reader = wire rs ++ rest /\ length hs = 64%nat /\
      hs ++ pending_left p = take filled buf ++ app_payloads rs.
Proof.
  revert buf filled reader. induction fuel as [|fuel IH]; intros buf filled reader Hb Lb Hf Hfu; [lia|].
  destruct (decide (filled = 64)%nat) as [->|Hne].
  { exists (Some (buf, pending_default)), reader. cbn [init_loop]. rewrite Lb. split; [done|].
    intros hs p [= <- <-]. exists []. split_and!; try done. by rewrite take_ge by lia. }
  destruct (read_tls_record_bytes MAX_INBOUND_PAYLOAD reader) as [res rest] eqn:Er.
  destruct res as [[record|]|];
    [|exists None, rest; cbn [init_loop]; rewrite Lb, (proj2 (Nat.ltb_lt _ _)), Er by lia; done..].
  destruct (read_record_bytes_Some _ _ _ Hb Er) as (r & -> & -> & Lv & Hp).
  apply Forall_app in Hb as [Hbr Hb]. rewrite length_app, length_raw_record in Hfu by done.
  destruct (decide (client_record_ok r)) as [Hr|Hr].
  - rewrite init_loop_record by (done || lia).
    destruct (r.1.1 =? TLS_RECORD_CHANGE_CIPHER_SPEC) eqn:Ec.
    { destruct (IH buf filled rest) as (res & rest' & E & HS); try done; try lia.
      exists res, rest'. split; [done|]. intros hs p Hres.
      destruct (HS hs p Hres) as (rs & HF & -> & L & EQ). exists (r :: rs). boolify.
      rewrite app_payloads_cons. unfold is_appdata. rewrite Ec. split_and!; [by constructor| |done|done].
      by rewrite wire_cons, <- app_assoc. }
    boolify. pose proof Hr as (_ & _ & [?|[Ht Hnn]]); [done|]. cbv zeta.
    set (n := Nat.min (length r.2) (64 - filled)).
    destruct (fill_step filled r.2 buf Lb Hf) as [Lb' Et]. fold n in Lb', Et.
    destruct (n =? length r.2)%nat eqn:En; boolify.
    + destruct (IH (splice filled (take n r.2) buf) (filled + n)%nat rest)
        as (res & rest' & E & HS); try done; try lia.
      exists res, rest'. split; [done|]. intros hs p Hres.
      destruct (HS hs p Hres) as (rs & HF & -> & L & EQ). exists (r :: rs).
      rewrite app_payloads_cons. unfold is_appdata. rewrite Ht, Z.eqb_refl.
      split_and!; [by constructor| |done|].
      * by rewrite wire_cons, <- app_assoc.
      * rewrite EQ, Et, <- app_assoc. by rewrite En, firstn_all.
    + assert (filled + n = 64)%nat as E64 by lia. eexists _, _. split; [done|].
      intros hs p Hres.
      assert (hs = splice filled (take n r.2) buf /\ p = mkPendingData (raw_record r) (5 + n))
        as [-> ->] by (by injection Hres as <- <-).
      exists [r]. rewrite pending_left_record by done.
      rewrite app_payloads_cons. unfold is_appdata. rewrite Ht, Z.eqb_refl.
      split_and!; [by repeat constructor| |done|].
      * by rewrite wire_cons, app_nil_r.
      * unfold app_payloads. simpl. rewrite app_nil_r. rewrite E64, take_ge in Et by lia.
        by rewrite Et, <- app_assoc, take_drop.
  - exists None, rest. split; [|done]. apply init_loop_bad; try done. lia.
Qed.

(** ** Lemmas: the client's reads *)

(** Everything a bridge reads from the client: reads until [Ok(0)]. *)
Fixpoint read_all (fuel buf_len : nat) (r : ClientReader) : run (list bytes) :=
  run_bind (client_read buf_len r) (fun dr =>
    match dr.1 with
    | [] => Done []
    | _ =>
        match fuel with
        | O => OutOfFuel
        | S fuel => run_bind (read_all fuel buf_len dr.2) (fun l => Done (dr.1 :: l))
        end
    end).

(** Bytes that can still be read. *)
Definition client_measure (r : ClientReader) : nat :=
  match r with
  | PlainReader t => length (t_in t)
  | FakeTlsReader t p => length (pending_left p) + length (t_in t)
  end.

Lemma read_appdata_consumes fuel buf_len reader data rest :
  read_appdata_loop fuel buf_len reader = Done (data, rest) ->
  data = [] \/ (length data + length rest < length reader)%nat.
Proof.
  revert reader. induction fuel as [|fuel IH]; intros reader H; [done|]. cbn [read_appdata_loop] in H.
  destruct (read_exact 5 reader) as [[header r]|] eqn:E; [|simplify_eq; by left].
  apply read_exact_Some in E as [-> L]. repeat case_test; simplify_eq; auto;
    (destruct (read_exact _ r) as [[p r']|] eqn:E; [|simplify_eq; by left]);
    apply read_exact_Some in E as [-> _].
  - simplify_eq. right. len.
  - apply IH in H as [?|?]; [by left|]. right. len.
Qed.

Lemma pending_read_spec buf_len p :
  (pd_offset p <= length (pd_data p))%nat -> (0 < buf_len)%nat ->
  match pending_read buf_len p with
  | (None, p') => p' = p /\ pending_left p = []
  | (Some data, p') => data <> [] /\ pending_left p = data ++ pending_left p' /\
      (pd_offset p' <= length (pd_data p'))%nat
  end.
Proof.
  intros Ho Hb. unfold pending_read, pending_left. rewrite (proj2 (Nat.ltb_ge _ _)) by done.
  destruct (drop (pd_offset p) (pd_data p)) as [|b l] eqn:E; [done|].
  assert (length (pd_data p) - pd_offset p = S (length l))%nat as L
    by (rewrite <- length_drop, E; done).
  set (n := Nat.min buf_len (length (b :: l))). cbn [length] in *.
  split_and!.
  - destruct n eqn:En; [lia|done].
  - case_test; boolify; cbn [pd_data pd_offset].
    + rewrite drop_nil, app_nil_r, take_ge; [done|]. simpl. lia.
    + by rewrite <- drop_drop, E, take_drop.
  - case_test; boolify; simpl; lia.
Qed.

Definition reader_ok (r : ClientReader) : Prop :=
  match r with
  | PlainReader _ => True
  | FakeTlsReader _ p => (pd_offset p <= length (pd_data p))%nat
  end.

(** Every read returns; it either ends the stream or leaves less to read. *)
Lemma client_read_total buf_len r :
  reader_ok r -> (0 < buf_len)%nat ->
  exists data r', client_read buf_len r = Done (data, r') /\ reader_ok r' /\
    (data = [] \/ (client_measure r' < client_measure r)%nat).
Proof.
  intros Hr Hb. destruct r as [t|t p]; cbn [client_read].
  - destruct (tcp_read buf_len t) as [data t'] eqn:E. unfold tcp_read in E. simplify_eq.
    eexists _, _. split; [done|]. split; [done|]. cbn [client_measure t_in].
    destruct (t_in t) as [|b l] eqn:Ei; [left; by rewrite take_nil|]. right.
    rewrite length_drop. cbn [length]. destruct (t_cuts t); lia.
  - pose proof (pending_read_spec buf_len p Hr Hb) as HP.
    destruct (pending_read buf_len p) as [[data|] p'].
    + destruct HP as (Hne & E & Ho). eexists _, _. split; [done|]. split; [done|]. right.
      cbn [client_measure]. rewrite E, length_app. destruct data; [done|]. simpl. lia.
    + destruct HP as [-> E].
      destruct (returns_read_appdata (S (length (t_in t))) (Z.of_nat buf_len) (t_in t)) as [[data rest] Er];
        [lia|].
      unfold read_tls_appdata. rewrite Er. cbn [run_bind]. eexists _, _. split; [done|]. split; [done|].
      apply read_appdata_consumes in Er as [?|?]; [by left|right]. cbn [client_measure t_in set_in]. lia.
Qed.

Lemma read_all_total fuel buf_len r :
  reader_ok r -> (0 < buf_len)%nat -> (client_measure r <= fuel)%nat ->
  exists chunks, read_all fuel buf_len r = Done chunks.
Proof.
  intros Hr Hb. revert r Hr. induction fuel as [|fuel IH]; intros r Hr Hf;
    destruct (client_read_total buf_len r Hr Hb) as (data & r' & E & Hr' & HM);
    cbn [read_all]; rewrite E; cbn [run_bind fst snd]; (destruct data as [|b data]; [by eauto|]);
    (destruct HM as [?|?]; [done|]).
  - lia.
  - destruct (IH r' Hr') as [chunks ->]; [lia|]. cbn [run_bind]. eauto.
Qed.

Lemma read_all_plain fuel buf_len t chunks :
  (0 < buf_len)%nat -> read_all fuel buf_len (PlainReader t) = Done chunks -> concat chunks = t_in t.
Proof.
  intros Hb. revert t chunks. induction fuel as [|fuel IH]; intros t chunks H; cbn [read_all client_read] in H;
    unfold tcp_read in H; cbn [run_bind fst snd] in H; set (n := Nat.min _ _) in H;
    (destruct (take n (t_in t)) as [|b data] eqn:E;
     [simplify_eq; destruct (t_in t) as [|x l] eqn:Ei; [done|];
      assert (0 < n)%nat by (unfold n; destruct (t_cuts t); simpl; lia); destruct n; [lia|done]|]).
  - done.
  - destruct (read_all fuel buf_len _) as [l| |] eqn:El; cbn [run_bind] in H; simplify_eq.
    apply IH in El. cbn [concat t_in] in *. by rewrite El, <- E, take_drop.
Qed.

(** Reading the records of a client's data phase. *)
Lemma read_appdata_wire fuel rs :
  Forall client_record_ok rs -> (length rs < fuel)%nat ->
  exists data rs', read_appdata_loop fuel MAX_INBOUND_PAYLOAD (wire rs) = Done (data, wire rs') /\
    app_payloads rs = data ++ app_payloads rs' /\ Forall client_record_ok rs' /\
    (data = [] -> app_payloads rs = []).
Proof.
  intros HF. revert fuel. induction HF as [|r rs (Lv & Hp & Ht) HF IH]; intros [|fuel] Hf; simpl in Hf; try lia.
  { exists [], []. done. }
  rewrite wire_cons. cbn [read_appdata_loop].
  destruct (read_raw_header r (wire rs)) as (header & E & _ & E2 & E3); [done| |].
  { unfold MAX_INBOUND_PAYLOAD, TLS_MAX_RECORD_PAYLOAD, TLS_READ_HEADROOM in *. lia. }
  rewrite E, E2, E3, (proj2 (Z.ltb_ge _ _)) by done. rewrite !read_payload.
  rewrite app_payloads_cons. unfold is_appdata. destruct Ht as [->|[-> Hne]].
  - destruct (IH fuel) as (data & rs' & E' & HA & HF' & HN); [lia|]. exists data, rs'. by cbn.
  - rewrite !Z.eqb_refl. exists r.2, rs. split_and!; try done.
Qed.

Lemma client_buf_size : Z.of_nat CLIENT_READ_BUF_SIZE = MAX_INBOUND_PAYLOAD.
Proof. unfold CLIENT_READ_BUF_SIZE, MAX_INBOUND_PAYLOAD. rewrite Z2Nat.id; [done|]. vm_compute. discriminate. Qed.

Lemma length_wire rs : Forall client_record_ok rs -> (length rs <= length (wire rs))%nat.
Proof.
  induction 1 as [|r rs (Lv & _) HF IH]; [done|]. rewrite wire_cons, length_app, length_raw_record by done.
  simpl. lia.
Qed.

Lemma read_all_wire fuel t p rs chunks :
  Forall client_record_ok rs -> t_in t = wire rs -> (pd_offset p <= length (pd_data p))%nat ->
  read_all fuel CLIENT_READ_BUF_SIZE (FakeTlsReader t p) = Done chunks ->
  concat chunks = pending_left p ++ app_payloads rs.
Proof.
  assert (0 < CLIENT_READ_BUF_SIZE)%nat as Hb.
  { pose proof client_buf_size as E. unfold MAX_INBOUND_PAYLOAD, TLS_MAX_RECORD_PAYLOAD, TLS_READ_HEADROOM in E.
    lia. }
  revert t p rs chunks. induction fuel as [|fuel IH]; intros t p rs chunks HF Et Ho H;
    cbn [read_all client_read] in H; pose proof (pending_read_spec _ p Ho Hb) as HP;
    (destruct (pending_read CLIENT_READ_BUF_SIZE p) as [[data|] p'];
     [destruct HP as (Hne & -> & Ho')|destruct HP as [-> Ep]; rewrite client_buf_size, Et in H;
      destruct (read_appdata_wire (S (length (wire rs))) rs HF) as (data & rs' & E & -> & HF' & HN);
      [pose proof (length_wire rs HF); lia|unfold read_tls_appdata in H; rewrite E in H]]);
    cbn [run_bind fst snd] in H; destruct data as [|b data]; try done.
  - simplify_eq. symmetry. rewrite Ep. by apply HN.
  - destruct (read_all fuel _ _) as [l| |] eqn:El; cbn [run_bind] in H; simplify_eq.
    apply (IH t p' rs l HF) in El; [|done..]. cbn [concat]. by rewrite El, <- app_assoc.
  - simplify_eq. symmetry. rewrite Ep. by apply HN.
  - destruct (read_all fuel _ _) as [l| |] eqn:El; cbn [run_bind] in H; simplify_eq.
    apply (IH _ p rs' l HF') in El; [|done..]. cbn [concat app]. by rewrite El, Ep.
Qed.

(** The bytes a reader still holds. *)
Definition reader_bytes (r : ClientReader) : bytes :=
  match r with
  | PlainReader t => t_in t
  | FakeTlsReader t p => pending_left p ++ t_in t
  end.

Lemma read_appdata_ok fuel buf_len reader data rest :
  read_appdata_loop fuel buf_len reader = Done (data, rest) -> bytes_ok reader ->
  bytes_ok data /\ bytes_ok rest.
Proof.
  revert reader. induction fuel as [|fuel IH]; intros reader H Hb; [done|]. cbn [read_appdata_loop] in H.
  destruct (read_exact 5 reader) as [[header r]|] eqn:E; [|simplify_eq; by split].
  apply read_exact_Some in E as [-> L]. apply Forall_app in Hb as [_ Hb].
  repeat case_test; simplify_eq; auto;
    (destruct (read_exact _ r) as [[p r']|] eqn:E; [|simplify_eq; by split]);
    apply read_exact_Some in E as [-> _]; apply Forall_app in Hb as [Hp Hb].
  - by simplify_eq.
  - by eapply IH.
Qed.

Lemma client_read_ok buf_len r data r' :
  reader_ok r -> (0 < buf_len)%nat -> client_read buf_len r = Done (data, r') ->
  bytes_ok (reader_bytes r) -> bytes_ok data /\ reader_ok r' /\ bytes_ok (reader_bytes r').
Proof.
  intros Hr Hn. destruct r as [t|t p]; cbn [client_read reader_bytes].
  - unfold tcp_read. intros [= <- <-] Hb. cbn [reader_bytes t_in].
    split_and!; [by apply Forall_take|done|by apply Forall_drop].
  - pose proof (pending_read_spec buf_len p Hr Hn) as HP.
    destruct (pending_read buf_len p) as [[d|] p'].
    + destruct HP as (_ & E & Ho). intros [= <- <-] Hb. rewrite E, <- app_assoc in Hb.
      apply Forall_app in Hb as [??]. by split_and!.
    + destruct HP as [-> E]. intros H Hb. apply run_bind_Done in H as ([d rest] & Er & H). injection H as <- <-.
      apply Forall_app in Hb as [Hp Hb]. destruct (read_appdata_ok _ _ _ _ _ Er Hb).
      split_and!; [done|done|]. by apply Forall_app.
Qed.

Lemma read_all_ok fuel buf_len r chunks :
  reader_ok r -> (0 < buf_len)%nat -> bytes_ok (reader_bytes r) ->
  read_all fuel buf_len r = Done chunks -> Forall bytes_ok chunks.
Proof.
  intros Hr Hn Hb. revert r chunks Hr Hb. induction fuel as [|fuel IH]; intros r chunks Hr Hb H;
    cbn [read_all] in H; apply run_bind_Done in H as ([data r'] & Er & H); cbn [fst snd] in H;
    destruct (client_read_ok _ _ _ _ Hr Hn Er Hb) as (Hd & Hr' & Hb');
    (destruct data as [|b data]; [injection H as <-; constructor|]); [done|].
  apply run_bind_Done in H as (l & El & H). injection H as <-. constructor; [done|by eapply IH].
Qed.

(** ** Lemmas: accepting a client *)

(** What is kept pending starts inside the record it is kept in. *)
Lemma init_loop_pending fuel buf filled reader hs p rest :
  init_loop fuel buf filled reader = Done (Some (hs, p), rest) ->
  (pd_offset p <= length (pd_data p))%nat.
Proof.
  revert buf filled reader. induction fuel as [|fuel IH]; intros buf filled reader H; cbn [init_loop] in H;
    (destruct (filled <? length buf)%nat; [|simplify_eq; simpl; lia]); [done|].
  destruct (read_tls_record_bytes _ _) as [[[record|]|] reader']; [|done..].
  apply run_bind_Done in H as (ty & _ & H). apply run_bind_Done in H as (n & _ & H).
  case_test; [by eapply IH|]. case_test; [done|].
  apply run_bind_Done in H as (part & Es & H). apply slice_run_Done in Es as [Hs _].
  apply run_bind_Done in H as (buf' & _ & H).
  case_test; [|by eapply IH]. simplify_eq. simpl in *. lia.
Qed.

Lemma init_loop_rest fuel buf filled reader res rest :
  init_loop fuel buf filled reader = Done (res, rest) -> bytes_ok reader -> bytes_ok rest.
Proof.
  revert buf filled reader. induction fuel as [|fuel IH]; intros buf filled reader H Hb; cbn [init_loop] in H;
    (destruct (filled <? length buf)%nat; [|by simplify_eq]); [done|].
  destruct (read_tls_record_bytes _ _) as [r reader'] eqn:Er. apply read_record_bytes_rest in Er as [Hr _]; [|done].
  destruct r as [[record|]|]; [|by simplify_eq..].
  apply run_bind_Done in H as (ty & _ & H). apply run_bind_Done in H as (n & _ & H).
  case_test; [by eapply IH|]. case_test; [by simplify_eq|].
  apply run_bind_Done in H as (part & _ & H). apply run_bind_Done in H as (buf' & _ & H).
  case_test; [by simplify_eq|by eapply IH].
Qed.

Lemma wire_payloads_ok rs : bytes_ok (wire rs) -> bytes_ok (app_payloads rs).
Proof.
  induction rs as [|r rs IH]; [done|]. rewrite wire_cons, app_payloads_cons. intros H.
  apply Forall_app in H as [Hr H]. apply Forall_app. split; [|by apply IH].
  case_test; [|done].
  unfold raw_record in Hr. rewrite !Forall_app in Hr. by destruct Hr as (_ & _ & _ & ?).
Qed.

Section accepting.
Context {C : Crypto} `{!CryptoLaws C}.

Lemma find_hello_total record secrets :
  exists r, find_hello record secrets = Done r /\
    forall h secret, r = Some (h, secret) ->
      secret ∈ secrets /\ parse_faketls_client_hello record secret = Done (Some h).
Proof.
  induction secrets as [|s secrets IH]; cbn [find_hello]; [by exists None|].
  destruct (returns_parse_hello record s) as [o E]. rewrite E. cbn [run_bind].
  destruct o as [h|]; [exists (Some (h, s)); split; [done|]; intros ?? [= <- <-]; split;
    [apply elem_of_cons; by left|done]|].
  destruct IH as (r & Er & Hr). exists r. split; [done|]. intros h secret Hs.
  destruct (Hr h secret Hs). split; [apply elem_of_cons; by right|done].
Qed.

(** The ServerHello draws at most 4151 random bytes. *)
Lemma server_hello_tape secret h tape packet tape' :
  build_faketls_server_hello secret h tape = Done (packet, tape') ->
  exists n, (n <= 4151)%nat /\ tape' = drop n tape.
Proof.
  unfold build_faketls_server_hello, fill_bytes. intros H.
  case_test; [|done]. cbn [run_bind] in H. case_test; [|done]. cbn [run_bind] in H.
  set (k := Z.to_nat (1024 + _)) in H. case_test; [|done]. cbn [run_bind] in H.
  apply run_bind_Done in H as (pk & _ & H). injection H as _ <-.
  exists (32 + (4 + k))%nat. rewrite !drop_drop. split; [|f_equal; lia].
  pose proof (Z.mod_pos_bound (from_le (take 4 (drop 32 tape))) 3092). unfold k. lia.
Qed.

(** A ClientHello this proxy answers: a TLS 1.0 handshake record, authentic
    under one of the secrets, for the expected domain. *)
Definition authentic_hello (secrets : list bytes) (domain : text) (hello secret : bytes)
    (h : FakeTlsClientHello) : Prop :=
  secret ∈ secrets /\ parse_faketls_client_hello hello secret = Done (Some h) /\
  take 28 (slice 11 43 hello) = take 28 (hmac_sha256 secret (splice 11 (replicate 32 0) hello)) /\
  ch_hostname h = Some domain /\ slice 0 3 hello = [TLS_RECORD_HANDSHAKE; 0x03; 0x01].

Lemma tcp_write_in t data t' : tcp_write_all t data = Some t' ->
  t_in t' = t_in t /\ t_out t' = t_out t ++ data.
Proof. unfold tcp_write_all. case_test; intros; simplify_eq. done. Qed.

Lemma raw_record_head r :
  length r.1.2 = 2%nat ->
  slice 1 3 (raw_record r) = r.1.2 /\ slice 0 3 (raw_record r) = r.1.1 :: r.1.2.
Proof. destruct r as [[ty v] p]. cbn [fst snd]. by destruct v as [|v1 [|v2 [|]]]. Qed.

(** The acceptance of a record the parser takes, up to the read of the init. *)
Lemma accept_hello secrets domain t tape r rest h secret :
  Zlen r.2 <= MAX_INBOUND_PAYLOAD ->
  t_in t = raw_record r ++ rest -> r.1 = (TLS_RECORD_HANDSHAKE, [0x03; 0x01]) ->
  find_hello (raw_record r) secrets = Done (Some (h, secret)) ->
  (length (ch_session_id h) <= 255)%nat -> (exists s, ch_cipher_suite h = [0x13; s]) ->
  ch_hostname h = Some domain -> (4151 <= length tape)%nat ->
  exists flight tape', build_faketls_server_hello secret h tape = Done (flight, tape') /\
    (forall rest, drain_faketls_server_hello (flight ++ rest) = (true, rest)) /\
    Zlen flight <= 4600 /\
    accept_inbound_faketls secrets domain t tape =
      match tcp_write_all (set_in rest t) flight with
      | None => Done (None, set_in rest t, tape')
      | Some t => run_bind (init_loop (S (length rest)) (replicate 64 0) 0 rest) (fun rr =>
                    Done (rr.1, set_in rr.2 t, tape'))
      end.
Proof.
  intros Hp Ein Er Ef HS (s & HC) Eh Ht. assert (length r.1.2 = 2%nat) as Lv by by rewrite Er.
  destruct (server_hello_flight secret h tape s HS HC Ht) as (flight & tape' & E1 & E2 & _).
  exists flight, tape'. split_and!; [done|done| |].
  { eapply server_hello_length; [done|by rewrite HC|done]. }
  unfold accept_inbound_faketls. rewrite Ein, read_record_bytes_raw by done.
  assert (index (raw_record r) 0 = Done r.1.1) as -> by done. cbn [run_bind].
  destruct (raw_record_head r Lv) as [E13 _].
  rewrite slice_run_ok by (rewrite ?length_raw_record by done; lia). cbn [run_bind].
  rewrite E13, Er. cbn [fst snd]. rewrite Z.eqb_refl. rewrite bool_decide_eq_true_2 by done. cbn [negb orb].
  rewrite Ef. cbn [run_bind]. rewrite bool_decide_eq_true_2 by done. cbn [negb]. rewrite E1. cbn [run_bind].
  destruct (tcp_write_all (set_in rest t) flight) as [t'|] eqn:Ew; [|done].
  apply tcp_write_in in Ew as [-> _]. cbn [t_in set_in]. by destruct init_loop as [[??]| |].
Qed.
(** The whole acceptance on arbitrary bytes; [tape'] tells how much randomness
    it used. *)
Lemma accept_inbound_spec secrets domain t tape :
  bytes_ok (t_in t) -> (4151 <= length tape)%nat ->
  exists res t' tape', accept_inbound_faketls secrets domain t tape = Done (res, t', tape') /\
    (exists n, (n <= 4151)%nat /\ tape' = drop n tape) /\
    ((res = None /\ t_out t' = t_out t) \/
     exists hello secret h rest, authentic_hello secrets domain hello secret h /\
       t_in t = hello ++ rest /\
       forall hs p, res = Some (hs, p) -> (pd_offset p <= length (pd_data p))%nat /\
         exists rs, Forall client_record_ok rs /\
         rest = wire rs ++ t_in t' /\ length hs = 64%nat /\ hs ++ pending_left p = app_payloads rs).
Proof.
  intros Hb Ht.
  destruct (read_tls_record_bytes MAX_INBOUND_PAYLOAD (t_in t)) as [res rest] eqn:Er.
  destruct res as [[record|]|];
    [|eexists _, _, _; split; [unfold accept_inbound_faketls; rewrite Er; done|split; [by exists 0%nat; split; [lia|]|by left]]..].
  destruct (read_record_bytes_Some _ _ _ Hb Er) as (r & -> & Ein & Lv & Hp).
  rewrite Ein in Hb. apply Forall_app in Hb as [Hbr Hb].
  destruct (find_hello_total (raw_record r) secrets) as (o & Ef & Ho).
  destruct (decide (r.1 = (TLS_RECORD_HANDSHAKE, [0x03; 0x01]))) as [E1|E1];
    [destruct o as [[h secret]|]; [destruct (decide (ch_hostname h = Some domain)) as [Eh|Eh]|]|].
  1: { destruct (Ho h secret eq_refl) as [Hin Epa].
    destruct (parse_hello_Some _ _ _ Hbr Epa) as (_ & ER & EH & Hsid & s & HC & _). rewrite ER in EH.
    destruct (accept_hello secrets domain t tape r rest h secret)
      as (fl & tape' & Ebu & _ & _ & ->); try done; [by exists s|].
    apply server_hello_tape in Ebu.
    assert (authentic_hello secrets domain (raw_record r) secret h) as Hau.
    { split_and!; try done. destruct (raw_record_head r Lv) as [_ ->]. by rewrite E1. }
    destruct (tcp_write_all (set_in rest t) fl) as [t1|] eqn:Ew;
      [|eexists _, _, _; split; [done|]; split; [done|]; right; by exists (raw_record r), secret, h, rest].
    destruct (init_loop_total (S (length rest)) (replicate 64 0) 0 rest) as (res & rest' & Ei & HS);
      try done; try lia.
    rewrite Ei. cbn [run_bind fst snd]. eexists _, _, _. split; [done|]. split; [done|]. right.
    exists (raw_record r), secret, h, rest. split_and!; try done. intros hs p Hres.
    split; [rewrite Hres in Ei; by eapply init_loop_pending|by apply HS]. }
  all: assert (exists n, (n <= 4151)%nat /\ tape = drop n tape) as Hno by (by exists 0%nat; split; [lia|]).
  all: eexists _, _, _; unfold accept_inbound_faketls; rewrite Er;
    (assert (index (raw_record r) 0 = Done r.1.1) as -> by done); cbn [run_bind];
    (rewrite slice_run_ok by (rewrite ?length_raw_record by done; lia)); cbn [run_bind];
    (destruct (raw_record_head r Lv) as [-> _]).
  1, 2: rewrite E1; cbn [fst snd]; rewrite Z.eqb_refl, bool_decide_eq_true_2 by done; cbn [negb orb];
    rewrite Ef; cbn [run_bind].
  - rewrite bool_decide_eq_false_2 by done. cbn [negb]. by split_and!; [|done|left].
  - by split_and!; [|done|left].
  - assert (negb (r.1.1 =? TLS_RECORD_HANDSHAKE) || negb (bool_decide (r.1.2 = [0x03; 0x01])) = true) as ->.
    { destruct (r.1.1 =? TLS_RECORD_HANDSHAKE) eqn:Ety; [|done]. boolify. simpl.
      rewrite bool_decide_eq_false_2; [done|]. intros Ev. destruct E1. by destruct r as [[??]?]; simplify_eq/=. }
    by split_and!; [|done|left].
Qed.

(** What is left on the socket is a suffix of what was there. *)
Lemma accept_inbound_rest secrets domain t tape res t' tape' :
  bytes_ok (t_in t) -> accept_inbound_faketls secrets domain t tape = Done (res, t', tape') ->
  bytes_ok (t_in t').
Proof.
  intros Hb H. unfold accept_inbound_faketls in H.
  destruct (read_tls_record_bytes MAX_INBOUND_PAYLOAD (t_in t)) as [r0 rest] eqn:Er.
  apply read_record_bytes_rest in Er as [Hr _]; [|done].
  destruct r0 as [[record|]|]; [|injection H as _ <- _; done..].
  apply run_bind_Done in H as (ty & _ & H). apply run_bind_Done in H as (v & _ & H).
  case_test; [by injection H as _ <- _|]. apply run_bind_Done in H as (o & _ & H).
  destruct o as [[h secret]|]; [|by injection H as _ <- _]. case_test; [by injection H as _ <- _|].
  apply run_bind_Done in H as ([fl tp] & _ & H).
  destruct (tcp_write_all (set_in rest t) fl) as [t1|] eqn:Ew; [|by injection H as _ <- _].
  apply tcp_write_in in Ew as [E1 _]. rewrite E1 in H. cbn [set_in t_in] in H.
  apply run_bind_Done in H as ([rr rest'] & Ei & H). injection H as _ <- _. by eapply init_loop_rest.
Qed.

Lemma client_record_raw body :
  client_record TLS_RECORD_VERSION body =
    raw_record (TLS_RECORD_HANDSHAKE, [0x03; 0x01], [TLS_HANDSHAKE_CLIENT_HELLO] ++ u24_be (Zlen body) ++ body).
Proof.
  unfold client_record, raw_record. cbn [fst snd]. do 3 f_equal. unfold Zlen. f_equal.
  rewrite !length_app. simpl length. lia.
Qed.

(** An init that fills one record exactly. *)
Lemma init_loop_first fuel hs more :
  length hs = 64%nat ->
  init_loop (S fuel) (replicate 64 0) 0 (tls_record TLS_RECORD_APPLICATION_DATA hs ++ more) =
    Done (Some (hs, pending_default), more).
Proof.
  intros L. set (r := (TLS_RECORD_APPLICATION_DATA, TLS_VERSION_12, hs) : rec).
  change (tls_record TLS_RECORD_APPLICATION_DATA hs) with (raw_record r).
  rewrite init_loop_record; [|done|lia|].
  - unfold r. cbn [fst snd]. rewrite L. cbv zeta. cbn [Nat.min Nat.sub Nat.eqb].
    rewrite take_ge by lia. change (TLS_RECORD_APPLICATION_DATA =? TLS_RECORD_CHANGE_CIPHER_SPEC) with false.
    assert (splice 0 hs (replicate 64 0) = hs) as ->.
    { unfold splice. rewrite take_0, drop_ge; [by rewrite app_nil_r|]. by rewrite length_replicate, L. }
    cbv iota. destruct fuel; cbn [init_loop]; by rewrite L.
  - unfold r. split_and!; [done| |right; split; [done|simpl; by intros ->]].
    cbn [snd]. unfold Zlen, MAX_INBOUND_PAYLOAD, TLS_MAX_RECORD_PAYLOAD, TLS_READ_HEADROOM. lia.
Qed.

Lemma tcp_write_appdata_one data t :
  (0 < length data)%nat -> Zlen data <= TLS_MAX_RECORD_PAYLOAD -> (5 + length data <= t_room t)%nat ->
  write_tls_appdata tcp_write_all data t =
    Done (Some (mkTcp (t_in t) (t_cuts t) (t_out t ++ tls_record TLS_RECORD_APPLICATION_DATA data)
                  (t_room t - (5 + length data)))).
Proof.
  intros Hl Hm Hr. unfold write_tls_appdata. destruct (length data) as [|n] eqn:L; [lia|].
  cbn [write_appdata_loop]. rewrite L. cbn [Nat.ltb Nat.leb].
  assert (Nat.min (0 + Z.to_nat TLS_MAX_APPDATA_WRITE) (S n) = S n) as ->.
  { rewrite <- L. unfold Zlen in Hm. change TLS_MAX_APPDATA_WRITE with TLS_MAX_RECORD_PAYLOAD. lia. }
  assert (slice 0 (S n) data = data) as -> by (rewrite <- L; apply slice_all).
  unfold tcp_write_all at 1. cbn [length]. rewrite (proj2 (Nat.leb_le _ _)) by lia.
  unfold tcp_write_all at 1. cbn [t_room]. rewrite L, (proj2 (Nat.leb_le _ _)) by lia.
  assert (forall fuel w, write_appdata_loop tcp_write_all fuel data (S n) w = Done (Some w)) as ->.
  { intros fuel w. destruct fuel; cbn [write_appdata_loop]; by rewrite L, Nat.ltb_irrefl. }
  cbn [t_in t_cuts t_out]. do 3 f_equal; [|lia]. rewrite <- app_assoc. do 2 f_equal.
  unfold tls_record. cbn [app]. do 3 f_equal. unfold u8_of, wrap. by rewrite Z.shiftr_div_pow2 by lia.
Qed.

Lemma client_handshake_fields_parse secret dc_idx proto tape hs enc dec tape' :
  i16_ok dc_idx ->
  generate_client_handshake secret dc_idx proto tape = Done (hs, enc, dec, tape') ->
  length hs = 64%nat /\ parse_handshake hs secret =
    Done (Some (mkHandshakeInfo (Z.abs dc_idx) (dc_idx <? 0) proto (slice 8 56 hs))).
Proof.
  intros Hdc H. pose proof (client_handshake_fields _ _ _ _ _ _ _ _ Hdc H) as F.
  apply client_handshake_loop_inv in H as (L & _); [|apply length_as_bytes|apply length_le_bytes].
  by rewrite parse_handshake_fields, F.
Qed.

(** The client side against any server whose flight is drained. *)
Lemma connect_faketls_ok proxy host dc_idx proto now tape hs enc dec tape1 u hello flight rest cuts out room :
  mp_faketls_hostname proxy = Some host ->
  generate_client_handshake (mp_secret_key proxy) dc_idx proto tape = Done (hs, enc, dec, tape1) ->
  length hs = 64%nat ->
  build_faketls_client_hello host tape1 = Done (u, drop 32 tape1) ->
  sign_faketls_client_hello u (mp_secret_key proxy) now = Done hello ->
  (forall rest, drain_faketls_server_hello (flight ++ rest) = (true, rest)) ->
  (length hello + 69 <= room)%nat ->
  exists t',
    connect_mtproto_upstream proxy dc_idx proto (Some (mkTcp (flight ++ rest) cuts out room)) now tape
      = Done (Some (mkUpstreamConnection t' enc dec true), drop 32 tape1) /\
    t_in t' = rest /\ t_out t' = out ++ hello ++ tls_record TLS_RECORD_APPLICATION_DATA hs.
Proof.
  intros Eho Eg L Eb Es Hd Hroom. unfold connect_mtproto_upstream. rewrite Eg, Eho. cbn [run_bind].
  rewrite Eb. cbn [run_bind]. rewrite Es. cbn [run_bind]. unfold tcp_write_all at 1. cbn [t_room].
  rewrite (proj2 (Nat.leb_le _ _)) by lia. cbn [t_in]. rewrite Hd. cbn [negb].
  rewrite tcp_write_appdata_one by (unfold Zlen, TLS_MAX_RECORD_PAYLOAD; rewrite ?L; cbn [t_room set_in]; lia).
  cbn [run_bind]. eexists. split; [done|]. split; [done|]. simpl t_out. by rewrite <- app_assoc.
Qed.
(** Connecting to an upstream proxy always returns. *)
Lemma upstream_returns proxy dc_idx proto connected now tape :
  random_ok 32 tape ->
  (forall h, mp_faketls_hostname proxy = Some h -> Zlen h <= 65000) ->
  returns (connect_mtproto_upstream proxy dc_idx proto connected now tape).
Proof.
  intros Ht Hh. unfold connect_mtproto_upstream. destruct connected as [t|]; [|apply returns_Done].
  destruct (client_handshake_returns (mp_secret_key proxy) dc_idx proto 32 tape Ht)
    as (hs & enc & dec & rest & -> & L & Hr). cbn [run_bind].
  destruct (mp_faketls_hostname proxy) as [h|]; [|case_match; apply returns_Done].
  destruct (client_hello_signed h rest (mp_secret_key proxy) now) as (u & hello & -> & Es); [by apply Hh|done|].
  cbn [run_bind]. rewrite Es. cbn [run_bind].
  case_match; [|apply returns_Done]. case_match. case_test; [apply returns_Done|].
  destruct (write_appdata_loop_spec tcp_write_all t_out) with (fuel := length hs) (data := hs) (offset := 0%nat)
    as (ps & _ & _ & HW); [|lia|lia|].
  { intros w d w' Hw. by apply tcp_write_in in Hw as [_ ?]. }
  unfold write_tls_appdata.
  match goal with |- context [write_appdata_loop _ _ _ _ ?x] => destruct (HW x) as (r & -> & _) end.
  cbn [run_bind]. case_match; apply returns_Done.
Qed.

End accepting.

(** ** Properties *)
Section session_properties.
Context {C : Crypto} `{!CryptoLaws C}.

(** C14. The inbound FakeTLS handshake on arbitrary bytes: it never panics and
    ends; unless the first record is a ClientHello authenticated by the HMAC of
    one of the secrets and naming the expected domain, the peer gets not one
    byte in answer; and an accepted 64-byte init, with what is kept pending, is
    the Application Data of the records read after the hello, in order and
    complete. *)
Theorem inbound_faketls_sound secrets domain t tape :
  bytes_ok (t_in t) -> (4151 <= length tape)%nat ->
  exists res t' tape', accept_inbound_faketls secrets domain t tape = Done (res, t', tape') /\
    ((res = None /\ t_out t' = t_out t) \/
     exists hello secret h rest, authentic_hello secrets domain hello secret h /\
       t_in t = hello ++ rest /\
       forall hs p, res = Some (hs, p) -> exists rs, Forall client_record_ok rs /\
         rest = wire rs ++ t_in t' /\ length hs = 64%nat /\ hs ++ pending_left p = app_payloads rs).
Proof.
  intros Hb Ht. destruct (accept_inbound_spec secrets domain t tape Hb Ht)
    as (res & t' & tape' & E & _ & HC). exists res, t', tape'. split; [done|].
  destruct HC as [?|(hello & secret & h & rest & ? & ? & HS)]; [by left|right].
  exists hello, secret, h, rest. split_and!; try done. intros hs p Hres. by apply HS.
Qed.

(** C15. Completeness of the inbound handshake: a client that sends an accepted
    ClientHello and then a stream of at least 64 bytes in Application Data
    records of any sizes, with change-cipher-spec records anywhere, is answered
    by a flight its drain loop takes, the first 64 bytes become the init, and
    the reads of the session return every byte after them, however the records
    and the init overlap. *)
Theorem inbound_stream_preserved secrets domain t tape r h secret rs :
  bytes_ok (raw_record r) -> r.1 = (TLS_RECORD_HANDSHAKE, [0x03; 0x01]) ->
  Zlen r.2 <= MAX_INBOUND_PAYLOAD ->
  find_hello (raw_record r) secrets = Done (Some (h, secret)) -> ch_hostname h = Some domain ->
  t_in t = raw_record r ++ wire rs -> Forall client_record_ok rs ->
  (64 <= length (app_payloads rs))%nat -> (4151 <= length tape)%nat -> 4600 <= Z.of_nat (t_room t) ->
  exists hs p t' tape' flight chunks,
    accept_inbound_faketls secrets domain t tape = Done (Some (hs, p), t', tape') /\
    t_out t' = t_out t ++ flight /\
    (forall rest, drain_faketls_server_hello (flight ++ rest) = (true, rest)) /\
    read_all (client_measure (FakeTlsReader t' p)) CLIENT_READ_BUF_SIZE (FakeTlsReader t' p)
      = Done chunks /\
    hs = take 64 (app_payloads rs) /\ concat chunks = drop 64 (app_payloads rs).
Proof.
  intros Hb Er Hp Ef Eh Ein HF Hn Ht Hroom.
  destruct (find_hello_total (raw_record r) secrets) as (o & Ef' & Ho). rewrite Ef in Ef'. injection Ef' as <-.
  destruct (Ho h secret eq_refl) as [_ Epa].
  destruct (parse_hello_Some _ _ _ Hb Epa) as (_ & _ & _ & HS & s & HC & _).
  destruct (accept_hello secrets domain t tape r (wire rs) h secret)
    as (fl & tape' & E1 & E2 & E3 & E); try done; [by exists s|].
  destruct (tcp_write_all (set_in (wire rs) t) fl) as [t1|] eqn:Ew.
  2: { unfold tcp_write_all in Ew. case_test; [done|]. boolify. unfold Zlen in E3. simpl in *. lia. }
  apply tcp_write_in in Ew as [_ Eout]. simpl in Eout.
  destruct (init_loop_reads (S (length (wire rs))) rs (replicate 64 0) 0 [])
    as (rs1 & rs2 & hs & p & Ers & Ei & L & EQ & Hof); try done; [lia|pose proof (length_wire rs HF); lia|].
  rewrite !app_nil_r in Ei. rewrite Ei in E. cbn [run_bind fst snd] in E.
  set (t' := set_in (wire rs2) t1) in *. rewrite Ers in HF. apply Forall_app in HF as [_ HF2].
  destruct (read_all_total (client_measure (FakeTlsReader t' p)) CLIENT_READ_BUF_SIZE (FakeTlsReader t' p))
    as [chunks Ech]; [done| |done|].
  { pose proof client_buf_size as Ez. unfold MAX_INBOUND_PAYLOAD, TLS_MAX_RECORD_PAYLOAD, TLS_READ_HEADROOM in Ez.
    lia. }
  exists hs, p, t', tape', fl, chunks. split_and!; try done.
  - rewrite Ers, app_payloads_app. rewrite take_0 in EQ. simpl in EQ. rewrite <- EQ, <- app_assoc.
    by rewrite take_app_length'.
  - rewrite (read_all_wire _ t' p rs2 chunks HF2) by done.
    rewrite Ers, app_payloads_app. rewrite take_0 in EQ. simpl in EQ. rewrite <- EQ, <- app_assoc.
    by rewrite drop_app_length'.
Qed.

(** C13. The two roles of the code work together: connecting to an upstream
    FakeTLS proxy that runs this code's acceptor with the same key and host name
    succeeds on both sides; the acceptor gets exactly the 64-byte init the
    client generated, which parses to the DC and protocol asked for, and each
    side is left at the first byte of the other's data. *)
Theorem faketls_interop proxy host dc_idx proto now tape hs enc dec tape1 others stape ts rest more :
  mp_faketls_hostname proxy = Some host -> utf8_valid host = true -> Zlen host <= 16000 ->
  i16_ok dc_idx ->
  generate_client_handshake (mp_secret_key proxy) dc_idx proto tape = Done (hs, enc, dec, tape1) ->
  (32 <= length tape1)%nat -> (4151 <= length stape)%nat ->
  4600 <= Z.of_nat (t_room ts) ->
  exists hello flight ts' stape',
    (forall cuts out room, 20000 <= Z.of_nat room -> exists t',
      connect_mtproto_upstream proxy dc_idx proto (Some (mkTcp (flight ++ rest) cuts out room)) now tape
        = Done (Some (mkUpstreamConnection t' enc dec true), drop 32 tape1) /\
      t_in t' = rest /\
      t_out t' = out ++ hello ++ tls_record TLS_RECORD_APPLICATION_DATA hs) /\
    accept_inbound_faketls (mp_secret_key proxy :: others) host
      (set_in (hello ++ tls_record TLS_RECORD_APPLICATION_DATA hs ++ more) ts) stape
      = Done (Some (hs, pending_default), ts', stape') /\
    t_in ts' = more /\ t_out ts' = t_out ts ++ flight /\
    parse_handshake hs (mp_secret_key proxy) =
      Done (Some (mkHandshakeInfo (Z.abs dc_idx) (dc_idx <? 0) proto (slice 8 56 hs))).
Proof.
  intros Eho Hu Hh Hdc Eg Ht1 Hst Hroom. set (key := mp_secret_key proxy) in *.
  destruct (client_handshake_fields_parse key dc_idx proto tape hs enc dec tape1 Hdc Eg) as [Lhs Epa].
  destruct (hello_roundtrip host key now tape1 Hu) as (u & record & H1 & H2 & H3 & _ & body & Er & Lb);
    [lia|done|].
  assert (Zlen record <= 17000) as Lr.
  { rewrite Er. unfold Zlen in *. rewrite length_client_record by done. lia. }
  rewrite client_record_raw in Er. set (r := (TLS_RECORD_HANDSHAKE, _, _) : rec) in Er.
  set (h := mkClientHello (slice 11 43 record) (take 32 tape1) [0x13; 0x01] (Some host)) in *.
  assert (find_hello (raw_record r) (key :: others) = Done (Some (h, key))) as Ef
    by (rewrite <- Er; cbn [find_hello]; by rewrite H3).
  set (first := tls_record TLS_RECORD_APPLICATION_DATA hs).
  destruct (accept_hello (key :: others) host (set_in (record ++ first ++ more) ts) stape r (first ++ more)
    h key) as (fl & stape' & _ & Hdr & Lfl & Eacc); try done.
  { unfold r. cbn [snd]. unfold Zlen in *. rewrite !length_app. simpl length.
    unfold MAX_INBOUND_PAYLOAD, TLS_MAX_RECORD_PAYLOAD, TLS_READ_HEADROOM. lia. }
  { by rewrite Er. }
  { simpl. len. }
  { by eexists. }
  exists record, fl.
  destruct (tcp_write_all (set_in (first ++ more) (set_in (record ++ first ++ more) ts)) fl) as [t1|] eqn:Ew.
  2: { unfold tcp_write_all in Ew. case_test; [done|]. boolify. unfold Zlen in Lfl. simpl in *. lia. }
  apply tcp_write_in in Ew as [_ Eout]. simpl in Eout.
  unfold first in Eacc. rewrite init_loop_first in Eacc by done. cbn [run_bind fst snd] in Eacc.
  exists (set_in more t1), stape'. split_and!; try done.
  intros cuts out room Hr. apply connect_faketls_ok with host u; try done.
  unfold Zlen in Lr. lia.
Qed.
End session_properties.

(** *** Witnesses *)
Definition demo_hello_record : rec :=
  (TLS_RECORD_HANDSHAKE, [0x03; 0x01], drop 5 demo_hello).

Definition demo_records : list rec :=
  [ (TLS_RECORD_CHANGE_CIPHER_SPEC, TLS_VERSION_12, [1]);
    (TLS_RECORD_APPLICATION_DATA, TLS_VERSION_12, seqZ 0 40);
    (TLS_RECORD_APPLICATION_DATA, TLS_VERSION_12, seqZ 40 30);
    (TLS_RECORD_APPLICATION_DATA, TLS_VERSION_12, [7; 7]) ].

Definition demo_server_tape : bytes := replicate (Z.to_nat 4151) 5.

Definition demo_room : nat := Z.to_nat 30000.

Definition demo_client : tcp := mkTcp (demo_hello ++ wire demo_records) [] [] demo_room.

Lemma length_demo_server_tape : (4151 <= length demo_server_tape)%nat.
Proof. unfold demo_server_tape. rewrite length_replicate. apply Nat2Z.inj_le. vm_compute. discriminate. Qed.

Lemma inbound_faketls_sound_witness :
  exists res t' tape',
    accept_inbound_faketls (C := toy_crypto) [demo_secret] demo_hostname demo_client demo_server_tape
      = Done (res, t', tape') /\ res <> None.
Proof.
  destruct (inbound_faketls_sound (C := toy_crypto) (CryptoLaws0 := toy_crypto_laws) [demo_secret]
    demo_hostname demo_client demo_server_tape) as (res & t' & tape' & E & _).
  - apply (bool_decide_unpack _). vm_compute. exact I.
  - exact length_demo_server_tape.
  - exists res, t', tape'. split; [exact E|]. intros ->. vm_compute in E. discriminate E.
Defined.

Lemma inbound_stream_preserved_witness :
  exists hs p t' tape' chunks,
    accept_inbound_faketls (C := toy_crypto) [demo_secret] demo_hostname demo_client demo_server_tape
      = Done (Some (hs, p), t', tape') /\
    hs = seqZ 0 64 /\ concat chunks = seqZ 64 6 ++ [7; 7] /\
    read_all (client_measure (FakeTlsReader t' p)) CLIENT_READ_BUF_SIZE (FakeTlsReader t' p)
      = Done chunks.
Proof.
  destruct (inbound_stream_preserved (C := toy_crypto) (CryptoLaws0 := toy_crypto_laws) [demo_secret]
    demo_hostname demo_client demo_server_tape demo_hello_record demo_parsed demo_secret demo_records)
    as (hs & p & t' & tape' & flight & chunks & H1 & _ & _ & H4 & H5 & H6).
  - apply (bool_decide_unpack _). vm_compute. exact I.
  - reflexivity.
  - vm_compute. discriminate.
  - vm_compute. reflexivity.
  - vm_compute. reflexivity.
  - vm_compute. reflexivity.
  - apply (bool_decide_unpack _). vm_compute. exact I.
  - apply Nat.leb_le. vm_compute. reflexivity.
  - exact length_demo_server_tape.
  - vm_compute. discriminate.
  - exists hs, p, t', tape', chunks. split; [exact H1|]. split; [exact H5|]. split; [exact H6|exact H4].
Defined.

Definition demo_proxy : MtProtoProxy :=
  mkMtProtoProxy (txt "proxy.example") 443 [] demo_secret (Some demo_hostname).

Definition demo_handshake : bytes * (Z * nat) * (Z * nat) * bytes :=
  match generate_client_handshake (C := toy_crypto) demo_secret (-2) Abridged demo_tape with
  | Done r => r
  | _ => ([], (0, 0%nat), (0, 0%nat), [])
  end.

Lemma faketls_interop_witness :
  exists hello ts' stape',
    accept_inbound_faketls (C := toy_crypto) [demo_secret] demo_hostname
      (set_in (hello ++ tls_record TLS_RECORD_APPLICATION_DATA demo_handshake.1.1.1 ++ [9])
         (mkTcp [] [] [] demo_room)) demo_server_tape
      = Done (Some (demo_handshake.1.1.1, pending_default), ts', stape') /\ t_in ts' = [9].
Proof.
  destruct (faketls_interop (C := toy_crypto) (CryptoLaws0 := toy_crypto_laws) demo_proxy demo_hostname
    (-2) Abridged 1700000000 demo_tape demo_handshake.1.1.1 demo_handshake.1.1.2 demo_handshake.1.2
    demo_handshake.2 [] demo_server_tape (mkTcp [] [] [] demo_room) [] [9])
    as (hello & flight & ts' & stape' & _ & H2 & H3 & _).
  - reflexivity.
  - vm_compute. reflexivity.
  - vm_compute. discriminate.
  - unfold i16_ok. lia.
  - vm_compute. reflexivity.
  - apply Nat.leb_le. vm_compute. reflexivity.
  - exact length_demo_server_tape.
  - vm_compute. discriminate.
  - exists hello, ts', stape'. split; [exact H2|exact H3].
Defined.
