(* ===== verification/Bridge.v ===== *)
(** * proxy.rs: the bridges

    What each direction of a bridged session does with the bytes: decrypt from
    one side, re-encrypt for the other, and frame for the transport.  A
    WebSocket sink accepts a number of messages before the connection breaks; a
    WebSocket source is the list of what it will yield. *)
From Stdlib Require Import String.
From S2P Require Import Prelude Text CryptoApi Crypto Splitter FakeTls Config Session.

Local Open Scope Z_scope.

Inductive WsFraming : Set :=
| Packets
| Tunnel.

#[export] Instance WsFraming_eq_dec : EqDecision WsFraming.
Proof. solve_decision. Defined.

(** ** The WebSocket's halves *)
Record sink : Type := mkSink {
  sk_sent : list bytes;
  sk_room : nat;
  sk_closed : bool;
}.

(** [ws_sink.send(Message::Binary(m))]. *)
Definition sink_send (m : bytes) (s : sink) : bool * sink :=
  match sk_room s with
  | O => (false, s)
  | S room => (true, mkSink (sk_sent s ++ [m]) room (sk_closed s))
  end.

Definition sink_close (s : sink) : sink := mkSink (sk_sent s) (sk_room s) true.

(** What [ws_source.next()] yields; [None] at the end of the list. *)
Inductive ws_event : Type :=
| EvBinary (b : bytes)
| EvText (b : bytes)
| EvPing
| EvPong
| EvClose
| EvError.

(** [UploadCounter::add], on [u64]. *)
Definition counter_add (n : nat) (count : Z) : Z := count + Z.of_nat n.

Section bridge.
Context {C : Crypto} (usize_max : Z).
Local Open Scope run_scope.

(** ** bridge_ws, upload *)

(** The [for part in ..] loop: whether every part was sent. *)
Fixpoint send_parts (parts : list bytes) (s : sink) : bool * sink :=
  match parts with
  | [] => (true, s)
  | part :: parts =>
      match sink_send part s with
      | (true, s) => send_parts parts s
      | (false, s) => (false, s)
      end
  end.

(** [None] when the task returned on a failed send, else the splitter left by
    the loop. *)
Fixpoint ws_upload_loop (fuel : nat) (reader : ClientReader) (clt_dec tg_enc : cipher)
    (splitter : option MsgSplitter) (s : sink) (count : Z)
  : run (option (option MsgSplitter) * sink * Z) :=
  let! (chunk, reader) := client_read CLIENT_READ_BUF_SIZE reader in
  match chunk with
  | [] => Done (Some splitter, s, count)
  | _ =>
      match fuel with
      | O => OutOfFuel
      | S fuel =>
          let n := length chunk in
          let '(clt_dec, chunk) := apply_keystream clt_dec chunk in
          match splitter with
          | Some st =>
              let! r := split_and_encrypt usize_max st chunk tg_enc in
              let '(parts, st, chunk, tg_enc) := r in
              let '(sent, s) := send_parts parts s in
              if sent
              then ws_upload_loop fuel reader clt_dec tg_enc (Some st) s (counter_add n count)
              else Done (None, s, count)
          | None =>
              let '(tg_enc, chunk) := apply_keystream tg_enc chunk in
              let '(sent, s) := sink_send chunk s in
              if sent
              then ws_upload_loop fuel reader clt_dec tg_enc None s (counter_add n count)
              else Done (None, s, count)
          end
      end
  end.

(** The flush ignores the outcome of its sends. *)
Fixpoint send_ignoring (parts : list bytes) (s : sink) : sink :=
  match parts with
  | [] => s
  | part :: parts => send_ignoring parts (sink_send part s).2
  end.

Definition ws_upload (framing : WsFraming) (proto : ProtoTag) (relay_init : bytes)
    (ciphers : ConnectionCiphers) (reader : ClientReader) (s : sink) : run (sink * Z) :=
  let splitter := match framing with Packets => Some (splitter_new proto) | Tunnel => None end in
  let '(sent, s) := sink_send relay_init s in
  if negb sent then Done (s, 0)
  else
    let! r := ws_upload_loop (client_measure reader) reader (clt_dec ciphers) (tg_enc ciphers)
                splitter s 0 in
    match r with
    | (None, s, count) => Done (s, count)
    | (Some splitter, s, count) =>
        let parts := match splitter with Some st => (flush st).1 | None => [] end in
        Done (sink_close (send_ignoring parts s), count)
    end.

(** ** bridge_ws, download *)
Fixpoint ws_download_loop (source : list ws_event) (writer : ClientWriter) (tg_dec clt_enc : cipher)
    (bytes_down : Z) : run (ClientWriter * Z) :=
  match source with
  | EvBinary data :: source | EvText data :: source =>
      let '(tg_dec, data) := apply_keystream tg_dec data in
      let '(clt_enc, data) := apply_keystream clt_enc data in
      let! w := client_write_all writer data in
      match w with
      | None => Done (writer, bytes_down)
      | Some writer => ws_download_loop source writer tg_dec clt_enc (bytes_down + Zlen data)
      end
  | EvPing :: source | EvPong :: source =>
      ws_download_loop source writer tg_dec clt_enc bytes_down
  | EvClose :: _ | EvError :: _ | [] => Done (writer, bytes_down)
  end.

Definition ws_download (ciphers : ConnectionCiphers) (source : list ws_event) (writer : ClientWriter)
  : run (ClientWriter * Z) :=
  ws_download_loop source writer (tg_dec ciphers) (clt_enc ciphers) 0.

(** ** bridge_relay and bridge_tcp *)
Definition rem_write (faketls : bool) (t : tcp) (chunk : bytes) : run (option tcp) :=
  if faketls then write_tls_appdata tcp_write_all chunk t else Done (tcp_write_all t chunk).

Definition rem_read (faketls : bool) (t : tcp) : run (bytes * tcp) :=
  if faketls then
    let! (data, rest) := read_tls_appdata (TLS_MAX_RECORD_PAYLOAD + TLS_READ_HEADROOM) (t_in t) in
    Done (data, set_in rest t)
  else Done (tcp_read RELAY_BUF_SIZE t).

Fixpoint relay_upload_loop (fuel : nat) (faketls : bool) (reader : ClientReader)
    (clt_dec tg_enc : cipher) (rem_writer : tcp) (count : Z) : run (tcp * Z) :=
  let! (chunk, reader) := client_read CLIENT_READ_BUF_SIZE reader in
  match chunk with
  | [] => Done (rem_writer, count)
  | _ =>
      match fuel with
      | O => OutOfFuel
      | S fuel =>
          let n := length chunk in
          let '(clt_dec, chunk) := apply_keystream clt_dec chunk in
          let '(tg_enc, chunk) := apply_keystream tg_enc chunk in
          let! written := rem_write faketls rem_writer chunk in
          match written with
          | None => Done (rem_writer, count)
          | Some rem_writer =>
              relay_upload_loop fuel faketls reader clt_dec tg_enc rem_writer (counter_add n count)
          end
      end
  end.

Fixpoint relay_download_loop (fuel : nat) (faketls : bool) (rem_reader : tcp) (writer : ClientWriter)
    (tg_dec clt_enc : cipher) (bytes_down : Z) : run (ClientWriter * Z) :=
  let! (chunk, rem_reader) := rem_read faketls rem_reader in
  match chunk with
  | [] => Done (writer, bytes_down)
  | _ =>
      match fuel with
      | O => OutOfFuel
      | S fuel =>
          let n := length chunk in
          let '(tg_dec, chunk) := apply_keystream tg_dec chunk in
          let '(clt_enc, chunk) := apply_keystream clt_enc chunk in
          let! w := client_write_all writer chunk in
          match w with
          | None => Done (writer, bytes_down)
          | Some writer =>
              relay_download_loop fuel faketls rem_reader writer tg_dec clt_enc
                (counter_add n bytes_down)
          end
      end
  end.

(** The two directions of a relay through an upstream proxy: the client's pair
    of ciphers with the upstream session's, as [bridge_selected] combines them. *)
Definition bridge_relay (conn : UpstreamConnection) (ciphers : ConnectionCiphers)
    (reader : ClientReader) (writer : ClientWriter) : run ((tcp * Z) * (ClientWriter * Z)) :=
  let ciphers := mkConnectionCiphers (clt_dec ciphers) (clt_enc ciphers) (uc_enc conn) (uc_dec conn) in
  let! up := relay_upload_loop (client_measure reader) (uc_faketls conn) reader (clt_dec ciphers)
               (tg_enc ciphers) (uc_tcp conn) 0 in
  let! down := relay_download_loop (length (t_in (uc_tcp conn))) (uc_faketls conn) (uc_tcp conn) writer
                 (tg_dec ciphers) (clt_enc ciphers) 0 in
  Done (up, down).

(** [connected]: the outcome of the TCP connect to [dst:443]. *)
Definition bridge_tcp (connected : option tcp) (relay_init : bytes) (ciphers : ConnectionCiphers)
    (reader : ClientReader) (writer : ClientWriter) : run (option ((tcp * Z) * (ClientWriter * Z))) :=
  match connected with
  | None => Done None
  | Some remote =>
      match tcp_write_all remote relay_init with
      | None => Done None
      | Some remote =>
          let! up := relay_upload_loop (client_measure reader) false reader (clt_dec ciphers)
                       (tg_enc ciphers) remote 0 in
          let! down := relay_download_loop (length (t_in remote)) false remote writer
                         (tg_dec ciphers) (clt_enc ciphers) 0 in
          Done (Some (up, down))
      end
  end.
End bridge.

(** ** Lemmas: sending *)
Section sending.
Context {C : Crypto} `{!CryptoLaws C} (usize_max : Z) (Husize : 2 ^ 32 - 1 <= usize_max).

Definition sink_after (parts : list bytes) (s : sink) : sink :=
  mkSink (sk_sent s ++ take (sk_room s) parts) (sk_room s - length parts) (sk_closed s).

Lemma send_parts_spec parts s :
  send_parts parts s = ((length parts <=? sk_room s)%nat, sink_after parts s).
Proof.
  revert s. induction parts as [|m parts IH]; intros [sent room closed]; unfold sink_after; cbn [sk_sent sk_room sk_closed].
  - cbn [send_parts]. rewrite take_nil, app_nil_r, Nat.sub_0_r. done.
  - cbn [send_parts]. unfold sink_send. cbn [sk_room].
    destruct room as [|room]; [by rewrite take_0, app_nil_r|]. cbn [sk_sent sk_closed]. rewrite IH. unfold sink_after. cbn [sk_sent sk_room sk_closed length take Nat.leb Nat.sub].
    by rewrite <- app_assoc.
Qed.

Lemma send_ignoring_spec parts s : send_ignoring parts s = sink_after parts s.
Proof.
  revert s. induction parts as [|m parts IH]; intros [sent room closed]; unfold sink_after; cbn [sk_sent sk_room sk_closed].
  - cbn [send_ignoring]. by rewrite take_nil, app_nil_r, Nat.sub_0_r.
  - cbn [send_ignoring]. unfold sink_send. cbn [sk_room]. rewrite IH. unfold sink_after.
    destruct room as [|room]; cbn [snd sk_sent sk_room sk_closed length take Nat.sub].
    + by rewrite take_0.
    + by rewrite <- app_assoc.
Qed.

Lemma sink_after_app p1 p2 s :
  (length p1 <= sk_room s)%nat -> sink_after p2 (sink_after p1 s) = sink_after (p1 ++ p2) s.
Proof.
  intros H. unfold sink_after. cbn [sk_sent sk_room sk_closed].
  rewrite length_app, (take_ge p1) by done. rewrite <- app_assoc. f_equal; [|lia].
  f_equal. rewrite take_app_ge by done. done.
Qed.

Lemma sink_send_spec m s : sink_send m s = ((1 <=? sk_room s)%nat, sink_after [m] s).
Proof.
  pose proof (send_parts_spec [m] s) as E. cbn [send_parts length] in E.
  destruct (sink_send m s) as [[] ?]; done.
Qed.

(** The result of a loop that sends [parts], the bytes of [n] reads, and
    counts what it has sent. *)
Definition upload_result (parts : list bytes) (sp' : option MsgSplitter) (s : sink) (count n : Z)
    (r : run (option (option MsgSplitter) * sink * Z)) : Prop :=
  exists count', r =
    Done (if (length parts <=? sk_room s)%nat then Some sp' else None, sink_after parts s, count') /\
    count <= count' <= count + n /\
    ((length parts <= sk_room s)%nat -> count' = count + n).

Lemma upload_result_fits p1 p2 sp' s count n1 n2 r :
  0 <= n1 -> 0 <= n2 -> (length p1 <= sk_room s)%nat ->
  upload_result p2 sp' (sink_after p1 s) (count + n1) n2 r ->
  upload_result (p1 ++ p2) sp' s count (n1 + n2) r.
Proof.
  intros H1 H2 Hl (count' & -> & Hc & Hf). exists count'.
  rewrite sink_after_app by done. cbn [sink_after sk_room] in *. rewrite length_app.
  replace (length p2 <=? sk_room s - length p1)%nat with (length p1 + length p2 <=? sk_room s)%nat
    by (apply eq_true_iff_eq; rewrite !Nat.leb_le; lia).
  split_and!; [done|lia|lia|]. intros. rewrite Hf by lia. lia.
Qed.

Lemma upload_result_breaks p1 p2 sp' s count n :
  0 <= n -> (sk_room s < length p1)%nat ->
  upload_result (p1 ++ p2) sp' s count n (Done (None, sink_after p1 s, count)).
Proof.
  intros Hn Hl. exists count. rewrite (proj2 (Nat.leb_gt _ _)) by len.
  split_and!; [|lia|lia|rewrite length_app; lia].
  do 3 f_equal. unfold sink_after. rewrite length_app, take_app_le by lia. f_equal. lia.
Qed.

(** *** The messages of a whole upload *)

(** What the loop sends for the decrypted reads [plains]. *)
Definition all_parts (sp : option MsgSplitter) (plains : list bytes) (enc : cipher)
  : run (list bytes * option MsgSplitter) :=
  match sp with
  | Some st => run_bind (split_all usize_max st plains enc) (fun r => Done (r.1.1, Some r.1.2))
  | None => Done (decrypt_msgs enc plains, None)
  end.

Lemma decrypt_msgs_nonempty c chunks :
  Forall nonempty chunks -> Forall nonempty (decrypt_msgs c chunks).
Proof.
  intros HF. revert c. induction HF as [|m ms Hm HF IH]; intros c; simpl; constructor; [|done].
  intros E. destruct Hm. apply nil_length_inv. by rewrite <- (length_encrypt c), E.
Qed.

Lemma read_all_nonempty fuel b r chunks :
  read_all fuel b r = Done chunks -> Forall nonempty chunks.
Proof.
  revert r chunks. induction fuel as [|fuel IH]; intros r chunks H; cbn [read_all] in H;
    apply run_bind_Done in H as ([data r'] & _ & H); cbn [fst snd] in H;
    (destruct data as [|x data]; [simplify_eq; by constructor|]); [done|].
  apply run_bind_Done in H as (l & El & H). injection H as <-. constructor; [done|by eapply IH].
Qed.

(** The loop over the client's reads [chunks]. *)
Lemma ws_upload_loop_spec fuel reader dec enc sp s count chunks parts sp' :
  read_all fuel CLIENT_READ_BUF_SIZE reader = Done chunks ->
  all_parts sp (decrypt_msgs dec chunks) enc = Done (parts, sp') ->
  upload_result parts sp' s count (Zlen (concat chunks))
    (ws_upload_loop usize_max fuel reader dec enc sp s count).
Proof.
  revert reader dec enc sp s count chunks parts. induction fuel as [|fuel IH];
    intros reader dec enc sp s count chunks parts Hr Hp; cbn [read_all] in Hr;
    apply run_bind_Done in Hr as ([chunk r'] & Er & Hr); cbn [fst snd] in Hr;
    cbn [ws_upload_loop]; rewrite Er; cbn [run_bind].
  1, 2: destruct chunk as [|b chunk];
    [injection Hr as <-; assert (parts = [] /\ sp' = sp) as [-> ->]
       by (destruct sp; cbn in Hp; by simplify_eq);
     exists count; unfold sink_after; rewrite take_nil, app_nil_r, Nat.sub_0_r; cbn [length Nat.leb concat];
     destruct s; split_and!; try done; unfold Zlen; simpl; lia|].
  { done. }
  apply run_bind_Done in Hr as (rest & El & Hr). injection Hr as <-.
  remember (b :: chunk) as ch eqn:Ech. clear b chunk Ech.
  unfold apply_keystream. rewrite cipher_apply_encrypt. cbn [decrypt_msgs concat] in *.
  assert (Zlen (ch ++ concat rest) = Z.of_nat (length ch) + Zlen (concat rest)) as -> by (unfold Zlen; len).
  pose proof (Zlen_range (concat rest)). unfold counter_add.
  destruct sp as [st|].
  - cbn [all_parts split_all] in Hp. apply run_bind_Done in Hp as ([[ps st2] c2] & Hs & Hp).
    apply run_bind_Done in Hs as ([[[p1 st1] buf1] c1] & E1 & Hs). rewrite E1. cbn [run_bind].
    apply run_bind_Done in Hs as ([[p2 st2'] c2'] & E2 & Hs). simplify_eq/=.
    rewrite send_parts_spec. destruct (length p1 <=? sk_room s)%nat eqn:Es; boolify.
    + apply upload_result_fits; [lia..|]. apply IH; [done|]. cbn [all_parts]. by rewrite E2.
    + apply upload_result_breaks; lia.
  - cbn [all_parts] in Hp. injection Hp as <- <-. rewrite cipher_apply_encrypt, sink_send_spec.
    cbn [decrypt_msgs]. set (m := encrypt enc (encrypt dec ch)). set (l := decrypt_msgs _ _).
    change (m :: l) with ([m] ++ l). destruct (1 <=? sk_room s)%nat eqn:Es; boolify.
    + apply upload_result_fits; [lia|lia|simpl; lia|]. by apply IH.
    + apply upload_result_breaks; simpl; lia.
Qed.
End sending.

(** ** Reference: pumping a stream

    Every other direction decrypts a chunk, re-encrypts it and writes it, until
    a write fails. *)
Section pump.
Context {C : Crypto} `{!CryptoLaws C}.

Fixpoint pump (faketls : bool) (chunks : list bytes) (dec enc : cipher) (t : tcp) (count : Z)
  : run (tcp * Z) :=
  match chunks with
  | [] => Done (t, count)
  | chunk :: chunks =>
      run_bind (rem_write faketls t (encrypt enc (encrypt dec chunk))) (fun r =>
        match r with
        | None => Done (t, count)
        | Some t => pump faketls chunks (advance dec (length chunk)) (advance enc (length chunk)) t
                      (counter_add (length chunk) count)
        end)
  end.

(** The bytes [data] on the wire: as they are, or in Application Data records. *)
Definition carries (faketls : bool) (wire data : bytes) : Prop :=
  if faketls then exists payloads, wire = appdata_records payloads /\ concat payloads = data /\
    Forall (fun p => 0 < Zlen p <= TLS_MAX_RECORD_PAYLOAD) payloads
  else wire = data.

Lemma carries_nil f : carries f [] [].
Proof. destruct f; [by exists []|done]. Qed.

Lemma carries_app f w1 d1 w2 d2 :
  carries f w1 d1 -> carries f w2 d2 -> carries f (w1 ++ w2) (d1 ++ d2).
Proof.
  destruct f; simpl; [|by intros -> ->].
  intros (p1 & -> & <- & H1) (p2 & -> & <- & H2). exists (p1 ++ p2).
  unfold appdata_records. rewrite map_app, !concat_app. split_and!; try done. by apply Forall_app.
Qed.

(** Six bytes of room per byte of data are enough for any record cutting. *)
Lemma write_appdata_room fuel data offset t :
  (length data - offset <= fuel)%nat -> (offset <= length data)%nat ->
  (6 * (length data - offset) <= t_room t)%nat ->
  exists t', write_appdata_loop tcp_write_all fuel data offset t = Done (Some t') /\
    (t_room t - 6 * (length data - offset) <= t_room t')%nat.
Proof.
  revert offset t. induction fuel as [|fuel IH]; intros offset t Hf Ho Hr; cbn [write_appdata_loop];
    destruct (offset <? length data)%nat eqn:El; boolify; try lia; try (exists t; split; [done|lia]).
  assert (0 < Z.to_nat TLS_MAX_APPDATA_WRITE)%nat as HM.
  { unfold TLS_MAX_APPDATA_WRITE, TLS_MAX_RECORD_PAYLOAD. lia. }
  set (end_ := Nat.min (offset + Z.to_nat TLS_MAX_APPDATA_WRITE) (length data)).
  assert (length (slice offset end_ data) = end_ - offset)%nat as Lc by (apply length_slice; lia).
  unfold tcp_write_all at 1. cbn [length]. rewrite (proj2 (Nat.leb_le _ _)) by lia.
  unfold tcp_write_all at 1. cbn [t_room]. rewrite Lc, (proj2 (Nat.leb_le _ _)) by lia.
  destruct (IH end_ (mkTcp (t_in t) (t_cuts t) ((t_out t ++ [TLS_RECORD_APPLICATION_DATA; 3; 3;
    u8_of (Z.shiftr (Zlen (slice offset end_ data)) 8); u8_of (Zlen (slice offset end_ data))])
    ++ slice offset end_ data) (t_room t - 5 - (end_ - offset)))) as (t' & E & Hroom);
    [lia|lia|cbn [t_room]; lia|]. exists t'. split; [done|]. cbn [t_room] in Hroom. lia.
Qed.

Lemma write_appdata_in fuel data offset t t' :
  write_appdata_loop tcp_write_all fuel data offset t = Done (Some t') ->
  t_in t' = t_in t /\ t_cuts t' = t_cuts t.
Proof.
  revert offset t. induction fuel as [|fuel IH]; intros offset t H; cbn [write_appdata_loop] in H;
    case_test; simplify_eq; try done.
  unfold tcp_write_all in H. case_test; simplify_eq. case_test; simplify_eq.
  by apply IH in H as [-> ->].
Qed.

Lemma rem_write_spec f t d :
  exists r, rem_write f t d = Done r /\
    (forall t', r = Some t' -> t_in t' = t_in t /\
       exists wire, t_out t' = t_out t ++ wire /\ carries f wire d) /\
    ((6 * length d <= t_room t)%nat -> exists t', r = Some t' /\
       (t_room t - 6 * length d <= t_room t')%nat).
Proof.
  destruct f; cbn [rem_write].
  - destruct (write_appdata_loop_spec tcp_write_all t_out) with (fuel := length d) (data := d) (offset := 0%nat)
      as (ps & E & HF & HW); [|lia|lia|].
    { intros w b w'. unfold tcp_write_all. case_test; intros; by simplify_eq. }
    destruct (HW t) as (r & Er & Hr & _). exists r. split; [done|]. split.
    + intros t' ->. apply write_appdata_in in Er as Hin. split; [by destruct Hin|].
      exists (appdata_records ps). split; [by apply Hr|]. by exists ps.
    + intros Hroom. destruct (write_appdata_room (length d) d 0 t) as (t' & E' & Hr'); [lia..|].
      unfold write_tls_appdata in Er. rewrite Er in E'. injection E' as ->. exists t'.
      split; [done|]. lia.
  - exists (tcp_write_all t d). split; [done|]. unfold tcp_write_all. split.
    + case_test; intros; simplify_eq. split; [done|]. by exists d.
    + intros. rewrite (proj2 (Nat.leb_le _ _)) by lia. eexists. split; [done|]. simpl. lia.
Qed.

(** The pump delivers a prefix of the chunks, all of them while writes succeed. *)
Lemma pump_spec f chunks dec enc t count :
  exists k t', pump f chunks dec enc t count = Done (t', count + Zlen (concat (take k chunks))) /\
    t_in t' = t_in t /\
    (exists wire, t_out t' = t_out t ++ wire /\
       carries f wire (encrypt enc (encrypt dec (concat (take k chunks))))) /\
    ((6 * length (concat chunks) <= t_room t)%nat -> take k chunks = chunks).
Proof.
  revert dec enc t count. induction chunks as [|ch chunks IH]; intros dec enc t count; cbn [pump].
  { exists 0%nat, t. rewrite Z.add_0_r. split_and!; try done. exists []. rewrite app_nil_r. split; [done|].
    simpl. rewrite !encrypt_nil. apply carries_nil. }
  set (d := encrypt enc (encrypt dec ch)).
  assert (length d = length ch) as Ld by (unfold d; by rewrite !length_encrypt).
  destruct (rem_write_spec f t d) as (r & -> & HW & HR). cbn [run_bind].
  destruct r as [t1|].
  - destruct (HW t1 eq_refl) as (Hin & wire & Hout & HC).
    destruct (IH (advance dec (length ch)) (advance enc (length ch)) t1 (counter_add (length ch) count))
      as (k & t' & -> & Hin' & (wire' & Hout' & HC') & Hall).
    exists (S k), t'. cbn [take concat]. split_and!; try congruence.
    + do 2 f_equal. unfold counter_add, Zlen. rewrite length_app. lia.
    + exists (wire ++ wire'). rewrite Hout', Hout, <- app_assoc. split; [done|].
      rewrite (encrypt_app dec), (encrypt_app enc), length_encrypt. by apply carries_app.
    + intros Hroom. cbn [concat] in Hroom. rewrite length_app in Hroom.
      destruct HR as (t1' & [= <-] & Hr1); [lia|]. f_equal. apply Hall. lia.
  - exists 0%nat, t. rewrite Z.add_0_r. split_and!; try done.
    + exists []. rewrite app_nil_r. split; [done|]. simpl. rewrite !encrypt_nil. apply carries_nil.
    + intros Hroom. cbn [concat] in Hroom. rewrite length_app in Hroom.
      destruct HR as (t1' & ? & _); [lia|done].
Qed.

(** *** The loops are pumps *)
Definition writer_faketls (w : ClientWriter) : bool :=
  match w with PlainWriter _ => false | FakeTlsWriter _ => true end.
Definition writer_tcp (w : ClientWriter) : tcp :=
  match w with PlainWriter t | FakeTlsWriter t => t end.
Definition set_writer (w : ClientWriter) (t : tcp) : ClientWriter :=
  match w with PlainWriter _ => PlainWriter t | FakeTlsWriter _ => FakeTlsWriter t end.

Lemma client_write_rem w d :
  client_write_all w d =
  run_bind (rem_write (writer_faketls w) (writer_tcp w) d) (fun r =>
    Done (match r with Some t => Some (set_writer w t) | None => None end)).
Proof. by destruct w. Qed.

Lemma relay_upload_pump fuel f reader dec enc t count chunks :
  read_all fuel CLIENT_READ_BUF_SIZE reader = Done chunks ->
  relay_upload_loop fuel f reader dec enc t count = pump f chunks dec enc t count.
Proof.
  revert reader dec enc t count chunks. induction fuel as [|fuel IH];
    intros reader dec enc t count chunks Hr; cbn [read_all] in Hr;
    apply run_bind_Done in Hr as ([chunk r'] & Er & Hr); cbn [fst snd] in Hr;
    cbn [relay_upload_loop]; rewrite Er; cbn [run_bind];
    (destruct chunk as [|b chunk]; [by injection Hr as <-|]); [done|].
  apply run_bind_Done in Hr as (rest & El & Hr). injection Hr as <-. cbn [pump].
  unfold apply_keystream. rewrite cipher_apply_encrypt, cipher_apply_encrypt, length_encrypt.
  destruct (rem_write _ _ _) as [[t'|]| |]; cbn [run_bind]; try done. by apply IH.
Qed.

(** What the far end's reader is, in terms of the client's. *)
Definition rem_as_reader (f : bool) (t : tcp) : ClientReader :=
  if f then FakeTlsReader t pending_default else PlainReader t.
Definition rem_buf (f : bool) : nat := if f then CLIENT_READ_BUF_SIZE else RELAY_BUF_SIZE.

Lemma rem_read_client f t :
  rem_read f t = run_bind (client_read (rem_buf f) (rem_as_reader f t)) (fun r =>
    Done (r.1, match r.2 with PlainReader t | FakeTlsReader t _ => t end)) /\
  (forall d r, client_read (rem_buf f) (rem_as_reader f t) = Done (d, r) ->
     r = rem_as_reader f (match r with PlainReader t | FakeTlsReader t _ => t end)).
Proof.
  destruct f; unfold rem_read, rem_as_reader, rem_buf; cbn [client_read].
  - change (pending_read CLIENT_READ_BUF_SIZE pending_default) with (@None bytes, pending_default).
    cbv iota beta. rewrite client_buf_size. unfold MAX_INBOUND_PAYLOAD.
    destruct (read_tls_appdata _ _) as [[d rest]| |]; cbn [run_bind]; split; try done.
    intros d' r [= <- <-]. done.
  - split; [by destruct (tcp_read RELAY_BUF_SIZE t)|].
    intros d r. destruct (tcp_read RELAY_BUF_SIZE t). intros [= <- <-]. done.
Qed.

Lemma relay_download_pump fuel f rem w dec enc count chunks :
  read_all fuel (rem_buf f) (rem_as_reader f rem) = Done chunks ->
  relay_download_loop fuel f rem w dec enc count =
  run_bind (pump (writer_faketls w) chunks dec enc (writer_tcp w) count) (fun r =>
    Done (set_writer w r.1, r.2)).
Proof.
  revert rem w dec enc count chunks. induction fuel as [|fuel IH];
    intros rem w dec enc count chunks Hr; cbn [read_all] in Hr;
    apply run_bind_Done in Hr as ([chunk r'] & Er & Hr); cbn [fst snd] in Hr;
    cbn [relay_download_loop]; destruct (rem_read_client f rem) as [-> Hr']; rewrite Er; cbn [run_bind fst snd];
    (destruct chunk as [|b chunk]; [injection Hr as <-; by destruct w|]); [done|].
  apply run_bind_Done in Hr as (rest & El & Hr). injection Hr as <-. cbn [pump].
  unfold apply_keystream. rewrite cipher_apply_encrypt, cipher_apply_encrypt, length_encrypt.
  rewrite client_write_rem.
  destruct (rem_write _ _ _) as [[t'|]| |]; cbn [run_bind fst snd]; try done.
  - rewrite (IH _ _ _ _ _ rest); [by destruct w|]. by rewrite <- (Hr' _ _ Er).
  - by destruct w.
Qed.

(** The payloads a WebSocket source yields before it ends. *)
Fixpoint ws_payloads (source : list ws_event) : list bytes :=
  match source with
  | EvBinary b :: source | EvText b :: source => b :: ws_payloads source
  | EvPing :: source | EvPong :: source => ws_payloads source
  | EvClose :: _ | EvError :: _ | [] => []
  end.

Lemma ws_download_pump source w dec enc count :
  ws_download_loop source w dec enc count =
  run_bind (pump (writer_faketls w) (ws_payloads source) dec enc (writer_tcp w) count) (fun r =>
    Done (set_writer w r.1, r.2)).
Proof.
  revert w dec enc count. induction source as [|[b|b| | | |] source IH]; intros w dec enc count;
    cbn [ws_download_loop ws_payloads pump]; try done; try (by destruct w);
    unfold apply_keystream; rewrite cipher_apply_encrypt, cipher_apply_encrypt, length_encrypt;
    rewrite client_write_rem;
    (destruct (rem_write _ _ _) as [[t'|]| |]; cbn [run_bind fst snd]; [|by destruct w|done|done]);
    rewrite IH; destruct w; cbn [writer_faketls writer_tcp set_writer];
    unfold Zlen, counter_add; by rewrite !length_encrypt.
Qed.
End pump.

(** ** Lemmas: the client's stream *)
Section streams.
Context {C : Crypto} `{!CryptoLaws C}.

(** The session reads exactly [data] from the client before it stops. *)
Definition client_sends (reader : ClientReader) (data : bytes) : Prop :=
  exists chunks, read_all (client_measure reader) CLIENT_READ_BUF_SIZE reader = Done chunks /\
    concat chunks = data.

Lemma client_buf_pos : (0 < CLIENT_READ_BUF_SIZE)%nat.
Proof.
  pose proof client_buf_size as E.
  unfold MAX_INBOUND_PAYLOAD, TLS_MAX_RECORD_PAYLOAD, TLS_READ_HEADROOM in E. lia.
Qed.

Lemma relay_buf_pos : (0 < RELAY_BUF_SIZE)%nat.
Proof. unfold RELAY_BUF_SIZE. lia. Qed.

Lemma plain_client_sends t : client_sends (PlainReader t) (t_in t).
Proof.
  destruct (read_all_total (client_measure (PlainReader t)) CLIENT_READ_BUF_SIZE (PlainReader t))
    as [chunks E]; [done|apply client_buf_pos|done|].
  exists chunks. split; [done|]. by apply read_all_plain in E; [|apply client_buf_pos].
Qed.

Lemma concat_decrypt_msgs c chunks : concat (decrypt_msgs c chunks) = encrypt c (concat chunks).
Proof. rewrite <- (encrypt_msgs_concat c chunks). by rewrite encrypt_involutive. Qed.

Lemma read_appdata_bounded fuel buf_len reader data rest :
  0 <= buf_len -> read_appdata_loop fuel buf_len reader = Done (data, rest) -> Zlen data <= buf_len.
Proof.
  intros Hb. revert reader. induction fuel as [|fuel IH]; intros reader H; [done|].
  cbn [read_appdata_loop] in H.
  destruct (read_exact 5 reader) as [[header r]|] eqn:E; [|by simplify_eq].
  repeat case_test; simplify_eq; try done; boolify;
    (destruct (read_exact _ r) as [[p r']|] eqn:E'; [|by simplify_eq]).
  - simplify_eq. apply read_exact_Some in E' as [_ L]. unfold Zlen. lia.
  - by eapply IH.
Qed.

Lemma client_read_bounded b r data r' :
  client_read b r = Done (data, r') -> (length data <= b)%nat.
Proof.
  destruct r as [t|t p]; cbn [client_read].
  - unfold tcp_read. intros [= <- <-]. rewrite length_take. lia.
  - unfold pending_read. destruct (length (pd_data p) <? pd_offset p)%nat; [|destruct (drop _ _)];
      try (intros H; apply run_bind_Done in H as ([d rest] & E & H); injection H as <- <-;
           apply read_appdata_bounded in E; [unfold Zlen in E; lia|lia]).
    intros [= <- <-]. rewrite length_take. lia.
Qed.

Lemma read_all_bounded fuel b r chunks :
  read_all fuel b r = Done chunks -> Forall (fun c => (length c <= b)%nat) chunks.
Proof.
  revert r chunks. induction fuel as [|fuel IH]; intros r chunks H; cbn [read_all] in H;
    apply run_bind_Done in H as ([data r'] & Er & H); cbn [fst snd] in H;
    (destruct data as [|x data]; [injection H as <-; constructor|]); [done|].
  apply run_bind_Done in H as (l & El & H). injection H as <-.
  constructor; [by eapply client_read_bounded|by eapply IH].
Qed.

Lemma length_decrypt_msgs c l : length <$> decrypt_msgs c l = length <$> l.
Proof. revert c. induction l as [|m l IH]; intros c; simpl; [done|]. by rewrite length_encrypt, IH. Qed.

(** The whole upload task over the reads [chunks]. *)
Lemma ws_upload_spec usize_max framing proto relay_init cc reader s chunks parts sp' :
  read_all (client_measure reader) CLIENT_READ_BUF_SIZE reader = Done chunks ->
  all_parts usize_max (match framing with Packets => Some (splitter_new proto) | Tunnel => None end)
    (decrypt_msgs (clt_dec cc) chunks) (tg_enc cc) = Done (parts, sp') ->
  let last := match sp' with Some st => (flush st).1 | None => [] end in
  exists s' count, ws_upload usize_max framing proto relay_init cc reader s = Done (s', count) /\
    sk_sent s' = sk_sent s ++ take (sk_room s) (relay_init :: parts ++ last) /\
    ((S (length parts) <= sk_room s)%nat -> sk_closed s' = true /\ count = Zlen (concat chunks)).
Proof.
  intros Hr Hp last. unfold ws_upload. rewrite sink_send_spec.
  destruct (1 <=? sk_room s)%nat eqn:E1; boolify; cbn [negb].
  2: { eexists _, _. split; [done|]. split; [|lia]. unfold sink_after. cbn [sk_sent].
       replace (sk_room s) with 0%nat by lia. done. }
  destruct (ws_upload_loop_spec usize_max (client_measure reader) reader (clt_dec cc) (tg_enc cc) _
    (sink_after [relay_init] s) 0 chunks parts sp' Hr Hp) as (count & -> & _ & Hc).
  cbn [run_bind]. rewrite sink_after_app by done. cbn [app].
  assert (sk_room (sink_after [relay_init] s) = sk_room s - 1)%nat as Ero by done. rewrite Ero in *.
  destruct (length parts <=? sk_room s - 1)%nat eqn:Ep; boolify.
  - fold last. rewrite send_ignoring_spec, sink_after_app by (cbn [length]; lia).
    eexists _, _. split; [done|]. split; [done|]. intros _. split; [done|]. rewrite Hc by lia. lia.
  - eexists _, _. split; [done|]. split; [|lia]. unfold sink_after. cbn [sk_sent]. f_equal.
    rewrite app_comm_cons. rewrite take_app_le by (cbn [length]; lia). done.
Qed.
End streams.

(** ** Properties *)
Section bridge_properties.
Context {C : Crypto} `{!CryptoLaws C} (usize_max : Z) (Husize : 2 ^ 32 - 1 <= usize_max).

(** A session set up as the client handler does it: the client's end keeps
    [enc] and [dec], Telegram's end derives [rx] and [tx] from the relay init,
    and the proxy builds its four ciphers from the two inits. *)
Definition session (secret : bytes) (relay_init : bytes) (enc dec rx tx : cipher)
    (cc : ConnectionCiphers) : Prop :=
  exists dc_idx proto tape hs tape',
    generate_client_handshake secret dc_idx proto tape = Done (hs, enc, dec, tape') /\
    build_connection_ciphers (slice 8 56 hs) secret relay_init = Done cc /\
    length relay_init = 64%nat /\ telegram_ciphers relay_init = Some (rx, tx).

Lemma session_mirror secret relay_init enc dec rx tx cc :
  session secret relay_init enc dec rx tx cc ->
  clt_dec cc = enc /\ clt_enc cc = dec /\ tg_enc cc = rx /\ tg_dec cc = tx.
Proof.
  intros (dc & proto & tape & hs & tape' & Hg & Hb & L & Ht).
  destruct (session_ciphers _ _ _ _ _ _ _ _ relay_init Hg L) as (cc' & Hb' & H1 & H2 & H3).
  rewrite Hb in Hb'. injection Hb' as <-. rewrite Ht in H3. injection H3 as -> ->. done.
Qed.

(** *** The bridges end on any bytes *)
Lemma reads_total reader :
  reader_ok reader -> exists chunks,
    read_all (client_measure reader) CLIENT_READ_BUF_SIZE reader = Done chunks.
Proof. intros Hr. by apply read_all_total; [|apply client_buf_pos|]. Qed.

Lemma ws_upload_total framing proto relay_init cc reader s :
  reader_ok reader -> bytes_ok (reader_bytes reader) ->
  exists s' count, ws_upload usize_max framing proto relay_init cc reader s = Done (s', count) /\
    exists k, sk_sent s' = sk_sent s ++ take (sk_room s) (relay_init :: k).
Proof.
  intros Hr Hb. destruct (reads_total reader Hr) as [chunks E].
  apply read_all_ok in E as Hok; [|done|apply client_buf_pos|done].
  assert (exists parts sp', all_parts usize_max
    (match framing with Packets => Some (splitter_new proto) | Tunnel => None end)
    (decrypt_msgs (clt_dec cc) chunks) (tg_enc cc) = Done (parts, sp')) as (parts & sp' & Ep).
  { destruct framing; [|by eexists _, _].
    destruct (split_all_total usize_max Husize (splitter_new proto) []
      (decrypt_msgs (clt_dec cc) chunks) (tg_enc cc)) as (parts & st & E1 & _);
      [apply rep_new| |by rewrite encrypt_nil|].
    - apply Forall_concat. rewrite concat_decrypt_msgs. by apply encrypt_ok, Forall_concat.
    - simpl in E1. rewrite advance_0 in E1. cbn [all_parts]. rewrite E1. by eexists _, _. }
  destruct (ws_upload_spec usize_max framing proto relay_init cc reader s chunks parts sp' E Ep)
    as (s' & count & E' & Hs & _). exists s', count. split; [done|]. by eexists.
Qed.

Lemma relay_upload_total f reader dec enc t :
  reader_ok reader -> returns (relay_upload_loop (client_measure reader) f reader dec enc t 0).
Proof.
  intros Hr. destruct (reads_total reader Hr) as [chunks E].
  rewrite (relay_upload_pump _ f _ _ _ _ _ _ E).
  destruct (pump_spec f chunks dec enc t 0) as (k & t' & -> & _). apply returns_Done.
Qed.

Lemma relay_download_total f rem w dec enc :
  returns (relay_download_loop (length (t_in rem)) f rem w dec enc 0).
Proof.
  destruct (read_all_total (length (t_in rem)) (rem_buf f) (rem_as_reader f rem)) as [chunks E].
  - destruct f; simpl; [lia|done].
  - destruct f; [apply client_buf_pos|apply relay_buf_pos].
  - by destruct f.
  - rewrite (relay_download_pump _ f _ _ _ _ _ _ E).
    destruct (pump_spec (writer_faketls w) chunks dec enc (writer_tcp w) 0) as (k & t' & -> & _).
    apply returns_Done.
Qed.

Lemma ws_download_total cc source writer : returns (ws_download cc source writer).
Proof.
  unfold ws_download. rewrite ws_download_pump.
  destruct (pump_spec (writer_faketls writer) (ws_payloads source) (tg_dec cc) (clt_enc cc)
    (writer_tcp writer) 0) as (k & t' & -> & _). apply returns_Done.
Qed.

Lemma bridge_relay_total conn cc reader writer :
  reader_ok reader -> returns (bridge_relay conn cc reader writer).
Proof.
  intros Hr. unfold bridge_relay.
  apply returns_bind; [by apply relay_upload_total|]. intros up _.
  apply returns_bind; [apply relay_download_total|]. intros. apply returns_Done.
Qed.

Lemma bridge_tcp_total connected relay_init cc reader writer :
  reader_ok reader -> returns (bridge_tcp connected relay_init cc reader writer).
Proof.
  intros Hr. unfold bridge_tcp. destruct connected as [t|]; [|apply returns_Done].
  destruct (tcp_write_all t relay_init) as [t'|]; [|apply returns_Done].
  apply returns_bind; [by apply relay_upload_total|]. intros up _.
  apply returns_bind; [apply relay_download_total|]. intros. apply returns_Done.
Qed.

(** C1. End-to-end upload over Telegram's WebSocket: whatever the client
    encrypts, framed as the packets [frames] and an unfinished [left], Telegram
    receives the relay init and then one message per packet, which it decrypts
    to exactly those packets; a breaking connection only cuts this sequence
    short.  When it holds, the socket is closed at the end and the byte count
    logged is the client's. *)
Theorem ws_upload_packets secret proto relay_init enc dec rx tx cc reader plain frames left s :
  session secret relay_init enc dec rx tx cc ->
  client_sends reader (encrypt enc plain) -> bytes_ok plain -> framing proto plain frames left false ->
  exists s' count msgs, ws_upload usize_max Packets proto relay_init cc reader s = Done (s', count) /\
    sk_sent s' = sk_sent s ++ take (sk_room s) (relay_init :: msgs) /\
    decrypt_msgs rx msgs = frames ++ filter nonempty [left] /\
    ((S (length msgs) <= sk_room s)%nat -> sk_closed s' = true /\ count = Zlen plain).
Proof.
  intros (<- & <- & <- & <-)%session_mirror (chunks & Hr & Hcat) Hok HF.
  set (plains := decrypt_msgs (clt_dec cc) chunks).
  assert (concat plains = plain) as Hpl by (unfold plains; by rewrite concat_decrypt_msgs, Hcat, encrypt_involutive).
  rewrite <- Hpl in HF, Hok. apply Forall_concat in Hok.
  destruct (split_all_good usize_max Husize (splitter_new proto) [] plains (tg_enc cc) frames left)
    as (parts & st & E & HD & HL & HP & HR & _);
    [apply rep_new|done|by rewrite encrypt_nil|done|].
  simpl in E. rewrite advance_0 in E.
  destruct (ws_upload_spec usize_max Packets proto relay_init cc reader s chunks parts (Some st) Hr)
    as (s' & count & E' & Hsent & Hend); [cbn [all_parts]; fold plains; by rewrite E|].
  exists s', count, (parts ++ (flush st).1). split_and!; try done.
  - rewrite decrypt_msgs_app, HD, flush_packet, HP, (length_concat_eq _ _ HL). f_equal.
    destruct left as [|b left]; [by rewrite encrypt_nil|].
    rewrite !filter_cons_True; [|done|].
    + simpl. by rewrite encrypt_involutive.
    + intros E0. apply (f_equal length) in E0. by rewrite length_encrypt in E0.
  - intros Hroom. rewrite length_app in Hroom. destruct Hend as [? ->]; [lia|]. split; [done|].
    rewrite Hcat. unfold Zlen. by rewrite length_encrypt.
Qed.

(** End-to-end upload through a Worker tunnel: the messages after the relay
    init decrypt to the client's plaintext, none is empty, and none is longer
    than one client read, far below the 1 MiB message limit of the tunnel. *)
Theorem ws_upload_tunnel secret proto relay_init enc dec rx tx cc reader plain s :
  session secret relay_init enc dec rx tx cc -> client_sends reader (encrypt enc plain) ->
  exists s' count msgs, ws_upload usize_max Tunnel proto relay_init cc reader s = Done (s', count) /\
    sk_sent s' = sk_sent s ++ take (sk_room s) (relay_init :: msgs) /\
    concat (decrypt_msgs rx msgs) = plain /\
    Forall (fun m => m <> [] /\ Zlen m <= 2 ^ 14 + 256) msgs /\
    ((S (length msgs) <= sk_room s)%nat -> sk_closed s' = true /\ count = Zlen plain).
Proof.
  intros (<- & <- & <- & <-)%session_mirror (chunks & Hr & Hcat).
  set (plains := decrypt_msgs (clt_dec cc) chunks).
  destruct (ws_upload_spec usize_max Tunnel proto relay_init cc reader s chunks
    (decrypt_msgs (tg_enc cc) plains) None Hr) as (s' & count & E' & Hsent & Hend); [done|].
  exists s', count, (decrypt_msgs (tg_enc cc) plains). rewrite app_nil_r in Hsent. split_and!; try done.
  - rewrite !concat_decrypt_msgs, encrypt_involutive. unfold plains.
    by rewrite concat_decrypt_msgs, Hcat, encrypt_involutive.
  - assert (length <$> decrypt_msgs (tg_enc cc) plains = length <$> chunks) as EL
      by (unfold plains; by rewrite !length_decrypt_msgs).
    apply Forall_forall. intros m Hm. split.
    + assert (Forall nonempty (decrypt_msgs (tg_enc cc) plains)) as HN
        by (apply decrypt_msgs_nonempty, decrypt_msgs_nonempty; by eapply read_all_nonempty).
      rewrite List.Forall_forall in HN. by apply HN.
    + pose proof (read_all_bounded _ _ _ _ Hr) as HB.
      assert (length m ∈ length <$> chunks) as Hin.
      { rewrite <- EL. apply list_elem_of_fmap. exists m. split; [done|]. by apply list_elem_of_In. }
      apply list_elem_of_fmap in Hin as (c & Elen & Hc). apply list_elem_of_In in Hc.
      rewrite List.Forall_forall in HB. apply HB in Hc. unfold Zlen. rewrite Elen.
      pose proof client_buf_size as Ez.
      unfold MAX_INBOUND_PAYLOAD, TLS_MAX_RECORD_PAYLOAD, TLS_READ_HEADROOM in Ez. lia.
  - intros Hroom. destruct Hend as [? ->]; [lia|]. split; [done|].
    rewrite Hcat. unfold Zlen. by rewrite length_encrypt.
Qed.

(** C16. End-to-end download over a WebSocket: when Telegram's messages up to
    the close carry its encryption of [answer], the client receives, raw or in
    Application Data records, bytes it decrypts to [answer]; a client that goes
    away has received the start of it, whole messages. *)
Theorem ws_download_delivers secret relay_init enc dec rx tx cc source writer answer :
  session secret relay_init enc dec rx tx cc -> concat (ws_payloads source) = encrypt tx answer ->
  exists k w' wire data,
    ws_download cc source writer = Done (w', Zlen data) /\
    t_out (writer_tcp w') = t_out (writer_tcp writer) ++ wire /\
    carries (writer_faketls writer) wire data /\
    encrypt dec data = take (length (concat (take k (ws_payloads source)))) answer /\
    ((6 * length answer <= t_room (writer_tcp writer))%nat -> encrypt dec data = answer).
Proof.
  intros (_ & <- & _ & <-)%session_mirror Hcat. unfold ws_download. rewrite ws_download_pump.
  destruct (pump_spec (writer_faketls writer) (ws_payloads source) (tg_dec cc) (clt_enc cc)
    (writer_tcp writer) 0) as (k & t' & -> & _ & (wire & Hout & HC) & Hall).
  cbn [run_bind fst snd]. set (sent := concat (take k (ws_payloads source))) in *.
  assert (encrypt (tg_dec cc) sent = take (length sent) answer) as Es.
  { rewrite <- (encrypt_involutive (tg_dec cc) answer), <- Hcat, encrypt_take. f_equal.
    unfold sent. rewrite <- (take_drop k (ws_payloads source)) at 3. rewrite concat_app.
    by rewrite take_app_length. }
  exists k, (set_writer writer t'), wire, (encrypt (clt_enc cc) (encrypt (tg_dec cc) sent)).
  split_and!; try done.
  - unfold Zlen. by rewrite !length_encrypt.
  - by destruct writer.
  - by rewrite encrypt_involutive.
  - intros Hroom. rewrite encrypt_involutive. unfold sent. rewrite Hall.
    + by rewrite Hcat, encrypt_involutive.
    + by rewrite Hcat, length_encrypt.
Qed.

(** C24. End-to-end through the last-resort TCP bridge, both directions: the
    relay init goes first, Telegram decrypts what follows to the client's
    plaintext, and the client decrypts what it receives to Telegram's answer. *)
Theorem tcp_bridge_delivers secret relay_init enc dec rx tx cc remote reader writer plain answer :
  session secret relay_init enc dec rx tx cc ->
  client_sends reader (encrypt enc plain) -> t_in remote = encrypt tx answer ->
  (64 + 6 * length plain <= t_room remote)%nat -> (6 * length answer <= t_room (writer_tcp writer))%nat ->
  exists t' w' wire data,
    bridge_tcp (Some remote) relay_init cc reader writer
      = Done (Some ((t', Zlen plain), (w', Zlen answer))) /\
    t_out t' = t_out remote ++ relay_init ++ encrypt rx plain /\
    t_out (writer_tcp w') = t_out (writer_tcp writer) ++ wire /\
    carries (writer_faketls writer) wire data /\ encrypt dec data = answer.
Proof.
  intros Hs (chunks & Hr & Hcat) Hin Hroom1 Hroom2.
  assert (length relay_init = 64%nat) as L by by destruct Hs as (? & ? & ? & ? & ? & _ & _ & ? & _).
  apply session_mirror in Hs as (<- & <- & <- & <-).
  unfold bridge_tcp. unfold tcp_write_all at 1. rewrite (proj2 (Nat.leb_le _ _)) by lia.
  set (rem := mkTcp _ _ _ _).
  rewrite (relay_upload_pump _ false _ _ _ _ _ _ Hr).
  destruct (pump_spec false chunks (clt_dec cc) (tg_enc cc) rem 0) as (k & t' & -> & _ & (wire & Hout & HC) & Hall).
  rewrite Hall in * by (rewrite Hcat, length_encrypt; unfold rem; cbn [t_room]; lia). cbn [run_bind].
  destruct (read_all_total (client_measure (PlainReader rem)) RELAY_BUF_SIZE (PlainReader rem)) as [rchunks Er];
    [done|apply relay_buf_pos|done|].
  pose proof (read_all_plain _ _ _ _ relay_buf_pos Er) as Hrc.
  change (t_in rem) with (t_in remote) in Hrc. rewrite Hin in Hrc.
  rewrite (relay_download_pump (length (t_in rem)) false _ _ _ _ _ _ Er).
  destruct (pump_spec (writer_faketls writer) rchunks (tg_dec cc) (clt_enc cc) (writer_tcp writer) 0)
    as (k2 & w' & -> & _ & (wire2 & Hout2 & HC2) & Hall2).
  rewrite Hall2 in * by (by rewrite Hrc, length_encrypt). cbn [run_bind fst snd].
  exists t', (set_writer writer w'), wire2, (encrypt (clt_enc cc) (encrypt (tg_dec cc) (concat rchunks))).
  split_and!; try done.
  - do 2 f_equal. unfold Zlen. by rewrite Hcat, Hrc, !length_encrypt.
  - rewrite Hout, HC, Hcat, encrypt_involutive. simpl. by rewrite <- app_assoc.
  - by destruct writer.
  - rewrite encrypt_involutive, Hrc. apply encrypt_involutive.
Qed.

(** C25. Relaying through an upstream MTProto proxy: with the upstream session's
    ciphers in place of Telegram's, the upstream decrypts what it gets to the
    client's plaintext and the client decrypts what it gets to the upstream's
    answer, with either side raw or wrapped in Application Data records. *)
Theorem relay_delivers conn cc reader writer rchunks plain answer :
  client_sends reader (encrypt (clt_dec cc) plain) ->
  read_all (length (t_in (uc_tcp conn))) (rem_buf (uc_faketls conn))
    (rem_as_reader (uc_faketls conn) (uc_tcp conn)) = Done rchunks ->
  concat rchunks = encrypt (uc_dec conn) answer ->
  (6 * length plain <= t_room (uc_tcp conn))%nat -> (6 * length answer <= t_room (writer_tcp writer))%nat ->
  exists t' w' wire data wire2 data2,
    bridge_relay conn cc reader writer = Done ((t', Zlen plain), (w', Zlen answer)) /\
    t_out t' = t_out (uc_tcp conn) ++ wire /\ carries (uc_faketls conn) wire data /\
    encrypt (uc_enc conn) data = plain /\
    t_out (writer_tcp w') = t_out (writer_tcp writer) ++ wire2 /\
    carries (writer_faketls writer) wire2 data2 /\ encrypt (clt_enc cc) data2 = answer.
Proof.
  intros (chunks & Hr & Hcat) Er Hrc Hroom1 Hroom2. unfold bridge_relay. cbn [clt_dec clt_enc tg_enc tg_dec].
  rewrite (relay_upload_pump _ _ _ _ _ _ _ _ Hr).
  destruct (pump_spec (uc_faketls conn) chunks (clt_dec cc) (uc_enc conn) (uc_tcp conn) 0)
    as (k & t' & -> & _ & (wire & Hout & HC) & Hall).
  rewrite Hall in * by (rewrite Hcat, length_encrypt; lia). cbn [run_bind].
  rewrite (relay_download_pump _ _ _ _ _ _ _ _ Er).
  destruct (pump_spec (writer_faketls writer) rchunks (uc_dec conn) (clt_enc cc) (writer_tcp writer) 0)
    as (k2 & w' & -> & _ & (wire2 & Hout2 & HC2) & Hall2).
  rewrite Hall2 in * by (by rewrite Hrc, length_encrypt). cbn [run_bind fst snd].
  eexists _, (set_writer writer w'), wire, _, wire2, _.
  split_and!; [|exact Hout|exact HC| |by destruct writer|exact HC2|].
  - do 2 f_equal; unfold Zlen; by rewrite ?Hcat, ?Hrc, !length_encrypt.
  - by rewrite encrypt_involutive, Hcat, encrypt_involutive.
  - by rewrite encrypt_involutive, Hrc, encrypt_involutive.
Qed.
End bridge_properties.

(** *** Witnesses: a session over the executable ciphers *)
Definition demo_relay_init : bytes :=
  match generate_relay_init (C := toy_crypto) Abridged (-2) demo_tape with
  | Done (init, _) => init
  | _ => []
  end.

Definition demo_ciphers : ConnectionCiphers (C := toy_crypto) :=
  match build_connection_ciphers (C := toy_crypto) (slice 8 56 demo_handshake.1.1.1) demo_secret
          demo_relay_init with
  | Done cc => cc
  | _ => mkConnectionCiphers (C := toy_crypto) (0, 0%nat) (0, 0%nat) (0, 0%nat) (0, 0%nat)
  end.

Definition demo_enc : cipher (Crypto := toy_crypto) := demo_handshake.1.1.2.
Definition demo_dec : cipher (Crypto := toy_crypto) := demo_handshake.1.2.

Lemma demo_session :
  session (C := toy_crypto) demo_secret demo_relay_init demo_enc demo_dec
    (tg_enc demo_ciphers) (tg_dec demo_ciphers) demo_ciphers.
Proof.
  assert (generate_client_handshake (C := toy_crypto) demo_secret (-2) Abridged demo_tape =
    Done (demo_handshake.1.1.1, demo_enc, demo_dec, demo_handshake.2)) as Hg by (vm_compute; reflexivity).
  assert (length demo_relay_init = 64%nat) as L by (vm_compute; reflexivity).
  destruct (session_ciphers (C := toy_crypto) (CryptoLaws0 := toy_crypto_laws) _ _ _ _ _ _ _ _
    demo_relay_init Hg L) as (cc & E & _ & _ & Ht).
  assert (demo_ciphers = cc) as -> by (unfold demo_ciphers; by rewrite E).
  exists (-2), Abridged, demo_tape, demo_handshake.1.1.1, demo_handshake.2.
  split; [exact Hg|]. split; [exact E|]. split; [exact L|exact Ht].
Qed.

Definition demo_upload : tcp :=
  mkTcp (encrypt (C := toy_crypto) demo_enc demo_stream) [2%nat; 0%nat; 5%nat] [] demo_room.

Definition demo_sink : sink := mkSink [] 10 false.

Lemma ws_upload_packets_witness :
  exists s' count msgs,
    ws_upload (C := toy_crypto) (2 ^ 64 - 1) Packets Abridged demo_relay_init demo_ciphers
      (PlainReader demo_upload) demo_sink = Done (s', count) /\
    sk_sent s' = demo_relay_init :: msgs /\ length msgs = 3%nat.
Proof.
  destruct (ws_upload_packets (C := toy_crypto) (CryptoLaws0 := toy_crypto_laws) (2 ^ 64 - 1)
    ltac:(lia) demo_secret Abridged demo_relay_init demo_enc demo_dec
    (tg_enc demo_ciphers) (tg_dec demo_ciphers) demo_ciphers (PlainReader demo_upload) demo_stream
    [[1; 10; 11; 12; 13]; [0x7f; 1; 0; 0; 20; 21; 22; 23]] [2; 5] demo_sink)
    as (s' & count & msgs & H1 & H2 & H3 & _).
  - exact demo_session.
  - exact (plain_client_sends demo_upload).
  - apply (bool_decide_unpack _). vm_compute. exact I.
  - exact demo_framing.
  - exists s', count, msgs. split; [exact H1|].
    assert (length msgs = 3%nat) as L.
    { apply (f_equal length) in H3. rewrite <- (length_fmap length) in H3.
      rewrite (length_decrypt_msgs (C := toy_crypto) (CryptoLaws0 := toy_crypto_laws)), length_fmap in H3.
      exact H3. }
    split; [|exact L]. rewrite H2. cbn [sk_sent sk_room demo_sink app]. apply take_ge. cbn [length]. lia.
Defined.

Lemma ws_upload_tunnel_witness :
  exists s' count msgs,
    ws_upload (C := toy_crypto) (2 ^ 64 - 1) Tunnel Abridged demo_relay_init demo_ciphers
      (PlainReader demo_upload) demo_sink = Done (s', count) /\
    concat (decrypt_msgs (C := toy_crypto) (tg_enc demo_ciphers) msgs) = demo_stream.
Proof.
  destruct (ws_upload_tunnel (C := toy_crypto) (CryptoLaws0 := toy_crypto_laws) (2 ^ 64 - 1) demo_secret
    Abridged demo_relay_init demo_enc demo_dec (tg_enc demo_ciphers) (tg_dec demo_ciphers) demo_ciphers
    (PlainReader demo_upload) demo_stream demo_sink) as (s' & count & msgs & H1 & H2 & H3 & _).
  - exact demo_session.
  - exact (plain_client_sends demo_upload).
  - exists s', count, msgs. split; [exact H1|exact H3].
Defined.

Definition demo_answer : bytes := seqZ 100 20.

Definition demo_source : list ws_event :=
  let wire := encrypt (C := toy_crypto) (tg_dec demo_ciphers) demo_answer in
  [EvPing; EvBinary (take 7 wire); EvPong; EvText (drop 7 wire); EvClose; EvBinary [1]].

Lemma ws_download_delivers_witness :
  exists w' wire data,
    ws_download (C := toy_crypto) demo_ciphers demo_source (FakeTlsWriter (mkTcp [] [] [] demo_room))
      = Done (w', Zlen data) /\
    t_out (writer_tcp w') = wire /\ carries true wire data /\
    encrypt (C := toy_crypto) demo_dec data = demo_answer.
Proof.
  destruct (ws_download_delivers (C := toy_crypto) (CryptoLaws0 := toy_crypto_laws) demo_secret
    demo_relay_init demo_enc demo_dec (tg_enc demo_ciphers) (tg_dec demo_ciphers) demo_ciphers demo_source
    (FakeTlsWriter (mkTcp [] [] [] demo_room)) demo_answer) as (k & w' & wire & data & H1 & H2 & H3 & _ & H5).
  - exact demo_session.
  - vm_compute. reflexivity.
  - exists w', wire, data. split; [exact H1|]. split; [exact H2|]. split; [exact H3|].
    apply H5. apply Nat.leb_le. vm_compute. reflexivity.
Defined.

Lemma tcp_bridge_delivers_witness :
  exists t' w',
    bridge_tcp (C := toy_crypto)
      (Some (mkTcp (encrypt (C := toy_crypto) (tg_dec demo_ciphers) demo_answer) [3%nat] [] demo_room))
      demo_relay_init demo_ciphers (PlainReader demo_upload) (PlainWriter (mkTcp [] [] [] demo_room))
      = Done (Some ((t', 15), (w', 20))) /\
    t_out t' = demo_relay_init ++ encrypt (C := toy_crypto) (tg_enc demo_ciphers) demo_stream.
Proof.
  destruct (tcp_bridge_delivers (C := toy_crypto) (CryptoLaws0 := toy_crypto_laws) demo_secret
    demo_relay_init demo_enc demo_dec (tg_enc demo_ciphers) (tg_dec demo_ciphers) demo_ciphers
    (mkTcp (encrypt (C := toy_crypto) (tg_dec demo_ciphers) demo_answer) [3%nat] [] demo_room)
    (PlainReader demo_upload) (PlainWriter (mkTcp [] [] [] demo_room)) demo_stream demo_answer)
    as (t' & w' & wire & data & H1 & H2 & _).
  - exact demo_session.
  - exact (plain_client_sends demo_upload).
  - reflexivity.
  - apply Nat.leb_le. vm_compute. reflexivity.
  - apply Nat.leb_le. vm_compute. reflexivity.
  - exists t', w'. split; [exact H1|exact H2].
Defined.

Definition demo_upstream : UpstreamConnection (C := toy_crypto) :=
  mkUpstreamConnection (C := toy_crypto)
    (mkTcp (tls_record TLS_RECORD_APPLICATION_DATA
              (encrypt (C := toy_crypto) (tg_dec demo_ciphers) demo_answer)) [] [] demo_room)
    (tg_enc demo_ciphers) (tg_dec demo_ciphers) true.

Lemma relay_delivers_witness :
  exists t' w' wire data,
    bridge_relay (C := toy_crypto) demo_upstream demo_ciphers (PlainReader demo_upload)
      (PlainWriter (mkTcp [] [] [] demo_room)) = Done ((t', 15), (w', 20)) /\
    t_out t' = wire /\ carries true wire data /\
    encrypt (C := toy_crypto) (tg_enc demo_ciphers) data = demo_stream.
Proof.
  destruct (relay_delivers (C := toy_crypto) (CryptoLaws0 := toy_crypto_laws) demo_upstream demo_ciphers
    (PlainReader demo_upload) (PlainWriter (mkTcp [] [] [] demo_room))
    [encrypt (C := toy_crypto) (tg_dec demo_ciphers) demo_answer] demo_stream demo_answer)
    as (t' & w' & wire & data & wire2 & data2 & H1 & H2 & H3 & H4 & _).
  - exact (plain_client_sends demo_upload).
  - vm_compute. reflexivity.
  - vm_compute. reflexivity.
  - apply Nat.leb_le. vm_compute. reflexivity.
  - apply Nat.leb_le. vm_compute. reflexivity.
  - exists t', w', wire, data. split; [exact H1|]. split; [exact H2|]. split; [exact H3|exact H4].
Defined.
