(* ===== verification/Join.v ===== *)
(** * proxy.rs: the two directions of a bridge, joined

    [Bridge] says what each direction does when it is run to its end.  Here the
    directions are tasks that advance one awaited operation at a time, and
    [join_bridge] runs them side by side until one of them ends and the other is
    cancelled where it stands, which may be in the middle of a write: the socket
    keeps the bytes it has taken by then.  The class [Task] is what [join_bridge]
    needs of a direction; its four instances are the directions of [bridge_ws] and
    of [bridge_relay] (and [bridge_tcp], which is the relay without FakeTLS). *)
From Stdlib Require Import String.
From stdpp Require Import relations.
From S2P Require Import Prelude Text CryptoApi Crypto Splitter FakeTls Config Session Bridge.

Local Open Scope Z_scope.

Inductive ClosedBy : Set :=
| Client
| Upstream.

Definition closed_by_str (c : ClosedBy) : text :=
  match c with Client => txt "client" | Upstream => txt "upstream" end.

(** A future: one step per awaited operation, [None] once it has ended; and what
    it leaves behind when it is dropped in the operation it is in, of which [k]
    bytes have been done. *)
Class Task (S : Type) : Type := {
  poll : S -> option (run S);
  cut : nat -> S -> S;
}.

Definition task_step {S} {T : Task S} (a b : S) : Prop := poll a = Some (Done b).
Definition task_ended {S} {T : Task S} (a : S) : Prop := poll a = None.

(** ** join_bridge *)
Section join.
Context {U D : Type} {TU : Task U} {TD : Task D}.

Inductive bridge : Type :=
| Running (upload : U) (download : D)
| Closed (by_ : ClosedBy) (upload : U) (download : D).

(** [tokio::select!] over the spawned upload and the download.  The branch of
    an ended direction may be taken late; the other direction, the upload aborted
    or the download dropped, is cut off in the operation it awaits, after any part
    of it. *)
Inductive join_step : bridge -> bridge -> Prop :=
| join_upload u u' d : task_step u u' -> join_step (Running u d) (Running u' d)
| join_download u d d' : task_step d d' -> join_step (Running u d) (Running u d')
| join_client k u d : task_ended u -> join_step (Running u d) (Closed Client u (cut k d))
| join_upstream k u d : task_ended d -> join_step (Running u d) (Closed Upstream (cut k u) d).
End join.
Arguments bridge : clear implicits.

Section tasks.
Context {C : Crypto} (usize_max : Z).
Local Open Scope run_scope.

(** *** Operations cut off *)

(** A [write_all] that would bring the socket from [t] to [full], dropped after
    [k] bytes: the last byte cannot be among them, since with it the write is over
    and the task goes on. *)
Definition tcp_taken (k : nat) (t full : tcp) : tcp :=
  let n := Nat.min k (pred (length (t_out full) - length (t_out t))) in
  mkTcp (t_in t) (t_cuts t) (take (length (t_out t) + n) (t_out full)) (t_room t - n).

(** A write that would fail leaves nothing with the peer, cut off or not. *)
Definition cut_rem_write (k : nat) (faketls : bool) (t : tcp) (chunk : bytes) : tcp :=
  match rem_write faketls t chunk with
  | Done (Some full) => tcp_taken k t full
  | _ => t
  end.

Definition cut_client_write (k : nat) (w : ClientWriter) (data : bytes) : ClientWriter :=
  match client_write_all w data with
  | Done (Some w') =>
      match w, w' with
      | PlainWriter t, PlainWriter full => PlainWriter (tcp_taken k t full)
      | FakeTlsWriter t, FakeTlsWriter full => FakeTlsWriter (tcp_taken k t full)
      | _, _ => w
      end
  | _ => w
  end.

(** [send] puts the message in the sink and flushes it: dropped in the flush, the
    upstream has the whole message or it has none. *)
Definition cut_send (k : nat) (m : bytes) (s : sink) : sink :=
  match k with O => s | S _ => (sink_send m s).2 end.

(** ** bridge_ws: upload *)
Inductive upload_at : Type :=
| UpInit (relay_init : bytes) (reader : ClientReader) (clt_dec tg_enc : cipher) (splitter : option MsgSplitter)
| UpRead (reader : ClientReader) (clt_dec tg_enc : cipher) (splitter : option MsgSplitter)
| UpSend (n : nat) (part : bytes) (parts : list bytes)
    (reader : ClientReader) (clt_dec tg_enc : cipher) (splitter : option MsgSplitter)
| UpFlush (part : bytes) (parts : list bytes)
| UpClose
| UpEnd.

Record ws_up : Type := mkWsUp {
  wu_at : upload_at;
  wu_sink : sink;
  wu_bytes : Z;
}.

(** The next await of the [for part in ..] loop, or of the read after it. *)
Definition up_sending (n : nat) (parts : list bytes) (reader : ClientReader) (clt_dec tg_enc : cipher)
    (splitter : option MsgSplitter) (s : sink) (count : Z) : ws_up :=
  match parts with
  | [] => mkWsUp (UpRead reader clt_dec tg_enc splitter) s (counter_add n count)
  | part :: parts => mkWsUp (UpSend n part parts reader clt_dec tg_enc splitter) s count
  end.

Definition up_flushing (parts : list bytes) (s : sink) (count : Z) : ws_up :=
  match parts with
  | [] => mkWsUp UpClose s count
  | part :: parts => mkWsUp (UpFlush part parts) s count
  end.

Definition poll_upload (t : ws_up) : option (run ws_up) :=
  let s := wu_sink t in
  let count := wu_bytes t in
  match wu_at t with
  | UpInit relay_init reader clt_dec tg_enc splitter => Some (
      let '(sent, s) := sink_send relay_init s in
      Done (if sent then mkWsUp (UpRead reader clt_dec tg_enc splitter) s count else mkWsUp UpEnd s count))
  | UpRead reader clt_dec tg_enc splitter => Some (
      let! (chunk, reader) := client_read CLIENT_READ_BUF_SIZE reader in
      match chunk with
      | [] => Done (up_flushing (match splitter with Some st => (flush st).1 | None => [] end) s count)
      | _ =>
          let n := length chunk in
          let '(clt_dec, chunk) := apply_keystream clt_dec chunk in
          match splitter with
          | Some st =>
              let! r := split_and_encrypt usize_max st chunk tg_enc in
              let '(parts, st, chunk, tg_enc) := r in
              Done (up_sending n parts reader clt_dec tg_enc (Some st) s count)
          | None =>
              let '(tg_enc, chunk) := apply_keystream tg_enc chunk in
              Done (up_sending n [chunk] reader clt_dec tg_enc None s count)
          end
      end)
  | UpSend n part parts reader clt_dec tg_enc splitter => Some (
      let '(sent, s) := sink_send part s in
      Done (if sent then up_sending n parts reader clt_dec tg_enc splitter s count else mkWsUp UpEnd s count))
  | UpFlush part parts => Some (Done (up_flushing parts (sink_send part s).2 count))
  | UpClose => Some (Done (mkWsUp UpEnd (sink_close s) count))
  | UpEnd => None
  end.

Definition cut_upload (k : nat) (t : ws_up) : ws_up :=
  let s := match wu_at t with
    | UpInit m _ _ _ _ | UpSend _ m _ _ _ _ _ | UpFlush m _ => cut_send k m (wu_sink t)
    | UpClose => match k with O => wu_sink t | S _ => sink_close (wu_sink t) end
    | UpRead _ _ _ _ | UpEnd => wu_sink t
    end in
  mkWsUp (wu_at t) s (wu_bytes t).

(** ** bridge_ws: download *)
Inductive download_at : Type :=
| DnRead
| DnWrite (data : bytes)
| DnEnd.

Record ws_down : Type := mkWsDown {
  wd_at : download_at;
  wd_source : list ws_event;
  wd_writer : ClientWriter;
  wd_dec : cipher;
  wd_enc : cipher;
  wd_bytes : Z;
}.

Definition poll_download (t : ws_down) : option (run ws_down) :=
  let '(mkWsDown at_ source writer tg_dec clt_enc bytes_down) := t in
  match at_ with
  | DnRead => Some (
      match source with
      | EvBinary data :: source | EvText data :: source =>
          let '(tg_dec, data) := apply_keystream tg_dec data in
          let '(clt_enc, data) := apply_keystream clt_enc data in
          Done (mkWsDown (DnWrite data) source writer tg_dec clt_enc bytes_down)
      | EvPing :: source | EvPong :: source => Done (mkWsDown DnRead source writer tg_dec clt_enc bytes_down)
      | EvClose :: source | EvError :: source => Done (mkWsDown DnEnd source writer tg_dec clt_enc bytes_down)
      | [] => Done (mkWsDown DnEnd [] writer tg_dec clt_enc bytes_down)
      end)
  | DnWrite data => Some (
      let! w := client_write_all writer data in
      Done (match w with
            | None => mkWsDown DnEnd source writer tg_dec clt_enc bytes_down
            | Some writer => mkWsDown DnRead source writer tg_dec clt_enc (bytes_down + Zlen data)
            end))
  | DnEnd => None
  end.

Definition cut_download (k : nat) (t : ws_down) : ws_down :=
  let w := match wd_at t with
    | DnWrite data => cut_client_write k (wd_writer t) data
    | DnRead | DnEnd => wd_writer t
    end in
  mkWsDown (wd_at t) (wd_source t) w (wd_dec t) (wd_enc t) (wd_bytes t).

(** ** bridge_relay *)
Inductive relay_at : Type :=
| RlRead
| RlWrite (n : nat) (chunk : bytes)
| RlEnd.

Record relay_up : Type := mkRelayUp {
  ru_at : relay_at;
  ru_faketls : bool;
  ru_reader : ClientReader;
  ru_dec : cipher;
  ru_enc : cipher;
  ru_tcp : tcp;
  ru_bytes : Z;
}.

Definition poll_relay_upload (t : relay_up) : option (run relay_up) :=
  let '(mkRelayUp at_ faketls reader clt_dec tg_enc rem_writer count) := t in
  match at_ with
  | RlRead => Some (
      let! (chunk, reader) := client_read CLIENT_READ_BUF_SIZE reader in
      match chunk with
      | [] => Done (mkRelayUp RlEnd faketls reader clt_dec tg_enc rem_writer count)
      | _ =>
          let n := length chunk in
          let '(clt_dec, chunk) := apply_keystream clt_dec chunk in
          let '(tg_enc, chunk) := apply_keystream tg_enc chunk in
          Done (mkRelayUp (RlWrite n chunk) faketls reader clt_dec tg_enc rem_writer count)
      end)
  | RlWrite n chunk => Some (
      let! written := rem_write faketls rem_writer chunk in
      Done (match written with
            | None => mkRelayUp RlEnd faketls reader clt_dec tg_enc rem_writer count
            | Some rem_writer =>
                mkRelayUp RlRead faketls reader clt_dec tg_enc rem_writer (counter_add n count)
            end))
  | RlEnd => None
  end.

Definition cut_relay_upload (k : nat) (t : relay_up) : relay_up :=
  let rem_writer := match ru_at t with
    | RlWrite _ chunk => cut_rem_write k (ru_faketls t) (ru_tcp t) chunk
    | RlRead | RlEnd => ru_tcp t
    end in
  mkRelayUp (ru_at t) (ru_faketls t) (ru_reader t) (ru_dec t) (ru_enc t) rem_writer (ru_bytes t).

Record relay_down : Type := mkRelayDown {
  rd_at : relay_at;
  rd_faketls : bool;
  rd_reader : tcp;
  rd_writer : ClientWriter;
  rd_dec : cipher;
  rd_enc : cipher;
  rd_bytes : Z;
}.

Definition poll_relay_download (t : relay_down) : option (run relay_down) :=
  let '(mkRelayDown at_ faketls rem_reader writer tg_dec clt_enc bytes_down) := t in
  match at_ with
  | RlRead => Some (
      let! (chunk, rem_reader) := rem_read faketls rem_reader in
      match chunk with
      | [] => Done (mkRelayDown RlEnd faketls rem_reader writer tg_dec clt_enc bytes_down)
      | _ =>
          let n := length chunk in
          let '(tg_dec, chunk) := apply_keystream tg_dec chunk in
          let '(clt_enc, chunk) := apply_keystream clt_enc chunk in
          Done (mkRelayDown (RlWrite n chunk) faketls rem_reader writer tg_dec clt_enc bytes_down)
      end)
  | RlWrite n chunk => Some (
      let! w := client_write_all writer chunk in
      Done (match w with
            | None => mkRelayDown RlEnd faketls rem_reader writer tg_dec clt_enc bytes_down
            | Some writer =>
                mkRelayDown RlRead faketls rem_reader writer tg_dec clt_enc (counter_add n bytes_down)
            end))
  | RlEnd => None
  end.

Definition cut_relay_download (k : nat) (t : relay_down) : relay_down :=
  let w := match rd_at t with
    | RlWrite _ chunk => cut_client_write k (rd_writer t) chunk
    | RlRead | RlEnd => rd_writer t
    end in
  mkRelayDown (rd_at t) (rd_faketls t) (rd_reader t) w (rd_dec t) (rd_enc t) (rd_bytes t).

#[global] Instance upload_task : Task ws_up := {| poll := poll_upload; cut := cut_upload |}.
#[global] Instance download_task : Task ws_down := {| poll := poll_download; cut := cut_download |}.
#[global] Instance relay_upload_task : Task relay_up := {| poll := poll_relay_upload; cut := cut_relay_upload |}.
#[global] Instance relay_download_task : Task relay_down :=
  {| poll := poll_relay_download; cut := cut_relay_download |}.

(** ** Where a session starts *)
Definition ws_bridge (framing : WsFraming) (proto : ProtoTag) (relay_init : bytes) (ciphers : ConnectionCiphers)
    (reader : ClientReader) (writer : ClientWriter) (ws_sink : sink) (ws_source : list ws_event)
  : bridge ws_up ws_down :=
  let splitter := match framing with Packets => Some (splitter_new proto) | Tunnel => None end in
  Running (mkWsUp (UpInit relay_init reader (clt_dec ciphers) (tg_enc ciphers) splitter) ws_sink 0)
          (mkWsDown DnRead ws_source writer (tg_dec ciphers) (clt_enc ciphers) 0).

Definition relay_bridge (faketls : bool) (remote : tcp) (ciphers : ConnectionCiphers)
    (reader : ClientReader) (writer : ClientWriter) : bridge relay_up relay_down :=
  Running (mkRelayUp RlRead faketls reader (clt_dec ciphers) (tg_enc ciphers) remote 0)
          (mkRelayDown RlRead faketls remote writer (tg_dec ciphers) (clt_enc ciphers) 0).
End tasks.

(** ** Lemmas: joining two tasks *)
Section joining.
Context {S : Type} {T : Task S}.

(** The task ends in [f], in [n] steps. *)
Definition ends_in (n : nat) (a f : S) : Prop := nsteps task_step n a f /\ task_ended f.

Lemma task_step_det (a b c : S) : task_step a b -> task_step a c -> b = c.
Proof. unfold task_step. congruence. Qed.

Lemma ends_in_step n (a b f : S) :
  ends_in n a f -> task_step a b -> exists m, n = Datatypes.S m /\ ends_in m b f.
Proof.
  intros [Hn Hf] Hb. inversion Hn as [x|m x y z Hy Hm]; subst.
  - unfold task_step, task_ended in *. congruence.
  - exists m. by rewrite (task_step_det _ _ _ Hb Hy).
Qed.

Lemma ends_in_progress n (a f : S) : ends_in n a f -> task_ended a /\ a = f \/ exists b, task_step a b.
Proof. intros [Hn Hf]. inversion Hn; subst; eauto. Qed.

Lemma ends_in_ended n (a f : S) : ends_in n a f -> task_ended a -> a = f.
Proof.
  intros H Ha. destruct (ends_in_progress _ _ _ H) as [[_ ?]|[b Hb]]; [done|].
  unfold task_step, task_ended in *. congruence.
Qed.

Lemma ends_in_rtc n (a f : S) : ends_in n a f -> rtc task_step a f.
Proof. intros [Hn _]. by eapply rtc_nsteps_2. Qed.

(** The task was cut off on its way to [f]. *)
Definition cut_before (f a : S) : Prop := exists k b, a = cut k b /\ rtc task_step b f /\ task_ended f.

Lemma ends_in_cut n k (a f : S) : ends_in n a f -> cut_before f (cut k a).
Proof. intros H. exists k, a. split_and!; [done|by eapply ends_in_rtc|apply H]. Qed.

(** From a big-step result. *)
Lemma rtc_ends_in (a f : S) : rtc task_step a f -> task_ended f -> exists n, ends_in n a f.
Proof. intros H Hf. apply rtc_nsteps_1 in H as [n Hn]. exists n. by split. Qed.
End joining.

(** What [join_bridge] guarantees for any two tasks that end: the session is
    over after a bounded number of steps, it is never stuck before, and at its
    end one direction is complete and the other cut off on its way. *)
Section join_lemmas.
Context {U D : Type} {TU : Task U} {TD : Task D}.

Definition joins (uf : U) (df : D) (bound : nat) (j : bridge U D) : Prop :=
  match j with
  | Running u d => exists n m, ends_in n u uf /\ ends_in m d df /\ (n + m < bound)%nat
  | Closed Client u d => u = uf /\ cut_before df d
  | Closed Upstream u d => d = df /\ cut_before uf u
  end.

Lemma join_step_joins uf df bound j j' :
  joins uf df bound j -> join_step j j' -> exists b, bound = Datatypes.S b /\ joins uf df b j'.
Proof.
  intros H Hs. destruct bound as [|b]; [by destruct Hs; destruct H as (n & m & _ & _ & ?); lia|].
  exists b. split; [done|].
  destruct Hs as [u u' d Hu|u d d' Hd|k u d Hu|k u d Hd]; cbn [joins] in *; destruct H as (n & m & Hn & Hm & Hl).
  - destruct (ends_in_step _ _ _ _ Hn Hu) as (n' & -> & Hn'). exists n', m. split_and!; try done. lia.
  - destruct (ends_in_step _ _ _ _ Hm Hd) as (m' & -> & Hm'). exists n, m'. split_and!; try done. lia.
  - split; [by eapply ends_in_ended|by eapply ends_in_cut].
  - split; [by eapply ends_in_ended|by eapply ends_in_cut].
Qed.

Lemma joins_nsteps uf df bound k j j' :
  joins uf df bound j -> nsteps join_step k j j' -> (k <= bound)%nat /\ joins uf df (bound - k) j'.
Proof.
  intros H Hk. revert bound H. induction Hk as [j|k j j1 j2 Hs Hk IH]; intros bound H.
  { rewrite Nat.sub_0_r. split; [lia|done]. }
  destruct (join_step_joins _ _ _ _ _ H Hs) as (b & -> & H1). destruct (IH b H1) as [Hl H2].
  split; [lia|]. by rewrite Nat.sub_succ.
Qed.

(** The session of two tasks that end in [uf] and [df]. *)
Definition session_joined (uf : U) (df : D) (start : bridge U D) : Prop :=
  (exists bound, forall k j, nsteps join_step k start j -> (k <= bound)%nat) /\
  forall j, rtc join_step start j ->
    match j with
    | Running u d => (exists j', join_step j j') /\ rtc task_step u uf /\ rtc task_step d df
    | Closed Client u d => u = uf /\ cut_before df d
    | Closed Upstream u d => d = df /\ cut_before uf u
    end.

Lemma join_session n m u0 d0 (uf : U) (df : D) :
  ends_in n u0 uf -> ends_in m d0 df -> session_joined uf df (Running u0 d0).
Proof.
  intros Hu Hd.
  assert (joins uf df (Datatypes.S (n + m)) (Running u0 d0)) as H0 by (exists n, m; split_and!; [done..|lia]).
  split; [exists (Datatypes.S (n + m)); intros k j Hk; by apply (joins_nsteps _ _ _ _ _ _ H0 Hk)|].
  intros j Hj. apply rtc_nsteps_1 in Hj as [k Hk]. destruct (joins_nsteps _ _ _ _ _ _ H0 Hk) as [_ Hj].
  destruct j as [u d|[] u d]; [|exact Hj..]. destruct Hj as (n' & m' & Hn & Hm & _).
  split; [|split; by eapply ends_in_rtc].
  destruct (ends_in_progress _ _ _ Hn) as [[He ->]|[u' Hs]]; eexists; [by apply (join_client 0)|by apply join_upload].
Qed.
End join_lemmas.

(** ** Lemmas: the tasks against the loops of [Bridge] *)
Section refinement.
Context {C : Crypto} (usize_max : Z).
Abbreviation up_step := (task_step (T := upload_task usize_max)).

Lemma step_upload (a b : ws_up) : poll_upload usize_max a = Some (Done b) -> up_step a b.
Proof. done. Qed.

(** The [for] loop over the parts of one read. *)
Lemma sending_runs n parts reader dec enc sp s count :
  rtc up_step (up_sending n parts reader dec enc sp s count)
    (match send_parts parts s with
     | (true, s) => mkWsUp (UpRead reader dec enc sp) s (counter_add n count)
     | (false, s) => mkWsUp UpEnd s count
     end).
Proof.
  revert s. induction parts as [|part parts IH]; intros s; cbn [up_sending send_parts]; [apply rtc_refl|].
  destruct (sink_send part s) as [[] s'] eqn:E;
    (eapply rtc_l; [apply step_upload; unfold poll_upload; cbn [wu_at wu_sink wu_bytes]; rewrite E; reflexivity|]);
    [apply IH|apply rtc_refl].
Qed.

Lemma flushing_runs parts s count :
  rtc up_step (up_flushing parts s count)
    (mkWsUp UpEnd (sink_close (send_ignoring parts s)) count).
Proof.
  revert s. induction parts as [|part parts IH]; intros s; cbn [up_flushing send_ignoring].
  - eapply rtc_l; [|apply rtc_refl]. by apply step_upload.
  - eapply rtc_l; [by apply step_upload|]. apply IH.
Qed.

Lemma upload_loop_runs fuel reader dec enc sp s count r :
  ws_upload_loop usize_max fuel reader dec enc sp s count = Done r ->
  rtc up_step (mkWsUp (UpRead reader dec enc sp) s count)
    (match r with
     | (None, s, count) => mkWsUp UpEnd s count
     | (Some sp, s, count) =>
         mkWsUp UpEnd (sink_close (send_ignoring (match sp with Some st => (flush st).1 | None => [] end) s)) count
     end).
Proof.
  revert reader dec enc sp s count. induction fuel as [|fuel IH]; intros reader dec enc sp s count H;
    cbn [ws_upload_loop] in H; apply run_bind_Done in H as ([chunk reader'] & Er & H);
    (destruct chunk as [|b chunk];
      [injection H as <-; eapply rtc_l;
        [apply step_upload; unfold poll_upload; cbn [wu_at wu_sink wu_bytes]; rewrite Er; reflexivity|apply flushing_runs]|]);
    [done|].
  remember (b :: chunk) as ch eqn:Ech.
  destruct (apply_keystream dec ch) as [dec' plain] eqn:Ed. destruct sp as [st|].
  - apply run_bind_Done in H as ([[[parts st'] buf] enc'] & Ep & H).
    eapply rtc_l; [apply step_upload; unfold poll_upload; cbn [wu_at wu_sink wu_bytes]; rewrite Er; cbn [run_bind]|].
    { rewrite Ed. rewrite Ech at 1. rewrite Ep. reflexivity. }
    etrans; [apply sending_runs|]. destruct (send_parts parts s) as [[] s']; [by apply IH|].
    injection H as <-. apply rtc_refl.
  - destruct (apply_keystream enc plain) as [enc' out] eqn:Ee.
    eapply rtc_l; [apply step_upload; unfold poll_upload; cbn [wu_at wu_sink wu_bytes]; rewrite Er; cbn [run_bind]|].
    { rewrite Ed. rewrite Ech at 1. rewrite Ee. reflexivity. }
    etrans; [apply sending_runs|]. cbn [send_parts]. destruct (sink_send out s) as [[] s']; [by apply IH|].
    injection H as <-. apply rtc_refl.
Qed.
Lemma ws_upload_runs framing proto relay_init cc reader s s' count :
  ws_upload usize_max framing proto relay_init cc reader s = Done (s', count) ->
  rtc up_step (mkWsUp (UpInit relay_init reader (clt_dec cc) (tg_enc cc)
      (match framing with Packets => Some (splitter_new proto) | Tunnel => None end)) s 0)
    (mkWsUp UpEnd s' count).
Proof.
  unfold ws_upload. intros H. destruct (sink_send relay_init s) as [[] s1] eqn:E; cbn [negb] in H;
    (eapply rtc_l; [apply step_upload; unfold poll_upload; cbn [wu_at wu_sink wu_bytes]; rewrite E; reflexivity|]).
  - apply run_bind_Done in H as (r & Er & H). apply upload_loop_runs in Er.
    destruct r as [[[sp|] s2] n2]; simplify_eq; exact Er.
  - simplify_eq. apply rtc_refl.
Qed.

(** The sink only gains messages. *)
Lemma upload_grows a b : up_step a b -> sk_sent (wu_sink a) `prefix_of` sk_sent (wu_sink b).
Proof.
  assert (forall m s, sk_sent s `prefix_of` sk_sent (sink_send m s).2) as Hs.
  { intros m [sent room closed]. unfold sink_send. cbn [sk_room]. destruct room; [done|]. by exists [m]. }
  assert (forall n parts reader dec enc sp s count, wu_sink (up_sending n parts reader dec enc sp s count) = s) as Hu
    by by intros ? [].
  assert (forall parts s count, wu_sink (up_flushing parts s count) = s) as Hf by by intros [].
  destruct a as [at_ s count]. unfold task_step, poll, upload_task, poll_upload. cbn [wu_at wu_sink wu_bytes].
  destruct at_ as [relay_init reader dec enc sp|reader dec enc sp|n part parts reader dec enc sp|part parts| |]; intros H;
    simplify_eq/=.
  - specialize (Hs relay_init s). destruct (sink_send relay_init s) as [[] s1]; by simplify_eq.
  - apply run_bind_Done in H as ([chunk reader'] & _ & H). destruct chunk; [simplify_eq; by rewrite Hf|].
    destruct (apply_keystream dec _) as [dec' plain]. destruct sp as [st|].
    + apply run_bind_Done in H as ([[[parts st'] buf] enc'] & _ & H). simplify_eq. by rewrite Hu.
    + destruct (apply_keystream enc plain). by simplify_eq.
  - specialize (Hs part s). destruct (sink_send part s) as [[] s1]; simplify_eq; [by rewrite Hu|done].
  - rewrite Hf. apply Hs.
  - done.
Qed.

(** *** The download of bridge_ws *)
Lemma download_data ev data source writer dec enc count dec1 d1 enc1 d2 w :
  ev = EvBinary data \/ ev = EvText data ->
  apply_keystream dec data = (dec1, d1) -> apply_keystream enc d1 = (enc1, d2) ->
  client_write_all writer d2 = Done w ->
  rtc task_step (mkWsDown DnRead (ev :: source) writer dec enc count)
    (match w with
     | None => mkWsDown DnEnd source writer dec1 enc1 count
     | Some writer => mkWsDown DnRead source writer dec1 enc1 (count + Zlen d2)
     end).
Proof.
  intros Hev E1 E2 Ew. eapply rtc_l.
  - unfold task_step, poll, download_task, poll_download. destruct Hev as [-> | ->]; rewrite E1, E2; reflexivity.
  - eapply rtc_l; [|apply rtc_refl]. unfold task_step, poll, download_task, poll_download. by rewrite Ew.
Qed.

Lemma download_loop_runs source writer dec enc count writer' count' :
  ws_download_loop source writer dec enc count = Done (writer', count') ->
  exists source' dec' enc', rtc task_step (mkWsDown DnRead source writer dec enc count)
    (mkWsDown DnEnd source' writer' dec' enc' count').
Proof.
  revert writer dec enc count. induction source as [|ev source IH]; intros writer dec enc count H.
  { cbn in H. simplify_eq. eexists _, _, _. by eapply rtc_l; [|apply rtc_refl]. }
  destruct ev as [data|data| | | |]; cbn [ws_download_loop] in H.
  1, 2: destruct (apply_keystream dec data) as [dec1 d1] eqn:E1;
    destruct (apply_keystream enc d1) as [enc1 d2] eqn:E2;
    apply run_bind_Done in H as (w & Ew & H);
    match goal with |- context [mkWsDown DnRead (?ev :: _)] =>
      pose proof (download_data ev data source writer dec enc count dec1 d1 enc1 d2 w ltac:(auto) E1 E2 Ew) as Hr end;
    destruct w as [w|];
    [apply IH in H as (s' & d' & e' & H); exists s', d', e'; by etrans; [exact Hr|]
    |simplify_eq; eexists _, _, _; exact Hr].
  all: try (apply IH in H as (s' & d' & e' & H); exists s', d', e'; by eapply rtc_l; [|exact H]).
  all: simplify_eq; eexists _, _, _; by eapply rtc_l; [|apply rtc_refl].
Qed.

(** What the client has been sent only grows. *)
Definition written (w : ClientWriter) : bytes := t_out (writer_tcp w).

Lemma write_grows `{!CryptoLaws C} w d w' : client_write_all w d = Done (Some w') -> written w `prefix_of` written w'.
Proof.
  rewrite client_write_rem. intros H. apply run_bind_Done in H as ([t|] & Et & H); [|done]. simplify_eq.
  destruct (rem_write_spec (writer_faketls w) (writer_tcp w) d) as (r & E & HW & _). rewrite E in Et. simplify_eq.
  destruct (HW t eq_refl) as (_ & wire & Hout & _). unfold written. destruct w; cbn [set_writer writer_tcp] in *;
    rewrite Hout; by eexists.
Qed.

Lemma download_grows `{!CryptoLaws C} (a b : ws_down) :
  task_step a b -> written (wd_writer a) `prefix_of` written (wd_writer b).
Proof.
  destruct a as [at_ source writer dec enc count]. unfold task_step, poll, download_task, poll_download.
  destruct at_ as [|data|]; intros H; simplify_eq/=.
  - destruct source as [|[data|data| | | |] source]; simplify_eq/=; try done;
      destruct (apply_keystream dec data) as [dec1 d1]; destruct (apply_keystream enc d1) as [enc1 d2]; by simplify_eq.
  - apply run_bind_Done in H as ([w|] & Ew & H); simplify_eq; [by apply write_grows in Ew|done].
Qed.

(** *** Writes cut off *)
Lemma tcp_taken_grows k t full :
  t_out t `prefix_of` t_out full ->
  t_out t `prefix_of` t_out (tcp_taken k t full) /\ t_out (tcp_taken k t full) `prefix_of` t_out full.
Proof.
  intros [wire E]. unfold tcp_taken. cbn [t_out]. rewrite E at 2 4. split; [|rewrite E at 2; apply prefix_take].
  rewrite take_app_ge by lia. by eexists.
Qed.

Lemma cut_client_write_rem k w d :
  cut_client_write k w d = set_writer w (cut_rem_write k (writer_faketls w) (writer_tcp w) d).
Proof.
  unfold cut_client_write, cut_rem_write. rewrite client_write_rem.
  destruct (rem_write (writer_faketls w) (writer_tcp w) d) as [[t|]| |], w; reflexivity.
Qed.

(** A write cut off leaves part of what the write would have left. *)
Lemma cut_rem_write_grows `{!CryptoLaws C} k f t d :
  t_out t `prefix_of` t_out (cut_rem_write k f t d) /\
  forall r, rem_write f t d = Done r ->
    t_out (cut_rem_write k f t d) `prefix_of` t_out (match r with Some t' => t' | None => t end).
Proof.
  unfold cut_rem_write. destruct (rem_write_spec f t d) as ([t'|] & E & HW & _); rewrite E; [|split; [done|intros r Hr; by simplify_eq]].
  destruct (HW t' eq_refl) as (_ & wire & Hout & _). destruct (tcp_taken_grows k t t') as [H1 H2]; [by exists wire|].
  split; [done|]. intros r Hr. by simplify_eq.
Qed.

Lemma cut_client_write_grows `{!CryptoLaws C} k w d r :
  client_write_all w d = Done r ->
  written (cut_client_write k w d) `prefix_of` written (match r with Some w' => w' | None => w end).
Proof.
  rewrite cut_client_write_rem, client_write_rem. intros H. apply run_bind_Done in H as (r' & E & H). simplify_eq.
  destruct (cut_rem_write_grows k (writer_faketls w) (writer_tcp w) d) as [_ Hc]. specialize (Hc r' E).
  unfold written. destruct r', w; exact Hc.
Qed.

(** *** The relay *)
Lemma relay_upload_runs fuel f reader dec enc t count t' count' :
  relay_upload_loop fuel f reader dec enc t count = Done (t', count') ->
  exists reader' dec' enc', rtc task_step (mkRelayUp RlRead f reader dec enc t count)
    (mkRelayUp RlEnd f reader' dec' enc' t' count').
Proof.
  revert reader dec enc t count. induction fuel as [|fuel IH]; intros reader dec enc t count H;
    cbn [relay_upload_loop] in H; apply run_bind_Done in H as ([chunk reader'] & Er & H);
    (destruct chunk as [|b chunk];
      [simplify_eq; eexists _, _, _; eapply rtc_l; [|apply rtc_refl];
       unfold task_step, poll, relay_upload_task, poll_relay_upload; by rewrite Er|]); [done|].
  destruct (apply_keystream dec (b :: chunk)) as [dec1 d1] eqn:E1.
  destruct (apply_keystream enc d1) as [enc1 d2] eqn:E2.
  apply run_bind_Done in H as (w & Ew & H).
  assert (forall fin, rtc task_step (match w with
      | None => mkRelayUp RlEnd f reader' dec1 enc1 t count
      | Some t => mkRelayUp RlRead f reader' dec1 enc1 t (counter_add (length (b :: chunk)) count) end) fin ->
    rtc task_step (mkRelayUp RlRead f reader dec enc t count) fin) as Hgo.
  { intros fin Hfin. eapply rtc_l; [unfold task_step, poll, relay_upload_task, poll_relay_upload; rewrite Er|].
    { cbn [run_bind]. rewrite E1, E2. reflexivity. }
    eapply rtc_l; [unfold task_step, poll, relay_upload_task, poll_relay_upload; by rewrite Ew|exact Hfin]. }
  destruct w as [t1|].
  - apply IH in H as (r' & d' & e' & H). exists r', d', e'. by apply Hgo.
  - simplify_eq. eexists _, _, _. apply Hgo, rtc_refl.
Qed.

Lemma relay_download_runs fuel f rem w dec enc count w' count' :
  relay_download_loop fuel f rem w dec enc count = Done (w', count') ->
  exists rem' dec' enc', rtc task_step (mkRelayDown RlRead f rem w dec enc count)
    (mkRelayDown RlEnd f rem' w' dec' enc' count').
Proof.
  revert rem w dec enc count. induction fuel as [|fuel IH]; intros rem w dec enc count H;
    cbn [relay_download_loop] in H; apply run_bind_Done in H as ([chunk rem'] & Er & H);
    (destruct chunk as [|b chunk];
      [simplify_eq; eexists _, _, _; eapply rtc_l; [|apply rtc_refl];
       unfold task_step, poll, relay_download_task, poll_relay_download; by rewrite Er|]); [done|].
  destruct (apply_keystream dec (b :: chunk)) as [dec1 d1] eqn:E1.
  destruct (apply_keystream enc d1) as [enc1 d2] eqn:E2.
  apply run_bind_Done in H as (w1 & Ew & H).
  assert (forall fin, rtc task_step (match w1 with
      | None => mkRelayDown RlEnd f rem' w dec1 enc1 count
      | Some w => mkRelayDown RlRead f rem' w dec1 enc1 (counter_add (length (b :: chunk)) count) end) fin ->
    rtc task_step (mkRelayDown RlRead f rem w dec enc count) fin) as Hgo.
  { intros fin Hfin. eapply rtc_l; [unfold task_step, poll, relay_download_task, poll_relay_download; rewrite Er|].
    { cbn [run_bind]. rewrite E1, E2. reflexivity. }
    eapply rtc_l; [unfold task_step, poll, relay_download_task, poll_relay_download; by rewrite Ew|exact Hfin]. }
  destruct w1 as [w1|].
  - apply IH in H as (r' & d' & e' & H). exists r', d', e'. by apply Hgo.
  - simplify_eq. eexists _, _, _. apply Hgo, rtc_refl.
Qed.

Lemma relay_upload_grows `{!CryptoLaws C} (a b : relay_up) :
  task_step a b -> t_out (ru_tcp a) `prefix_of` t_out (ru_tcp b).
Proof.
  destruct a as [at_ f reader dec enc t count]. unfold task_step, poll, relay_upload_task, poll_relay_upload.
  destruct at_ as [|n chunk|]; intros H; simplify_eq/=.
  - apply run_bind_Done in H as ([chunk reader'] & _ & H). destruct chunk; [by simplify_eq|].
    destruct (apply_keystream dec _) as [dec1 d1]. destruct (apply_keystream enc d1). by simplify_eq.
  - apply run_bind_Done in H as ([t1|] & Et & H); simplify_eq; [|done]. cbn [ru_tcp].
    destruct (rem_write_spec f t chunk) as (r & E & HW & _). rewrite E in Et. simplify_eq.
    destruct (HW t1 eq_refl) as (_ & wire & -> & _). by eexists.
Qed.

Lemma relay_download_grows `{!CryptoLaws C} (a b : relay_down) :
  task_step a b -> written (rd_writer a) `prefix_of` written (rd_writer b).
Proof.
  destruct a as [at_ f rem w dec enc count]. unfold task_step, poll, relay_download_task, poll_relay_download.
  destruct at_ as [|n chunk|]; intros H; simplify_eq/=.
  - apply run_bind_Done in H as ([chunk rem'] & _ & H). destruct chunk; [by simplify_eq|].
    destruct (apply_keystream dec _) as [dec1 d1]. destruct (apply_keystream enc d1). by simplify_eq.
  - apply run_bind_Done in H as ([w1|] & Ew & H); simplify_eq; [by apply write_grows in Ew|done].
Qed.
End refinement.

(** A quantity that every step extends is, along a run, a prefix of its end. *)
Lemma rtc_prefix {S A} {T : Task S} (f : S -> list A) :
  (forall a b, task_step a b -> f a `prefix_of` f b) -> forall a b, rtc task_step a b -> f a `prefix_of` f b.
Proof. intros Hf a b H. induction H as [a|a b c Hab _ IH]; [done|]. etrans; [by apply Hf|done]. Qed.

(** A direction that is cut off has delivered a prefix of its end too, when each
    operation that is cut off leaves a prefix of what it would have left. *)
Definition cut_prefix {S A} {T : Task S} (f : S -> list A) : Prop :=
  forall k a, (task_ended a -> f (cut k a) = f a) /\ forall b, task_step a b -> f (cut k a) `prefix_of` f b.

Lemma cut_before_prefix {S A} {T : Task S} (f : S -> list A) :
  (forall a b, task_step a b -> f a `prefix_of` f b) -> cut_prefix f ->
  forall a b, cut_before b a -> f a `prefix_of` f b.
Proof.
  intros Hf Hc a b (k & a0 & -> & Hr & He). destruct (Hc k a0) as [H1 H2].
  inversion Hr as [|x y z Hxy Hyz]; subst; [by rewrite H1|]. etrans; [by apply H2|]. by apply (rtc_prefix f).
Qed.

Section cuts.
Context {C : Crypto} `{!CryptoLaws C}.

Lemma upload_cut usize_max : cut_prefix (T := upload_task usize_max) (fun u => sk_sent (wu_sink u)).
Proof.
  intros k [at_ s count]. split.
  { intros H. destruct at_; try done. }
  intros b H. pose proof (upload_grows _ _ _ H) as Hg. destruct k as [|k].
  { by destruct at_. }
  destruct at_ as [m reader dec enc sp|reader dec enc sp|n m parts reader dec enc sp|m parts| |]; try exact Hg;
    unfold task_step, poll, upload_task, poll_upload in H; cbn [wu_at wu_sink wu_bytes] in H;
    cbn [cut upload_task cut_upload cut_send wu_at wu_sink wu_bytes].
  - destruct (sink_send m s) as [[] s1]; by simplify_eq.
  - destruct (sink_send m s) as [[] s1]; simplify_eq; [by destruct parts|done].
  - simplify_eq. by destruct parts.
Qed.

Lemma download_cut : cut_prefix (fun d : ws_down => written (wd_writer d)).
Proof.
  intros k [at_ source w dec enc count]. split; [by destruct at_|].
  intros b H. destruct at_ as [|data|]; try exact (download_grows _ _ H).
  unfold task_step, poll, download_task, poll_download in H. simplify_eq/=.
  apply run_bind_Done in H as (r & Er & H). apply (cut_client_write_grows k) in Er. destruct r; by simplify_eq.
Qed.

Lemma relay_upload_cut : cut_prefix (fun u : relay_up => t_out (ru_tcp u)).
Proof.
  intros k [at_ f reader dec enc t count]. split; [by destruct at_|].
  intros b H. destruct at_ as [|n chunk|]; try exact (relay_upload_grows _ _ H).
  unfold task_step, poll, relay_upload_task, poll_relay_upload in H. simplify_eq/=.
  apply run_bind_Done in H as (r & Er & H). apply (proj2 (cut_rem_write_grows k f t chunk)) in Er. destruct r; by simplify_eq.
Qed.

Lemma relay_download_cut : cut_prefix (fun d : relay_down => written (rd_writer d)).
Proof.
  intros k [at_ f rem w dec enc count]. split; [by destruct at_|].
  intros b H. destruct at_ as [|n chunk|]; try exact (relay_download_grows _ _ H).
  unfold task_step, poll, relay_download_task, poll_relay_download in H. simplify_eq/=.
  apply run_bind_Done in H as (r & Er & H). apply (cut_client_write_grows k) in Er. destruct r; by simplify_eq.
Qed.
End cuts.

(** An upstream that refuses the first message is reported as closed by the
    client: the upload ends on a failed send too. *)
Lemma broken_upstream_reported_client {C : Crypto} usize_max framing proto relay_init cc reader writer ws_sink ws_source :
  sk_room ws_sink = 0%nat ->
  exists u d, rtc (join_step (TU := upload_task usize_max))
      (ws_bridge framing proto relay_init cc reader writer ws_sink ws_source) (Closed Client u d) /\ wu_bytes u = 0.
Proof.
  intros Hroom.
  set (d := mkWsDown DnRead ws_source writer (tg_dec cc) (clt_enc cc) 0).
  exists (mkWsUp UpEnd ws_sink 0), d. split; [|done].
  apply (rtc_l _ _ (Running (mkWsUp UpEnd ws_sink 0) d)); [apply join_upload|by apply rtc_once; exact (join_client (TU := upload_task usize_max) 0 (mkWsUp UpEnd ws_sink 0) d eq_refl)].
  unfold task_step, poll, upload_task, poll_upload. cbn [wu_at wu_sink wu_bytes]. unfold sink_send. by rewrite Hroom.
Qed.

(** ** Properties *)
Section join_properties.
Context {C : Crypto} `{!CryptoLaws C} (usize_max : Z) (Husize : 2 ^ 32 - 1 <= usize_max).
#[local] Instance ws_up_task : Task ws_up := upload_task usize_max.

(** C17. A WebSocket session, with its two directions interleaved in any order and
    the slower one cancelled, in the middle of a write if it is in one.  It ends after a bounded number of steps and is
    never stuck before; at any moment each direction has delivered a prefix of
    what it would deliver alone; and at the end the direction that closed the
    session has delivered all of it: every message, the flush and the close
    frame, and the exact byte count, when the client closed it, and everything
    Telegram sent when the upstream did. *)
Theorem ws_session_joined framing proto relay_init cc reader writer ws_sink ws_source :
  reader_ok reader -> bytes_ok (reader_bytes reader) ->
  let start := ws_bridge framing proto relay_init cc reader writer ws_sink ws_source in
  exists s' up writer' down,
    ws_upload usize_max framing proto relay_init cc reader ws_sink = Done (s', up) /\
    ws_download cc ws_source writer = Done (writer', down) /\
    (exists bound, forall k j, nsteps join_step k start j -> (k <= bound)%nat) /\
    forall j, rtc join_step start j ->
      match j with
      | Running u d => (exists j', join_step j j') /\
          sk_sent (wu_sink u) `prefix_of` sk_sent s' /\ written (wd_writer d) `prefix_of` written writer'
      | Closed Client u d => wu_sink u = s' /\ wu_bytes u = up /\ written (wd_writer d) `prefix_of` written writer'
      | Closed Upstream u d => wd_writer d = writer' /\ wd_bytes d = down /\ sk_sent (wu_sink u) `prefix_of` sk_sent s'
      end.
Proof.
  intros Hr Hb start.
  destruct (ws_upload_total usize_max Husize framing proto relay_init cc reader ws_sink Hr Hb) as (s' & up & Eu & _).
  destruct (ws_download_total cc ws_source writer) as [[writer' down] Ed].
  exists s', up, writer', down. split; [done|]. split; [done|].
  destruct (rtc_ends_in _ _ (ws_upload_runs usize_max _ _ _ _ _ _ _ _ Eu) eq_refl) as [n Hn].
  destruct (download_loop_runs _ _ _ _ _ _ _ Ed) as (sf & df & ef & Hd).
  destruct (rtc_ends_in _ _ Hd eq_refl) as [m Hm].
  destruct (join_session n m _ _ _ _ Hn Hm) as [Hbound Hrun]. split; [exact Hbound|].
  pose proof (rtc_prefix (T := upload_task usize_max) (fun u => sk_sent (wu_sink u)) (upload_grows usize_max)) as Gu.
  pose proof (rtc_prefix (fun d : ws_down => written (wd_writer d)) download_grows) as Gd.
  pose proof (cut_before_prefix _ (upload_grows usize_max) (upload_cut usize_max)) as Cu.
  pose proof (cut_before_prefix _ download_grows download_cut) as Cd.
  intros j Hj. specialize (Hrun j Hj). destruct j as [u d|[] u d].
  - destruct Hrun as (Hp & Hu' & Hd'). split; [exact Hp|]. split; [exact (Gu _ _ Hu')|exact (Gd _ _ Hd')].
  - destruct Hrun as [-> Hd']. split_and!; [done..|exact (Cd _ _ Hd')].
  - destruct Hrun as [-> Hu']. split_and!; [done..|exact (Cu _ _ Hu')].
Qed.

(** The same for a relay through an upstream proxy and, without FakeTLS, for
    the last-resort TCP bridge. *)
Theorem relay_session_joined faketls remote cc reader writer :
  reader_ok reader ->
  let start := relay_bridge faketls remote cc reader writer in
  exists t' up writer' down,
    relay_upload_loop (client_measure reader) faketls reader (clt_dec cc) (tg_enc cc) remote 0 = Done (t', up) /\
    relay_download_loop (length (t_in remote)) faketls remote writer (tg_dec cc) (clt_enc cc) 0 = Done (writer', down) /\
    (exists bound, forall k j, nsteps join_step k start j -> (k <= bound)%nat) /\
    forall j, rtc join_step start j ->
      match j with
      | Running u d => (exists j', join_step j j') /\
          t_out (ru_tcp u) `prefix_of` t_out t' /\ written (rd_writer d) `prefix_of` written writer'
      | Closed Client u d => ru_tcp u = t' /\ ru_bytes u = up /\ written (rd_writer d) `prefix_of` written writer'
      | Closed Upstream u d => rd_writer d = writer' /\ rd_bytes d = down /\ t_out (ru_tcp u) `prefix_of` t_out t'
      end.
Proof.
  intros Hr start.
  destruct (relay_upload_total faketls reader (clt_dec cc) (tg_enc cc) remote Hr) as [[t' up] Eu].
  destruct (relay_download_total faketls remote writer (tg_dec cc) (clt_enc cc)) as [[writer' down] Ed].
  exists t', up, writer', down. split; [done|]. split; [done|].
  destruct (relay_upload_runs _ _ _ _ _ _ _ _ _ Eu) as (? & ? & ? & Hu).
  destruct (relay_download_runs _ _ _ _ _ _ _ _ _ Ed) as (? & ? & ? & Hd).
  destruct (rtc_ends_in _ _ Hu eq_refl) as [n Hn]. destruct (rtc_ends_in _ _ Hd eq_refl) as [m Hm].
  destruct (join_session n m _ _ _ _ Hn Hm) as [Hbound Hrun]. split; [exact Hbound|].
  pose proof (rtc_prefix (fun u : relay_up => t_out (ru_tcp u)) relay_upload_grows) as Gu.
  pose proof (rtc_prefix (fun d : relay_down => written (rd_writer d)) relay_download_grows) as Gd.
  pose proof (cut_before_prefix _ relay_upload_grows relay_upload_cut) as Cu.
  pose proof (cut_before_prefix _ relay_download_grows relay_download_cut) as Cd.
  intros j Hj. specialize (Hrun j Hj). destruct j as [u d|[] u d].
  - destruct Hrun as (Hp & Hu' & Hd'). split; [exact Hp|]. split; [exact (Gu _ _ Hu')|exact (Gd _ _ Hd')].
  - destruct Hrun as [-> Hd']. split_and!; [done..|exact (Cd _ _ Hd')].
  - destruct Hrun as [-> Hu']. split_and!; [done..|exact (Cu _ _ Hu')].
Qed.
End join_properties.

(** *** Witnesses *)
Lemma ws_session_joined_witness :
  let start := ws_bridge (C := toy_crypto) Packets Abridged demo_relay_init demo_ciphers (PlainReader demo_upload)
                 (FakeTlsWriter (mkTcp [] [] [] demo_room)) demo_sink demo_source in
  exists bound, forall k j, nsteps (join_step (TU := upload_task (C := toy_crypto) (2 ^ 64 - 1))) k start j -> (k <= bound)%nat.
Proof.
  destruct (ws_session_joined (C := toy_crypto) (CryptoLaws0 := toy_crypto_laws) (2 ^ 64 - 1) ltac:(lia)
    Packets Abridged demo_relay_init demo_ciphers (PlainReader demo_upload)
    (FakeTlsWriter (mkTcp [] [] [] demo_room)) demo_sink demo_source) as (s' & up & w' & down & _ & _ & Hb & _).
  - exact I.
  - apply (bool_decide_unpack _). vm_compute. exact I.
  - exact Hb.
Defined.

Lemma relay_session_joined_witness :
  exists bound, forall k j,
    nsteps join_step k (relay_bridge (C := toy_crypto) true (uc_tcp demo_upstream) demo_ciphers
      (PlainReader demo_upload) (PlainWriter (mkTcp [] [] [] demo_room))) j -> (k <= bound)%nat.
Proof.
  destruct (relay_session_joined (C := toy_crypto) (CryptoLaws0 := toy_crypto_laws) true (uc_tcp demo_upstream)
    demo_ciphers (PlainReader demo_upload) (PlainWriter (mkTcp [] [] [] demo_room)) I)
    as (t' & up & w' & down & _ & _ & Hb & _). exact Hb.
Defined.
