(* ===== verification/Report.v ===== *)
(** * proxy.rs: the line a session leaves in the log

    [log_session_closed] and what it prints: which side ended the session, and
    how many bytes went up and down, as [human_bytes] writes them.  The upload
    runs in a task of its own and is counted in an [UploadCounter], which is
    stored where the bridge reads it when the task is dropped, whether it ended
    or was aborted.

    An [f64] that [human_bytes] handles is a whole number of bytes, rounded to 53
    bits once, over a power of 1024; dividing by 1024 is exact.  The elapsed
    time, printed from the clock, is a text. *)
From Stdlib Require Import String.
From stdpp Require Import relations.
From S2P Require Import Prelude Text CryptoApi Crypto Splitter FakeTls Config WsClient.
From S2P Require Import Session Bridge Join.

Local Open Scope Z_scope.

(** ** UploadCounter *)
Record UploadCounter : Type := mkUploadCounter {
  ctr_shared : Z;
  ctr_bytes : Z;
}.

Definition upload_counter_new (shared : Z) : UploadCounter := mkUploadCounter shared 0.

Definition upload_counter_add (n : nat) (c : UploadCounter) : UploadCounter :=
  mkUploadCounter (ctr_shared c) (counter_add n (ctr_bytes c)).

(** [Drop]: what the shared cell holds afterwards. *)
Definition upload_counter_drop (c : UploadCounter) : Z := ctr_bytes c.

(** ** human_bytes *)

(** [a / b] rounded to the nearest whole number, ties to even. *)
Definition round_half_even (a b : Z) : Z :=
  let q := a / b in
  let r := a mod b in
  if 2 * r <? b then q
  else if b <? 2 * r then q + 1
  else if Z.even q then q else q + 1.

(** [n as f64]. *)
Definition as_f64 (n : Z) : Z :=
  if n <? 2 ^ 53 then n
  else
    let e := Z.log2 n - 52 in
    round_half_even n (2 ^ e) * 2 ^ e.

(** [format!("{:.1}", v)] of [v = n / scale]. *)
Definition one_decimal (n scale : Z) : text :=
  let tenths := round_half_even (10 * n) scale in
  dec (tenths / 10) ++ txt "." ++ dec (tenths mod 10).

Definition UNITS : list text := [txt "B"; txt "KB"; txt "MB"; txt "GB"; txt "TB"].

(** [v] is [n / scale]. *)
Fixpoint units_loop (units : list text) (n scale : Z) : text :=
  match units with
  | unit :: units =>
      if n <? 1024 * scale then one_decimal n scale ++ unit
      else units_loop units n (scale * 1024)
  | [] => one_decimal n scale ++ txt "PB"
  end.

Definition human_bytes (n : Z) : text := units_loop UNITS (as_f64 n) 1.

(** ** log_session_closed *)
Definition log_session_closed (label : text) (dc : Z) (is_media : bool) (kind : text) (closed_by : ClosedBy)
    (bytes_up bytes_down : Z) (elapsed : text) : text :=
  txt "[" ++ label ++ txt "] DC" ++ dec dc ++ media_tag is_media ++ txt " " ++ kind
  ++ txt " session closed by " ++ closed_by_str closed_by
  ++ txt ": ↑" ++ human_bytes bytes_up ++ txt "  ↓" ++ human_bytes bytes_down
  ++ txt "  " ++ elapsed ++ txt "s".

Section reports.
Context {C : Crypto}.

(** The end of [bridge_ws], once [join_bridge] has returned: by then the upload
    task is gone, and with it its counter. *)
Definition ws_report (label : text) (dc : Z) (is_media : bool) (j : bridge ws_up ws_down) (elapsed : text)
  : option text :=
  match j with
  | Running _ _ => None
  | Closed closed_by u d =>
      let bytes_up := upload_counter_drop (mkUploadCounter 0 (wu_bytes u)) in
      Some (log_session_closed label dc is_media (txt "WS") closed_by bytes_up (wd_bytes d) elapsed)
  end.

(** The end of [bridge_relay], and of [bridge_tcp] with its own kind. *)
Definition relay_kind (faketls : bool) : text := if faketls then txt "upstream FakeTLS" else txt "upstream".

Definition relay_report (label : text) (dc : Z) (is_media : bool) (kind : text) (j : bridge relay_up relay_down)
    (elapsed : text) : option text :=
  match j with
  | Running _ _ => None
  | Closed closed_by u d =>
      let bytes_up := upload_counter_drop (mkUploadCounter 0 (ru_bytes u)) in
      Some (log_session_closed label dc is_media kind closed_by bytes_up (rd_bytes d) elapsed)
  end.

End reports.

(** ** Lemmas: rounding *)
Lemma round_half_even_near a b : 0 < b -> 2 * Z.abs (round_half_even a b * b - a) <= b.
Proof.
  intros Hb. unfold round_half_even. pose proof (Z.mod_pos_bound a b Hb). pose proof (Z.div_mod a b ltac:(lia)).
  repeat case_match; boolify; nia.
Qed.

Lemma round_half_even_mono_ge a b k : 0 < b -> k * b <= a -> k <= round_half_even a b.
Proof.
  intros Hb Hk. assert (k <= a / b) by (by apply Z.div_le_lower_bound; lia).
  unfold round_half_even. repeat case_match; lia.
Qed.

Lemma round_half_even_mono_le a b k : 0 < b -> a <= k * b -> round_half_even a b <= k.
Proof.
  intros Hb Hk. pose proof (Z.mod_pos_bound a b Hb). pose proof (Z.div_mod a b ltac:(lia)).
  unfold round_half_even. repeat case_match; boolify; nia.
Qed.

(** Below 2^53 a count is exact; above, the error is 2^-53 of it at most. *)
Lemma as_f64_near n : 0 <= n -> 2 ^ 53 * Z.abs (as_f64 n - n) <= n.
Proof.
  intros Hn. unfold as_f64. case_test; boolify; [lia|].
  set (e := Z.log2 n - 52). pose proof (Z.log2_spec n ltac:(lia)) as [Hlo _].
  assert (53 <= Z.log2 n) by (by apply Z.log2_le_pow2; lia).
  assert (2 ^ Z.log2 n = 2 ^ 52 * 2 ^ e) as E by (unfold e; rewrite <- Z.pow_add_r by lia; f_equal; lia).
  pose proof (Z.pow_pos_nonneg 2 e ltac:(lia) ltac:(lia)).
  pose proof (round_half_even_near n (2 ^ e) ltac:(lia)). lia.
Qed.

Lemma as_f64_nonneg n : 0 <= n -> 0 <= as_f64 n.
Proof. intros Hn. pose proof (as_f64_near n Hn). lia. Qed.

(** ** Lemmas: figures *)

(** [s] is the count [n] to one decimal in a unit of 1024^[k] bytes, at most half
    a tenth off besides the rounding of the count itself; bytes are exact, and
    the unit is the one that leaves a figure between 1.0 and 1024.0. *)
Definition figure_of (n : Z) (s : text) : Prop :=
  exists (k : nat) q unit, (UNITS ++ [txt "PB"]) !! k = Some unit /\
    s = dec (q / 10) ++ txt "." ++ dec (q mod 10) ++ unit /\ 0 <= q /\
    2 ^ 54 * Z.abs (q * 1024 ^ Z.of_nat k - 10 * n) <= 2 ^ 53 * 1024 ^ Z.of_nat k + 20 * n /\
    (k = 0%nat -> q = 10 * n) /\ ((0 < k)%nat -> 10 <= q) /\ ((k < 5)%nat -> q <= 10240).

(** The unit the loop stops at. *)
Lemma units_loop_stops units n scale :
  0 < scale -> 0 <= n ->
  exists (k : nat) unit, (units ++ [txt "PB"]) !! k = Some unit /\
    units_loop units n scale = one_decimal n (scale * 1024 ^ Z.of_nat k) ++ unit /\
    ((0 < k)%nat -> scale * 1024 ^ Z.of_nat k <= n) /\
    ((k < length units)%nat -> n < 1024 * (scale * 1024 ^ Z.of_nat k)).
Proof.
  intros Hs Hn. revert scale Hs. induction units as [|unit units IH]; intros scale Hs; cbn [units_loop].
  { exists 0%nat, (txt "PB"). rewrite Z.mul_1_r. split_and!; try done; simpl; lia. }
  case_test; boolify.
  { exists 0%nat, unit. rewrite Z.mul_1_r. split_and!; try done. lia. }
  destruct (IH (scale * 1024) ltac:(lia)) as (k & u & Hu & E & Hlo & Hhi). exists (S k), u.
  replace (scale * 1024 ^ Z.of_nat (S k)) with (scale * 1024 * 1024 ^ Z.of_nat k)
    by (rewrite Nat2Z.inj_succ, Z.pow_succ_r by lia; lia).
  split_and!; [done|done| |].
  - intros _. destruct k as [|k]; [rewrite Z.mul_1_r; lia|]. apply Hlo. lia.
  - intros Hk. apply Hhi. simpl in Hk. lia.
Qed.

Lemma human_bytes_figure n : 0 <= n -> figure_of n (human_bytes n).
Proof.
  intros Hn. pose proof (as_f64_near n Hn) as Hf. pose proof (as_f64_nonneg n Hn) as Hf0. unfold human_bytes.
  destruct (units_loop_stops UNITS (as_f64 n) 1 ltac:(lia) Hf0) as (k & unit & Hu & -> & Hlo & Hhi).
  rewrite Z.mul_1_l in *. pose proof (Z.pow_pos_nonneg 1024 (Z.of_nat k) ltac:(lia) ltac:(lia)) as Hp.
  set (scale := 1024 ^ Z.of_nat k) in *. exists k, (round_half_even (10 * as_f64 n) scale), unit.
  pose proof (round_half_even_near (10 * as_f64 n) scale Hp) as Hr. fold scale. split_and!; [done| | | | | |].
  - unfold one_decimal. by rewrite <- !app_assoc.
  - apply round_half_even_mono_ge; lia.
  - lia.
  - intros ->. assert (scale = 1) as E1 by done. rewrite E1 in *. specialize (Hhi ltac:(simpl; lia)).
    assert (as_f64 n = n) as E by lia. rewrite E in *. lia.
  - intros Hk. apply round_half_even_mono_ge; [done|]. specialize (Hlo Hk). lia.
  - intros Hk. specialize (Hhi ltac:(simpl; lia)). apply round_half_even_mono_le; [done|]. lia.
Qed.

(** ** Lemmas: what was counted was delivered *)
Section accounting.
Context {C : Crypto} `{!CryptoLaws C}.

Lemma length_apply_keystream c data c' data' : apply_keystream c data = (c', data') -> length data' = length data.
Proof. unfold apply_keystream. rewrite cipher_apply_encrypt. intros. simplify_eq. apply length_encrypt. Qed.

(** A chunk on its way out is as long as it was when it was read, at most [buf]. *)
Definition chunk_ok (buf : nat) (at_ : relay_at) : Prop :=
  match at_ with RlWrite n chunk => length chunk = n /\ (n <= buf)%nat | _ => True end.

(** Since [base], [count] bytes have gone out on the socket [t], raw or in
    records, and nothing else. *)
Definition counted (f : bool) (base t : tcp) (count : Z) : Prop :=
  exists wire data, t_out t = t_out base ++ wire /\ carries f wire data /\ Zlen data = count.

(** [wire] carries [done], and after it an unfinished part of [flight]. *)
Definition took (f : bool) (wire done flight : bytes) : Prop :=
  exists whole part full, wire = whole ++ part /\ carries f whole done /\ carries f full flight /\
    part `prefix_of` full /\ (part = [] \/ (length part < length full)%nat).

(** The same at the end of the session, when the direction may have been cut off
    in the middle of a write of [flight], at most [buf] bytes. *)
Definition settled (f : bool) (base t : tcp) (count : Z) (buf : nat) (flight : bytes) : Prop :=
  exists wire done, t_out t = t_out base ++ wire /\ took f wire done flight /\ Zlen done = count /\
    (length flight <= buf)%nat.

Lemma counted_start f t : counted f t t 0.
Proof. exists [], []. rewrite app_nil_r. split_and!; [done|apply carries_nil|done]. Qed.

Lemma counted_write f base t d t' count :
  rem_write f t d = Done (Some t') -> counted f base t count -> counted f base t' (count + Zlen d).
Proof.
  intros H (wire & data & E & Hc & <-). destruct (rem_write_spec f t d) as (r & E' & HW & _).
  rewrite E' in H. simplify_eq. destruct (HW t' eq_refl) as (_ & w & Ew & Hd). exists (wire ++ w), (data ++ d).
  rewrite Ew, E, app_assoc. split_and!; [done|by apply carries_app|]. unfold Zlen. rewrite length_app. lia.
Qed.

Lemma counted_settled f base t count buf : counted f base t count -> settled f base t count buf [].
Proof.
  intros (wire & data & E & Hc & Hn). exists wire, data. split_and!; [done| |done|simpl; lia].
  exists wire, [], []. rewrite app_nil_r. split_and!; [done|done|apply carries_nil|done|by left].
Qed.

(** A write cut off: what it was to write is in flight. *)
Lemma counted_cut k f base t d count buf :
  counted f base t count -> (length d <= buf)%nat ->
  exists flight, settled f base (cut_rem_write k f t d) count buf flight.
Proof.
  intros Hc Hd. unfold cut_rem_write. destruct (rem_write_spec f t d) as ([t'|] & Er & HW & _); rewrite Er;
    [|exists []; by apply counted_settled].
  destruct (HW t' eq_refl) as (_ & w & Ew & Hw). destruct Hc as (wire & data & E & Hc & Hn).
  unfold tcp_taken. rewrite Ew, take_app_ge, length_app by lia.
  replace (length (t_out t) + length w - length (t_out t))%nat with (length w) by lia.
  replace (length (t_out t) + Nat.min k (pred (length w)) - length (t_out t))%nat
    with (Nat.min k (pred (length w))) by lia. set (n := Nat.min k (pred (length w))).
  exists d, (wire ++ take n w), data. cbn [t_out]. split_and!; [by rewrite E, app_assoc| |done|lia].
  exists wire, (take n w), w. split_and!; [done|done|done|apply prefix_take|].
  rewrite length_take. destruct w; [left; apply take_nil|right; simpl in *; lia].
Qed.

(** *** Up *)
Definition up_counted (f : bool) (remote : tcp) (u : relay_up) : Prop :=
  ru_faketls u = f /\ chunk_ok CLIENT_READ_BUF_SIZE (ru_at u) /\ counted f remote (ru_tcp u) (ru_bytes u).

Lemma up_counted_step f remote u u' : task_step u u' -> up_counted f remote u -> up_counted f remote u'.
Proof.
  destruct u as [at_ f' reader dec enc t count]. intros H (Hf & Hn & Hc). cbn in Hf, Hn, Hc. subst f'.
  unfold task_step, poll, relay_upload_task, poll_relay_upload in H. destruct at_ as [|n chunk|]; simplify_eq/=.
  - apply run_bind_Done in H as ([chunk reader'] & Er & H). apply client_read_bounded in Er.
    destruct chunk; [by simplify_eq|].
    destruct (apply_keystream dec _) as [dec1 d1] eqn:E1. destruct (apply_keystream enc d1) as [enc1 d2] eqn:E2.
    apply length_apply_keystream in E1, E2. simplify_eq. split_and!; [done| |done]. cbn in *. lia.
  - apply run_bind_Done in H as ([t1|] & Et & H); simplify_eq; [|by split_and!].
    split_and!; [done|done|]. cbn. destruct Hn as [<- _]. exact (counted_write f remote t chunk t1 count Et Hc).
Qed.

Lemma up_counted_cut f remote k u :
  up_counted f remote u ->
  exists flight, settled f remote (ru_tcp (cut k u)) (ru_bytes (cut k u)) CLIENT_READ_BUF_SIZE flight.
Proof.
  destruct u as [at_ f' reader dec enc t count]. intros (Hf & Hn & Hc). cbn in Hf, Hn, Hc. subst f'.
  destruct at_ as [|n chunk|]; cbn; try (exists []; by apply counted_settled).
  apply counted_cut; [done|]. destruct Hn. lia.
Qed.

(** *** Down *)
Definition writer_counted (w0 w : ClientWriter) (count : Z) : Prop :=
  writer_faketls w = writer_faketls w0 /\ counted (writer_faketls w0) (writer_tcp w0) (writer_tcp w) count.

Lemma writer_counted_write w0 w d w' count :
  client_write_all w d = Done (Some w') -> writer_counted w0 w count -> writer_counted w0 w' (count + Zlen d).
Proof.
  rewrite client_write_rem. intros H [Hf Hc]. rewrite Hf in H. apply run_bind_Done in H as ([t|] & Et & H); simplify_eq.
  apply (counted_write _ _ _ _ _ _ Et) in Hc. split; destruct w; done.
Qed.

Lemma writer_counted_cut k w0 w d count buf :
  writer_counted w0 w count -> (length d <= buf)%nat ->
  exists flight, settled (writer_faketls w0) (writer_tcp w0) (writer_tcp (cut_client_write k w d)) count buf flight.
Proof.
  intros [Hf Hc] Hd. rewrite cut_client_write_rem, Hf.
  destruct (counted_cut k _ _ _ d count buf Hc Hd) as [flight HL]. exists flight. by destruct w.
Qed.

Definition down_counted (f : bool) (w0 : ClientWriter) (d : relay_down) : Prop :=
  rd_faketls d = f /\ chunk_ok (rem_buf f) (rd_at d) /\ writer_counted w0 (rd_writer d) (rd_bytes d).

Lemma rem_read_bounded f t data t' : rem_read f t = Done (data, t') -> (length data <= rem_buf f)%nat.
Proof.
  rewrite (proj1 (rem_read_client f t)). intros H. apply run_bind_Done in H as ([data' r] & E & H). simplify_eq.
  by apply client_read_bounded in E.
Qed.

Lemma down_counted_step f w0 d d' : task_step d d' -> down_counted f w0 d -> down_counted f w0 d'.
Proof.
  destruct d as [at_ f' rem w dec enc count]. intros H (Hf & Hn & Hc). cbn in Hf, Hn, Hc. subst f'.
  unfold task_step, poll, relay_download_task, poll_relay_download in H. destruct at_ as [|n chunk|]; simplify_eq/=.
  - apply run_bind_Done in H as ([chunk reader'] & Er & H). apply rem_read_bounded in Er.
    destruct chunk; [by simplify_eq|].
    destruct (apply_keystream dec _) as [dec1 d1] eqn:E1. destruct (apply_keystream enc d1) as [enc1 d2] eqn:E2.
    apply length_apply_keystream in E1, E2. simplify_eq. split_and!; [done| |done]. cbn in *. lia.
  - apply run_bind_Done in H as ([w1|] & Ew & H); simplify_eq; [|by split_and!].
    split_and!; [done|done|]. destruct Hn as [<- _]. exact (writer_counted_write w0 w chunk w1 count Ew Hc).
Qed.

Lemma down_counted_cut f w0 k d :
  down_counted f w0 d ->
  exists flight, settled (writer_faketls w0) (writer_tcp w0) (writer_tcp (rd_writer (cut k d))) (rd_bytes (cut k d))
    (rem_buf f) flight.
Proof.
  destruct d as [at_ f' rem w dec enc count]. intros (Hf & Hn & Hc). cbn in Hf, Hn, Hc.
  destruct at_ as [|n chunk|]; cbn; try (exists []; apply counted_settled, Hc).
  apply writer_counted_cut; [done|]. destruct Hn. lia.
Qed.

Definition ws_counted (w0 : ClientWriter) (d : ws_down) : Prop := writer_counted w0 (wd_writer d) (wd_bytes d).

Lemma ws_counted_step w0 d d' : task_step d d' -> ws_counted w0 d -> ws_counted w0 d'.
Proof.
  destruct d as [at_ source w dec enc count]. intros H Hc. cbn in Hc.
  unfold task_step, poll, download_task, poll_download in H. destruct at_ as [|data|]; simplify_eq/=.
  - destruct source as [|[data|data| | | |] source]; simplify_eq/=; try done;
      destruct (apply_keystream dec data) as [dec1 d1]; destruct (apply_keystream enc d1) as [enc1 d2]; by simplify_eq.
  - apply run_bind_Done in H as ([w1|] & Ew & H); simplify_eq; [|done].
    exact (writer_counted_write w0 w data w1 count Ew Hc).
Qed.

(** *** Both *)

(** What the steps of both directions keep holds until the session ends, and at
    its end of the direction that ended it and of the other one before it was cut
    off. *)
Lemma join_keeps {U D} {TU : Task U} {TD : Task D} (PU : U -> Prop) (PD : D -> Prop) u0 d0 j :
  rtc join_step (Running u0 d0) j ->
  (forall u u', task_step u u' -> PU u -> PU u') -> (forall d d', task_step d d' -> PD d -> PD d') ->
  PU u0 -> PD d0 ->
  match j with
  | Running u d => PU u /\ PD d
  | Closed Client u d => PU u /\ exists k d', d = cut k d' /\ PD d'
  | Closed Upstream u d => PD d /\ exists k u', u = cut k u' /\ PU u'
  end.
Proof.
  intros Hj HU HD Hu Hd.
  refine (rtc_ind_r (fun j => match j with
    | Running u d => PU u /\ PD d
    | Closed Client u d => PU u /\ exists k d', d = cut k d' /\ PD d'
    | Closed Upstream u d => PD d /\ exists k u', u = cut k u' /\ PU u' end) _ _ _ _ Hj); [done|].
  intros x y _ Hs IH. destruct Hs; destruct IH; split; eauto.
Qed.

(** The client's end of a WebSocket session, when it is over: what was counted
    down, and then part of at most one message. *)
Lemma ws_down_settled usize_max framing proto relay_init cc reader w0 ws_sink ws_source by_ u d :
  rtc (join_step (TU := upload_task usize_max))
    (ws_bridge framing proto relay_init cc reader w0 ws_sink ws_source) (Closed by_ u d) ->
  exists buf flight, settled (writer_faketls w0) (writer_tcp w0) (writer_tcp (wd_writer d)) (wd_bytes d) buf flight /\
    (by_ = Upstream -> flight = []).
Proof.
  intros Hj. assert (ws_counted w0 (mkWsDown DnRead ws_source w0 (tg_dec cc) (clt_enc cc) 0)) as Hd
    by (split; [done|apply counted_start]).
  pose proof (join_keeps (TU := upload_task usize_max) (fun _ => True) (ws_counted w0) _ _ _ Hj (fun _ _ _ H => H)
    (ws_counted_step w0) I Hd) as H. destruct by_.
  - destruct H as (_ & k & [at_ source w dec enc count] & -> & Hw). unfold ws_counted in Hw. cbn in Hw.
    destruct at_ as [|data|]; cbn; try (exists 0%nat, []; split; [apply counted_settled, Hw|done]).
    destruct (writer_counted_cut k w0 w data count (length data) Hw) as [flight HF]; [lia|].
    by exists (length data), flight.
  - destruct H as [Hw _]. exists 0%nat, []. split; [apply counted_settled, Hw|done].
Qed.

(** The two ends of a relay when its session is over. *)
Lemma relay_settled f remote cc reader w0 by_ u d :
  rtc join_step (relay_bridge f remote cc reader w0) (Closed by_ u d) ->
  exists flight_up flight_down,
    settled f remote (ru_tcp u) (ru_bytes u) CLIENT_READ_BUF_SIZE flight_up /\
    settled (writer_faketls w0) (writer_tcp w0) (writer_tcp (rd_writer d)) (rd_bytes d) (rem_buf f) flight_down /\
    match by_ with Client => flight_up = [] | Upstream => flight_down = [] end.
Proof.
  intros Hj.
  assert (down_counted f w0 (mkRelayDown RlRead f remote w0 (tg_dec cc) (clt_enc cc) 0)) as Hd
    by (split_and!; [done..|]; split; [done|apply counted_start]).
  assert (up_counted f remote (mkRelayUp RlRead f reader (clt_dec cc) (tg_enc cc) remote 0)) as Hu
    by (split_and!; [done..|apply counted_start]).
  pose proof (join_keeps (up_counted f remote) (down_counted f w0) _ _ _ Hj (up_counted_step f remote)
    (down_counted_step f w0) Hu Hd) as H. destruct by_; destruct H as [H1 (k & x & -> & H2)].
  - destruct (down_counted_cut f w0 k x H2) as [flight HF]. exists [], flight.
    split_and!; [apply counted_settled, H1|exact HF|done].
  - destruct (up_counted_cut f remote k x H2) as [flight HF]. exists flight, [].
    split_and!; [exact HF|apply counted_settled, H1|done].
Qed.
End accounting.

(** ** Properties *)
Section report_properties.
Context {C : Crypto} `{!CryptoLaws C}.

End report_properties.

(** *** Witness: three bytes up, then the client leaves in the middle of an answer *)
Example human_bytes_tests :
  human_bytes 0 = txt "0.0B" /\ human_bytes 1023 = txt "1023.0B" /\ human_bytes 1024 = txt "1.0KB" /\
  human_bytes 1536 = txt "1.5KB" /\ human_bytes (1024 * 1024 - 1) = txt "1024.0KB" /\
  human_bytes (2 ^ 64 - 1) = txt "16384.0PB".
Proof. vm_compute. split_and!; reflexivity. Qed.

Definition demo_remote : tcp := mkTcp [7; 8; 9; 10] [] [] 100.
Definition demo_short_client : ClientReader := PlainReader (mkTcp [1; 2; 3] [] [] 0).
Definition demo_records_client : ClientWriter := FakeTlsWriter (mkTcp [] [] [] 100).

(** The download is cut off seven bytes into a record of nine. *)
Lemma demo_relay_run :
  exists u d, rtc join_step (relay_bridge (C := toy_crypto) false demo_remote demo_ciphers demo_short_client
      demo_records_client) (Closed Client u d) /\
    length (t_out (ru_tcp u)) = 3%nat /\ length (written (rd_writer d)) = 7%nat /\ rd_bytes d = 0.
Proof.
  eexists _, _. split.
  { eapply rtc_l; [apply join_download; reflexivity|].
    do 3 (eapply rtc_l; [apply join_upload; reflexivity|]). apply rtc_once. apply (join_client 7). reflexivity. }
  vm_compute. split_and!; reflexivity.
Qed.

