(* ===== verification/Routing.v ===== *)
(** * proxy.rs: the fallback ladder

    [select_upstream] and the rungs it walks, over the process-wide state they
    share with every other connection: the pool, the cooldown maps, the
    round-robin counters and the network.  Around every awaited call the other
    tasks of the process run: [others] is what they do to the state, and
    [OutsideLaws] says that they change the pool only by its own operations. *)
From Stdlib Require Import String.
From S2P Require Import Prelude Text CryptoApi Crypto FakeTls Config WsClient Pool Session Bridge.
From stdpp Require Import list gmap relations.

Local Open Scope Z_scope.

Definition upstream_key (host : text) (port : Z) : text := host ++ txt ":" ++ dec port.

(** [Duration::from_secs]; the clock counts milliseconds. *)
Definition from_secs (s : Z) : Z := 1000 * s.

Record Timeouts : Type := mkTimeouts {
  to_ws_connect : Z;
  to_ws_fail_probe : Z;
  to_ws_fail_cooldown : Z;
  to_ws_redirect_cooldown : Z;
  to_ip_fail_cooldown : Z;
  to_handshake : Z;
  to_tcp_fallback : Z;
  to_upstream_connect : Z;
  to_upstream_fail_cooldown : Z;
  to_cf_connect : Z;
  to_cf_fail_cooldown : Z;
}.

Definition timeouts_from_config (c : Config) : Timeouts :=
  mkTimeouts (from_secs (c_ws_connect_timeout c)) (from_secs (c_ws_fail_probe_timeout c))
    (from_secs (c_ws_fail_cooldown c)) (from_secs (c_ws_redirect_cooldown c))
    (from_secs (c_ip_fail_cooldown c)) (from_secs (c_handshake_timeout c))
    (from_secs (c_tcp_fallback_timeout c)) (from_secs (c_upstream_connect_timeout c))
    (from_secs (c_upstream_fail_cooldown c)) (from_secs (c_cf_connect_timeout c))
    (from_secs (c_cf_fail_cooldown c)).

Section balance.
Context (usize_max : Z).

(** The offset and the counter after [fetch_add(1)]. *)
Definition balance_offset (domains : list text) (enabled : bool) (counter : Z) : nat * Z :=
  let n := length domains in
  if negb enabled || (n <=? 1)%nat then (0%nat, counter)
  else (Z.to_nat (counter mod Z.of_nat n), if counter =? usize_max then 0 else counter + 1).
End balance.

Definition domain_order (domains : list text) (first : nat) : list text := rotated first domains.

Section routing.
Context {C : Crypto} {N : Network} (usize_max : Z) (has_message : stream -> Z -> bool) (rt : Runtime).
Local Open Scope run_scope.

Inductive Upstream : Type :=
| UpWs (ws : stream) (framing : WsFraming)
| UpMtproto (conn : UpstreamConnection)
| UpTcp (dst : text).

(** The process-wide state; [w_tick] counts the suspension points passed. *)
Record world : Type := mkWorld {
  w_net : net;
  w_pool : WsPool;
  w_ws_fail : CooldownMap (Z * bool);
  w_ip_fail : CooldownMap text;
  w_upstream_fail : CooldownMap text;
  w_cf_worker_fail : CooldownMap text;
  w_cf_balance : Z;
  w_cf_worker_balance : Z;
  w_tick : nat;
}.

(** What the routing code cannot see: the other tasks, the TCP connects to
    upstream proxies, the random generator and the wall clock. *)
Class Outside : Type := {
  others : nat -> world -> world;
  up_connect : nat -> text -> Z -> Z -> option tcp;
  up_random : nat -> bytes;
  wall_clock : nat -> Z;
}.

Record Route : Type := mkRoute {
  r_config : Config;
  r_timeouts : Timeouts;
  r_dc : Z;
  r_is_media : bool;
  r_dc_idx : Z;
  r_proto : ProtoTag;
}.

Definition now (w : world) : Z := n_now (w_net w).

Definition set_net (n : net) (w : world) : world :=
  mkWorld n (w_pool w) (w_ws_fail w) (w_ip_fail w) (w_upstream_fail w) (w_cf_worker_fail w)
    (w_cf_balance w) (w_cf_worker_balance w) (w_tick w).
Definition set_pool (p : WsPool) (w : world) : world :=
  mkWorld (w_net w) p (w_ws_fail w) (w_ip_fail w) (w_upstream_fail w) (w_cf_worker_fail w)
    (w_cf_balance w) (w_cf_worker_balance w) (w_tick w).
Definition set_ws_fail (m : CooldownMap (Z * bool)) (w : world) : world :=
  mkWorld (w_net w) (w_pool w) m (w_ip_fail w) (w_upstream_fail w) (w_cf_worker_fail w)
    (w_cf_balance w) (w_cf_worker_balance w) (w_tick w).
Definition set_ip_fail (m : CooldownMap text) (w : world) : world :=
  mkWorld (w_net w) (w_pool w) (w_ws_fail w) m (w_upstream_fail w) (w_cf_worker_fail w)
    (w_cf_balance w) (w_cf_worker_balance w) (w_tick w).
Definition set_upstream_fail (m : CooldownMap text) (w : world) : world :=
  mkWorld (w_net w) (w_pool w) (w_ws_fail w) (w_ip_fail w) m (w_cf_worker_fail w)
    (w_cf_balance w) (w_cf_worker_balance w) (w_tick w).
Definition set_cf_worker_fail (m : CooldownMap text) (w : world) : world :=
  mkWorld (w_net w) (w_pool w) (w_ws_fail w) (w_ip_fail w) (w_upstream_fail w) m
    (w_cf_balance w) (w_cf_worker_balance w) (w_tick w).
Definition set_cf_balance (n : Z) (w : world) : world :=
  mkWorld (w_net w) (w_pool w) (w_ws_fail w) (w_ip_fail w) (w_upstream_fail w) (w_cf_worker_fail w)
    n (w_cf_worker_balance w) (w_tick w).
Definition set_cf_worker_balance (n : Z) (w : world) : world :=
  mkWorld (w_net w) (w_pool w) (w_ws_fail w) (w_ip_fail w) (w_upstream_fail w) (w_cf_worker_fail w)
    (w_cf_balance w) n (w_tick w).

Context {O : Outside}.

(** The other tasks run. *)
Definition yield (w : world) : world :=
  others (w_tick w)
    (mkWorld (w_net w) (w_pool w) (w_ws_fail w) (w_ip_fail w) (w_upstream_fail w) (w_cf_worker_fail w)
       (w_cf_balance w) (w_cf_worker_balance w) (S (w_tick w))).

(** [.await] of an operation on the pool and of a connect. *)
Definition await_pool {A} (f : Z -> WsPool -> A * WsPool) (w : world) : A * world :=
  let w := yield w in
  let '(a, p) := f (now w) (w_pool w) in
  (a, yield (set_pool p w)).

Definition await_net {A} (f : net -> run (A * net)) (w : world) : run (A * world) :=
  let w := yield w in
  let! (a, n) := f (w_net w) in
  Done (a, yield (set_net n w)).

(** ** Cooldowns *)
Definition ws_key (r : Route) : Z * bool := (r_dc r, r_is_media r).

Definition cool_down_ws (r : Route) (all_redirects : bool) (w : world) : world :=
  let cooldown := if all_redirects then to_ws_redirect_cooldown (r_timeouts r)
                  else to_ws_fail_cooldown (r_timeouts r) in
  set_ws_fail (cooldown_set (now w) (ws_key r) cooldown (w_ws_fail w)) w.

Definition cool_down_ip (r : Route) (target_ip : text) (w : world) : world :=
  set_ip_fail (cooldown_set (now w) target_ip (to_ip_fail_cooldown (r_timeouts r)) (w_ip_fail w)) w.

(** ** The direct rung *)
Definition connect_ws (r : Route) (target_ip : text) (sni_override : option text) (w : world)
  : run (WsAttempt * world) :=
  let timeout := if cooldown_active (now w) (ws_key r) (w_ws_fail w)
                 then to_ws_fail_probe (r_timeouts r) else to_ws_connect (r_timeouts r) in
  await_net (fun n => Done (connect_ws_for_dc_with_outbound target_ip (websocket_dc (r_dc r))
                              (r_is_media r) (c_skip_tls_verify (r_config r)) timeout sni_override n)) w.

Definition direct_ws (r : Route) (target_ip : text) (w : world) : run (option stream * world) :=
  let fronting := rt_fronting_domain rt in
  let probing := cooldown_active (now w) (ws_key r) (w_ws_fail w) in
  let! (attempt, w) := connect_ws r target_ip fronting w in
  match at_ws attempt with
  | Some ws =>
      let w := set_ws_fail (cooldown_clear (ws_key r) (w_ws_fail w)) w in
      let w := set_ip_fail (cooldown_clear target_ip (w_ip_fail w)) w in
      Done (Some ws, w)
  | None =>
      let w := cool_down_ws r (at_all_redirects attempt) w in
      let w := if at_connect_timed_out attempt && negb probing then cool_down_ip r target_ip w else w in
      Done (None, w)
  end.

Definition direct_ws_tier (r : Route) (target_ip : text) (w : world) : run (option Upstream * world) :=
  let allow_refill := negb (cooldown_active (now w) target_ip (w_ip_fail w)) in
  let '(pooled, w) := await_pool (fun now p =>
      pool_get has_message (r_dc r) (r_is_media r) target_ip (c_skip_tls_verify (r_config r))
        allow_refill now p) w in
  match pooled with
  | Some ws => Done (Some (UpWs ws Packets), w)
  | None =>
      let! (ws, w) := direct_ws r target_ip w in
      Done (match ws with Some ws => Some (UpWs ws Packets) | None => None end, w)
  end.

(** ** The Cloudflare rungs *)
Definition cf_target (r : Route) (tier : CfTier) (dst domain : text) (rotation : list text) (counter : Z)
  : CfTarget * Z :=
  let '(domain, counter) :=
    if c_cf_balance (r_config r) then
      let '(first, counter) := balance_offset usize_max rotation true counter in
      (default domain (head (domain_order rotation first)), counter)
    else (domain, counter) in
  (mkCfTarget tier (r_dc r) (r_is_media r) dst domain (c_skip_tls_verify (r_config r))
     (to_cf_connect (r_timeouts r)) (c_cf_disable_tls (r_config r)), counter).

Definition cf_opts (r : Route) : CfDialOpts :=
  mkCfDialOpts (rt_cf_ips rt) (c_cf_disable_tls (r_config r)) (to_cf_fail_cooldown (r_timeouts r)).

(** The [for worker_domain in ..] loop. *)
Fixpoint cf_worker_loop (r : Route) (dst : text) (force : bool) (domains : list text) (w : world)
  : run (option stream * world) :=
  match domains with
  | [] => Done (None, w)
  | worker_domain :: domains =>
      if negb force && cooldown_active (now w) worker_domain (w_cf_worker_fail w)
      then cf_worker_loop r dst force domains w
      else
        let! (ws, w) := await_net (connect_cf_worker_ws_for_dc_with_outbound_opts usize_max worker_domain
            dst (r_dc r) (r_is_media r) (c_skip_tls_verify (r_config r)) (to_cf_connect (r_timeouts r))
            (cf_opts r)) w in
        match ws with
        | Some ws =>
            let w := set_cf_worker_fail (cooldown_clear worker_domain (w_cf_worker_fail w)) w in
            let '(target, counter) := cf_target r Worker dst worker_domain
                                        (c_cf_worker_domains (r_config r)) (w_cf_worker_balance w) in
            let w := set_cf_worker_balance counter w in
            Done (Some ws, set_pool (cf_prefetch target (w_pool w)) w)
        | None =>
            cf_worker_loop r dst force domains
              (set_cf_worker_fail (cooldown_set (now w) worker_domain
                 (to_cf_fail_cooldown (r_timeouts r)) (w_cf_worker_fail w)) w)
        end
  end.

Definition cf_worker (r : Route) (dst : text) (force : bool) (w : world) : run (option stream * world) :=
  match c_cf_worker_domains (r_config r) with
  | [] => Done (None, w)
  | worker_domains =>
      let dst := default dst (default_dc_ip (r_dc r)) in
      let '(hit, w) := await_pool (cf_get has_message Worker (r_dc r) (r_is_media r)) w in
      match hit with
      | Some (ws, domain) => Done (Some ws, w)
      | None =>
          let '(first_worker, counter) := balance_offset usize_max worker_domains
              (c_cf_balance (r_config r)) (w_cf_worker_balance w) in
          let w := set_cf_worker_balance counter w in
          cf_worker_loop r dst force (domain_order worker_domains first_worker) w
      end
  end.

Definition cf_proxy (r : Route) (w : world) : run (option stream * world) :=
  match c_cf_domains (r_config r) with
  | [] => Done (None, w)
  | cf_domains =>
      let '(first_domain, counter) := balance_offset usize_max cf_domains (c_cf_balance (r_config r))
                                        (w_cf_balance w) in
      let w := set_cf_balance counter w in
      let '(hit, w) := await_pool (cf_get has_message Proxy (r_dc r) (r_is_media r)) w in
      match hit with
      | Some (ws, domain) => Done (Some ws, w)
      | None =>
          let! (res, w) := await_net (connect_cf_ws_for_dc_with_outbound_ordered usize_max (r_dc r)
              cf_domains (r_is_media r) (c_skip_tls_verify (r_config r)) (to_cf_connect (r_timeouts r))
              first_domain (cf_opts r)) w in
          let '(ws, domain, _) := res in
          match ws, domain with
          | Some ws, Some domain =>
              let '(target, counter) := cf_target r Proxy [] domain cf_domains (w_cf_balance w) in
              let w := set_cf_balance counter w in
              Done (Some ws, set_pool (cf_prefetch target (w_pool w)) w)
          | _, _ => Done (ws, w)
          end
      end
  end.

(** ** Upstream proxies *)
Definition await_upstream (r : Route) (proxy : MtProtoProxy) (w : world)
  : run (option UpstreamConnection * world) :=
  let w := yield w in
  let! (conn, tape) := connect_mtproto_upstream proxy (r_dc_idx r) (r_proto r)
      (up_connect (w_tick w) (mp_host proxy) (mp_port proxy) (to_upstream_connect (r_timeouts r)))
      (wall_clock (w_tick w)) (up_random (w_tick w)) in
  Done (conn, yield w).

Fixpoint upstream_loop (r : Route) (force : bool) (proxies : list MtProtoProxy) (w : world)
  : run (option UpstreamConnection * world) :=
  match proxies with
  | [] => Done (None, w)
  | proxy :: proxies =>
      let key := upstream_key (mp_host proxy) (mp_port proxy) in
      if negb force && cooldown_active (now w) key (w_upstream_fail w)
      then upstream_loop r force proxies w
      else
        let! (conn, w) := await_upstream r proxy w in
        match conn with
        | Some conn =>
            Done (Some conn, set_upstream_fail (cooldown_clear key (w_upstream_fail w)) w)
        | None =>
            upstream_loop r force proxies
              (set_upstream_fail (cooldown_set (now w) key (to_upstream_fail_cooldown (r_timeouts r))
                 (w_upstream_fail w)) w)
        end
  end.

Definition upstream_proxies (r : Route) (force : bool) (w : world)
  : run (option UpstreamConnection * world) :=
  upstream_loop r force (c_mtproto_proxies (r_config r)) w.

(** ** The ladders *)
Definition nonempty_list {A} (l : list A) : bool := match l with [] => false | _ => true end.

Definition has_fallback (r : Route) : bool :=
  nonempty_list (c_cf_worker_domains (r_config r)) || nonempty_list (c_cf_domains (r_config r))
  || nonempty_list (c_mtproto_proxies (r_config r)).

Definition tcp_fallback (dst : text) : Upstream := UpTcp dst.

Definition tcp_last_resort (r : Route) (target_ip : text) : Upstream :=
  tcp_fallback (default target_ip (default_dc_ip (r_dc r))).

Definition cf_tiers (r : Route) (dst : text) (w : world) : run (option Upstream * world) :=
  let! (ws, w) := cf_worker r dst false w in
  match ws with
  | Some ws => Done (Some (UpWs ws Tunnel), w)
  | None =>
      let! (ws, w) := cf_proxy r w in
      Done (match ws with Some ws => Some (UpWs ws Packets) | None => None end, w)
  end.

Definition fallback_chain (r : Route) (dst : text) (w : world) : run (option Upstream * world) :=
  let! (up, w) := cf_tiers r dst w in
  match up with
  | Some up => Done (Some up, w)
  | None =>
      let! (conn, w) := upstream_proxies r false w in
      Done (match conn with Some conn => Some (UpMtproto conn) | None => None end, w)
  end.

Definition tier_attemptable (r : Route) (target_ip : option text) (tier : UpstreamTier) : bool :=
  match tier with
  | Ws => bool_decide (is_Some target_ip)
  | Cfworker => nonempty_list (c_cf_worker_domains (r_config r))
  | Cfproxy => nonempty_list (c_cf_domains (r_config r))
  | Mtproto => nonempty_list (c_mtproto_proxies (r_config r))
  | Tcp => bool_decide (is_Some target_ip) || bool_decide (is_Some (default_dc_ip (r_dc r)))
  end.

(** [tier_attemptable_after] of the tiers after the current one. *)
Definition tier_attemptable_after (r : Route) (rest : list UpstreamTier) (target_ip : option text) : bool :=
  existsb (tier_attemptable r target_ip) rest.

(** [self.runtime.fallback_ip(self.dc).or(target_ip)]. *)
Definition pinned_dst (r : Route) (target_ip : option text) : option text :=
  match default_dc_ip (r_dc r) with Some ip => Some ip | None => target_ip end.

(** The [match tier] of one round: an upstream, or on to the next tier. *)
Definition pinned_tier (r : Route) (target_ip : option text) (last_resort : bool) (tier : UpstreamTier)
    (w : world) : run (option Upstream * world) :=
  match tier with
  | Ws =>
      match target_ip with
      | None => Done (None, w)
      | Some target_ip => direct_ws_tier r target_ip w
      end
  | Cfworker =>
      match pinned_dst r target_ip with
      | None => Done (None, w)
      | Some dst =>
          let! (ws, w) := cf_worker r dst last_resort w in
          Done (match ws with Some ws => Some (UpWs ws Tunnel) | None => None end, w)
      end
  | Cfproxy =>
      let! (ws, w) := cf_proxy r w in
      Done (match ws with Some ws => Some (UpWs ws Packets) | None => None end, w)
  | Mtproto =>
      let! (conn, w) := upstream_proxies r last_resort w in
      Done (match conn with Some conn => Some (UpMtproto conn) | None => None end, w)
  | Tcp =>
      match pinned_dst r target_ip with
      | None => Done (None, w)
      | Some dst => Done (Some (tcp_fallback dst), w)
      end
  end.

Fixpoint pinned_ladder (r : Route) (tiers : list UpstreamTier) (target_ip : option text) (w : world)
  : run (option Upstream * world) :=
  match tiers with
  | [] => Done (None, w)
  | tier :: tiers =>
      let last_resort := negb (tier_attemptable_after r tiers target_ip) in
      let! (up, w) := pinned_tier r target_ip last_resort tier w in
      match up with
      | Some up => Done (Some up, w)
      | None => pinned_ladder r tiers target_ip w
      end
  end.

Definition select_upstream (r : Route) (target_ip : option text) (w : world)
  : run (option Upstream * world) :=
  match forced_upstreams (r_config r) (r_is_media r) with
  | Some tiers => pinned_ladder r tiers target_ip w
  | None =>
      match target_ip with
      | None =>
          match default_dc_ip (r_dc r) with
          | None => Done (None, w)
          | Some fallback =>
              let! (up, w) := fallback_chain r fallback w in
              Done (Some (default (tcp_fallback fallback) up), w)
          end
      | Some target_ip =>
          let ip_cooling := cooldown_active (now w) target_ip (w_ip_fail w) && has_fallback r in
          let! (up, w) := if ip_cooling then fallback_chain r target_ip w else Done (None, w) in
          match up with
          | Some up => Done (Some up, w)
          | None =>
              let! (up, w) := direct_ws_tier r target_ip w in
              match up with
              | Some up => Done (Some up, w)
              | None =>
                  if ip_cooling then Done (Some (tcp_last_resort r target_ip), w)
                  else
                    let! (up, w) := fallback_chain r target_ip w in
                    Done (Some (default (tcp_last_resort r target_ip) up), w)
              end
          end
      end
  end.
End routing.

Arguments world {N}.
Arguments Upstream {C N}.

(** What the routing code relies on: the other tasks change the pool only by
    its operations, asking for spares among [asked] at most, and the random
    generator does not draw reserved prefixes for ever. *)
Class OutsideLaws {N : Network} (usize_max : Z) (has_message : stream -> Z -> bool) (rt : Runtime)
    (asked : CfTarget -> Prop) (O : Outside) : Prop := {
  others_pool n w : rtc (pool_step usize_max has_message rt asked) (w_pool w) (w_pool (others n w));
  up_random_ok n : random_ok 32 (up_random n);
}.

(** A FakeTLS host name whose ClientHello fits its length fields. *)
Definition hostnames_ok (c : Config) : Prop :=
  Forall (fun p => forall h, mp_faketls_hostname p = Some h -> Zlen h <= 65000) (c_mtproto_proxies c).

(** What a route dials on a Cloudflare tier. *)
Definition target_of (r : Route) (tier : CfTier) (dst domain : text) : CfTarget :=
  mkCfTarget tier (r_dc r) (r_is_media r) dst domain (c_skip_tls_verify (r_config r))
    (to_cf_connect (r_timeouts r)) (c_cf_disable_tls (r_config r)).

(** Everything the route may dial or ask a spare for is among [asked]. *)
Definition route_asks (asked : CfTarget -> Prop) (r : Route) (target_ip : option text) : Prop :=
  (forall domain dst, domain ∈ c_cf_worker_domains (r_config r) -> pinned_dst r target_ip = Some dst ->
     asked (target_of r Worker dst domain)) /\
  (forall zone, zone ∈ c_cf_domains (r_config r) ->
     asked (target_of r Proxy [] (kws_record (r_dc r) zone)) /\
     (c_cf_balance (r_config r) = true -> asked (target_of r Proxy [] zone))).

Lemma route_asks_any r target_ip : route_asks any_target r target_ip.
Proof. done. Qed.

Lemma route_asks_config r : route_asks (cf_asked (r_config r)) r (dc_target_ip (r_config r) (r_dc r)).
Proof.
  split; [by intros domain dst Hd Hp|]. intros zone Hz. split; [|intros Hb]; (split; [done|]; split; [done|]; exists zone; auto).
Qed.

(** With [--cf-balance] the next spare is at an element of the rotation. *)
Lemma balanced_elem usize_max (rotation : list text) counter domain :
  rotation <> [] ->
  default domain (head (domain_order rotation (balance_offset usize_max rotation true counter).1)) ∈ rotation.
Proof.
  intros Hz. destruct (balance_offset usize_max rotation true counter) as [first counter'] eqn:E. cbn [fst]. unfold domain_order.
  assert (first < length rotation)%nat as Hf.
  { assert (0 < length rotation)%nat by (destruct rotation; [done|simpl; lia]).
    unfold balance_offset in E. cbn [negb orb] in E. case_test; simplify_eq; [done|].
    pose proof (Z.mod_pos_bound counter (Z.of_nat (length rotation))). lia. }
  pose proof (rotated_permutation first rotation Hf) as HP.
  destruct (rotated first rotation) as [|z l]; [apply Permutation_nil_l in HP; by subst|].
  simpl. rewrite <- HP. apply elem_of_cons. by left.
Qed.

Lemma cf_target_of usize_max r tier dst domain rotation counter :
  rotation <> [] ->
  exists d, (cf_target usize_max r tier dst domain rotation counter).1 = target_of r tier dst d /\
    (d = domain \/ (c_cf_balance (r_config r) = true /\ d ∈ rotation)).
Proof.
  intros Hz. unfold cf_target. destruct (c_cf_balance (r_config r)); [|by exists domain; auto].
  pose proof (balanced_elem usize_max rotation counter domain Hz) as HE.
  destruct (balance_offset _ _ _ _) as [first counter']. eexists. split; [done|]. auto.
Qed.

(** ** Lemmas: the rungs return and keep the pool's invariant *)
Section rungs.
Context {C : Crypto} `{!CryptoLaws C} {N : Network} (usize_max : Z) (has_message : stream -> Z -> bool)
  (rt : Runtime) (asked : CfTarget -> Prop) {O : Outside} `{!OutsideLaws usize_max has_message rt asked O}.

Definition pool_ok (ps : nat) (p : WsPool) : Prop := pool_inv rt ps p /\ spares_asked asked p.

(** [m] returns with a result that satisfies [post], whatever the other tasks
    do, and the pool stays well-formed. *)
Definition rung_ok {A} (post : A -> Prop) (m : world -> run (A * world)) : Prop :=
  forall ps w, pool_ok ps (w_pool w) ->
    exists a w', m w = Done (a, w') /\ pool_ok ps (w_pool w') /\ post a.

Lemma pool_ok_step ps p p' : pool_ok ps p -> pool_step usize_max has_message rt asked p p' -> pool_ok ps p'.
Proof. intros [H1 H2] Hs. split; [by eapply inv_step|by eapply asked_step]. Qed.

Lemma yield_inv ps w : pool_ok ps (w_pool w) -> pool_ok ps (w_pool (yield w)).
Proof.
  intros Hw. unfold yield. set (w1 := mkWorld _ _ _ _ _ _ _ _ _).
  pose proof (others_pool (w_tick w) w1) as Hr. change (w_pool w1) with (w_pool w) in Hr.
  revert Hw. induction Hr; [done|]. intros Hw. apply IHHr. by eapply pool_ok_step.
Qed.

Lemma await_net_ok {A} (P : A -> Prop) (f : net -> run (A * net)) :
  (forall n, exists a n', f n = Done (a, n') /\ P a) -> rung_ok P (await_net f).
Proof.
  intros Hf ps w Hw. unfold await_net. destruct (Hf (w_net (yield w))) as (a & n' & -> & HP).
  cbn [run_bind]. eexists _, _. split; [done|]. split; [|done].
  apply yield_inv. cbn [set_net w_pool]. by apply yield_inv.
Qed.

Lemma await_pool_ok {A} (P : A -> Prop) (f : Z -> WsPool -> A * WsPool) :
  (forall ps t p, pool_ok ps p -> pool_ok ps (f t p).2 /\ P (f t p).1) ->
  rung_ok P (fun w => Done (await_pool f w)).
Proof.
  intros Hf ps w Hw. unfold await_pool. pose proof (yield_inv ps w Hw) as Hw1.
  destruct (Hf ps (now (yield w)) _ Hw1) as [H1 H2].
  destruct (f (now (yield w)) (w_pool (yield w))) as [a p]. cbn [fst snd] in *.
  eexists _, _. split; [done|]. split; [|done]. by apply yield_inv.
Qed.

(** *** Pool hits *)
Abbreviation direct_stream k ws := (from_dial (direct_dial rt k) ws).

(** A connection of a Cloudflare bucket, dialled for a target among [asked]. *)
Definition tier_stream (k : CfKey) (ws : stream) : Prop :=
  exists t, asked t /\ tg_key t = k /\ from_dial (tier_dial t) ws.

Definition opt_all {A} (P : A -> Prop) (o : option A) : Prop := forall x, o = Some x -> P x.

Lemma opt_all_None {A} (P : A -> Prop) : opt_all P None.
Proof. done. Qed.

Lemma opt_all_Some {A} (P : A -> Prop) x : P x -> opt_all P (Some x).
Proof. by intros H y [= <-]. Qed.

Lemma pool_get_hit ps dc is_media ip skip allow t p :
  pool_inv rt ps p ->
  opt_all (fun ws => direct_stream (dc, is_media) ws) (pool_get has_message dc is_media ip skip allow t p).1.
Proof.
  intros Hinv. unfold pool_get. set (k := (dc, is_media)).
  pose proof (pop_loop_spec has_message t (p_max_age p) (reverse (bucket_of k p))) as HP. cbv zeta in HP.
  destruct (pop_loop has_message t (p_max_age p) (reverse (bucket_of k p))) as [hit rest].
  cbn [fst]. destruct hit as [ws|]; [|done]. apply opt_all_Some.
  destruct HP as (st & e & E & <- & _). pose proof (inv_direct _ _ _ Hinv k) as HF.
  apply Forall_reverse in HF. rewrite E in HF. apply Forall_app in HF as [_ HF].
  by apply Forall_cons_1 in HF as [? _].
Qed.

Lemma cf_get_hit ps tier dc is_media t p :
  pool_ok ps p ->
  opt_all (fun h => tier_stream (tier, dc, is_media) h.1) (cf_get has_message tier dc is_media t p).1.
Proof.
  intros [Hinv [_ Ha]]. unfold cf_get. set (k := (tier, dc, is_media)).
  destruct (p_cf_idle p !! k) as [b|] eqn:Eb; [|done].
  destruct (cf_pop_loop has_message t (p_max_age p) (reverse b)) as [hit rest] eqn:E.
  destruct hit as [e|]; [|done]. apply opt_all_Some. cbn [fst]. apply cf_pop_elem in E.
  pose proof (inv_cf _ _ _ Hinv k) as HF. specialize (Ha k). unfold cf_bucket_of in HF, Ha. rewrite Eb in HF, Ha.
  simpl in HF, Ha. rewrite list.Forall_forall in HF, Ha. exists (entry_target k e). split_and!; [by apply Ha|done|by apply HF].
Qed.

(** *** The rungs *)
Lemma websocket_dc_idem dc : websocket_dc (websocket_dc dc) = websocket_dc dc.
Proof.
  assert (websocket_dc dc = if 203 =? dc then 2 else dc) as ->
    by (unfold websocket_dc; cbn [find_key DC_OVERRIDES]; by case_match).
  destruct (203 =? dc) eqn:E; [done|]. unfold websocket_dc. cbn [find_key DC_OVERRIDES]. by rewrite E.
Qed.

(** The tried order holds nothing but the configured names. *)
Lemma domain_order_elem domains first (x : text) : x ∈ domain_order domains first -> x ∈ domains.
Proof.
  unfold domain_order, rotated. rewrite list_elem_of_omap. intros (i & _ & Hi). by eapply list_elem_of_lookup_2.
Qed.

Lemma distinct_elem seen l (x : text) : x ∈ distinct seen l -> x ∈ l.
Proof.
  revert seen. induction l as [|y l IH]; intros seen; cbn [distinct]; [done|].
  rewrite elem_of_cons. case_match; [right; by eapply IH|]. rewrite elem_of_cons. intros [->|?]; [by left|right; by eapply IH].
Qed.

Lemma direct_ws_ok r ip : rung_ok (opt_all (fun ws => direct_stream (r_dc r, r_is_media r) ws)) (direct_ws rt r ip).
Proof.
  intros ps w Hw. unfold direct_ws, connect_ws.
  match goal with |- context [await_net ?f w] =>
    destruct (await_net_ok (fun att : WsAttempt => opt_all (fun ws => direct_stream (r_dc r, r_is_media r) ws) (at_ws att)) f)
      with (ps := ps) (w := w) as (att & w1 & -> & Hw1 & HP) end; [|done|].
  { intros n. destruct (connect_ws_for_dc_with_outbound _ _ _ _ _ _ n) as [att n'] eqn:E.
    exists att, n'. split; [done|]. intros ws Ha.
    eapply from_dial_mono; [|by eapply ws_for_dc_connected].
    simpl. intros d (_ & ? & Hd & ? & ? & ? & _).
    unfold ws_domains in *. rewrite websocket_dc_idem in Hd. by split_and!. }
  cbn [run_bind]. destruct (at_ws att) as [ws|]; eexists _, _; (split; [done|]); (split; [|done]).
  - done.
  - by destruct (at_connect_timed_out att && negb _).
Qed.

(** What each rung hands to the bridge: a connection made the way of that rung,
    with the framing its far end expects. *)
Definition tier_result (r : Route) (target_ip : option text) (tier : UpstreamTier) (u : Upstream) : Prop :=
  match tier, u with
  | Ws, UpWs ws Packets => direct_stream (r_dc r, r_is_media r) ws
  | Cfworker, UpWs ws Tunnel => tier_stream (Worker, r_dc r, r_is_media r) ws
  | Cfproxy, UpWs ws Packets => tier_stream (Proxy, r_dc r, r_is_media r) ws
  | Mtproto, UpMtproto conn => exists proxy connected clock tape tape',
      proxy ∈ c_mtproto_proxies (r_config r) /\
      connect_mtproto_upstream proxy (r_dc_idx r) (r_proto r) connected clock tape
        = Done (Some conn, tape')
  | Tcp, UpTcp dst => pinned_dst r target_ip = Some dst
  | _, _ => False
  end.

Lemma direct_ws_tier_ok r target_ip ip :
  rung_ok (opt_all (tier_result r target_ip Ws)) (direct_ws_tier has_message rt r ip).
Proof.
  intros ps w Hw. unfold direct_ws_tier.
  match goal with |- context [await_pool ?f w] =>
    destruct (await_pool_ok (opt_all (fun ws => direct_stream (r_dc r, r_is_media r) ws)) f)
      with (ps := ps) (w := w) as (hit & w1 & E & Hw1 & HP) end; [|done|].
  { intros ps' t p Hp. split; [eapply pool_ok_step; [done|apply step_get]|eapply pool_get_hit, Hp]. }
  injection E as E. rewrite E. destruct hit as [ws|].
  { eexists _, _. split; [done|]. split; [done|]. apply opt_all_Some. by apply HP. }
  destruct (direct_ws_ok r ip ps w1 Hw1) as (o & w2 & -> & Hw2 & HP2). cbn [run_bind].
  eexists _, _. split; [done|]. split; [done|]. destruct o as [ws|]; [|done].
  apply opt_all_Some. by apply HP2.
Qed.

Lemma worker_total d dst dc is_media skip timeout opts n :
  exists o n', connect_cf_worker_ws_for_dc_with_outbound_opts usize_max d dst dc is_media skip timeout opts n = Done (o, n') /\
    opt_all (fun ws => from_dial (tier_dial (mkCfTarget Worker dc is_media dst d skip timeout (o_disable_tls opts))) ws) o.
Proof.
  destruct (connect_cf_worker_ws_for_dc_with_outbound_opts usize_max d dst dc is_media skip timeout opts n)
    as [[o n']| |] eqn:E; [exists o, n'; split; [done|]; intros ws ->; by eapply worker_connected|exfalso..];
    unfold connect_cf_worker_ws_for_dc_with_outbound_opts in E;
    (match type of E with context [connect_cf_with_path ?a ?b ?c ?d ?e ?f ?g ?h] =>
       destruct (cf_connect_cases a b c d e f g h) as (x & n' & E' & _) end);
    rewrite E' in E; by destruct x.
Qed.

Lemma prefetch_ok ps target p : asked target -> pool_ok ps p -> pool_ok ps (cf_prefetch target p).
Proof. intros Ha Hp. eapply pool_ok_step; [done|by apply step_cf_prefetch]. Qed.

Lemma cf_worker_loop_ok r target_ip dst force domains :
  route_asks asked r target_ip -> pinned_dst r target_ip = Some dst ->
  (forall d, d ∈ domains -> d ∈ c_cf_worker_domains (r_config r)) ->
  rung_ok (opt_all (fun ws => tier_stream (Worker, r_dc r, r_is_media r) ws))
    (cf_worker_loop usize_max rt r dst force domains).
Proof.
  intros [HA _] Hdst. induction domains as [|d domains IH]; intros Hin ps w Hw; cbn [cf_worker_loop]; [by exists None, w|].
  assert (d ∈ c_cf_worker_domains (r_config r)) as Hd by (apply Hin, elem_of_cons; by left).
  assert (forall x, x ∈ domains -> x ∈ c_cf_worker_domains (r_config r)) as Hin'
    by (intros x Hx; apply Hin, elem_of_cons; by right).
  case_test; [by apply IH|].
  match goal with |- context [await_net ?f w] =>
    destruct (await_net_ok (opt_all (fun ws => tier_stream (Worker, r_dc r, r_is_media r) ws)) f)
      with (ps := ps) (w := w) as (o & w1 & -> & Hw1 & HP) end; [|done|].
  { intros n. edestruct worker_total as (o & n' & -> & H). exists o, n'. split; [done|]. intros ws Hws.
    exists (target_of r Worker dst d). split_and!; [by apply HA|done|by apply H]. }
  cbn [run_bind]. destruct o as [ws|]; [|by apply IH].
  destruct (cf_target_of usize_max r Worker dst d (c_cf_worker_domains (r_config r)) (w_cf_worker_balance w1)) as (d' & Et & Hd');
    [by intros E; rewrite E in Hd; apply not_elem_of_nil in Hd|].
  cbn [w_cf_worker_balance set_cf_worker_fail] in *. destruct (cf_target _ _ _ _ _ _ _) as [target counter]. cbn [fst] in Et. subst target.
  eexists _, _. split; [done|]. split; [|done]. cbn [set_pool w_pool]. apply prefetch_ok; [|done].
  apply HA; [|done]. by destruct Hd' as [->|[_ ?]].
Qed.

Lemma cf_worker_ok r target_ip dst force :
  route_asks asked r target_ip -> pinned_dst r target_ip = Some (default dst (default_dc_ip (r_dc r))) ->
  rung_ok (opt_all (fun ws => tier_stream (Worker, r_dc r, r_is_media r) ws))
    (cf_worker usize_max has_message rt r dst force).
Proof.
  intros HA Hdst ps w Hw. unfold cf_worker. destruct (c_cf_worker_domains (r_config r)) as [|d ds] eqn:Ed; [by exists None, w|].
  match goal with |- context [await_pool ?f w] =>
    destruct (await_pool_ok (opt_all (fun h : stream * text => tier_stream (Worker, r_dc r, r_is_media r) h.1)) f)
      with (ps := ps) (w := w) as (hit & w1 & E & Hw1 & HP) end; [|done|].
  { intros ps' t p Hp. split; [eapply pool_ok_step; [done|apply step_cf_get]|by eapply cf_get_hit]. }
  injection E as E. rewrite E. destruct hit as [[ws dom]|].
  { eexists _, _. split; [done|]. split; [done|]. apply opt_all_Some. by apply (HP _ eq_refl). }
  destruct (balance_offset _ _ _ _) as [first counter] eqn:Eo. eapply cf_worker_loop_ok; [done|done| |done].
  intros x. rewrite Ed. by apply domain_order_elem.
Qed.

Lemma cf_proxy_ok r target_ip :
  route_asks asked r target_ip ->
  rung_ok (opt_all (fun ws => tier_stream (Proxy, r_dc r, r_is_media r) ws))
    (cf_proxy usize_max has_message rt r).
Proof.
  intros [_ HA] ps w Hw. unfold cf_proxy. destruct (c_cf_domains (r_config r)) as [|d ds] eqn:Ed; [by exists None, w|].
  destruct (balance_offset _ _ _ _) as [first counter]. set (w0 := set_cf_balance counter w).
  match goal with |- context [await_pool ?f w0] =>
    destruct (await_pool_ok (opt_all (fun h : stream * text => tier_stream (Proxy, r_dc r, r_is_media r) h.1)) f)
      with (ps := ps) (w := w0) as (hit & w1 & E & Hw1 & HP) end; [|done|].
  { intros ps' t p Hp. split; [eapply pool_ok_step; [done|apply step_cf_get]|by eapply cf_get_hit]. }
  injection E as E. rewrite E. destruct hit as [[ws dom]|].
  { eexists _, _. split; [done|]. split; [done|]. apply opt_all_Some. by apply (HP _ eq_refl). }
  match goal with |- context [await_net ?f w1] =>
    destruct (await_net_ok (fun x : option stream * option text * bool => opt_all (fun ws =>
        exists zone, zone ∈ d :: ds /\ x.1.2 = Some (kws_record (r_dc r) zone) /\
        from_dial (tier_dial (target_of r Proxy [] (kws_record (r_dc r) zone))) ws) x.1.1) f)
      with (ps := ps) (w := w1) as ([[o dom] ar] & w2 & -> & Hw2 & HP2) end; [|done|].
  { intros n. rewrite cf_ordered_walk.
    match goal with |- context [cf_walk ?a ?b ?c ?d ?e ?f n] =>
      destruct (cf_walk_connected a b c d e f n) as (o & h & ar & n' & -> & H) end.
    exists (o, h, ar), n'. split; [done|]. cbn [fst snd]. intros ws Hws. destruct (H ws Hws) as (h' & -> & Hh & H1).
    apply list_elem_of_fmap in Hh as (zone & -> & Hz). exists zone. split_and!; [|done|exact H1].
    apply distinct_elem in Hz. by apply domain_order_elem in Hz. }
  cbn [run_bind]. destruct o as [ws|]; [|by eexists _, _].
  destruct (HP2 ws eq_refl) as (zone & Hz & Hdom & Hd). cbn [fst snd] in Hdom. rewrite Hdom.
  destruct (HA zone Hz) as [HA1 _].
  destruct (cf_target_of usize_max r Proxy [] (kws_record (r_dc r) zone) (d :: ds) (w_cf_balance w2)) as (d' & Et & Hd'); [done|].
  destruct (cf_target _ _ _ _ _ _ _) as [target counter']. cbn [fst] in Et. subst target.
  eexists _, _. split; [done|]. split; [|apply opt_all_Some; by eexists].
  cbn [set_pool w_pool]. apply prefetch_ok; [|done]. destruct Hd' as [->|[Hb Hd']]; [done|by apply HA].
Qed.

Lemma upstream_loop_ok r force proxies :
  Forall (fun p => forall h, mp_faketls_hostname p = Some h -> Zlen h <= 65000) proxies ->
  (forall p, p ∈ proxies -> p ∈ c_mtproto_proxies (r_config r)) ->
  rung_ok (opt_all (fun c => tier_result r None Mtproto (UpMtproto c))) (upstream_loop r force proxies).
Proof.
  intros HF. induction HF as [|p proxies Hp HF IH]; intros Hin ps w Hw; cbn [upstream_loop]; [by exists None, w|].
  assert (forall q, q ∈ proxies -> q ∈ c_mtproto_proxies (r_config r)) as Hin'
    by (intros q Hq; apply Hin; apply elem_of_cons; by right).
  case_test; [by apply IH|]. unfold await_upstream.
  match goal with |- context [connect_mtproto_upstream ?a ?b ?c ?d ?e ?f] =>
    destruct (upstream_returns a b c d e f) as [[conn tape] E] end; [apply up_random_ok|done|].
  rewrite E. cbn [run_bind].
  assert (pool_ok ps (w_pool (yield (yield w)))) as Hw2 by by apply yield_inv, yield_inv.
  destruct conn as [conn|]; [|by apply IH].
  eexists _, _. split; [done|]. split; [done|]. apply opt_all_Some. cbn [tier_result].
  eexists p, _, _, _, _. split; [apply Hin; apply elem_of_cons; by left|exact E].
Qed.

Lemma upstream_proxies_ok r force :
  hostnames_ok (r_config r) ->
  rung_ok (opt_all (fun c => tier_result r None Mtproto (UpMtproto c))) (upstream_proxies r force).
Proof. intros H. by apply upstream_loop_ok. Qed.
(** *** The ladders *)
Lemma fallback_chain_ok r target_ip dst :
  hostnames_ok (r_config r) -> route_asks asked r target_ip ->
  pinned_dst r target_ip = Some (default dst (default_dc_ip (r_dc r))) ->
  rung_ok (opt_all (fun u => exists tier, tier_result r target_ip tier u))
    (fallback_chain usize_max has_message rt r dst).
Proof.
  intros Hh HA Hdst ps w Hw. unfold fallback_chain, cf_tiers.
  destruct (cf_worker_ok r target_ip dst false HA Hdst ps w Hw) as (o & w1 & -> & Hw1 & HP1). cbn [run_bind].
  destruct o as [ws|]; cbn [run_bind].
  { eexists _, _. split; [done|]. split; [done|]. apply opt_all_Some. exists Cfworker. by apply HP1. }
  destruct (cf_proxy_ok r target_ip HA ps w1 Hw1) as (o & w2 & -> & Hw2 & HP2). cbn [run_bind].
  destruct o as [ws|]; cbn [run_bind].
  { eexists _, _. split; [done|]. split; [done|]. apply opt_all_Some. exists Cfproxy. by apply HP2. }
  destruct (upstream_proxies_ok r false Hh ps w2 Hw2) as (o & w3 & -> & Hw3 & HP3). cbn [run_bind].
  eexists _, _. split; [done|]. split; [done|]. destruct o as [conn|]; [|done].
  apply opt_all_Some. exists Mtproto. by apply HP3.
Qed.

Lemma pinned_tier_ok r target_ip last tier :
  hostnames_ok (r_config r) -> route_asks asked r target_ip ->
  rung_ok (opt_all (tier_result r target_ip tier)) (pinned_tier usize_max has_message rt r target_ip last tier).
Proof.
  intros Hh HA ps w Hw. destruct tier; cbn [pinned_tier].
  - destruct target_ip as [ip|]; [by apply direct_ws_tier_ok|by exists None, w].
  - destruct (pinned_dst r target_ip) as [dst|] eqn:Edst; [|by exists None, w].
    assert (pinned_dst r target_ip = Some (default dst (default_dc_ip (r_dc r)))) as Hdst
      by (rewrite Edst; unfold pinned_dst in Edst; destruct (default_dc_ip (r_dc r)); by simplify_eq).
    destruct (cf_worker_ok r target_ip dst last HA Hdst ps w Hw) as (o & w1 & -> & Hw1 & HP). cbn [run_bind].
    eexists _, _. split; [done|]. split; [done|]. destruct o; [|done]. by apply opt_all_Some, HP.
  - destruct (cf_proxy_ok r target_ip HA ps w Hw) as (o & w1 & -> & Hw1 & HP). cbn [run_bind].
    eexists _, _. split; [done|]. split; [done|]. destruct o; [|done]. by apply opt_all_Some, HP.
  - destruct (upstream_proxies_ok r last Hh ps w Hw) as (o & w1 & -> & Hw1 & HP). cbn [run_bind].
    eexists _, _. split; [done|]. split; [done|]. destruct o; [|done]. by apply opt_all_Some, HP.
  - destruct (pinned_dst r target_ip) as [dst|] eqn:E; [|by exists None, w].
    eexists _, _. split; [done|]. split; [done|]. by apply opt_all_Some.
Qed.

Lemma pinned_ladder_ok r target_ip tiers :
  hostnames_ok (r_config r) -> route_asks asked r target_ip ->
  rung_ok (fun res => opt_all (fun u => exists tier, tier ∈ tiers /\ tier_result r target_ip tier u) res /\
      (is_Some (pinned_dst r target_ip) -> Tcp ∈ tiers -> is_Some res))
    (pinned_ladder usize_max has_message rt r tiers target_ip).
Proof.
  intros Hh HA. induction tiers as [|tier tiers IH]; intros ps w Hw; cbn [pinned_ladder].
  { exists None, w. split_and!; try done. intros _ H. by apply not_elem_of_nil in H. }
  destruct (pinned_tier_ok r target_ip (negb (tier_attemptable_after r tiers target_ip)) tier Hh HA ps w Hw)
    as (o & w1 & E & Hw1 & HP). rewrite E. cbn [run_bind]. destruct o as [u|].
  { eexists _, _. split; [done|]. split_and!; try done. apply opt_all_Some. exists tier.
    split; [apply elem_of_cons; by left|]. by apply HP. }
  destruct (IH ps w1 Hw1) as (o & w2 & -> & Hw2 & HP2 & HS). eexists _, _. split; [done|].
  split_and!; [done| |].
  - intros u Hu. destruct (HP2 u Hu) as (t & ? & ?). exists t. split; [apply elem_of_cons; by right|done].
  - intros Hd [<-|Ht]%elem_of_cons; [|by apply HS]. exfalso. cbn [pinned_tier] in E.
    destruct Hd as [dst Hd]. rewrite Hd in E. done.
Qed.

Lemma select_upstream_ok r target_ip :
  hostnames_ok (r_config r) -> route_asks asked r target_ip ->
  rung_ok (fun res =>
      opt_all (fun u => exists tier, tier_result r target_ip tier u /\
        forall tiers, forced_upstreams (r_config r) (r_is_media r) = Some tiers -> tier ∈ tiers) res /\
      (is_Some (pinned_dst r target_ip) ->
       (forall tiers, forced_upstreams (r_config r) (r_is_media r) = Some tiers -> Tcp ∈ tiers) ->
       is_Some res))
    (select_upstream usize_max has_message rt r target_ip).
Proof.
  intros Hh HA ps w Hw. unfold select_upstream.
  destruct (forced_upstreams (r_config r) (r_is_media r)) as [tiers|] eqn:Ef.
  { destruct (pinned_ladder_ok r target_ip tiers Hh HA ps w Hw) as (o & w1 & -> & Hw1 & HP & HS).
    eexists _, _. split; [done|]. split_and!; [done| |].
    - intros u Hu. destruct (HP u Hu) as (t & ? & ?). exists t. split; [done|]. by intros ? [= <-].
    - intros Hd Ht. apply HS; [done|]. by apply Ht. }
  assert (forall (u : Upstream) t, tier_result r target_ip t u -> exists tier, tier_result r target_ip tier u /\
    forall tiers, @None (list UpstreamTier) = Some tiers -> tier ∈ tiers) as Hany by (intros u t ?; by exists t).
  destruct target_ip as [ip|].
  - assert (tier_result r (Some ip) Tcp (tcp_last_resort r ip)) as Hlast.
    { unfold tcp_last_resort, tcp_fallback. cbn [tier_result]. unfold pinned_dst.
      by destruct (default_dc_ip (r_dc r)). }
    assert (pinned_dst r (Some ip) = Some (default ip (default_dc_ip (r_dc r)))) as Hdst
      by (unfold pinned_dst; by destruct (default_dc_ip (r_dc r))).
    set (cooling := cooldown_active _ _ _ && has_fallback r).
    assert (exists o w1, (if cooling then fallback_chain usize_max has_message rt r ip w else Done (None, w))
      = Done (o, w1) /\ pool_ok ps (w_pool w1) /\
      opt_all (fun u => exists tier, tier_result r (Some ip) tier u) o) as (o & w1 & -> & Hw1 & HP1).
    { destruct cooling; [by apply fallback_chain_ok|]. by exists None, w. }
    cbn [run_bind]. destruct o as [u|].
    { eexists _, _. split; [done|]. split_and!; try done. apply opt_all_Some.
      destruct (HP1 u eq_refl) as [t Ht]. by eapply Hany. }
    destruct (direct_ws_tier_ok r (Some ip) ip ps w1 Hw1) as (o & w2 & -> & Hw2 & HP2). cbn [run_bind].
    destruct o as [u|].
    { eexists _, _. split; [done|]. split_and!; try done. apply opt_all_Some. eapply Hany. by apply HP2. }
    destruct cooling.
    { eexists _, _. split; [done|]. split_and!; try done. apply opt_all_Some. by eapply Hany. }
    destruct (fallback_chain_ok r (Some ip) ip Hh HA Hdst ps w2 Hw2) as (o & w3 & -> & Hw3 & HP3). cbn [run_bind].
    eexists _, _. split; [done|]. split_and!; try done. apply opt_all_Some.
    destruct o as [u|]; simpl; [|by eapply Hany]. destruct (HP3 u eq_refl) as [t Ht]. by eapply Hany.
  - destruct (default_dc_ip (r_dc r)) as [fb|] eqn:Eip.
    + assert (pinned_dst r None = Some (default fb (default_dc_ip (r_dc r)))) as Hdst
        by (unfold pinned_dst; by rewrite Eip).
      destruct (fallback_chain_ok r None fb Hh HA Hdst ps w Hw) as (o & w1 & -> & Hw1 & HP1). cbn [run_bind].
      eexists _, _. split; [done|]. split_and!; try done. apply opt_all_Some.
      destruct o as [u|]; simpl; [destruct (HP1 u eq_refl) as [t Ht]; by eapply Hany|].
      apply (Hany _ Tcp). cbn [tier_result tcp_fallback]. unfold pinned_dst. by rewrite Eip.
    + eexists _, _. split; [done|]. split_and!; [done|done|]. unfold pinned_dst. rewrite Eip. by intros [? ?].
Qed.
End rungs.

(** ** Properties *)
Section routing_properties.
Context {C : Crypto} `{!CryptoLaws C} {N : Network} (usize_max : Z) (has_message : stream -> Z -> bool)
  (rt : Runtime) {O : Outside}.


(** What each rung promises of the upstream it yields, under a configuration. *)
Definition rung_promise (r : Route) (tier : UpstreamTier) (u : Upstream) : Prop :=
  let c := r_config r in
  match tier, u with
  | Ws, UpWs ws Packets => from_dial (direct_dial rt (r_dc r, r_is_media r)) ws
  | Cfworker, UpWs ws Tunnel => from_dial (asked_dial c (Worker, r_dc r, r_is_media r)) ws
  | Cfproxy, UpWs ws Packets => from_dial (asked_dial c (Proxy, r_dc r, r_is_media r)) ws
  | Mtproto, UpMtproto conn => exists proxy connected clock tape tape',
      proxy ∈ c_mtproto_proxies c /\
      connect_mtproto_upstream proxy (r_dc_idx r) (r_proto r) connected clock tape = Done (Some conn, tape')
  | Tcp, UpTcp dst => worker_dst c (r_dc r) = Some dst
  | _, _ => False
  end.

Lemma tier_result_promise r tier u :
  tier_result rt (cf_asked (r_config r)) r (dc_target_ip (r_config r) (r_dc r)) tier u -> rung_promise r tier u.
Proof.
  destruct u as [ws []| |], tier; try done; intros (t & Hat & Hk & Hd);
    apply (asked_stream _ _ _ Hat) in Hd; by rewrite Hk in Hd.
Qed.

(** C7. What routing hands to the bridge, from the pool or freshly dialled, is
    what its rung promises for this client's DC and class.  The direct rung: a
    host name of that DC and class, over TLS, showing no SNI but the fronting
    one when fronting is configured, framed packet by packet.  The Worker rung:
    a raw tunnel through a configured Worker, told the address of that DC, the
    DC and the class.  The proxy rung: Telegram's path at the kws record of
    that DC in a configured zone; only with [--cf-balance] may a pooled spare
    have been dialled at the bare zone instead.  An upstream proxy of the list,
    shaken hands with for the client's DC index and transport.  The TCP rung:
    the built-in address of the DC, or its [--dc-ip] one.  With pinned tiers
    the upstream comes from one of them, and the spares asked of the pool on
    the way are of the same kind. *)
Theorem select_upstream_sound r ps w u w' `{!OutsideLaws usize_max has_message rt (cf_asked (r_config r)) O} :
  hostnames_ok (r_config r) -> pool_inv rt ps (w_pool w) -> spares_asked (cf_asked (r_config r)) (w_pool w) ->
  select_upstream usize_max has_message rt r (dc_target_ip (r_config r) (r_dc r)) w = Done (Some u, w') ->
  spares_asked (cf_asked (r_config r)) (w_pool w') /\
  exists tier, rung_promise r tier u /\
    forall tiers, forced_upstreams (r_config r) (r_is_media r) = Some tiers -> tier ∈ tiers.
Proof.
  intros Hh Hw Ha Hs. destruct (select_upstream_ok usize_max has_message rt (cf_asked (r_config r)) r
    (dc_target_ip (r_config r) (r_dc r)) Hh (route_asks_config r) ps w (conj Hw Ha))
    as (res & w1 & E & [_ Hw1] & HP & _). rewrite Hs in E. injection E as <- <-. split; [done|].
  destruct (HP u eq_refl) as (tier & Ht & Hin). exists tier. split; [by apply tier_result_promise|done].
Qed.

(** The direct rung, on every branch: the DC's host names are dialled at
    the target over TLS with the fronting SNI, on the short probe timeout while
    the DC cools down and the full one otherwise; a connection clears both
    cooldowns; a failure starts the DC's, the long one if everything
    redirected; and the address itself starts cooling only after a TCP connect
    that ran out the full timeout. *)
Theorem direct_ws_outcome r ip w :
  let probing := cooldown_active (now w) (ws_key r) (w_ws_fail w) in
  let timeout := if probing then to_ws_fail_probe (r_timeouts r) else to_ws_connect (r_timeouts r) in
  let dial host := mkDial ip 443 host (txt "/apiws") true (c_skip_tls_verify (r_config r)) timeout
                     (rt_fronting_domain rt) true in
  let dials := map dial (ws_domains (r_dc r) (r_is_media r)) in
  let rs := outcomes (length (n_dials (w_net (yield w)))) dials in
  exists res n' w', direct_ws rt r ip w = Done (res, w') /\
    let w1 := yield (set_net n' (yield w)) in
    ((exists k ws, rs !! k = Some (Connected ws) /\ existsb is_connected (take k rs) = false /\
        dialled (w_net (yield w)) (take (S k) dials) n' /\ res = Some ws /\
        w_ws_fail w' = cooldown_clear (ws_key r) (w_ws_fail w1) /\
        w_ip_fail w' = cooldown_clear ip (w_ip_fail w1)) \/
     (existsb is_connected rs = false /\ dialled (w_net (yield w)) dials n' /\ res = None /\
      w_ws_fail w' = cooldown_set (now w1) (ws_key r)
        (if forallb is_redirect rs then to_ws_redirect_cooldown (r_timeouts r)
         else to_ws_fail_cooldown (r_timeouts r)) (w_ws_fail w1) /\
      w_ip_fail w' = if existsb is_connect_timeout rs && negb probing
                     then cooldown_set (now w1) ip (to_ip_fail_cooldown (r_timeouts r)) (w_ip_fail w1)
                     else w_ip_fail w1)).
Proof.
  cbv zeta. unfold direct_ws, connect_ws, await_net, connect_ws_for_dc_with_outbound.
  set (probing := cooldown_active _ _ _). set (timeout := if probing then _ else _).
  assert (ws_domains (websocket_dc (r_dc r)) (r_is_media r) = ws_domains (r_dc r) (r_is_media r)) as ->
    by (unfold ws_domains; by rewrite websocket_dc_idem).
  destruct (ws_domain_loop_spec (ws_domains (r_dc r) (r_is_media r)) ip (c_skip_tls_verify (r_config r))
    timeout (rt_fronting_domain rt) true false false (w_net (yield w))) as (att & n' & -> & HC).
  cbn [run_bind]. set (w1 := yield (set_net n' (yield w))).
  destruct HC as [(k & ws & Hk & Hf & Hd & ->)|(Hn & Hd & ->)];
    cbn [at_ws at_all_redirects at_connect_timed_out].
  - eexists _, n', _. split; [done|]. left. by exists k, ws.
  - eexists _, n', _. split; [done|]. right. rewrite andb_true_l, orb_false_l.
    split_and!; [done|done|done| |]; by destruct (existsb is_connect_timeout _ && negb probing).
Qed.
End routing_properties.

(** With [--cf-balance] the spare of the proxy tier is a bare zone of the
    configuration, whatever record has just answered. *)
Lemma cf_balance_spare_is_zone usize_max r record zones counter :
  c_cf_balance (r_config r) = true -> zones <> [] ->
  tg_domain (cf_target usize_max r Proxy [] record zones counter).1 ∈ zones.
Proof.
  intros Hb Hz. unfold cf_target. rewrite Hb.
  pose proof (balanced_elem usize_max zones counter record Hz) as HE. by destruct (balance_offset _ _ _ _).
Qed.

(** *** Witnesses: a quiet process over the always-answering network *)
Definition demo_outside : Outside (N := demo_network) := {|
  others := fun _ w => w;
  up_connect := fun _ _ _ _ => None;
  up_random := fun _ => demo_tape;
  wall_clock := fun _ => 1700000000;
|}.

Lemma demo_random : random_ok 32 demo_tape.
Proof.
  exists [replicate 64 0xef], (seqZ 10 64), ([7; 9] ++ seqZ 3 70).
  split; [vm_compute; reflexivity|]. split; [|split; [reflexivity|split; [vm_compute; reflexivity|]]].
  - constructor; [|constructor]. split; [reflexivity|vm_compute; reflexivity].
  - apply Nat.leb_le. vm_compute. reflexivity.
Qed.

Lemma demo_outside_laws asked :
  OutsideLaws (N := demo_network) (2 ^ 64 - 1) (fun _ _ => false) demo_runtime asked demo_outside.
Proof. split; [intros; apply rtc_refl|intros; exact demo_random]. Qed.

Definition demo_world : world (N := demo_network) :=
  mkWorld (N := demo_network) demo_net demo_pool3 None None None None 0 0 0.

Definition demo_route : Route :=
  mkRoute demo_config (timeouts_from_config demo_config) 2 false 2 Abridged.

Lemma demo_pool_inv : pool_inv (N := demo_network) demo_runtime 2 (w_pool demo_world).
Proof. exact (reachable_inv _ _ _ _ _ _ _ _ (demo_reachable3 any_target)). Qed.


(** A client pinned to the proxy tier, while a spare of its DC lies in the pool. *)
Definition demo_pinned : Config :=
  mkConfig None None false true [txt "00112233445566778899aabbccddeeff"] None [] false
    [txt "cf.example"] false [txt " https://w.example/x "; txt "  "] true true false [] [Cfproxy] []
    10 2 30 300 3600 10 10 5 60 10 60 1443 4 120 None [] None None false None false false None 256 1800 60.

Definition demo_pinned_route : Route :=
  mkRoute demo_pinned (timeouts_from_config demo_pinned) 2 false 2 Abridged.

Definition demo_spare_world : world (N := demo_network) :=
  mkWorld (N := demo_network) demo_net demo_pool4 None None None None 0 0 0.

(** The pooled spare is taken. *)
Lemma demo_routed :
  exists u w', select_upstream (C := toy_crypto) (N := demo_network) (O := demo_outside) (2 ^ 64 - 1)
    (fun _ _ => false) demo_runtime demo_pinned_route
    (dc_target_ip (r_config demo_pinned_route) (r_dc demo_pinned_route)) demo_spare_world = Done (Some u, w').
Proof.
  match goal with |- exists u w', ?x = _ =>
    assert (match x with Done (Some _, _) => true | _ => false end = true) as HR by (vm_compute; reflexivity);
    destruct x as [[[u|] w']| |]; [|discriminate HR..] end.
  by exists u, w'.
Qed.

Lemma select_upstream_sound_witness :
  exists u, rung_promise (C := toy_crypto) (N := demo_network) demo_runtime demo_pinned_route Cfproxy u.
Proof.
  destruct demo_routed as (u & w' & E).
  destruct (select_upstream_sound (C := toy_crypto) (CryptoLaws0 := toy_crypto_laws) (N := demo_network)
    (2 ^ 64 - 1) (fun _ _ => false) demo_runtime (O := demo_outside)
    demo_pinned_route 2 demo_spare_world u w' (OutsideLaws0 := demo_outside_laws (cf_asked demo_pinned)))
    as (_ & tier & H & Hin).
  - constructor.
  - exact (reachable_inv _ _ _ _ _ _ _ _ demo_reachable4).
  - exact (reachable_asked _ _ _ _ _ _ _ _ demo_reachable4).
  - exact E.
  - exists u. specialize (Hin [Cfproxy] eq_refl).
    apply list_elem_of_singleton in Hin as ->. exact H.
Defined.
