(* ===== verification/Handler.v ===== *)
(** * proxy.rs: handling one client

    [handle_client_with_runtime] from the accepted socket to the bridge: the
    handshake, the choice of the secret, the relay init, the four ciphers, the
    route, and the bridge of whatever upstream the ladder yields.  The halves
    of a WebSocket are given by [ws_ends]. *)
From Stdlib Require Import String.
From S2P Require Import Prelude Text CryptoApi Crypto Splitter FakeTls Config WsClient Pool.
From S2P Require Import Session Bridge Routing.
From stdpp Require Import list gmap.

Local Open Scope Z_scope.

(** [if is_media { -(dc_id as i16) } else { dc_id as i16 }], checked. *)
Definition signed_dc_idx (dc_id : Z) (is_media : bool) : run Z :=
  let v := swrap 16 dc_id in
  if is_media then (if v =? - 2 ^ 15 then Panic else Done (- v)) else Done v.

Section handler.
Context {C : Crypto} {N : Network} (usize_max : Z) (has_message : stream -> Z -> bool) (rt : Runtime)
  {O : Outside}.
(** The two halves of a WebSocket: what its sink takes and its source yields. *)
Context (ws_ends : stream -> sink * list ws_event).
(** [runtime.outbound().connect(dst, 443, ..)] of the last resort. *)
Context (tcp_dial : text -> Z -> option tcp).
Local Open Scope run_scope.

(** [secrets.iter().find_map(|secret| parse_handshake(..))]. *)
Fixpoint find_handshake (handshake_buf : bytes) (secrets : list bytes)
  : run (option (HandshakeInfo * bytes)) :=
  match secrets with
  | [] => Done None
  | secret :: secrets =>
      let! i := parse_handshake handshake_buf secret in
      match i with
      | Some info => Done (Some (info, secret))
      | None => find_handshake handshake_buf secrets
      end
  end.

(** What steps 1 to 4 leave for the routing and the bridge. *)
Record prepared : Type := mkPrepared {
  pr_reader : ClientReader;
  pr_writer : ClientWriter;
  pr_info : HandshakeInfo;
  pr_secret : bytes;
  pr_dc_idx : Z;
  pr_relay_init : bytes;
  pr_ciphers : ConnectionCiphers;
}.

(** No handshake arrived; the handshake was bad and the connection is drained
    without an answer; or the session is ready. *)
Inductive setup : Type :=
| NoHandshake (t : tcp)
| Drained (rest : tcp) (writer : ClientWriter)
| Ready (p : prepared).

(** Steps 2 to 4, on what the awaited handshake gave. *)
Definition after_handshake (secrets : list bytes) (listen_domain : option text)
    (handshake : option (bytes * PendingData)) (t : tcp) (tape : bytes) : run (setup * bytes) :=
  match handshake with
  | None => Done (NoHandshake t, tape)
  | Some (handshake_buf, faketls_pending) =>
      let '(reader, writer) :=
        match listen_domain with
        | Some _ => (FakeTlsReader t faketls_pending, FakeTlsWriter t)
        | None => (PlainReader t, PlainWriter t)
        end in
      let! found := find_handshake handshake_buf secrets in
      match found with
      | None => Done (Drained (client_drain reader) writer, tape)
      | Some (info, secret) =>
          let! dc_idx := signed_dc_idx (hi_dc_id info) (hi_is_media info) in
          let! (relay_init, tape) := generate_relay_init (hi_proto info) dc_idx tape in
          let! ciphers := build_connection_ciphers (hi_prekey_and_iv info) secret relay_init in
          Done (Ready (mkPrepared reader writer info secret dc_idx relay_init ciphers), tape)
      end
  end.

(** The client's whole stream is at hand here; [Timed] has it arrive over time,
    against the handshake timeout. *)
Definition client_setup (secrets : list bytes) (listen_domain : option text) (t : tcp) (tape : bytes)
  : run (setup * bytes) :=
  let! r := read_inbound_handshake secrets listen_domain t tape in
  let '(handshake, t, tape) := r in
  after_handshake secrets listen_domain handshake t tape.

(** What the two directions of the chosen bridge do, each run to its end. *)
Inductive session_end : Type :=
| WsSession (up : sink * Z) (down : ClientWriter * Z)
| RelaySession (ends : (tcp * Z) * (ClientWriter * Z))
| TcpSession (ends : option ((tcp * Z) * (ClientWriter * Z))).

Definition bridge_selected (p : prepared) (up : Upstream) (connect_timeout : Z) : run session_end :=
  match up with
  | UpWs ws framing =>
      let '(ws_sink, ws_source) := ws_ends ws in
      let! u := ws_upload usize_max framing (hi_proto (pr_info p)) (pr_relay_init p) (pr_ciphers p)
                  (pr_reader p) ws_sink in
      let! d := ws_download (pr_ciphers p) ws_source (pr_writer p) in
      Done (WsSession u d)
  | UpMtproto conn =>
      let! ends := bridge_relay conn (pr_ciphers p) (pr_reader p) (pr_writer p) in
      Done (RelaySession ends)
  | UpTcp dst =>
      let! ends := bridge_tcp (tcp_dial dst connect_timeout) (pr_relay_init p) (pr_ciphers p)
                     (pr_reader p) (pr_writer p) in
      Done (TcpSession ends)
  end.

Definition route_of (config : Config) (p : prepared) : Route :=
  mkRoute config (timeouts_from_config config) (hi_dc_id (pr_info p)) (hi_is_media (pr_info p))
    (pr_dc_idx p) (hi_proto (pr_info p)).

Definition handle_client (config : Config) (secrets : list bytes) (listen_domain : option text)
    (t : tcp) (tape : bytes) (w : world) : run (setup * option session_end * world) :=
  let! (s, tape) := client_setup secrets listen_domain t tape in
  match s with
  | Ready p =>
      let route := route_of config p in
      let target_ip := dc_target_ip config (hi_dc_id (pr_info p)) in
      let! (up, w) := select_upstream usize_max has_message rt route target_ip w in
      match up with
      | None => Done (s, None, w)
      | Some up =>
          let! e := bridge_selected p up (to_tcp_fallback (r_timeouts route)) in
          Done (s, Some e, w)
      end
  | _ => Done (s, None, w)
  end.
End handler.

(** ** Properties *)
Section handler_properties.
Context {C : Crypto} `{!CryptoLaws C}.

Lemma signed_dc_idx_ok dc_idx :
  i16_ok dc_idx -> dc_idx <> - 2 ^ 15 -> signed_dc_idx (Z.abs dc_idx) (dc_idx <? 0) = Done dc_idx.
Proof.
  intros H Hne. unfold i16_ok in H. unfold signed_dc_idx.
  rewrite swrap_small by lia. destruct (dc_idx <? 0) eqn:E; boolify.
  - rewrite (proj2 (Z.eqb_neq _ _)) by lia. f_equal. lia.
  - f_equal. lia.
Qed.

(** A tape of random bytes that never runs into an endless row of reserved
    prefixes, from wherever the relay init is drawn: at its start, or after the
    at most 4151 bytes of a ServerHello. *)
Definition tape_ok (tape : bytes) : Prop :=
  forall n, (n <= 4151)%nat -> random_ok 2 (drop n tape).

Lemma tape_ok_length tape : tape_ok tape -> (4151 <= length tape)%nat.
Proof.
  intros Ht. destruct (Ht 4151%nat ltac:(lia)) as (rejects & good & rest & E & _ & L & _).
  apply (f_equal length) in E. rewrite length_drop, !length_app in E. lia.
Qed.

(** Every inbound handshake ends; what it leaves can be read by the session. *)
Lemma read_inbound_total secrets listen_domain t tape :
  bytes_ok (t_in t) -> tape_ok tape ->
  exists res t' tape', read_inbound_handshake secrets listen_domain t tape = Done (res, t', tape') /\
    random_ok 2 tape' /\ bytes_ok (t_in t') /\ (listen_domain = None -> t_out t' = t_out t) /\
    forall hs p, res = Some (hs, p) -> length hs = 64%nat /\
      (pd_offset p <= length (pd_data p))%nat /\ bytes_ok (pending_left p).
Proof.
  intros Hb Ht. unfold read_inbound_handshake. destruct listen_domain as [domain|].
  - destruct (accept_inbound_spec secrets domain t tape Hb (tape_ok_length _ Ht))
      as (res & t' & tape' & E & (n & Hn & ->) & HC).
    pose proof (accept_inbound_rest _ _ _ _ _ _ _ Hb E) as Hb'.
    exists res, t', (drop n tape). split_and!; [done|by apply Ht|done|done|].
    intros hs p Hres. destruct HC as [[-> _]|(hello & secret & h & rest & _ & Ein & HS)]; [done|].
    destruct (HS hs p Hres) as (Ho & rs & _ & -> & L & EQ). split_and!; [done|done|].
    rewrite Ein in Hb. apply Forall_app in Hb as [_ Hb]. apply Forall_app in Hb as [Hb _].
    apply wire_payloads_ok in Hb. rewrite <- EQ in Hb. by apply Forall_app in Hb as [_ ?].
  - specialize (Ht 0%nat ltac:(lia)). rewrite drop_0 in Ht.
    destruct (read_exact 64 (t_in t)) as [[hs rest]|] eqn:E.
    + apply read_exact_Some in E as [Ein L]. rewrite Ein in Hb. apply Forall_app in Hb as [_ Hb].
      eexists _, _, _. split; [done|]. split_and!; try done. intros hs' p [= <- <-]. by split_and!.
    + eexists _, _, _. split; [done|]. by split_and!.
Qed.

Lemma find_handshake_total hs secrets :
  length hs = 64%nat ->
  exists r, find_handshake hs secrets = Done r /\
    forall info secret, r = Some (info, secret) -> secret ∈ secrets /\
      exists proto dc_idx, i16_ok dc_idx /\
        init_fields (sha256 (slice 8 40 hs ++ secret)) hs = Some (proto, dc_idx) /\
        info = mkHandshakeInfo (Z.abs dc_idx) (dc_idx <? 0) proto (slice 8 56 hs).
Proof.
  intros L. induction secrets as [|s secrets (r & Er & Hr)]; cbn [find_handshake]; [by exists None|].
  rewrite parse_handshake_fields by done. cbn [run_bind].
  destruct (init_fields (sha256 (slice 8 40 hs ++ s)) hs) as [[proto dc_idx]|] eqn:Ef.
  - eexists. split; [done|]. intros info secret [= <- <-]. split; [apply elem_of_cons; by left|].
    exists proto, dc_idx. split_and!; try done. unfold init_fields in Ef.
    repeat case_match; simplify_eq. apply i16_from_le_ok.
  - exists r. split; [done|]. intros info secret Hs. destruct (Hr info secret Hs).
    split; [apply elem_of_cons; by right|done].
Qed.

(** The client that makes the negation of [dc_id as i16] overflow: it knows a
    secret and asks for index -32768. *)
Definition asks_for_min (secrets : list bytes) (listen_domain : option text) (t : tcp) (tape : bytes)
  : Prop :=
  exists hs p t' tape' secret proto,
    read_inbound_handshake secrets listen_domain t tape = Done (Some (hs, p), t', tape') /\
    secret ∈ secrets /\
    init_fields (sha256 (slice 8 40 hs ++ secret)) hs = Some (proto, - 2 ^ 15).

(** What the setup promises about its outcome. *)
Definition setup_ok (secrets : list bytes) (listen_domain : option text) (t : tcp) (s : setup) : Prop :=
  match s with
  | NoHandshake t' => listen_domain = None -> t_out t' = t_out t
  | Drained rest writer => t_in rest = [] /\ (listen_domain = None -> t_out (writer_tcp writer) = t_out t)
  | Ready p => pr_secret p ∈ secrets /\ reader_ok (pr_reader p) /\ bytes_ok (reader_bytes (pr_reader p)) /\
      i16_ok (pr_dc_idx p) /\ hi_dc_id (pr_info p) = Z.abs (pr_dc_idx p) /\
      hi_is_media (pr_info p) = (pr_dc_idx p <? 0) /\
      init_fields (slice 8 40 (pr_relay_init p)) (pr_relay_init p) = Some (hi_proto (pr_info p), pr_dc_idx p)
  end.

Lemma client_setup_total secrets listen_domain t tape :
  bytes_ok (t_in t) -> tape_ok tape ->
  (exists s rest, client_setup secrets listen_domain t tape = Done (s, rest) /\
     setup_ok secrets listen_domain t s) \/
  (client_setup secrets listen_domain t tape = Panic /\ asks_for_min secrets listen_domain t tape).
Proof.
  intros Hb Ht. unfold client_setup, after_handshake, asks_for_min.
  destruct (read_inbound_total secrets listen_domain t tape Hb Ht)
    as (res & t' & tape' & -> & Hr & Hb' & Ho & Hres). cbn [run_bind].
  destruct res as [[hs p]|]; [|left; by eexists _, _].
  destruct (Hres hs p eq_refl) as (L & Hp & Hpb).
  set (rw := match listen_domain with Some _ => _ | None => _ end).
  assert (reader_ok rw.1 /\ bytes_ok (reader_bytes rw.1) /\ writer_tcp rw.2 = t') as (Hro & Hrb & Hw).
  { unfold rw. destruct listen_domain; [|done]. split_and!; [done| |done]. by apply Forall_app. }
  destruct rw as [reader writer]. cbn [fst snd] in *.
  destruct (find_handshake_total hs secrets L) as (o & -> & Hf). cbn [run_bind].
  destruct o as [[info secret]|]; [|left; eexists _, _; split; [done|]; cbn [setup_ok]; rewrite Hw; split; [by destruct reader|done]].
  destruct (Hf info secret eq_refl) as (Hin & proto & dc_idx & Hdc & Hi & ->).
  cbn [hi_dc_id hi_is_media hi_proto hi_prekey_and_iv].
  destruct (decide (dc_idx = - 2 ^ 15)) as [->|Hne].
  { right. split; [done|]. by exists hs, p, t', tape', secret, proto. }
  left. rewrite signed_dc_idx_ok by done. cbn [run_bind].
  destruct (relay_init_returns proto dc_idx tape' Hr) as (ri & rest & Er). rewrite Er. cbn [run_bind].
  destruct (relay_init_fields proto dc_idx tape' ri rest Hdc Er) as (Lr & _ & Hfi).
  destruct (connection_ciphers_total (slice 8 56 hs) secret ri) as [cc ->];
    [rewrite length_slice; lia|done|]. cbn [run_bind].
  eexists _, rest. split; [done|]. by split_and!.
Qed.

Lemma bridge_selected_total {N : Network} usize_max ws_ends tcp_dial p (up : Upstream) timeout :
  2 ^ 32 - 1 <= usize_max -> reader_ok (pr_reader p) -> bytes_ok (reader_bytes (pr_reader p)) ->
  returns (bridge_selected usize_max ws_ends tcp_dial p up timeout).
Proof.
  intros Hu Hr Hb. unfold bridge_selected. destruct up as [ws framing|conn|dst].
  - destruct (ws_ends ws) as [ws_sink ws_source]. apply returns_bind.
    { edestruct ws_upload_total as (s' & count & -> & _); try done. apply returns_Done. }
    intros u _. apply returns_bind; [apply ws_download_total|]. intros. apply returns_Done.
  - apply returns_bind; [by apply bridge_relay_total|]. intros. apply returns_Done.
  - apply returns_bind; [by apply bridge_tcp_total|]. intros. apply returns_Done.
Qed.

(** A handshake one of the secrets opens is found, whichever comes first. *)
Lemma find_handshake_accepts hs secrets secret info :
  length hs = 64%nat -> secret ∈ secrets -> parse_handshake hs secret = Done (Some info) ->
  exists info' secret', secret' ∈ secrets /\ find_handshake hs secrets = Done (Some (info', secret')).
Proof.
  intros L Hs Hp. induction secrets as [|s secrets IH]; [set_solver|]. cbn [find_handshake].
  apply elem_of_cons in Hs as [<-|Hs].
  { rewrite Hp. cbn [run_bind]. eexists _, _. split; [|done]. set_solver. }
  rewrite parse_handshake_fields by done. cbn [run_bind].
  destruct (init_fields _ _) as [[proto dc_idx]|]; [eexists _, _; split; [|done]; set_solver|].
  destruct (IH Hs) as (i & s' & ? & ?). eexists _, _. split; [|done]. set_solver.
Qed.

(** The setup of a client that knows the first secret. *)
Lemma client_setup_genuine secret others dc_idx proto ctape hs enc dec ctape' plain t tape :
  i16_ok dc_idx -> dc_idx <> - 2 ^ 15 ->
  generate_client_handshake secret dc_idx proto ctape = Done (hs, enc, dec, ctape') ->
  t_in t = hs ++ encrypt enc plain -> random_ok 2 tape ->
  exists p rest rx tx, client_setup (secret :: others) None t tape = Done (Ready p, rest) /\
    hi_dc_id (pr_info p) = Z.abs dc_idx /\ hi_is_media (pr_info p) = (dc_idx <? 0) /\
    hi_proto (pr_info p) = proto /\ pr_dc_idx p = dc_idx /\ pr_secret p = secret /\
    init_fields (slice 8 40 (pr_relay_init p)) (pr_relay_init p) = Some (proto, dc_idx) /\
    reserved_prefix (pr_relay_init p) = false /\
    session secret (pr_relay_init p) enc dec rx tx (pr_ciphers p) /\
    client_sends (pr_reader p) (encrypt enc plain) /\
    writer_faketls (pr_writer p) = false /\ t_out (writer_tcp (pr_writer p)) = t_out t.
Proof.
  intros Hdc Hne Hg Hin Ht.
  destruct (client_handshake_fields_parse secret dc_idx proto ctape hs enc dec ctape' Hdc Hg) as [L Hp].
  destruct (relay_init_returns proto dc_idx tape Ht) as (ri & rest & Hr).
  destruct (relay_init_fields proto dc_idx tape ri rest Hdc Hr) as (Lr & Hres & Hf).
  destruct (session_ciphers _ _ _ _ _ _ _ _ ri Hg Lr) as (cc & Hb & _ & _ & Htg).
  unfold client_setup, after_handshake, read_inbound_handshake. rewrite Hin, read_exact_app by done. cbn [run_bind].
  cbn [find_handshake]. rewrite Hp. cbn [run_bind hi_dc_id hi_is_media hi_proto hi_prekey_and_iv].
  rewrite signed_dc_idx_ok by done. cbn [run_bind]. rewrite Hr. cbn [run_bind]. rewrite Hb. cbn [run_bind].
  eexists _, rest, (tg_enc cc), (tg_dec cc). split; [done|]. cbn [pr_info pr_dc_idx pr_secret pr_relay_init
    pr_ciphers pr_reader pr_writer hi_dc_id hi_is_media hi_proto].
  split_and!; try done.
  - by exists dc_idx, proto, ctape, hs, ctape'.
  - exact (plain_client_sends (set_in (encrypt enc plain) t)).
Qed.

(** C5. A genuine client gets the session it asked for: from the 64-byte init
    of a client that knows the secret, the handler recovers the DC, the traffic
    class and the transport; the relay init it makes tells Telegram the same
    DC index and transport; its four ciphers are those of the client's and of
    Telegram's ends; and the bridge starts at the first byte after the init. *)
Theorem client_setup_ready secret others dc_idx proto ctape hs enc dec ctape' plain t tape :
  i16_ok dc_idx -> dc_idx <> - 2 ^ 15 ->
  generate_client_handshake secret dc_idx proto ctape = Done (hs, enc, dec, ctape') ->
  t_in t = hs ++ encrypt enc plain -> random_ok 2 tape ->
  exists p rest rx tx, client_setup (secret :: others) None t tape = Done (Ready p, rest) /\
    hi_dc_id (pr_info p) = Z.abs dc_idx /\ hi_is_media (pr_info p) = (dc_idx <? 0) /\
    hi_proto (pr_info p) = proto /\ pr_dc_idx p = dc_idx /\ pr_secret p = secret /\
    init_fields (slice 8 40 (pr_relay_init p)) (pr_relay_init p) = Some (proto, dc_idx) /\
    reserved_prefix (pr_relay_init p) = false /\
    session secret (pr_relay_init p) enc dec rx tx (pr_ciphers p) /\
    client_sends (pr_reader p) (encrypt enc plain) /\
    writer_faketls (pr_writer p) = false /\ t_out (writer_tcp (pr_writer p)) = t_out t.
Proof. apply client_setup_genuine. Qed.

(** A client that asks for index -32768 overflows the negation. *)
Lemma signed_dc_idx_overflow : signed_dc_idx (Z.abs (- 2 ^ 15)) (- 2 ^ 15 <? 0) = Panic.
Proof. reflexivity. Qed.

(** The connect of the last resort failed, or the relay init on it. *)
Definition tcp_refused (tcp_dial : text -> Z -> option tcp) (p : prepared) (dst : text) (timeout : Z) : Prop :=
  tcp_dial dst timeout = None \/
  exists remote, tcp_dial dst timeout = Some remote /\ tcp_write_all remote (pr_relay_init p) = None.

Lemma bridge_selected_none {N : Network} usize_max ws_ends tcp_dial p (up : Upstream) timeout :
  bridge_selected usize_max ws_ends tcp_dial p up timeout = Done (TcpSession None) ->
  exists dst, up = UpTcp dst /\ tcp_refused tcp_dial p dst timeout.
Proof.
  unfold bridge_selected. destruct up as [ws framing|conn|dst]; intros H.
  - destruct (ws_ends ws). by apply run_bind_Done in H as (? & _ & (? & _ & [=])%run_bind_Done).
  - by apply run_bind_Done in H as (? & _ & [=]).
  - apply run_bind_Done in H as (ends & H & [= ->]). exists dst. split; [done|]. unfold bridge_tcp in H.
    destruct (tcp_dial dst timeout) as [remote|] eqn:E; [|by left]. right. exists remote. split; [done|].
    destruct (tcp_write_all remote _); [|done]. by apply run_bind_Done in H as (? & _ & (? & _ & [=])%run_bind_Done).
Qed.

(** The session [e] of a ready client: the bridge over an upstream that a rung
    of the ladder yielded, a pinned one if tiers are pinned; it carries nothing
    only when that is the TCP rung and the address of the DC refused. *)
Definition session_served {N : Network} usize_max rt asked ws_ends tcp_dial config (p : prepared) (e : session_end) : Prop :=
  let r := route_of config p in
  let target_ip := dc_target_ip config (hi_dc_id (pr_info p)) in
  let timeout := to_tcp_fallback (timeouts_from_config config) in
  (exists up tier, bridge_selected usize_max ws_ends tcp_dial p up timeout = Done e /\
     tier_result rt asked r target_ip tier up /\
     forall tiers, forced_upstreams config (hi_is_media (pr_info p)) = Some tiers -> tier ∈ tiers) /\
  (e = TcpSession None -> exists dst, pinned_dst r target_ip = Some dst /\ tcp_refused tcp_dial p dst timeout).

(** From a ready session on: routing and the bridge end, with a session
    whenever the DC has an address and tcp is not pinned away. *)
Lemma ready_served {N : Network} usize_max has_message rt asked {O : Outside}
    `{!OutsideLaws usize_max has_message rt asked O} ws_ends tcp_dial config secrets listen_domain t tape p rest ps w :
  2 ^ 32 - 1 <= usize_max -> hostnames_ok config -> pool_ok rt asked ps (w_pool w) ->
  route_asks asked (route_of config p) (dc_target_ip config (hi_dc_id (pr_info p))) ->
  client_setup secrets listen_domain t tape = Done (Ready p, rest) -> setup_ok secrets listen_domain t (Ready p) ->
  exists e w', handle_client usize_max has_message rt ws_ends tcp_dial config secrets listen_domain t tape w
      = Done (Ready p, e, w') /\ pool_ok rt asked ps (w_pool w') /\
    (forall e', e = Some e' -> session_served usize_max rt asked ws_ends tcp_dial config p e') /\
    (is_Some (pinned_dst (route_of config p) (dc_target_ip config (hi_dc_id (pr_info p)))) ->
     (forall tiers, forced_upstreams config (hi_is_media (pr_info p)) = Some tiers -> Tcp ∈ tiers) -> is_Some e).
Proof.
  intros Hu Hh Hw HA Hc (_ & Hro & Hrb & _). unfold handle_client. rewrite Hc. cbn [run_bind]. cbv zeta.
  destruct (select_upstream_ok usize_max has_message rt asked (route_of config p)
    (dc_target_ip config (hi_dc_id (pr_info p))) Hh HA ps w Hw) as (res & w' & -> & Hw' & HP & HS).
  cbn [run_bind]. destruct res as [up|].
  - destruct (bridge_selected_total usize_max ws_ends tcp_dial p up
      (to_tcp_fallback (r_timeouts (route_of config p))) Hu Hro Hrb) as [e He]. rewrite He.
    cbn [run_bind]. exists (Some e), w'. split_and!; try done. intros e' [= <-].
    destruct (HP up eq_refl) as (tier & Ht & Hin). split; [by exists up, tier|]. intros ->.
    destruct (bridge_selected_none _ _ _ _ _ _ He) as (dst & -> & Hr). exists dst. split; [by destruct tier|done].
  - exists None, w'. split; [done|]. split; [done|]. split; [done|]. intros Hd Hf. by destruct (HS Hd Hf).
Qed.

(** What the handler promises of a client, by what became of its handshake. *)
Definition client_served {N : Network} usize_max rt ws_ends tcp_dial config (s : setup) (e : option session_end) (w w' : world)
  : Prop :=
  match s with
  | Ready p =>
      let target_ip := dc_target_ip config (hi_dc_id (pr_info p)) in
      (forall e', e = Some e' -> session_served usize_max rt any_target ws_ends tcp_dial config p e') /\
      (is_Some (pinned_dst (route_of config p) target_ip) ->
       (forall tiers, forced_upstreams config (hi_is_media (pr_info p)) = Some tiers -> Tcp ∈ tiers) ->
       is_Some e)
  | _ => e = None /\ w' = w
  end.

(** The whole handler, from the totality of its parts. *)
Lemma handle_client_outcome {N : Network} usize_max has_message rt {O : Outside}
    `{!OutsideLaws usize_max has_message rt any_target O} ws_ends tcp_dial config secrets listen_domain t tape ps w :
  2 ^ 32 - 1 <= usize_max -> hostnames_ok config -> pool_inv rt ps (w_pool w) ->
  bytes_ok (t_in t) -> tape_ok tape ->
  (exists s e w', handle_client usize_max has_message rt ws_ends tcp_dial config secrets listen_domain t tape w
      = Done (s, e, w') /\
    pool_inv rt ps (w_pool w') /\ setup_ok secrets listen_domain t s /\
    client_served usize_max rt ws_ends tcp_dial config s e w w') \/
  (handle_client usize_max has_message rt ws_ends tcp_dial config secrets listen_domain t tape w = Panic /\
   asks_for_min secrets listen_domain t tape).
Proof.
  intros Hu Hh Hw Hb Ht.
  destruct (client_setup_total secrets listen_domain t tape Hb Ht) as [(s & rest & E & Hs)|[E Hmin]];
    [left|right; unfold handle_client; by rewrite E].
  destruct s as [t'|reader writer|p]; [unfold handle_client; rewrite E; by eexists _, _, _; split_and!..|].
  destruct (ready_served usize_max has_message rt any_target ws_ends tcp_dial config secrets listen_domain t tape p rest ps w
    Hu Hh (conj Hw (spares_any _)) (route_asks_any _ _) E Hs) as (e & w' & Eh & [Hw' _] & He). exists (Ready p), e, w'. by split_and!.
Qed.

End handler_properties.

(** *** Witness *)
Lemma client_setup_ready_witness :
  exists p rest,
    client_setup (C := toy_crypto) [demo_secret] None
      (mkTcp (demo_handshake.1.1.1 ++ encrypt (C := toy_crypto) demo_enc demo_stream) [] [] demo_room) demo_tape
      = Done (Ready p, rest) /\
    pr_dc_idx p = -2 /\ hi_proto (pr_info p) = Abridged.
Proof.
  destruct (client_setup_ready (C := toy_crypto) (CryptoLaws0 := toy_crypto_laws) demo_secret [] (-2) Abridged
    demo_tape demo_handshake.1.1.1 demo_enc demo_dec demo_handshake.2 demo_stream
    (mkTcp (demo_handshake.1.1.1 ++ encrypt (C := toy_crypto) demo_enc demo_stream) [] [] demo_room) demo_tape)
    as (p & rest & rx & tx & H1 & _ & _ & H4 & H5 & _).
  - unfold i16_ok. lia.
  - lia.
  - vm_compute. reflexivity.
  - reflexivity.
  - exists [replicate 64 0xef], (seqZ 10 64), ([7; 9] ++ seqZ 3 70).
    split; [vm_compute; reflexivity|]. split; [|split; [reflexivity|split; [vm_compute; reflexivity|simpl; lia]]].
    constructor; [|constructor]. split; [reflexivity|vm_compute; reflexivity].
  - exists p, rest. split; [exact H1|]. split; [exact H5|exact H4].
Defined.

(** *** Witness: the whole handler over the always-answering network *)
Definition demo_client_tcp : tcp :=
  mkTcp (demo_handshake.1.1.1 ++ encrypt (C := toy_crypto) demo_enc demo_stream) [] [] demo_room.

(** Twos are no reserved prefix, wherever the draw starts. *)
Definition demo_long_tape : bytes := replicate 4300 2.

Lemma demo_long_tape_ok : tape_ok demo_long_tape.
Proof.
  intros n Hn. unfold demo_long_tape. rewrite drop_replicate.
  exists [], (replicate 64 2), (replicate (4300 - n - 64) 2). split_and!.
  - cbn [concat app]. rewrite <- replicate_add. f_equal. lia.
  - constructor.
  - reflexivity.
  - reflexivity.
  - rewrite length_replicate. lia.
Qed.

Lemma demo_not_min : ~ asks_for_min (C := toy_crypto) [demo_secret] None demo_client_tcp demo_long_tape.
Proof.
  intros (hs & p & t' & tape' & secret & proto & Er & Hin & Hf).
  apply list_elem_of_singleton in Hin as ->.
  assert (match read_inbound_handshake (C := toy_crypto) [demo_secret] None demo_client_tcp demo_long_tape with
          | Done (Some (hs, _), _, _) =>
              match init_fields (C := toy_crypto) (sha256 (Crypto := toy_crypto) (slice 8 40 hs ++ demo_secret)) hs with
              | Some (_, d) => d =? - 2 ^ 15
              | None => false
              end
          | _ => false
          end = false) as HB by (vm_compute; reflexivity).
  rewrite Er, Hf in HB. discriminate HB.
Qed.

