(* ===== verification/Check.v ===== *)
(** * check.rs: the connectivity check

    The probes of the Cloudflare domains, the Workers, the upstream MTProto
    proxies and the proxy's own listener, and the verdict over all of them.
    The peers are the class [ProbeIO]: what a socket or a tunnel accepts and
    yields within a wait, by the number of the probe. *)
From Stdlib Require Import String.
From S2P Require Import Prelude Text Ip Outbound Http CryptoApi Crypto Splitter FakeTls Config WsClient Pool Session Bridge Routing.

Local Open Scope Z_scope.
Local Open Scope run_scope.

Inductive ProbeStatus : Type :=
| ProbeOk (elapsed : Z)
| ProbeFail (reason : text).

Definition marker (s : ProbeStatus) : text :=
  match s with ProbeOk _ => txt "OK " | ProbeFail _ => txt "FAIL" end.

Definition detail (s : ProbeStatus) : text :=
  match s with ProbeOk d => dec d ++ txt "ms" | ProbeFail reason => reason end.

Definition is_ok (s : ProbeStatus) : bool := match s with ProbeOk _ => true | ProbeFail _ => false end.

(** ** The request and the reply *)
Definition RES_PQ_CTOR : Z := 0x05162463.
Definition FRAME_CTOR_OFFSET : nat := 24.
Definition FRAME_HEADER_LEN : nat := FRAME_CTOR_OFFSET + 4.
Definition REQ_PQ_MULTI_LEN : nat := 44.
Definition REQ_PQ_MULTI_CTOR : Z := 0xbe7e8ef1.
Definition BODY_LEN : nat := 4 + 16.

Definition probe_addr (bound : SocketAddr) : SocketAddr :=
  if negb (is_unspecified (sa_ip bound)) then bound
  else
    match sa_ip bound with
    | V4 _ => mkSocketAddr LOCALHOST_V4 (sa_port bound)
    | V6 _ => mkSocketAddr LOCALHOST_V6 (sa_port bound)
    end.

(** [now]: the clock in seconds since the epoch, a [u64]. *)
Definition build_req_pq_multi (now : Z) (tape : bytes) : run (bytes * bytes) :=
  let msg_id := wrap 64 (Z.shiftl now 32) in
  let frame := replicate REQ_PQ_MULTI_LEN 0 in
  let! frame := splice_run 0 (le_bytes 4 (Z.of_nat (REQ_PQ_MULTI_LEN - 4))) frame in
  let! frame := splice_run 12 (le_bytes 8 msg_id) frame in
  let! frame := splice_run 20 (le_bytes 4 (Z.of_nat BODY_LEN)) frame in
  let! frame := splice_run 24 (le_bytes 4 REQ_PQ_MULTI_CTOR) frame in
  let! (nonce, tape) := fill_bytes 16 tape in
  let! frame := splice_run 28 nonce frame in
  Done (frame, tape).

Definition reply_is_res_pq (plain : bytes) : bool :=
  if (length plain <? FRAME_HEADER_LEN)%nat then false
  else
    let header := take FRAME_HEADER_LEN plain in
    (from_le (slice 4 12 header) =? 0)
    && (from_le (slice FRAME_CTOR_OFFSET FRAME_HEADER_LEN header) =? RES_PQ_CTOR).

(** ** The peers *)

(** How the bytes of a read end: the peer closes, the read fails, or the wait
    runs out. *)
Inductive ending : Type :=
| Eof
| ReadError (e : text)
| Elapsed.

(** What arrives on a socket within a wait, and the sizes reads are cut into. *)
Record incoming : Type := mkIncoming {
  in_bytes : bytes;
  in_cuts : list nat;
  in_end : ending;
}.

(** The outside of the probes; the first argument is the number of the probe. *)
Class ProbeIO {N : Network} {K : Sockets} : Type := {
  probe_random : nat -> bytes;
  unix_now : nat -> Z;
  elapsed : nat -> Z;
  (** The socket after the given writes: the outcome of another one, and what
      arrives within a wait. *)
  sock_write : nat -> socket -> list bytes -> bytes -> result unit;
  sock_in : nat -> socket -> list bytes -> Z -> incoming;
  (** A WebSocket send, and what the tunnel yields within a wait; [true] when it
      is still open and silent at the end of it. *)
  ws_sending : nat -> stream -> bytes -> result unit;
  ws_yields : nat -> stream -> Z -> list ws_event * bool;
}.

(** A failed [read_exact] of the header's bytes, the timeout, or their arrival. *)
Inductive read_outcome : Type :=
| ReadTimedOut
| ReadFailed (e : text)
| ReadDone.

(** The [while filled < header.len()] loop under the timeout; [filled] holds the
    bytes read so far. *)
Fixpoint header_read (fuel : nat) (filled : bytes) (i : incoming) : run (read_outcome * bytes) :=
  if (length filled <? FRAME_HEADER_LEN)%nat then
    match in_bytes i with
    | [] =>
        Done (match in_end i with Eof => ReadDone | ReadError e => ReadFailed e | Elapsed => ReadTimedOut end, filled)
    | _ =>
        match fuel with
        | O => OutOfFuel
        | S fuel =>
            let ready := match in_cuts i with [] => length (in_bytes i) | c :: _ => S c end in
            let k := Nat.min (FRAME_HEADER_LEN - length filled) ready in
            header_read fuel (filled ++ take k (in_bytes i))
              (mkIncoming (drop k (in_bytes i)) (tail (in_cuts i)) (in_end i))
        end
    end
  else Done (ReadDone, filled).

(** [{}] of an [i32]. *)
Definition sdec (z : Z) : text := if z <? 0 then txt "-" ++ dec (- z) else dec z.

(** The [match read] of [require_res_pq]: [header] is the zeroed buffer with the
    decrypted bytes at its start. *)
Definition reply_verdict (read : read_outcome) (filled : nat) (header : bytes) (timeout : Z) (peer : text)
  : result unit :=
  match read with
  | ReadTimedOut => Failure (txt "no reply within " ++ dec (timeout / 1000) ++ txt "s")
  | ReadFailed e => Failure (txt "read from " ++ peer ++ txt ": " ++ e)
  | ReadDone =>
      if (filled =? 0)%nat then Failure (peer ++ txt " closed without answering — no tier reached the DC")
      else if (8 <=? filled)%nat && bool_decide (take 4 header = le_bytes 4 4) then
        Failure (peer ++ txt " reported a transport error: " ++ sdec (swrap 32 (from_le (slice 4 8 header))))
      else if (filled <? length header)%nat then
        Failure (peer ++ txt " closed after " ++ dec (Z.of_nat filled) ++ txt " of "
                 ++ dec (Z.of_nat (length header)) ++ txt " header bytes — no tier reached the DC")
      else if reply_is_res_pq header then Success tt
      else Failure (peer ++ txt "'s reply is not resPQ")
  end.

Section check.
Context {C : Crypto} {U : OutboundCrates} {N : Network} {K : Sockets} {I : ProbeIO} (usize_max : Z).

(** The state of the check: the dialling state, the number of probes made and
    the socket requests they made. *)
Record probing : Type := mkProbing {
  pr_net : net;
  pr_count : nat;
  pr_requests : list request;
}.

(** [writes]: what went out on the socket before. *)
Definition require_res_pq (n : nat) (s : socket) (writes : list bytes) (enc dec_ : cipher) (tape : bytes)
    (timeout : Z) (peer : text) : run (result unit) :=
  let! (request, tape) := build_req_pq_multi (unix_now n) tape in
  let '(enc, request) := apply_keystream enc request in
  match sock_write n s writes request with
  | Failure e => Done (Failure (txt "send req_pq_multi: " ++ e))
  | Success _ =>
      let i := sock_in n s (writes ++ [request]) timeout in
      let! (read, got) := header_read (length (in_bytes i)) [] i in
      let '(dec_, plain) := apply_keystream dec_ got in
      let header := plain ++ replicate (FRAME_HEADER_LEN - length got) 0 in
      Done (reply_verdict read (length got) header timeout peer)
  end.

(** ** The probes *)
Definition cf_fail_reason (cf_ips : list text) (without through : text) : text :=
  if bool_decide (cf_ips = []) then without else through.

Definition probe_cf_domain (n : nat) (domain : text) (skip_tls : bool) (timeout : Z) (opts : CfDialOpts) (w : net)
  : run (ProbeStatus * net) :=
  let! r := connect_cf_ws_for_dc_with_outbound_ordered usize_max 2 [domain] false skip_tls timeout 0 opts w in
  let '(ws, record, all_redirects, w) := r in
  match ws with
  | Some _ => Done (ProbeOk (elapsed n), w)
  | None =>
      Done (ProbeFail (cf_fail_reason (o_cf_ips opts)
        (txt "WebSocket connection failed — check DNS records and Cloudflare settings")
        (txt "WebSocket connection failed through every --cf-ip — check the preferred IPs and Cloudflare settings")), w)
  end.

Definition WORKER_TUNNEL_SETTLE : Z := from_secs 3.

(** [tokio::time::timeout(wait, ws_recv(ws))] of a tunnel that yields [source]
    and then, with [silent], nothing more before the wait ends: [None] when the
    wait runs out. *)
Fixpoint ws_recv (source : list ws_event) (silent : bool) : option (option bytes) :=
  match source with
  | EvBinary b :: _ | EvText b :: _ => Some (Some b)
  | EvPing :: source | EvPong :: source => ws_recv source silent
  | EvClose :: _ | EvError :: _ => Some None
  | [] => if silent then None else Some None
  end.

Definition probe_cf_worker (n : nat) (domain : text) (skip_tls : bool) (timeout : Z) (opts : CfDialOpts) (w : net)
  : run (ProbeStatus * net) :=
  match default_dc_ip 2 with
  | None => Done (ProbeFail (txt "DC 2 default IP is missing"), w)
  | Some dst =>
      let! (ws, w) :=
        connect_cf_worker_ws_for_dc_with_outbound_opts usize_max domain dst 2 false skip_tls timeout opts w in
      match ws with
      | None =>
          Done (ProbeFail (cf_fail_reason (o_cf_ips opts)
            (txt "Worker WebSocket tunnel failed — check Worker code and domain")
            (txt "Worker WebSocket tunnel failed through every --cf-ip — check the preferred IPs and Worker code")), w)
      | Some ws =>
          let! (relay_init, tape) := generate_relay_init Intermediate 2 (probe_random n) in
          match ws_sending n ws relay_init with
          | Failure e => Done (ProbeFail (txt "Worker tunnel closed on send: " ++ e), w)
          | Success _ =>
              let '(source, silent) := ws_yields n ws WORKER_TUNNEL_SETTLE in
              match ws_recv source silent with
              | None => Done (ProbeOk (elapsed n), w)
              | Some None =>
                  Done (ProbeFail (txt "Worker tunnel to " ++ dst
                    ++ txt " closed immediately — the Worker cannot reach Telegram (check its live logs in the Cloudflare dashboard)"), w)
              | Some (Some data) =>
                  Done (ProbeFail (txt "Worker tunnel to " ++ dst ++ txt " answered the MTProto init with "
                    ++ dec (Z.of_nat (length data)) ++ txt " unexpected bytes — the far end is not a Telegram DC"), w)
              end
          end
      end
  end.

(** A probe over a socket, with the requests its connect made. *)
Definition probe_mtproto_proxy (n : nat) (proxy : MtProtoProxy) (timeout : Z) (outbound : OutboundConfig)
  : run (ProbeStatus * list request) :=
  let key_bytes := mp_secret_key proxy in
  match connect n outbound (mp_host proxy) (mp_port proxy) timeout with
  | (inr e, reqs) => Done (ProbeFail (txt "TCP connect failed: " ++ oe_reason e), reqs)
  | (inl s, reqs) =>
      let! r := generate_client_handshake key_bytes 2 PaddedIntermediate (probe_random n) in
      let '(handshake, enc, dec_, tape) := r in
      match mp_faketls_hostname proxy with
      | Some hostname =>
          let! (client_hello, tape) := build_faketls_client_hello hostname tape in
          let! client_hello := sign_faketls_client_hello client_hello key_bytes (unix_now n) in
          match sock_write n s [] client_hello with
          | Failure e => Done (ProbeFail (txt "send FakeTLS ClientHello: " ++ e), reqs)
          | Success _ =>
              let drained := fst (drain_faketls_server_hello (in_bytes (sock_in n s [client_hello] timeout))) in
              if negb drained then
                Done (ProbeFail (txt "FakeTLS server handshake failed or timed out — check secret and proxy address"), reqs)
              else Done (ProbeOk (elapsed n), reqs)
          end
      | None =>
          match sock_write n s [] handshake with
          | Failure e => Done (ProbeFail (txt "send MTProto handshake: " ++ e), reqs)
          | Success _ =>
              let! v := require_res_pq n s [handshake] enc dec_ tape timeout (txt "the upstream proxy") in
              match v with
              | Failure e => Done (ProbeFail e, reqs)
              | Success _ => Done (ProbeOk (elapsed n), reqs)
              end
          end
      end
  end.

(** The connection is direct, whatever outbound proxy is configured. *)
Definition probe_listener (n : nat) (addr : SocketAddr) (secret : bytes) (dc_idx : Z) (timeout : Z)
  : run (ProbeStatus * list request) :=
  let direct := mkOutboundConfig None None in
  match connect n direct (ip_to_string (sa_ip addr)) (sa_port addr) timeout with
  | (inr e, reqs) => Done (ProbeFail (txt "TCP connect failed: " ++ oe_reason e), reqs)
  | (inl s, reqs) =>
      let! r := generate_client_handshake secret dc_idx PaddedIntermediate (probe_random n) in
      let '(handshake, enc, dec_, tape) := r in
      match sock_write n s [] handshake with
      | Failure e => Done (ProbeFail (txt "send MTProto handshake: " ++ e), reqs)
      | Success _ =>
          let! v := require_res_pq n s [handshake] enc dec_ tape timeout (txt "the listener") in
          match v with
          | Success _ => Done (ProbeOk (elapsed n), reqs)
          | Failure e => Done (ProbeFail e, reqs)
          end
      end
  end.

Definition proxy_kind (proxy : MtProtoProxy) : text :=
  let secret := mp_secret proxy in
  let first_byte :=
    if (2 <=? length secret)%nat && is_char_boundary secret 2 then parse_hex 255 (take 2 secret) else None in
  match first_byte with
  | Some 0xee => txt "FakeTLS"
  | Some 0xdd => txt "padded"
  | _ => txt "plain"
  end.

(** ** The run *)

(** A line of the report; [LSkip] and [LNoSocket] are the listener's. *)
Inductive report_line : Type :=
| LProbe (label : text) (s : ProbeStatus)
| LSkip (label : text)
| LNoSocket.

Definition line_failed (l : report_line) : bool :=
  match l with LProbe _ s => negb (is_ok s) | LSkip _ => false | LNoSocket => true end.

(** The last line of the report. *)
Inductive summary_line : Type :=
| NothingToCheck
| SomeFailed
| EverySkipped
| AllPassed.

(** The loop over the targets of one kind: [probe] runs one and [label] names
    it. *)
Fixpoint probe_each {A} (probe : A -> probing -> run (ProbeStatus * probing)) (label : A -> text)
    (targets : list A) (st : probing) : run (list report_line * probing) :=
  match targets with
  | [] => Done ([], st)
  | t :: targets =>
      let! (s, st) := probe t st in
      let! (lines, st) := probe_each probe label targets st in
      Done (LProbe (label t) s :: lines, st)
  end.

Definition next_net (w : net) (st : probing) : probing := mkProbing w (S (pr_count st)) (pr_requests st).
Definition next_requests (reqs : list request) (st : probing) : probing :=
  mkProbing (pr_net st) (S (pr_count st)) (pr_requests st ++ reqs).

Definition cf_opts (c : Config) : CfDialOpts :=
  mkCfDialOpts (c_cf_ips c) (c_cf_disable_tls c) (from_secs (c_cf_fail_cooldown c)).

Definition reply_seconds (c : Config) : Z :=
  c_handshake_timeout c + c_ws_connect_timeout c + c_cf_connect_timeout c + c_upstream_connect_timeout c
  + c_tcp_fallback_timeout c.

(** The sum is taken in [u64]. *)
Definition reply_timeout (c : Config) : run Z :=
  if reply_seconds c <? 2 ^ 64 then Done (from_secs (reply_seconds c)) else Panic.

Definition requested (c : Config) : nat :=
  length (c_cf_domains c) + length (c_cf_worker_domains c) + length (c_mtproto_proxies c)
  + (if c_check_listener c then 1 else 0).

Definition run_domain (c : Config) (domain : text) (st : probing) : run (ProbeStatus * probing) :=
  let! (s, w) := probe_cf_domain (pr_count st) domain (c_skip_tls_verify c) (from_secs (c_cf_connect_timeout c))
                   (cf_opts c) (pr_net st) in
  Done (s, next_net w st).

Definition run_worker (c : Config) (domain : text) (st : probing) : run (ProbeStatus * probing) :=
  let! (s, w) := probe_cf_worker (pr_count st) domain (c_skip_tls_verify c) (from_secs (c_cf_connect_timeout c))
                   (cf_opts c) (pr_net st) in
  Done (s, next_net w st).

Definition run_proxy (c : Config) (outbound : OutboundConfig) (proxy : MtProtoProxy) (st : probing)
  : run (ProbeStatus * probing) :=
  let! (s, reqs) := probe_mtproto_proxy (pr_count st) proxy (from_secs (c_upstream_connect_timeout c)) outbound in
  Done (s, next_requests reqs st).

Definition proxy_label (proxy : MtProtoProxy) : text :=
  mp_host proxy ++ txt ":" ++ dec (mp_port proxy) ++ txt "  [" ++ proxy_kind proxy ++ txt "]".

(** [secret] is [config.secret_bytes()], [listen_domain] the normalised inbound
    FakeTLS domain. *)
Definition run_listener (c : Config) (secret : bytes) (listen_domain : option text) (listener : option SocketAddr)
    (st : probing) : run (list report_line * probing) :=
  if c_check_listener c then
    match listener with
    | None => Done ([LNoSocket], st)
    | Some addr =>
        let target := probe_addr addr in
        let label := socket_addr_to_string target in
        match listen_domain with
        | Some _ => Done ([LSkip label], st)
        | None =>
            let! reply_timeout := reply_timeout c in
            let! (s, reqs) := probe_listener (pr_count st) target secret 2 reply_timeout in
            Done ([LProbe label s], next_requests reqs st)
        end
    end
  else Done ([], st).

Definition skipped (lines : list report_line) : nat :=
  length (List.filter (fun l => match l with LSkip _ => true | _ => false end) lines).

Definition run_check_with_outbound (c : Config) (secret : bytes) (listen_domain : option text)
    (outbound : OutboundConfig) (listener : option SocketAddr) (st : probing)
  : run (bool * list report_line * summary_line * probing) :=
  if (requested c =? 0)%nat then Done (true, [], NothingToCheck, st)
  else
    let! (domains, st) := probe_each (run_domain c) (fun d => txt "kws2." ++ d) (c_cf_domains c) st in
    let! (workers, st) := probe_each (run_worker c) (fun d => d) (c_cf_worker_domains c) st in
    let! (proxies, st) := probe_each (run_proxy c outbound) proxy_label (c_mtproto_proxies c) st in
    let! (own, st) := run_listener c secret listen_domain listener st in
    let lines := domains ++ workers ++ proxies ++ own in
    let all_ok := negb (existsb line_failed lines) in
    if negb all_ok then Done (false, lines, SomeFailed, st)
    else if (requested c =? skipped lines)%nat then Done (false, lines, EverySkipped, st)
    else Done (true, lines, AllPassed, st).

(** [run_check]: [from_config] is the outcome of [config.outbound_connector()]. *)
Definition run_check (c : Config) (secret : bytes) (listen_domain : option text)
    (from_config : result OutboundConfig) (st : probing) : run (bool * probing) :=
  match from_config with
  | Failure _ => Done (false, st)
  | Success outbound =>
      let! r := run_check_with_outbound c secret listen_domain outbound None st in
      let '(ok, lines, sum, st) := r in Done (ok, st)
  end.
End check.

(** What the check relies on: the random generator does not draw reserved
    prefixes for ever. *)
Class ProbeIOLaws {N : Network} {K : Sockets} (I : ProbeIO) : Prop := {
  probe_random_ok n : random_ok 32 (probe_random n);
}.

(** The wait of the listener probe, where there is one, does not overflow. *)
Definition reply_fits (c : Config) (listener : option SocketAddr) : Prop :=
  listener = None \/ reply_seconds c < 2 ^ 64.

(** ** Lemmas: the request *)
(** The frame, field by field. *)
Definition req_pq_multi (now : Z) (nonce : bytes) : bytes :=
  le_bytes 4 40 ++ replicate 8 0 ++ le_bytes 8 (wrap 64 (Z.shiftl now 32)) ++ le_bytes 4 20
  ++ le_bytes 4 REQ_PQ_MULTI_CTOR ++ nonce.

Lemma build_req_pq_multi_format now tape :
  (16 <= length tape)%nat -> build_req_pq_multi now tape = Done (req_pq_multi now (take 16 tape), drop 16 tape).
Proof.
  intros Ht. unfold build_req_pq_multi, req_pq_multi. generalize (wrap 64 (Z.shiftl now 32)) as msg. intros msg.
  do 16 (destruct tape as [|? tape]; [simpl in Ht; lia|]). reflexivity.
Qed.

Lemma length_req_pq_multi now nonce : length nonce = 16%nat -> length (req_pq_multi now nonce) = 44%nat.
Proof. intros L. unfold req_pq_multi. rewrite !length_app, !length_le_bytes, length_replicate, L. done. Qed.

(** It is one whole packet of the padded-intermediate transport. *)
Lemma req_pq_multi_frame now nonce :
  length nonce = 16%nat -> framing PaddedIntermediate (req_pq_multi now nonce) [req_pq_multi now nonce] [] false.
Proof.
  intros L. pose proof (length_req_pq_multi now nonce L) as Lf.
  rewrite <- (app_nil_r (req_pq_multi now nonce)) at 1.
  apply (framing_packet _ _ _ 44); [done|by rewrite Lf|done|]. by apply framing_header.
Qed.

(** ** Lemmas: the reply *)
Lemma header_read_spec fuel filled i :
  (length (in_bytes i) <= fuel)%nat -> (length filled <= 28)%nat ->
  header_read fuel filled i =
    Done (if (28 <=? length filled + length (in_bytes i))%nat then ReadDone
          else match in_end i with Eof => ReadDone | ReadError e => ReadFailed e | Elapsed => ReadTimedOut end,
          filled ++ take (28 - length filled) (in_bytes i)).
Proof.
  revert filled i. induction fuel as [|fuel IH]; intros filled [inb cuts e] Hf Hl; cbn [in_bytes in_cuts in_end] in *;
    cbn [header_read in_bytes in_cuts in_end]; change FRAME_HEADER_LEN with 28%nat; case_test; boolify.
  - destruct inb; [|simpl in Hf; lia]. rewrite (proj2 (Nat.leb_gt _ _)) by (simpl; lia). by rewrite take_nil, app_nil_r.
  - rewrite (proj2 (Nat.leb_le _ _)) by lia. replace (28 - length filled)%nat with 0%nat by lia. by rewrite app_nil_r.
  - destruct inb as [|b inb]; [rewrite (proj2 (Nat.leb_gt _ _)) by (simpl; lia); by rewrite take_nil, app_nil_r|].
    set (l := b :: inb) in *. set (k := Nat.min _ _).
    assert (1 <= k <= 28 - length filled)%nat as Hk by (unfold k, l; destruct cuts; cbn [length]; lia).
    assert (length l = S (length inb)) by done.
    rewrite IH by (cbn [in_bytes]; rewrite ?length_app, ?length_take, ?length_drop; lia). cbn [in_bytes in_end].
    rewrite <- app_assoc. f_equal. f_equal.
    + rewrite length_app, length_take, length_drop.
      destruct (Nat.leb_spec 28 (length filled + length l)); [rewrite (proj2 (Nat.leb_le _ _)) by lia; done|].
      rewrite (proj2 (Nat.leb_gt _ _)) by lia. done.
    + f_equal. rewrite length_app, length_take. destruct (decide (k <= length l)%nat).
      * replace (28 - length filled)%nat with (k + (28 - (length filled + Nat.min k (length l))))%nat by lia.
        rewrite <- take_take_drop. done.
      * rewrite (drop_ge l k), take_nil, app_nil_r, !take_ge by lia. done.
  - rewrite (proj2 (Nat.leb_le _ _)) by lia. replace (28 - length filled)%nat with 0%nat by lia. by rewrite app_nil_r.
Qed.

(** A reply that starts with a resPQ header: 28 bytes, no session key, the
    constructor, and not the length of a transport error. *)
Definition res_pq_header (plain : bytes) : Prop :=
  (28 <= length plain)%nat /\ from_le (slice 4 12 plain) = 0 /\ from_le (slice 24 28 plain) = RES_PQ_CTOR /\
  take 4 plain <> le_bytes 4 4.

Lemma res_pq_header_take plain : res_pq_header (take 28 plain) <-> res_pq_header plain.
Proof.
  unfold res_pq_header. rewrite length_take, take_take.
  assert (forall a b, (b <= 28)%nat -> slice a b (take 28 plain) = slice a b plain) as Hs.
  { intros a b Hb. unfold slice. rewrite skipn_firstn_comm, take_take. f_equal. lia. }
  rewrite !Hs by lia. change (4 `min` 28)%nat with 4%nat.
  split; intros (? & ?); (split; [lia|done]).
Qed.

Lemma reply_verdict_spec i plain timeout peer :
  length plain = length (take 28 (in_bytes i)) ->
  reply_verdict
    (if (28 <=? 0 + length (in_bytes i))%nat then ReadDone
     else match in_end i with Eof => ReadDone | ReadError e => ReadFailed e | Elapsed => ReadTimedOut end)
    (length (take 28 (in_bytes i))) (plain ++ replicate (28 - length (take 28 (in_bytes i))) 0) timeout peer
  = Success tt <-> res_pq_header plain.
Proof.
  intros Lp. unfold reply_verdict, res_pq_header. rewrite Lp, length_app, length_replicate, Lp, length_take.
  destruct (Nat.leb_spec 28 (0 + length (in_bytes i))) as [H28|H28].
  - rewrite Nat.min_l by lia. rewrite Nat.sub_diag, app_nil_r. cbn [replicate Nat.eqb Nat.leb Nat.ltb andb Nat.add].
    assert (length plain = 28%nat) as L by (rewrite Lp, length_take; lia).
    unfold reply_is_res_pq. rewrite L. change FRAME_HEADER_LEN with 28%nat. change FRAME_CTOR_OFFSET with 24%nat.
    cbn [Nat.ltb Nat.leb]. rewrite (take_ge plain 28) by lia.
    case_bool_decide as Hd; [split; [done|intros (_ & _ & _ & ?); done]|].
    destruct (_ && _) eqn:E; [boolify; by split_and!|].
    split; [done|]. intros (_ & E1 & E2 & _). rewrite E1, E2 in E. done.
  - split; [|intros (? & _); lia].
    destruct (in_end i); [|done..]. repeat case_test; boolify; try done; lia.
Qed.

Section check_lemmas.
Context {C : Crypto} `{!CryptoLaws C} {U : OutboundCrates} {N : Network} {K : Sockets} {I : ProbeIO} (usize_max : Z).

(** The request that goes out and how the answer decides. *)
Lemma require_res_pq_spec n s writes enc dec_ tape timeout peer :
  (16 <= length tape)%nat ->
  let req := encrypt enc (req_pq_multi (unix_now n) (take 16 tape)) in
  exists v, require_res_pq n s writes enc dec_ tape timeout peer = Done v /\
    (v = Success tt <->
       sock_write n s writes req = Success tt /\
       res_pq_header (encrypt dec_ (in_bytes (sock_in n s (writes ++ [req]) timeout)))).
Proof.
  intros Ht req. unfold require_res_pq. rewrite build_req_pq_multi_format by done. cbn [run_bind].
  unfold apply_keystream. rewrite cipher_apply_encrypt. fold req.
  destruct (sock_write n s writes req) as [[]|e]; [|eexists; split; [done|]; split; [done|by intros [? _]]].
  set (i := sock_in _ _ _ _). rewrite header_read_spec by (simpl; lia). cbn [run_bind app length].
  rewrite cipher_apply_encrypt. eexists. split; [done|]. change FRAME_HEADER_LEN with 28%nat.
  rewrite reply_verdict_spec by (by rewrite length_encrypt).
  rewrite <- encrypt_take, res_pq_header_take. intuition.
Qed.

(** *** What a passing probe has seen *)

(** A record of the domain for DC 2 upgraded to a WebSocket. *)
Definition domain_evidence (domain : text) : Prop :=
  exists ws, from_dial (fun d => d_domain d = txt "kws2." ++ domain /\ d_path d = txt "/apiws") ws.

(** The Worker opened a tunnel to DC 2 that took an init and stayed silent. *)
Definition worker_evidence (n : nat) (domain : text) : Prop :=
  exists dst ws init tape source, default_dc_ip 2 = Some dst /\
    from_dial (fun d => d_domain d = domain /\ d_path d = cf_worker_path dst 2 false) ws /\
    generate_relay_init Intermediate 2 (probe_random n) = Done (init, tape) /\
    ws_sending n ws init = Success tt /\ ws_yields n ws WORKER_TUNNEL_SETTLE = (source, true) /\
    Forall (fun e => e = EvPing \/ e = EvPong) source.

(** The far end of the socket took a handshake and a [req_pq_multi] under the
    secret, and answered with a resPQ. *)
Definition answers_res_pq (n : nat) (s : socket) (secret : bytes) (timeout : Z) : Prop :=
  exists hs enc dec_ tape,
    generate_client_handshake secret 2 PaddedIntermediate (probe_random n) = Done (hs, enc, dec_, tape) /\
    sock_write n s [] hs = Success tt /\
    let req := encrypt enc (req_pq_multi (unix_now n) (take 16 tape)) in
    sock_write n s [hs] req = Success tt /\
    res_pq_header (encrypt dec_ (in_bytes (sock_in n s [hs; req] timeout))).

(** The far end took a ClientHello and its server handshake was drained. *)
Definition answers_faketls (n : nat) (s : socket) (secret hostname : bytes) (timeout : Z) : Prop :=
  exists hs enc dec_ tape u tape' hello,
    generate_client_handshake secret 2 PaddedIntermediate (probe_random n) = Done (hs, enc, dec_, tape) /\
    build_faketls_client_hello hostname tape = Done (u, tape') /\
    sign_faketls_client_hello u secret (unix_now n) = Done hello /\
    sock_write n s [] hello = Success tt /\
    fst (drain_faketls_server_hello (in_bytes (sock_in n s [hello] timeout))) = true.

Definition proxy_evidence (n : nat) (outbound : OutboundConfig) (timeout : Z) (p : MtProtoProxy) : Prop :=
  exists s, fst (connect n outbound (mp_host p) (mp_port p) timeout) = inl s /\
    match mp_faketls_hostname p with
    | Some h => answers_faketls n s (mp_secret_key p) h timeout
    | None => answers_res_pq n s (mp_secret_key p) timeout
    end.

Definition listener_evidence (n : nat) (addr : SocketAddr) (secret : bytes) (timeout : Z) : Prop :=
  exists s, fst (connect n (mkOutboundConfig None None) (ip_to_string (sa_ip addr)) (sa_port addr) timeout) = inl s /\
    answers_res_pq n s secret timeout.

Lemma ws_recv_silent source silent :
  ws_recv source silent = None <-> silent = true /\ Forall (fun e => e = EvPing \/ e = EvPong) source.
Proof.
  split.
  - induction source as [|[b|b| | | |] source IH]; cbn [ws_recv]; try done;
      [destruct silent; [|done]; intros _; by split|..];
      (intros H; destruct (IH H); split; [done|]; constructor; auto).
  - intros [-> HF]. induction HF as [|e source [-> | ->] _ IH]; done.
Qed.

Context `{!ProbeIOLaws I}.

(** The plain-transport exchange both socket probes share. *)
Lemma res_pq_exchange {A} n s secret timeout peer (ok : A) (fail : text -> A) :
  exists a, (let! r := generate_client_handshake secret 2 PaddedIntermediate (probe_random n) in
    let '(handshake, enc, dec_, tape) := r in
    match sock_write n s [] handshake with
    | Failure e => Done (fail (txt "send MTProto handshake: " ++ e))
    | Success _ =>
        let! v := require_res_pq n s [handshake] enc dec_ tape timeout peer in
        match v with Success _ => Done ok | Failure e => Done (fail e) end
    end) = Done a /\
    ((a = ok /\ answers_res_pq n s secret timeout) \/
     (exists e, a = fail e) /\ ~ answers_res_pq n s secret timeout).
Proof.
  destruct (client_handshake_returns secret 2 PaddedIntermediate 32 (probe_random n) (probe_random_ok n))
    as (hs & enc & dec_ & tape & E & L & Hr). rewrite E. cbn [run_bind].
  assert (forall P, (forall hs' enc' dec' tape', Done (hs', enc', dec', tape') = Done (hs, enc, dec_, tape) -> ~ P hs' enc' dec' tape') ->
    ~ (exists hs enc dec_ tape, generate_client_handshake secret 2 PaddedIntermediate (probe_random n)
         = Done (hs, enc, dec_, tape) /\ P hs enc dec_ tape)) as Hno.
  { intros P HP (? & ? & ? & ? & E' & H'). eapply HP; [|exact H']. by rewrite <- E, E'. }
  destruct (sock_write n s [] hs) as [[]|e] eqn:Ew.
  - destruct (require_res_pq_spec n s [hs] enc dec_ tape timeout peer) as (v & -> & Hv); [lia|]. cbn [run_bind].
    destruct v as [[]|e].
    + eexists. split; [done|]. left. split; [done|]. exists hs, enc, dec_, tape. by destruct (proj1 Hv eq_refl).
    + eexists. split; [done|]. right. split; [by eexists|]. apply Hno. intros ???? [= -> -> -> ->] (_ & Hw & Ha).
      discriminate (proj2 Hv (conj Hw Ha)).
  - eexists. split; [done|]. right. split; [by eexists|]. apply Hno. intros ???? [= -> -> -> ->] (Hw & _). congruence.
Qed.

Lemma probe_listener_spec n addr secret timeout :
  exists s, probe_listener n addr secret 2 timeout = Done (s, [OpenTcp (ip_to_string (sa_ip addr)) (sa_port addr)]) /\
    (is_ok s = true <-> listener_evidence n addr secret timeout).
Proof.
  unfold probe_listener, listener_evidence. unfold connect, connect_direct, timed, connect_tcp. cbn [oc_proxy].
  case_test; cbn [fst snd].
  2: { eexists. split; [done|]. split; [done|]. by intros (s & ? & _). }
  destruct (map_err _ _) as [s|e]; cbn [fst].
  2: { eexists. split; [done|]. split; [done|]. by intros (s & ? & _). }
  destruct (res_pq_exchange n s secret timeout (txt "the listener")
    (ProbeOk (elapsed n), [OpenTcp (ip_to_string (sa_ip addr)) (sa_port addr)])
    (fun e => (ProbeFail e, [OpenTcp (ip_to_string (sa_ip addr)) (sa_port addr)])))
    as (a & -> & [[-> Ha]|[[e ->] Ha]]); eexists; (split; [done|]); cbn [is_ok].
  - split; [|done]. intros _. by exists s.
  - split; [done|]. intros (s' & [= <-] & H). done.
Qed.

Lemma probe_proxy_spec n p timeout outbound :
  (forall h, mp_faketls_hostname p = Some h -> Zlen h <= 65000) ->
  exists s reqs, probe_mtproto_proxy n p timeout outbound = Done (s, reqs) /\
    reqs = snd (connect n outbound (mp_host p) (mp_port p) timeout) /\
    (is_ok s = true <-> proxy_evidence n outbound timeout p).
Proof.
  intros Hh. unfold probe_mtproto_proxy, proxy_evidence.
  destruct (connect n outbound (mp_host p) (mp_port p) timeout) as [[s|e] reqs]; cbn [fst snd].
  2: { eexists _, _. split_and!; [done|done|]. split; [done|]. by intros (s & ? & _). }
  destruct (mp_faketls_hostname p) as [h|] eqn:Eh.
  - destruct (client_handshake_returns (mp_secret_key p) 2 PaddedIntermediate 32 (probe_random n) (probe_random_ok n))
      as (hs & enc & dec_ & tape & E & L & Hr). rewrite E. cbn [run_bind].
    destruct (client_hello_signed h tape (mp_secret_key p) (unix_now n)) as (u & hello & Eb & Es); [by apply Hh|done|].
    rewrite Eb. cbn [run_bind]. rewrite Es. cbn [run_bind].
    assert (forall s', inl s = inl s' :> socket + OutboundError ->
      answers_faketls n s' (mp_secret_key p) h timeout ->
      sock_write n s [] hello = Success tt /\
      fst (drain_faketls_server_hello (in_bytes (sock_in n s [hello] timeout))) = true) as Hinv.
    { intros s' [= <-] (hs' & enc' & dec' & tp & u' & tp' & hello' & E' & Eb' & Es' & Hw & Hd).
      rewrite E in E'. simplify_eq. rewrite Eb in Eb'. simplify_eq. rewrite Es in Es'. simplify_eq. done. }
    destruct (sock_write n s [] hello) as [[]|e] eqn:Ew.
    + destruct (fst (drain_faketls_server_hello _)) eqn:Ed; cbn [negb]; eexists _, _; (split_and!; [done|done|]); cbn [is_ok].
      * split; [|done]. intros _. exists s. split; [done|]. by exists hs, enc, dec_, tape, u, (drop 32 tape), hello.
      * split; [done|]. intros (s' & E' & H). by destruct (Hinv s' E' H).
    + eexists _, _. split_and!; [done|done|]. split; [done|]. intros (s' & E' & H). by destruct (Hinv s' E' H).
  - destruct (res_pq_exchange n s (mp_secret_key p) timeout (txt "the upstream proxy")
      (ProbeOk (elapsed n), reqs) (fun e => (ProbeFail e, reqs))) as (a & -> & [[-> Ha]|[[e ->] Ha]]);
      eexists _, _; (split_and!; [done|done|]); cbn [is_ok].
    + split; [|done]. intros _. by exists s.
    + split; [done|]. intros (s' & [= <-] & H). done.
Qed.

Lemma probe_worker_spec n domain skip timeout opts w :
  exists s w', probe_cf_worker usize_max n domain skip timeout opts w = Done (s, w') /\
    (is_ok s = true -> worker_evidence n domain).
Proof.
  unfold probe_cf_worker. destruct (default_dc_ip 2) as [dst|] eqn:Edc; [|done].
  unfold connect_cf_worker_ws_for_dc_with_outbound_opts.
  destruct (cf_connect_cases usize_max domain (cf_worker_path dst 2 false) false skip timeout opts w)
    as (r & w' & -> & Hr). cbn [run_bind].
  destruct r as [ws| | | |]; cbn [run_bind]; [|by eexists _, _..].
  assert (random_ok 2 (probe_random n)) as Hn.
  { destruct (probe_random_ok n) as (rej & good & rest & -> & ? & ? & ? & ?).
    exists rej, good, rest. split_and!; try done. lia. }
  destruct (relay_init_returns Intermediate 2 _ Hn) as (init & tape & E). rewrite E. cbn [run_bind].
  destruct (ws_sending n ws init) as [[]|] eqn:Es; [|by eexists _, _].
  destruct (ws_yields n ws WORKER_TUNNEL_SETTLE) as [source silent] eqn:Ey.
  destruct (ws_recv source silent) as [[data|]|] eqn:Er; [by eexists _, _..|].
  eexists _, _. split; [done|]. intros _. apply ws_recv_silent in Er as [-> HF].
  exists dst, ws, init, tape, source. split_and!; try done.
  eapply from_dial_mono; [|by apply Hr]. by intros d [ip ->].
Qed.

Lemma probe_domain_spec n domain skip timeout opts w :
  exists s w', probe_cf_domain usize_max n domain skip timeout opts w = Done (s, w') /\
    (is_ok s = true -> domain_evidence domain).
Proof.
  unfold probe_cf_domain. rewrite cf_ordered_walk. change (0 mod length [domain])%nat with 0%nat.
  change (rotated 0 [domain]) with [domain]. cbn [distinct map].
  rewrite bool_decide_eq_false_2 by apply not_elem_of_nil. cbn [map distinct app].
  assert (forall w, exists r w', dial_record usize_max skip timeout opts (txt "kws" ++ dec 2 ++ txt "." ++ domain) w
    = Done (r, w') /\ forall ws, r = Connected ws -> domain_evidence domain) as HD.
  { intros w0. unfold dial_record. edestruct cf_connect_cases as (r & w' & E & H). exists r, w'. split; [exact E|].
    intros ws Hs. exists ws. eapply from_dial_mono; [|by apply H]. by intros d [ip ->]. }
  cbn [cf_walk]. destruct (HD w) as (r & w1 & -> & H1). cbn [run_bind].
  destruct r as [ws| | | |]; cbn [run_bind]; try (eexists _, _; split; [done|]; done);
    [eexists _, _; split; [done|]; intros _; by eapply H1|..];
    (destruct (HD w1) as (r & w2 & -> & H2); cbn [run_bind];
     destruct r as [ws| | | |]; cbn [run_bind]; try (eexists _, _; split; [done|]; done);
     eexists _, _; split; [done|]; intros _; by eapply H2).
Qed.

(** *** The run *)

(** A target's line: its label, and evidence when the probe passed. *)
Definition line_for {A} (label : A -> text) (E : nat -> A -> Prop) (t : A) (l : report_line) : Prop :=
  exists s, l = LProbe (label t) s /\ (is_ok s = true -> exists n, E n t).

Lemma probe_each_spec {A} (probe : A -> probing -> run (ProbeStatus * probing)) label (E : nat -> A -> Prop) targets st :
  (forall t st, t ∈ targets -> exists s st', probe t st = Done (s, st') /\ (is_ok s = true -> exists n, E n t)) ->
  exists lines st', probe_each probe label targets st = Done (lines, st') /\ Forall2 (line_for label E) targets lines.
Proof.
  revert st. induction targets as [|t targets IH]; intros st H; cbn [probe_each]; [by exists [], st|].
  destruct (H t st) as (s & st1 & -> & Hs); [by left|]. cbn [run_bind].
  destruct (IH st1) as (lines & st2 & -> & HF); [intros; apply H; by right|]. cbn [run_bind].
  eexists _, _. split; [done|]. constructor; [by exists s|done].
Qed.

Lemma line_for_passed {A} (label : A -> text) E targets lines :
  Forall2 (line_for label E) targets lines ->
  skipped lines = 0%nat /\ (existsb line_failed lines = false -> Forall (fun t => exists n, E n t) targets).
Proof.
  induction 1 as [|t l targets lines (s & -> & Hs) _ [IH1 IH2]]; [by split|].
  split; [exact IH1|]. cbn [existsb line_failed]. intros [H1 H2]%orb_false_iff.
  apply negb_false_iff in H1. constructor; auto.
Qed.

Lemma run_listener_spec c secret listen_domain listener st :
  reply_fits c listener ->
  exists own st', run_listener c secret listen_domain listener st = Done (own, st') /\
    length own = (if c_check_listener c then 1 else 0)%nat /\
    (skipped own = 0%nat \/ skipped own = 1%nat /\ length own = 1%nat) /\
    (existsb line_failed own = false -> c_check_listener c = true ->
       exists addr, listener = Some addr /\
         (is_Some listen_domain \/ exists n, listener_evidence n (probe_addr addr) secret (from_secs (reply_seconds c)))).
Proof.
  intros Hfit. unfold run_listener. destruct (c_check_listener c); [|exists [], st; by split_and!; auto].
  destruct listener as [addr|]; [|exists [LNoSocket], st; by split_and!; auto].
  destruct listen_domain as [d|].
  - eexists _, _. split_and!; [done|done|by right|]. intros _ _. exists addr. eauto.
  - destruct Hfit as [?|Hfit]; [done|]. unfold reply_timeout. rewrite (proj2 (Z.ltb_lt _ _)) by done. cbn [run_bind].
    destruct (probe_listener_spec (pr_count st) (probe_addr addr) secret (from_secs (reply_seconds c))) as (s & -> & Hs).
    cbn [run_bind]. eexists _, _. split_and!; [done|done|by left|]. cbn [existsb line_failed].
    rewrite orb_false_r. intros H%negb_false_iff _. exists addr. split; [done|]. right. eexists. by apply Hs.
Qed.

Lemma run_check_spec c secret listen_domain outbound listener st :
  hostnames_ok c -> reply_fits c listener -> requested c <> 0%nat ->
  exists ds ws ps own st',
    let lines := ds ++ ws ++ ps ++ own in
    run_check_with_outbound usize_max c secret listen_domain outbound listener st =
      Done (if existsb line_failed lines then (false, lines, SomeFailed, st')
            else if (requested c =? skipped own)%nat then (false, lines, EverySkipped, st')
            else (true, lines, AllPassed, st')) /\
    Forall2 (line_for (fun d => txt "kws2." ++ d) (fun _ => domain_evidence)) (c_cf_domains c) ds /\
    Forall2 (line_for (fun d => d) worker_evidence) (c_cf_worker_domains c) ws /\
    Forall2 (line_for proxy_label (fun n => proxy_evidence n outbound (from_secs (c_upstream_connect_timeout c))))
      (c_mtproto_proxies c) ps /\
    length own = (if c_check_listener c then 1 else 0)%nat /\
    (skipped own = 0%nat \/ skipped own = 1%nat /\ length own = 1%nat) /\
    (existsb line_failed own = false -> c_check_listener c = true ->
       exists addr, listener = Some addr /\
         (is_Some listen_domain \/ exists n, listener_evidence n (probe_addr addr) secret (from_secs (reply_seconds c)))).
Proof.
  intros Hh Hfit Hr. unfold run_check_with_outbound. rewrite (proj2 (Nat.eqb_neq _ _)) by done.
  destruct (probe_each_spec (run_domain usize_max c) (fun d => txt "kws2." ++ d) (fun _ => domain_evidence) (c_cf_domains c) st)
    as (ds & st1 & -> & HD).
  { intros t st0 _. unfold run_domain. edestruct probe_domain_spec as (s & w' & -> & H). cbn [run_bind].
    eexists _, _. split; [done|]. intros ?. exists 0%nat. auto. }
  cbn [run_bind].
  destruct (probe_each_spec (run_worker usize_max c) (fun d => d) worker_evidence (c_cf_worker_domains c) st1)
    as (ws & st2 & -> & HW).
  { intros t st0 _. unfold run_worker. edestruct probe_worker_spec as (s & w' & -> & H). cbn [run_bind].
    eexists _, _. split; [done|]. intros ?. eexists. by apply H. }
  cbn [run_bind].
  destruct (probe_each_spec (run_proxy c outbound) proxy_label
    (fun n => proxy_evidence n outbound (from_secs (c_upstream_connect_timeout c))) (c_mtproto_proxies c) st2)
    as (ps & st3 & -> & HP).
  { intros t st0 Ht. unfold hostnames_ok in Hh. rewrite list.Forall_forall in Hh. unfold run_proxy.
    edestruct (probe_proxy_spec (pr_count st0) t) as (s & reqs & -> & _ & H); [exact (Hh t Ht)|]. cbn [run_bind]. eexists _, _. split; [done|]. intros ?. eexists. by apply H. }
  cbn [run_bind].
  destruct (run_listener_spec c secret listen_domain listener st3 Hfit) as (own & st4 & -> & HO). cbn [run_bind].
  exists ds, ws, ps, own, st4. cbv zeta. split; [|done].
  assert (skipped (ds ++ ws ++ ps ++ own) = skipped own) as ->.
  { unfold skipped. rewrite !List.filter_app, !length_app.
    destruct (line_for_passed _ _ _ _ HD) as [E1 _], (line_for_passed _ _ _ _ HW) as [E2 _],
      (line_for_passed _ _ _ _ HP) as [E3 _]. unfold skipped in *. rewrite E1, E2, E3. done. }
  destruct (existsb line_failed (ds ++ ws ++ ps ++ own)); cbn [negb]; [reflexivity|].
  by destruct (requested c =? skipped own)%nat.
Qed.
End check_lemmas.

Lemma run_check_returns {C : Crypto} `{!CryptoLaws C} {U : OutboundCrates} {N : Network} {K : Sockets} {I : ProbeIO}
    `{!ProbeIOLaws I} usize_max c secret listen_domain outbound listener st :
  hostnames_ok c -> reply_fits c listener -> exists ok lines sum st',
    run_check_with_outbound usize_max c secret listen_domain outbound listener st = Done (ok, lines, sum, st').
Proof.
  intros Hh Hfit. destruct (decide (requested c = 0%nat)) as [E|E].
  { unfold run_check_with_outbound. rewrite E. by eexists _, _, _, _. }
  destruct (run_check_spec usize_max c secret listen_domain outbound listener st Hh Hfit E) as (ds & ws & ps & own & st' & -> & _).
  destruct (existsb _ _); [by eexists _, _, _, _|]. destruct (_ =? _)%nat; by eexists _, _, _, _.
Qed.

(** ** Properties *)
Section check_properties.
Context {C : Crypto} `{!CryptoLaws C} {U : OutboundCrates} {N : Network} {K : Sockets} {I : ProbeIO}.
Context `{!ProbeIOLaws I} (usize_max : Z).

Lemma requested_lines c outbound ds ws ps (own : list report_line) :
  Forall2 (line_for (fun d => txt "kws2." ++ d) (fun _ => domain_evidence)) (c_cf_domains c) ds ->
  Forall2 (line_for (fun d => d) worker_evidence) (c_cf_worker_domains c) ws ->
  Forall2 (line_for proxy_label (fun n => proxy_evidence n outbound (from_secs (c_upstream_connect_timeout c))))
    (c_mtproto_proxies c) ps ->
  length own = (if c_check_listener c then 1 else 0)%nat ->
  length (ds ++ ws ++ ps ++ own) = requested c.
Proof.
  intros H1%Forall2_length H2%Forall2_length H3%Forall2_length H4. rewrite !length_app. unfold requested. lia.
Qed.

(** Without a failure, some probe ran exactly when not every line is a skip. *)
Lemma some_probe_ran lines :
  existsb line_failed lines = false ->
  skipped lines <> length lines <-> exists label s, LProbe label s ∈ lines.
Proof.
  unfold skipped. induction lines as [|l lines IH]; intros Ef.
  { split; [done|]. intros (label & s & H). by apply elem_of_nil in H. }
  cbn [existsb] in Ef. apply orb_false_iff in Ef as [El Ef]. specialize (IH Ef).
  pose proof (List.filter_length_le (fun l => match l with LSkip _ => true | _ => false end) lines).
  destruct l as [label s|label|]; cbn [List.filter length]; [| |done].
  - split; [|lia]. intros _. exists label, s. by left.
  - rewrite Nat.succ_inj_wd, IH. split; intros (lb & s & Hin); exists lb, s; [by right|].
    by apply elem_of_cons in Hin as [?|?].
Qed.

(** C32. The verdict: the check always ends (the timeouts of the listener probe
    have a sum that fits a [u64]), with one line for every requested
    probe; it passes exactly when nothing was requested, or when no probe
    failed and at least one really ran, so a run that only skipped fails. *)
Theorem check_verdict_exact c secret listen_domain outbound listener st :
  hostnames_ok c -> reply_fits c listener ->
  exists ok lines sum st',
    run_check_with_outbound usize_max c secret listen_domain outbound listener st = Done (ok, lines, sum, st') /\
    length lines = requested c /\
    (ok = true <-> requested c = 0%nat \/
       (existsb line_failed lines = false /\ exists label s, LProbe label s ∈ lines)).
Proof.
  intros Hh Hfit. destruct (decide (requested c = 0%nat)) as [E|E].
  { exists true, [], NothingToCheck, st. unfold run_check_with_outbound. rewrite E. split_and!; [done|done|tauto]. }
  destruct (run_check_spec usize_max c secret listen_domain outbound listener st Hh Hfit E)
    as (ds & ws & ps & own & st' & -> & HD & HW & HP & HL & HS & _).
  pose proof (requested_lines _ _ _ _ _ _ HD HW HP HL) as Hlen. set (lines := ds ++ ws ++ ps ++ own) in *.
  destruct (line_for_passed _ _ _ _ HD) as [S1 _], (line_for_passed _ _ _ _ HW) as [S2 _],
    (line_for_passed _ _ _ _ HP) as [S3 _].
  assert (skipped lines = skipped own) as Hsk.
  { unfold lines, skipped in *. rewrite !List.filter_app, !length_app. lia. }
  destruct (existsb line_failed lines) eqn:Ef.
  { eexists _, _, _, _. split_and!; [done|done|]. split; [done|]. rewrite Ef. by intros [?|[? _]]. }
  destruct (Nat.eqb_spec (requested c) (skipped own)) as [Eq|Eq]; eexists _, _, _, _; (split_and!; [done|done|]).
  - split; [done|]. intros [?|[_ Hex%some_probe_ran]]; [done|lia|done].
  - split; [|done]. intros _. right. split; [done|]. apply some_probe_ran; [done|lia].
Qed.

(** C23. What a passing check has seen.  For every Cloudflare domain the [kws2]
    record upgraded; every Worker's tunnel to DC 2 took an MTProto init and
    stayed silent; every plain upstream proxy, and the own listener over a
    direct loopback connection, answered a [req_pq_multi] under its secret with
    Telegram's resPQ; every FakeTLS proxy sent a complete server handshake.
    Only a FakeTLS listener is passed over. *)
Theorem check_evidence c secret listen_domain outbound listener st :
  hostnames_ok c -> reply_fits c listener ->
  exists ok lines sum st',
    run_check_with_outbound usize_max c secret listen_domain outbound listener st = Done (ok, lines, sum, st') /\
    (ok = true ->
       Forall domain_evidence (c_cf_domains c) /\
       Forall (fun d => exists n, worker_evidence n d) (c_cf_worker_domains c) /\
       Forall (fun p => exists n, proxy_evidence n outbound (from_secs (c_upstream_connect_timeout c)) p)
         (c_mtproto_proxies c) /\
       (c_check_listener c = true -> exists addr, listener = Some addr /\
          (is_Some listen_domain \/ exists n, listener_evidence n (probe_addr addr) secret (from_secs (reply_seconds c))))).
Proof.
  intros Hh Hfit. destruct (decide (requested c = 0%nat)) as [E|E].
  { exists true, [], NothingToCheck, st. unfold run_check_with_outbound. rewrite E. split; [done|]. intros _.
    unfold requested in E. destruct (c_cf_domains c), (c_cf_worker_domains c), (c_mtproto_proxies c), (c_check_listener c);
      simpl in E; try lia. split_and!; try constructor. done. }
  destruct (run_check_spec usize_max c secret listen_domain outbound listener st Hh Hfit E)
    as (ds & ws & ps & own & st' & -> & HD & HW & HP & _ & _ & HO).
  destruct (line_for_passed _ _ _ _ HD) as [_ P1], (line_for_passed _ _ _ _ HW) as [_ P2],
    (line_for_passed _ _ _ _ HP) as [_ P3]. rewrite !existsb_app.
  destruct (existsb line_failed ds); [by eexists _, _, _, _|].
  destruct (existsb line_failed ws); [by eexists _, _, _, _|].
  destruct (existsb line_failed ps); [by eexists _, _, _, _|].
  destruct (existsb line_failed own); [by eexists _, _, _, _|]. cbn [orb].
  destruct (requested c =? skipped own)%nat; [by eexists _, _, _, _|].
  eexists _, _, _, _. split; [done|]. intros _. split_and!; auto.
  eapply Forall_impl; [|by apply P1]. by intros d [_ ?].
Qed.

(** C33. The probe's request and the listener's answer meet in the middle.  The
    handshake the probe writes is accepted by a listener with the same secret,
    as a padded-intermediate client of DC 2; what it writes next decrypts, with
    that listener's session cipher, to one whole [req_pq_multi] packet; and the
    bytes the listener encrypts for its client make the probe pass exactly when
    they start with a resPQ header. *)
Theorem listener_probe_meets n addr secret timeout s relay_init plain :
  fst (connect n (mkOutboundConfig None None) (ip_to_string (sa_ip addr)) (sa_port addr) timeout) = inl s ->
  (forall ws b, sock_write n s ws b = Success tt) -> length relay_init = 64%nat ->
  exists hs req cc tape nonce,
    generate_client_handshake secret 2 PaddedIntermediate (probe_random n) = Done (hs, clt_dec cc, clt_enc cc, tape) /\
    parse_handshake hs secret = Done (Some (mkHandshakeInfo 2 false PaddedIntermediate (slice 8 56 hs))) /\
    build_connection_ciphers (slice 8 56 hs) secret relay_init = Done cc /\
    encrypt (clt_dec cc) req = req_pq_multi (unix_now n) nonce /\
    framing PaddedIntermediate (encrypt (clt_dec cc) req) [req_pq_multi (unix_now n) nonce] [] false /\
    (in_bytes (sock_in n s [hs; req] timeout) = encrypt (clt_enc cc) plain ->
     exists st reqs, probe_listener n addr secret 2 timeout = Done (st, reqs) /\
       (is_ok st = true <-> res_pq_header plain)).
Proof.
  intros Hc Hw Hr.
  destruct (client_handshake_returns secret 2 PaddedIntermediate 32 (probe_random n) (probe_random_ok n))
    as (hs & enc & dec_ & tape & E & L & Ht).
  destruct (client_handshake_fields_parse secret 2 PaddedIntermediate _ _ _ _ _ ltac:(done) E) as [_ Hp].
  destruct (session_ciphers secret 2 PaddedIntermediate _ _ _ _ _ relay_init E Hr) as (cc & Hcc & <- & <- & _).
  set (nonce := take 16 tape). assert (length nonce = 16%nat) as Ln by (unfold nonce; len).
  exists hs, (encrypt (clt_dec cc) (req_pq_multi (unix_now n) nonce)), cc, tape, nonce. rewrite encrypt_involutive.
  split_and!; [done|done|done|done|by apply req_pq_multi_frame|]. intros Hin.
  destruct (probe_listener_spec n addr secret timeout) as (st & -> & Hst). eexists st, _. split; [done|].
  rewrite Hst. split.
  - intros (s' & Hs' & hs' & enc' & dec' & tape' & E' & _ & _ & Ha). rewrite Hc in Hs'. injection Hs' as <-.
    rewrite E in E'. injection E' as <- <- <- <-. fold nonce in Ha. rewrite Hin, encrypt_involutive in Ha. exact Ha.
  - intros Ha. exists s. split; [done|]. exists hs, (clt_dec cc), (clt_enc cc), tape. split_and!; try done.
    cbv zeta. fold nonce. rewrite Hin, encrypt_involutive. split; [apply Hw|exact Ha].
Qed.
End check_properties.

(** *** Witnesses *)

(** A listener whose only answer is the given plaintext, encrypted for the
    client of the drawn handshake. *)
Definition demo_answer (plain : bytes) : bytes :=
  match generate_client_handshake (C := toy_crypto) demo_secret 2 PaddedIntermediate demo_tape with
  | Done (hs, enc, dec_, tape) => encrypt (C := toy_crypto) dec_ plain
  | _ => []
  end.

Definition demo_res_pq : bytes :=
  le_bytes 4 84 ++ replicate 8 0 ++ le_bytes 8 77 ++ le_bytes 4 64 ++ le_bytes 4 RES_PQ_CTOR ++ seqZ 1 60.

Definition demo_probes : ProbeIO (N := demo_network) (K := demo_sockets) := {|
  probe_random _ := demo_tape;
  unix_now _ := 1700000000;
  elapsed _ := 12;
  sock_write _ _ _ _ := Success tt;
  sock_in _ _ _ _ := mkIncoming (demo_answer demo_res_pq) [3; 0; 30]%nat Elapsed;
  ws_sending _ _ _ := Success tt;
  ws_yields _ _ _ := ([EvPing], true);
|}.

Lemma demo_probes_laws : ProbeIOLaws demo_probes.
Proof. split. intros n. exact demo_random. Qed.

Definition demo_probing : probing := mkProbing demo_net 0 [].

Lemma check_verdict_exact_witness :
  exists ok lines sum st',
    run_check_with_outbound (C := toy_crypto) (U := demo_crates) (N := demo_network) (K := demo_sockets)
      (I := demo_probes) (2 ^ 64 - 1) demo_config demo_secret None (mkOutboundConfig None None)
      (Some (mkSocketAddr (V4 [0; 0; 0; 0]) 1443)) demo_probing = Done (ok, lines, sum, st') /\ length lines = 4%nat.
Proof.
  destruct (check_verdict_exact (C := toy_crypto) (CryptoLaws0 := toy_crypto_laws) (U := demo_crates)
    (N := demo_network) (K := demo_sockets) (I := demo_probes) (ProbeIOLaws0 := demo_probes_laws) (2 ^ 64 - 1)
    demo_config demo_secret None (mkOutboundConfig None None) (Some (mkSocketAddr (V4 [0; 0; 0; 0]) 1443)) demo_probing)
    as (ok & lines & sum & st' & E & HL & _).
  - constructor.
  - right. reflexivity.
  - exists ok, lines, sum, st'. split; [exact E|]. rewrite HL. reflexivity.
Defined.

(** One of each: a domain, a Worker, a plain proxy and the own listener. *)
Definition demo_probed : Config :=
  mkConfig None None true true [txt "00112233445566778899aabbccddeeff"] None [] false
    [txt "cf.example"] false [txt "w.example"] false false false
    [mkMtProtoProxy (txt "proxy.example") 8443 (txt "00112233445566778899aabbccddeeff") demo_secret None] [] []
    10 2 30 300 3600 10 10 5 60 10 60 1443 4 120 None [] None None false None false false None 256 1800 60.

Definition demo_listener : option SocketAddr := Some (mkSocketAddr (V4 [0; 0; 0; 0]) 1443).

Lemma demo_probed_passes :
  match run_check_with_outbound (C := toy_crypto) (U := demo_crates) (N := demo_network) (K := demo_sockets)
    (I := demo_probes) (2 ^ 64 - 1) demo_probed demo_secret None (mkOutboundConfig None None) demo_listener demo_probing
  with Done (ok, _, _, _) => ok | _ => false end = true.
Proof. vm_compute. reflexivity. Qed.

Lemma check_evidence_witness :
  Forall (domain_evidence (N := demo_network)) [txt "cf.example"] /\
  Forall (fun d => exists n, worker_evidence (C := toy_crypto) (N := demo_network) (K := demo_sockets) (I := demo_probes) n d)
    [txt "w.example"] /\
  (exists n, listener_evidence (C := toy_crypto) (U := demo_crates) (N := demo_network) (K := demo_sockets)
     (I := demo_probes) n (mkSocketAddr LOCALHOST_V4 1443) demo_secret (from_secs (reply_seconds demo_probed))).
Proof.
  pose proof demo_probed_passes as HR.
  destruct (check_evidence (C := toy_crypto) (CryptoLaws0 := toy_crypto_laws) (U := demo_crates)
    (N := demo_network) (K := demo_sockets) (I := demo_probes) (ProbeIOLaws0 := demo_probes_laws) (2 ^ 64 - 1)
    demo_probed demo_secret None (mkOutboundConfig None None) demo_listener demo_probing)
    as (ok & lines & sum & st' & E & H).
  - repeat constructor. intros h Hh. discriminate Hh.
  - right. reflexivity.
  - rewrite E in HR. destruct (H HR) as (H1 & H2 & _ & H4). split; [exact H1|]. split; [exact H2|].
    destruct (H4 eq_refl) as (addr & [= <-] & [[d Hd]|Hl]); [discriminate Hd|exact Hl].
Defined.

(** The listener is probed over loopback and passes. *)
Lemma listener_probe_meets_witness :
  exists st reqs,
    probe_listener (C := toy_crypto) (U := demo_crates) (N := demo_network) (K := demo_sockets) (I := demo_probes)
      0 (mkSocketAddr LOCALHOST_V4 1443) demo_secret 2 1000 = Done (st, reqs) /\ is_ok st = true.
Proof.
  destruct (listener_probe_meets (C := toy_crypto) (CryptoLaws0 := toy_crypto_laws) (U := demo_crates)
    (N := demo_network) (K := demo_sockets) (I := demo_probes) (ProbeIOLaws0 := demo_probes_laws)
    0 (mkSocketAddr LOCALHOST_V4 1443) demo_secret 1000 tt (seqZ 1 64) demo_res_pq)
    as (hs & req & cc & tape & nonce & Hg & _ & _ & _ & _ & H).
  - vm_compute. reflexivity.
  - intros. reflexivity.
  - reflexivity.
  - destruct H as (st & reqs & E & Hok).
    + change (in_bytes _) with (demo_answer demo_res_pq). unfold demo_answer.
      change (probe_random 0) with demo_tape in Hg. rewrite Hg. reflexivity.
    + exists st, reqs. split; [exact E|]. apply Hok.
      split; [apply Nat.leb_le; vm_compute; reflexivity|]. split; [vm_compute; reflexivity|].
      split; [vm_compute; reflexivity|vm_compute; discriminate].
Defined.
