(* ===== verification/Server.v ===== *)
(** * server.rs, runtime.rs, main.rs: start-up, the accept loop and the exit code

    Start-up runs the stages of [run_with_listen] in their order up to the bound
    socket; what it asks of the system is the class [Host].  The accept loop is
    a step relation over its semaphore, its own phase and the connection tasks. *)
From Stdlib Require Import String.
From stdpp Require Import gmap relations.
From S2P Require Import Prelude Text Ip Outbound Http Domains CryptoApi Crypto FakeTls Config Limits WsClient Pool Session Bridge Routing Check.

Local Open Scope Z_scope.
Local Open Scope run_scope.

Inductive RunError : Type :=
| InvalidOutbound (e : text)
| InvalidPin (e : text)
| InvalidListenAddress (addr : text)
| BindError (addr : SocketAddr) (source : text)
| CheckFailed.

(** [impl Display for RunError]. *)
Definition run_error_text (e : RunError) : text :=
  match e with
  | InvalidOutbound e => txt "invalid outbound proxy config: " ++ e
  | InvalidPin e => txt "invalid pinned upstream config: " ++ e
  | InvalidListenAddress addr => txt "invalid listen address: " ++ addr
  | BindError addr source => txt "cannot bind " ++ socket_addr_to_string addr ++ txt ": " ++ source
  | CheckFailed => txt "connectivity check failed"
  end.

(** ** runtime.rs: the builder *)
Definition runtime_new : Runtime := mkRuntime [] (from_secs 60) None.
Definition with_cf_ips (ips : list text) (r : Runtime) : Runtime :=
  mkRuntime ips (rt_cf_fail_cooldown r) (rt_fronting_domain r).
Definition with_cf_fail_cooldown (cooldown : Z) (r : Runtime) : Runtime :=
  mkRuntime (rt_cf_ips r) cooldown (rt_fronting_domain r).
Definition with_fronting (domain : option text) (r : Runtime) : Runtime :=
  mkRuntime (rt_cf_ips r) (rt_cf_fail_cooldown r) domain.

(** ** The system *)

(** The two places where start-up races against the shutdown future. *)
Inductive stage : Set :=
| AtFetch
| AtCheck.

Class Host : Type := {
  env_value : text -> option text;
  (** The local address of a UDP socket connected to a public address. *)
  udp_local : option IpAddr;
  (** The content of [/proc/self/limits]. *)
  limits_file : option text;
  (** [TcpListener::bind]; a bound socket has its local address or none. *)
  tcp_bind : SocketAddr -> result (option SocketAddr);
  (** Whether the shutdown future completes first. *)
  stops_first : stage -> bool;
}.

Definition lan_ip {HO : Host} : option text := detect_lan_ip udp_local.

(** What start-up does that can be seen from outside, in order. *)
Inductive event : Type :=
| EvFetched (count : nat)
| EvChecked (ok : bool)
| EvBound (addr : SocketAddr)
| EvListening (addr : SocketAddr) (tg_link : text).

(** ** Start-up *)
Section startup.
Context {C : Crypto} {U : OutboundCrates} {N : Network} {K : Sockets} {T : TlsClient} {P : HttpParser} {H : Hex}.
Context {I : ProbeIO} {HO : Host} (usize_max : Z).

(** What the accept loop and its tasks work with: the configuration, with its
    decoded secrets and inbound FakeTLS domain. *)
Record serving : Type := mkServing {
  sv_config : Config;
  sv_secrets : list bytes;
  sv_listen_domain : option text;
  sv_outbound : OutboundConfig;
  sv_runtime : Runtime;
  sv_addr : SocketAddr;
  sv_tg_link : text;
  sv_user_links : list text;
  sv_max_connections : Z;
}.

Inductive started : Type :=
| Ended (r : unit + RunError)
| Serves (s : serving).

(** [Config::outbound_connector]. *)
Definition outbound_connector (c : Config) : run (result OutboundConfig) :=
  from_sources (c_outbound_proxy c) (c_no_proxy c) (negb (c_no_outbound_proxy c)) env_value.

Definition build_runtime (c : Config) : Runtime :=
  with_fronting (c_fronting_domain c)
    (with_cf_fail_cooldown (from_secs (c_cf_fail_cooldown c)) (with_cf_ips (c_cf_ips c) runtime_new)).

(** [None] when the shutdown came first. *)
Definition fetch_stage (c : Config) (outbound : OutboundConfig) : run (option (Config * list event)) :=
  if c_default_domains c then
    if stops_first AtFetch then Done None
    else
      let! fetched := fetch_default_domains_with_outbound usize_max 0 outbound in
      Done (Some (extend_cf_domains fetched c, [EvFetched (length fetched)]))
  else Done (Some (c, [])).

Definition max_connections_of (c : Config) : Z :=
  let fd_limit := soft_nofile_limit usize_max limits_file in
  let dc_buckets := Z.of_nat (size (dc_redirects c)) * 2 in
  match c_max_connections c with
  | Some n => n
  | None => auto_max_connections usize_max fd_limit (c_pool_size c) dc_buckets
  end.

Definition tg_link (host : text) (port : Z) (secret : text) : text :=
  txt "tg://proxy?server=" ++ host ++ txt "&port=" ++ dec port ++ txt "&secret=" ++ secret.

(** The links of the secrets after the first. *)
Fixpoint user_links (listen_domain : option text) (host : text) (port : Z) (secrets : list text)
  : run (list text) :=
  match secrets with
  | [] => Done []
  | s :: secrets =>
      let! link := link_secret_for listen_domain s in
      let! links := user_links listen_domain host port secrets in
      Done (tg_link host port link :: links)
  end.

(** [tokio::sync::Semaphore::MAX_PERMITS]. *)
Definition MAX_PERMITS : Z := Z.shiftr usize_max 3.

Definition bind_stage (c : Config) (secrets : list bytes) (listen_domain : option text) (outbound : OutboundConfig)
    (events : list event) : run (started * list event) :=
  let host := bind_host lan_ip c in
  let target := host ++ txt ":" ++ dec (c_port c) in
  match parse_socket_addr target with
  | None => Done (Ended (inr (InvalidListenAddress target)), events)
  | Some addr =>
      match tcp_bind addr with
      | Failure e => Done (Ended (inr (BindError addr e)), events)
      | Success local =>
          let bound_addr := default addr local in
          let listen_port := sa_port bound_addr in
          let max_connections := max_connections_of c in
          let host := link_host lan_ip c in
          let! secret := link_secret listen_domain c in
          let link := tg_link host listen_port secret in
          let! links := user_links listen_domain host listen_port (drop 1 (c_secrets c)) in
          if MAX_PERMITS <? max_connections then Panic
          else Done (Serves (mkServing c secrets listen_domain outbound (build_runtime c) bound_addr link links
                             max_connections),
                     events ++ [EvBound bound_addr; EvListening bound_addr link])
      end
  end.

(** [nc] is the normalised configuration with its decoded secrets and inbound
    FakeTLS domain; [st] the dialling state the check's probes start from. *)
Definition startup (nc : Config * list bytes * option text) (st : probing) : run (started * list event) :=
  let '(c, secrets, listen_domain) := nc in
  let! out := outbound_connector c in
  match out with
  | Failure e => Done (Ended (inr (InvalidOutbound e)), [])
  | Success outbound =>
      let! fetched := fetch_stage c outbound in
      match fetched with
      | None => Done (Ended (inl tt), [])
      | Some (c, events) =>
          match validate_pinned_upstreams c with
          | Some e => Done (Ended (inr (InvalidPin (pin_error e))), events)
          | None =>
              if c_check c && negb (c_check_listener c) then
                if stops_first AtCheck then Done (Ended (inl tt), events)
                else
                  let! r := run_check_with_outbound usize_max c (secret_bytes secrets) listen_domain outbound None st in
                  let '(all_ok, lines, sum, st) := r in
                  Done (Ended (if all_ok then inl tt else inr CheckFailed), events ++ [EvChecked all_ok])
              else bind_stage c secrets listen_domain outbound events
          end
      end
  end.

(** The own-listener check of a serving process, run beside the accept loop. *)
Definition listener_check (s : serving) (st : probing) : run (option bool) :=
  if c_check (sv_config s) then
    let! r := run_check_with_outbound usize_max (sv_config s) (secret_bytes (sv_secrets s)) (sv_listen_domain s)
                (sv_outbound s) (Some (sv_addr s)) st in
    let '(all_ok, lines, sum, st) := r in Done (Some all_ok)
  else Done None.
End startup.

(** [check_verdict]: the check task sends its verdict; one that dies drops the
    sender, which reads as a failure; without a check nothing ever arrives. *)
Definition check_verdict (check : run (option bool)) : option bool :=
  match check with Done verdict => verdict | Panic | OutOfFuel => Some false end.

(** ** The accept loop *)
Inductive phase : Type :=
| Acquiring
| Accepting
| BackingOff (millis : Z)
| Broken (check_ok : option bool).

(** Connections are numbered in the order they are accepted; a task holds a
    permit as long as it runs. *)
Record accept_loop : Type := mkAcceptLoop {
  al_permits : nat;
  al_phase : phase;
  al_tasks : list nat;
  al_accepted : nat;
}.

Definition loop_start (max_connections : Z) : accept_loop :=
  mkAcceptLoop (Z.to_nat max_connections) Acquiring [] 0.

Definition EMFILE : Z := 24.
Definition ENFILE : Z := 23.

(** The pause after a failed accept, by [raw_os_error]. *)
Definition backoff (raw_os_error : option Z) : Z :=
  match raw_os_error with
  | Some e => if (e =? EMFILE) || (e =? ENFILE) then 500 else 50
  | None => 50
  end.

(** [verdict] is what the check task sends, [None] when no check runs. *)
Inductive loop_step (verdict : option bool) : accept_loop -> accept_loop -> Prop :=
| step_acquire p tasks n :
    loop_step verdict (mkAcceptLoop (S p) Acquiring tasks n) (mkAcceptLoop p Accepting tasks n)
| step_accept p tasks n :
    loop_step verdict (mkAcceptLoop p Accepting tasks n) (mkAcceptLoop p Acquiring (tasks ++ [n]) (S n))
| step_accept_error p tasks n e :
    loop_step verdict (mkAcceptLoop p Accepting tasks n) (mkAcceptLoop p (BackingOff (backoff e)) tasks n)
| step_resume p ms tasks n :
    loop_step verdict (mkAcceptLoop p (BackingOff ms) tasks n) (mkAcceptLoop (S p) Acquiring tasks n)
| step_task_ends p ph before t after n :
    loop_step verdict (mkAcceptLoop p ph (before ++ t :: after) n) (mkAcceptLoop (S p) ph (before ++ after) n)
| step_shutdown_acquiring p tasks n :
    loop_step verdict (mkAcceptLoop p Acquiring tasks n) (mkAcceptLoop p (Broken None) tasks n)
| step_shutdown_accepting p tasks n :
    loop_step verdict (mkAcceptLoop p Accepting tasks n) (mkAcceptLoop (S p) (Broken None) tasks n)
| step_verdict_acquiring p tasks n ok :
    verdict = Some ok ->
    loop_step verdict (mkAcceptLoop p Acquiring tasks n) (mkAcceptLoop p (Broken (Some ok)) tasks n)
| step_verdict_accepting p tasks n ok :
    verdict = Some ok ->
    loop_step verdict (mkAcceptLoop p Accepting tasks n) (mkAcceptLoop (S p) (Broken (Some ok)) tasks n).

Definition loop_reachable (verdict : option bool) (max_connections : Z) : accept_loop -> Prop :=
  rtc (loop_step verdict) (loop_start max_connections).

(** What [run_with_listen] returns after the loop. *)
Definition loop_result (check_ok : option bool) : unit + RunError :=
  match check_ok with
  | Some true => inl tt
  | Some false => inr CheckFailed
  | None => inl tt
  end.

(** ** main.rs *)
Definition exit_code (r : unit + RunError) : Z :=
  match r with
  | inl _ => 0
  | inr CheckFailed => 1
  | inr (InvalidOutbound _) => 2
  | inr _ => 1
  end.

Definition log_level (c : Config) : text :=
  if c_quiet c then txt "off" else if c_verbose c then txt "debug" else txt "info".

(** ** Lemmas: start-up *)
Section startup_lemmas.
Context {C : Crypto} `{!CryptoLaws C} {U : OutboundCrates} {N : Network} {K : Sockets} {T : TlsClient}.
Context {P : HttpParser} {H : Hex} {I : ProbeIO} `{!ProbeIOLaws I} {HO : Host}.
Context (usize_max : Z) (Husize : 2 ^ 32 - 1 <= usize_max).

(** The secrets of a normalised configuration decode. *)
Lemma decode_secrets_all ss ks : decode_secrets ss = Done ks -> Forall (fun s => returns (decode_secret_key s)) ss.
Proof.
  revert ks. induction ss as [|s ss IH]; intros ks; cbn [decode_secrets]; [constructor|].
  intros (k & Hk & (ks' & Hks & _)%run_bind_Done)%run_bind_Done. constructor; [by exists k|eauto].
Qed.

Lemma with_defaults_secrets random c0 c secrets domain :
  with_defaults random c0 = Done (c, secrets, domain) ->
  c_secrets c <> [] /\ Forall (fun s => returns (decode_secret_key s)) (c_secrets c).
Proof.
  unfold with_defaults. intros (ks & Hks & E)%run_bind_Done. apply decode_secrets_all in Hks. revert Hks E.
  cbv zeta. cbn [c_secrets set_normalized]. intros HF E.
  assert (c_secrets c = match c_secrets c0 with [] => [hex_encode random] | s => s end) as ->
    by (injection E as <- _ _; repeat case_match; done).
  split; [by destruct (c_secrets c0)|exact HF].
Qed.

Lemma link_secret_returns domain s : returns (decode_secret_key s) -> returns (link_secret_for domain s).
Proof.
  intros [k Hk]. unfold link_secret_for. destruct domain; [|case_test; apply returns_Done].
  rewrite Hk. apply returns_Done.
Qed.

Lemma user_links_returns domain host port ss :
  Forall (fun s => returns (decode_secret_key s)) ss -> returns (user_links domain host port ss).
Proof.
  induction 1 as [|s ss Hs _ [links IH]]; cbn [user_links]; [apply returns_Done|].
  apply returns_bind; [by apply link_secret_returns|]. intros link _. rewrite IH. apply returns_Done.
Qed.

Lemma extend_nil c : extend_cf_domains [] c = c.
Proof. destruct c. unfold extend_cf_domains. cbn. by rewrite app_nil_r. Qed.

(** The stage of the default domains: the list grows by what was fetched. *)
Lemma fetch_stage_spec c outbound :
  (c_default_domains c = true /\ stops_first AtFetch = true /\ fetch_stage usize_max c outbound = Done None) \/
  exists fetched events, fetch_stage usize_max c outbound = Done (Some (extend_cf_domains fetched c, events)) /\
    (c_default_domains c = true -> fetched <> [] /\ events = [EvFetched (length fetched)]) /\
    (c_default_domains c = false -> fetched = [] /\ events = []).
Proof.
  unfold fetch_stage. destruct (c_default_domains c); [|right; exists [], []; rewrite extend_nil; done].
  destruct (stops_first AtFetch); [by left|]. right.
  destruct (fetch_returns usize_max Husize 0 outbound) as (ds & -> & Hn & _). cbn [run_bind]. by exists ds, [EvFetched (length ds)].
Qed.

(** Binding: it returns, an error leaves nothing bound, and a served socket is
    the one the configuration names. *)
Lemma bind_stage_spec c secrets domain outbound events :
  Forall (fun s => returns (decode_secret_key s)) (c_secrets c) -> c_secrets c <> [] ->
  max_connections_of usize_max c <= MAX_PERMITS usize_max ->
  exists r events', bind_stage usize_max c secrets domain outbound events = Done (r, events') /\
    match r with
    | Ended (inl _) => False
    | Ended (inr e) => events' = events /\
        (e = InvalidListenAddress (bind_host lan_ip c ++ txt ":" ++ dec (c_port c)) \/ exists addr s, e = BindError addr s)
    | Serves s => sv_config s = c /\ sv_secrets s = secrets /\ sv_listen_domain s = domain /\ sv_outbound s = outbound /\ sv_max_connections s = max_connections_of usize_max c /\
        (exists addr local, parse_socket_addr (bind_host lan_ip c ++ txt ":" ++ dec (c_port c)) = Some addr /\
           tcp_bind addr = Success local /\ sv_addr s = default addr local) /\
        events' = events ++ [EvBound (sv_addr s); EvListening (sv_addr s) (sv_tg_link s)]
    end.
Proof.
  intros HF Hne Hmax. unfold bind_stage. destruct (parse_socket_addr _) as [addr|]; [|eexists _, _; split; [done|]; split; eauto].
  destruct (tcp_bind addr) as [local|e] eqn:Eb; [|eexists _, _; split; [done|]; split; eauto].
  unfold link_secret. destruct (link_secret_returns domain (primary_secret c)) as [secret ->].
  { unfold primary_secret. destruct (c_secrets c); [done|]. by inversion HF. }
  cbn [run_bind].
  destruct (user_links_returns domain (link_host lan_ip c) (sa_port (default addr local)) (drop 1 (c_secrets c))) as [links ->].
  { by apply Forall_drop. }
  cbn [run_bind]. rewrite (proj2 (Z.ltb_ge _ _)) by done. eexists _, _. split; [done|]. cbn. split_and!; try done.
  by exists addr, local.
Qed.

(** Every outcome of start-up. *)
Lemma startup_spec random c0 c secrets domain st :
  with_defaults random c0 = Done (c, secrets, domain) -> hostnames_ok c ->
  max_connections_of usize_max c <= MAX_PERMITS usize_max ->
  exists r events, startup usize_max (c, secrets, domain) st = Done (r, events) /\
    (forall s, r = Serves s ->
       exists fetched, sv_config s = extend_cf_domains fetched c /\ sv_secrets s = secrets /\ sv_listen_domain s = domain /\
         (c_default_domains c = true <-> fetched <> []) /\
         outbound_connector c = Done (Success (sv_outbound s)) /\
         validate_pinned_upstreams (sv_config s) = None /\
         sv_max_connections s = max_connections_of usize_max c /\
         (exists addr local, parse_socket_addr (bind_host lan_ip c ++ txt ":" ++ dec (c_port c)) = Some addr /\
            tcp_bind addr = Success local /\ sv_addr s = default addr local) /\
         events = (if c_default_domains c then [EvFetched (length fetched)] else [])
                  ++ [EvBound (sv_addr s); EvListening (sv_addr s) (sv_tg_link s)]) /\
    (forall x, r = Ended x -> forall addr, EvBound addr ∉ events).
Proof.
  intros Hd Hh Hmax. destruct (with_defaults_secrets _ _ _ _ _ Hd) as [Hne HF].
  unfold startup. destruct (from_sources_returns (c_outbound_proxy c) (c_no_proxy c) (negb (c_no_outbound_proxy c)) env_value)
    as [out Eo]. unfold outbound_connector. rewrite Eo. cbn [run_bind].
  assert (forall addr (n : nat) ok, EvBound addr ∉ [EvFetched n; EvChecked ok]) as Hnb by set_solver.
  destruct out as [outbound|e]; [|eexists _, _; split; [done|]; split; [done|]; set_solver].
  destruct (fetch_stage_spec c outbound) as [(_ & _ & ->)|(fetched & events & -> & Ht & Hf)]; cbn [run_bind].
  { eexists _, _. split; [done|]. split; [done|]. set_solver. }
  assert (forall addr, EvBound addr ∉ events) as Hev.
  { intros addr. destruct (c_default_domains c); [destruct (Ht eq_refl) as [_ ->]|destruct (Hf eq_refl) as [_ ->]]; set_solver. }
  destruct (validate_pinned_upstreams (extend_cf_domains fetched c)) as [[flag tier]|] eqn:Ev.
  { eexists _, _. split; [done|]. split; [done|]. by intros _ _. }
  destruct (c_check (extend_cf_domains fetched c) && negb (c_check_listener (extend_cf_domains fetched c))).
  { destruct (stops_first AtCheck); [eexists _, _; split; [done|]; split; [done|]; by intros _ _|].
    destruct (run_check_returns usize_max (extend_cf_domains fetched c) (secret_bytes secrets) domain outbound None st)
      as (ok & lines & sum & st' & ->); [exact Hh|by left|]. cbn [run_bind].
    eexists _, _. split; [done|]. split; [done|]. intros _ _ addr. specialize (Hev addr). set_solver. }
  destruct (bind_stage_spec (extend_cf_domains fetched c) secrets domain outbound events) as (r & events' & -> & Hr); [done..|].
  eexists _, _. split; [done|]. destruct r as [[[]|e]|s]; [done| |].
  - destruct Hr as [-> _]. split; [done|]. by intros _ _.
  - split; [|done]. intros s' [= <-]. destruct Hr as (-> & -> & -> & -> & -> & Hb & ->). exists fetched.
    split_and!; try done.
    + destruct (c_default_domains c); [split; [by intros; destruct (Ht eq_refl)|done]|destruct (Hf eq_refl); done].
    + destruct (c_default_domains c); [by destruct (Ht eq_refl) as [_ ->]|by destruct (Hf eq_refl) as [_ ->]].
Qed.
End startup_lemmas.

(** ** Lemmas: the accept loop *)
Definition held (ph : phase) : nat :=
  match ph with Accepting | BackingOff _ => 1 | Acquiring | Broken _ => 0 end.

Record loop_inv (max : nat) (l : accept_loop) : Prop := {
  li_permits : (al_permits l + length (al_tasks l) + held (al_phase l) = max)%nat;
  li_tasks : NoDup (al_tasks l);
  li_accepted : Forall (fun t => (t < al_accepted l)%nat) (al_tasks l);
}.

Lemma loop_step_inv verdict max l l' : loop_inv max l -> loop_step verdict l l' -> loop_inv max l'.
Proof.
  intros [H1 H2 H3] Hs. destruct Hs; cbn [al_permits al_phase al_tasks al_accepted held] in *;
    try (split; cbn; [lia|done|done]).
  - split; cbn; [rewrite length_app; simpl; lia| |].
    + apply list.NoDup_app. split_and!; [done| |by apply NoDup_singleton]. intros x Hx Hn.
      apply list_elem_of_singleton in Hn as ->. rewrite list.Forall_forall in H3. specialize (H3 _ Hx). lia.
    + apply Forall_app. split; [|by repeat constructor]. eapply Forall_impl; [|exact H3]. cbn. lia.
  - rewrite length_app in H1. simpl in H1. split; cbn; [rewrite length_app; lia| |].
    + rewrite <- Permutation_middle in H2. by apply list.NoDup_cons in H2 as [_ ?].
    + rewrite <- Permutation_middle in H3. by inversion H3.
Qed.

Lemma loop_reachable_inv verdict max l : 0 <= max -> loop_reachable verdict max l -> loop_inv (Z.to_nat max) l.
Proof.
  intros Hm Hr. refine (rtc_ind_l (fun l => loop_inv _ l -> loop_inv _ _) _ _ _ _ Hr _); [done| |].
  - intros x y Hs _ IH Hx. apply IH. by eapply loop_step_inv.
  - split; cbn; [lia|constructor|constructor].
Qed.

(** The loop breaks with a verdict only when the check sent that verdict. *)
Lemma loop_verdict verdict max l ok :
  loop_reachable verdict max l -> al_phase l = Broken (Some ok) -> verdict = Some ok.
Proof.
  intros Hr. refine (rtc_ind_r (fun l => al_phase l = Broken (Some ok) -> verdict = Some ok) _ _ _ _ Hr); [done|].
  intros x y _ Hs IH Hy. destruct Hs; cbn in *; simplify_eq; auto.
Qed.

(** The direct buckets of a configuration. *)
Definition bucket_keys (c : Config) : list PoolKey :=
  flat_map (fun kv => [(kv.1, false); (kv.1, true)]) (map_to_list (dc_redirects c)).

Lemma length_bucket_keys c : length (bucket_keys c) = (size (dc_redirects c) * 2)%nat.
Proof.
  unfold bucket_keys. rewrite <- length_map_to_list. induction (map_to_list (dc_redirects c)); [done|]. cbn. lia.
Qed.

(** The connections the pool's direct buckets hold or are opening. *)
Definition pool_load {N : Network} (ps : nat) (p : WsPool) (keys : list PoolKey) : nat :=
  list_sum (map (fun k => length (bucket_of k p) + total (refill_load k) (p_tasks p) + ps * total (warm_load k) (p_tasks p))%nat keys).

Lemma pool_load_bound {N : Network} rt ps (p : WsPool) keys :
  pool_inv rt ps p -> (pool_load ps p keys <= 2 * ps * length keys)%nat.
Proof.
  intros Hp. unfold pool_load. induction keys as [|k keys IH]; [simpl; lia|].
  pose proof (inv_fds _ _ _ Hp k) as Hk. unfold warm_total in Hk. cbn [map list_sum fold_right length].
  rewrite Nat.mul_succ_r, Nat.mul_add_distr_l in *. unfold list_sum in IH. lia.
Qed.

(** The Cloudflare spares: idle ones, and those being dialled. *)
Definition cf_load {N : Network} (p : WsPool) : nat :=
  (list_sum (map (fun kv => length kv.2) (map_to_list (p_cf_idle p))) + length (cf_keys (p_tasks p)))%nat.

(** At most one idle and one being dialled for every Cloudflare bucket. *)
Lemma cf_load_bound {N : Network} rt ps (p : WsPool) :
  pool_inv rt ps p -> (cf_load p <= size (p_cf_idle p) + size (p_cf_refilling p))%nat.
Proof.
  intros Hp. unfold cf_load. apply Nat.add_le_mono.
  - rewrite <- length_map_to_list.
    assert (Forall (fun kv => (length kv.2 <= 1)%nat) (map_to_list (p_cf_idle p))) as HF.
    { apply list.Forall_forall. intros [k b] Hk%elem_of_map_to_list. pose proof (inv_cf_bucket _ _ _ Hp k) as Hb.
      unfold cf_bucket_of in Hb. rewrite Hk in Hb. etrans; [exact Hb|apply Nat.le_min_l]. }
    induction HF as [|kv l Hkv HF IH]; [done|]. cbn. unfold list_sum in IH. lia.
  - replace (p_cf_refilling p) with (list_to_set (C := gset CfKey) (cf_keys (p_tasks p))).
    { by rewrite size_list_to_set by apply (inv_cf_keys _ _ _ Hp). }
    apply set_eq. intros k. by rewrite elem_of_list_to_set, (inv_cf_refilling _ _ _ Hp).
Qed.

(** No spare at all when nothing is asked for. *)
Lemma cf_load_none {N : Network} (asked : CfTarget -> Prop) (p : WsPool) :
  (forall t, ~ asked t) -> spares_asked asked p -> cf_load p = 0%nat.
Proof.
  intros Hn [Ht Hb]. unfold cf_load.
  assert (cf_pending (p_tasks p) = []) as Hp
    by (destruct (cf_pending (p_tasks p)) as [|t l]; [done|]; by apply Forall_cons_1 in Ht as [?%Hn _]).
  replace (cf_keys (p_tasks p)) with (map tg_key (cf_pending (p_tasks p))).
  2: { clear. induction (p_tasks p) as [|[] ts IH]; unfold cf_keys, cf_pending in *; cbn; by f_equal. }
  rewrite Hp. cbn. rewrite Nat.add_0_r.
  assert (Forall (fun kv => length kv.2 = 0%nat) (map_to_list (p_cf_idle p))) as HF.
  { apply list.Forall_forall. intros [k b] Hk%elem_of_map_to_list. specialize (Hb k). unfold cf_bucket_of in Hb.
    rewrite Hk in Hb. destruct b as [|e b]; [done|]. by apply Forall_cons_1 in Hb as [?%Hn _]. }
  induction HF as [|kv l Hkv HF IH]; [done|]. cbn. unfold list_sum in IH. lia.
Qed.

(** ** Properties *)
Section server_properties.
Context {C : Crypto} `{!CryptoLaws C} {U : OutboundCrates} {N : Network} {K : Sockets} {T : TlsClient}.
Context {P : HttpParser} {H : Hex} {I : ProbeIO} `{!ProbeIOLaws I} {HO : Host}.
Context (usize_max : Z) (Husize : 2 ^ 32 - 1 <= usize_max).

(** Start-up of a normalised configuration always ends, without a panic
    while the connection limit is one a semaphore can hold.  A process that
    serves has parsed its outbound settings, has every pinned tier configured
    (judged on the list that includes the fetched default domains, of which
    there is at least one), and listens on the address its flags name; one that
    ends has bound nothing. *)
Theorem startup_decides random c0 c secrets domain st :
  with_defaults random c0 = Done (c, secrets, domain) -> hostnames_ok c ->
  max_connections_of usize_max c <= MAX_PERMITS usize_max ->
  exists r events, startup usize_max (c, secrets, domain) st = Done (r, events) /\
    (forall s, r = Serves s ->
       exists fetched, sv_config s = extend_cf_domains fetched c /\ sv_secrets s = secrets /\ sv_listen_domain s = domain /\
         (c_default_domains c = true <-> fetched <> []) /\
         outbound_connector c = Done (Success (sv_outbound s)) /\
         validate_pinned_upstreams (sv_config s) = None /\
         sv_max_connections s = max_connections_of usize_max c /\
         (exists addr local, parse_socket_addr (bind_host lan_ip c ++ txt ":" ++ dec (c_port c)) = Some addr /\
            tcp_bind addr = Success local /\ sv_addr s = default addr local) /\
         events = (if c_default_domains c then [EvFetched (length fetched)] else [])
                  ++ [EvBound (sv_addr s); EvListening (sv_addr s) (sv_tg_link s)]) /\
    (forall x, r = Ended x -> forall addr, EvBound addr ∉ events).
Proof. intros. by eapply startup_spec. Qed.

(** The exit code of [--check]: with valid settings and no shutdown, the
    process ends without binding anything, and its exit code is 0 exactly when
    nothing was requested or no probe failed and one ran, and 1 otherwise. *)
Theorem check_mode_exit c secrets domain outbound st :
  c_check c = true -> c_check_listener c = false -> hostnames_ok c -> c_default_domains c = false ->
  outbound_connector c = Done (Success outbound) -> validate_pinned_upstreams c = None -> stops_first AtCheck = false ->
  exists r ok lines sum st', startup usize_max (c, secrets, domain) st = Done (Ended r, [EvChecked ok]) /\
    run_check_with_outbound usize_max c (secret_bytes secrets) domain outbound None st = Done (ok, lines, sum, st') /\
    exit_code r = (if ok then 0 else 1).
Proof.
  intros Hc Hl Hh Hd Ho Hp Hs. unfold startup. rewrite Ho. cbn [run_bind].
  unfold fetch_stage. rewrite Hd. cbn [run_bind]. rewrite Hp, Hc, Hl, Hs. cbn [andb negb].
  destruct (run_check_returns usize_max c (secret_bytes secrets) domain outbound None st Hh (or_introl eq_refl)) as (ok & lines & sum & st' & E).
  rewrite E. cbn [run_bind app]. exists (if ok then inl tt else inr CheckFailed), ok, lines, sum, st'.
  split_and!; [done|done|by destruct ok].
Qed.

(** C18. The accept loop keeps count: in every interleaving of accepts, failed
    accepts, finished connections, a shutdown and the check's verdict, every
    permit is free, held by the loop or held by exactly one running connection.
    So no more than [max_connections] clients run at once, and the loop waits
    for a permit only when that many do. *)
Theorem accept_loop_bound verdict max l :
  0 <= max -> loop_reachable verdict max l ->
  Z.of_nat (al_permits l + length (al_tasks l) + held (al_phase l)) = max /\
  Z.of_nat (length (al_tasks l)) <= max /\ NoDup (al_tasks l) /\
  Forall (fun t => (t < al_accepted l)%nat) (al_tasks l) /\
  (al_phase l = Acquiring -> al_permits l = 0%nat -> Z.of_nat (length (al_tasks l)) = max).
Proof.
  intros Hm Hr. destruct (loop_reachable_inv _ _ _ Hm Hr) as [H1 H2 H3].
  split_and!; [lia|lia|done|done|]. intros Hp H0. rewrite Hp, H0 in H1. simpl in H1. lia.
Qed.

(** The budget, from the invariants of the loop and of the pool. *)
Lemma descriptors_fit verdict l rt c p :
  let fd_limit := soft_nofile_limit usize_max limits_file in
  let dc_buckets := Z.of_nat (size (dc_redirects c)) * 2 in
  let reserved := 1 + c_pool_size c * dc_buckets * FDS_PER_POOL_SLOT + RUNTIME_RESERVED_FDS in
  c_max_connections c = None -> 0 <= c_pool_size c -> 0 <= fd_limit < usize_max ->
  reserved + MIN_MAX_CONNECTIONS * FDS_PER_CONNECTION <= fd_limit ->
  loop_reachable verdict (max_connections_of usize_max c) l ->
  pool_inv rt (Z.to_nat (c_pool_size c)) p ->
  1 + RUNTIME_RESERVED_FDS + FDS_PER_CONNECTION * Z.of_nat (length (al_tasks l) + held (al_phase l))
  + Z.of_nat (pool_load (Z.to_nat (c_pool_size c)) p (bucket_keys c)) <= fd_limit.
Proof.
  clear Husize. cbv zeta. intros Hc Hps Hfd Hres Hl Hp. unfold max_connections_of in Hl. rewrite Hc in Hl.
  set (fd := soft_nofile_limit usize_max limits_file) in *.
  pose proof (length_bucket_keys c) as Lk.
  destruct (max_connections_fit usize_max fd (c_pool_size c) (Z.of_nat (size (dc_redirects c)) * 2)) as (Hmin & Hfit & _);
    [done|lia|done|]. destruct (Hfit Hres) as [Hle _]. clear Hfit.
  set (m := auto_max_connections _ _ _ _) in *. unfold MIN_MAX_CONNECTIONS in Hmin.
  destruct (loop_reachable_inv verdict m l ltac:(lia) Hl) as [H1 _ _].
  pose proof (pool_load_bound rt _ p (bucket_keys c) Hp) as HL. rewrite Lk in HL.
  unfold FDS_PER_CONNECTION, FDS_PER_POOL_SLOT, RUNTIME_RESERVED_FDS in *. nia.
Qed.
End server_properties.

(** *** Witnesses *)
Definition demo_host : Host := {|
  env_value _ := None;
  udp_local := None;
  limits_file := None;
  tcp_bind addr := Success None;
  stops_first _ := false;
|}.

Definition demo_secret_keys : list bytes :=
  [[0; 17; 34; 51; 68; 85; 102; 119; 136; 153; 170; 187; 204; 221; 238; 255]].

Lemma startup_decides_witness :
  exists r events, startup (C := toy_crypto) (U := demo_crates) (N := demo_network) (K := demo_sockets) (T := demo_tls)
    (P := demo_parser) (H := plain_hex) (I := demo_probes) (HO := demo_host) (2 ^ 64 - 1)
    (demo_normalized, demo_secret_keys, None) demo_probing = Done (r, events).
Proof.
  destruct (startup_decides (C := toy_crypto) (CryptoLaws0 := toy_crypto_laws) (U := demo_crates) (N := demo_network)
    (K := demo_sockets) (T := demo_tls) (P := demo_parser) (H := plain_hex) (I := demo_probes)
    (ProbeIOLaws0 := demo_probes_laws) (HO := demo_host) (2 ^ 64 - 1) ltac:(lia) [] demo_config demo_normalized
    demo_secret_keys None demo_probing) as (r & events & E & _).
  - vm_compute. reflexivity.
  - constructor.
  - apply Z.leb_le. vm_compute. reflexivity.
  - exists r, events. exact E.
Defined.

(** A check of one Cloudflare domain. *)
Definition demo_check_config : Config :=
  mkConfig None None true false [txt "00112233445566778899aabbccddeeff"] None [(2, txt "149.154.167.220")] false
    [txt "cf.example"] false [] false false false [] [] []
    10 2 30 300 3600 10 10 5 60 10 60 1443 4 120 None [] None None false None false false None 256 1800 60.

Lemma check_mode_exit_witness :
  exists r ok, startup (C := toy_crypto) (U := demo_crates) (N := demo_network) (K := demo_sockets) (T := demo_tls)
    (P := demo_parser) (H := plain_hex) (I := demo_probes) (HO := demo_host) (2 ^ 64 - 1)
    (demo_check_config, demo_secret_keys, None) demo_probing = Done (Ended r, [EvChecked ok]) /\
    exit_code r = if ok then 0 else 1.
Proof.
  destruct (check_mode_exit (C := toy_crypto) (CryptoLaws0 := toy_crypto_laws) (U := demo_crates) (N := demo_network)
    (K := demo_sockets) (T := demo_tls) (P := demo_parser) (H := plain_hex) (I := demo_probes)
    (ProbeIOLaws0 := demo_probes_laws) (HO := demo_host) (2 ^ 64 - 1) demo_check_config demo_secret_keys None
    (mkOutboundConfig None None) demo_probing) as (r & ok & lines & sum & st' & E & _ & Hx);
    [reflexivity|reflexivity|constructor|reflexivity|vm_compute; reflexivity|vm_compute; reflexivity|reflexivity|].
  exists r, ok. split; assumption.
Defined.

(** One client accepted, a second accept pending. *)
Definition demo_loop : accept_loop := mkAcceptLoop 0 Accepting [0%nat] 1.

Lemma demo_loop_reachable : loop_reachable None 2 demo_loop.
Proof.
  eapply rtc_l; [apply (step_acquire None 1)|]. eapply rtc_l; [apply step_accept|].
  eapply rtc_l; [apply (step_acquire None 0)|]. apply rtc_refl.
Qed.

Lemma accept_loop_bound_witness : Z.of_nat (length (al_tasks demo_loop)) <= 2 /\ NoDup (al_tasks demo_loop).
Proof.
  destruct (accept_loop_bound None 2 demo_loop ltac:(lia) demo_loop_reachable) as (_ & H1 & H2 & _).
  split; assumption.
Defined.

(** A numeric IPv6 host without brackets never binds, though [link_host] and the
    banner know [::] and [::1]. *)
Lemma ipv6_host_rejected :
  parse_socket_addr (txt "::" ++ txt ":" ++ dec 1443) = None /\
  parse_socket_addr (txt "::1" ++ txt ":" ++ dec 1443) = None.
Proof. split; vm_compute; reflexivity. Qed.
