(* ===== verification/Timed.v ===== *)
(** * proxy.rs: the handshake timeout, on a clock

    [Handler] gives the client's whole stream to the handler at once and reads
    its end as the end of the connection.  Here the bytes arrive over time, on a
    connection that may stay open for ever, and
    [tokio::time::timeout(timeouts.handshake, ..)] cuts the reading short.
    Instants are counted from the moment the client was accepted.

    A read that has not returned is told apart by [waits]: given one byte more
    it takes that byte.  What the timed handler does with a handshake that
    arrives in time is what [Handler] says of the whole stream; a client that
    does not finish one is gone at the deadline; one that finishes a wrong one
    is drained for as long as it likes. *)
From Stdlib Require Import String Sorted.
From stdpp Require Import relations.
From S2P Require Import Prelude Text CryptoApi Crypto Splitter FakeTls Config WsClient Pool.
From S2P Require Import Session Bridge Routing Handler Server.

Local Open Scope Z_scope.

(** What one client's socket yields, and when; [None]: it is never closed. *)
Record client : Type := mkClient {
  cl_arrivals : list (Z * bytes);
  cl_close : option Z;
}.

(** Chunks come in order, the close after them. *)
Definition schedule_ok (c : client) : Prop :=
  StronglySorted (fun a b => a.1 <= b.1) (cl_arrivals c) /\
  Forall (fun e => 0 <= e.1) (cl_arrivals c) /\
  (forall z, cl_close c = Some z -> 0 <= z /\ Forall (fun e => e.1 <= z) (cl_arrivals c)).

Definition stream_of (c : client) : bytes := concat (map snd (cl_arrivals c)).

(** The bytes that are there at the instant [d], and those that are not yet. *)
Definition arrived (d : Z) (c : client) : bytes :=
  concat (map snd (List.filter (fun e => e.1 <=? d) (cl_arrivals c))).
Definition later (d : Z) (c : client) : bytes :=
  concat (map snd (List.filter (fun e => d <? e.1) (cl_arrivals c))).

Definition closed_by (d : Z) (c : client) : bool :=
  match cl_close c with Some z => z <=? d | None => false end.

(** The instants at which something happens on the socket. *)
Definition instants (c : client) : list Z :=
  map fst (cl_arrivals c) ++ match cl_close c with Some z => [z] | None => [] end.

Section timed.
Context {C : Crypto}.
Context (secrets : list bytes) (listen_domain : option text).
Local Open Scope run_scope.

(** With these bytes and no end of stream, [read_inbound_handshake] is still
    waiting: it would take the next byte, whatever it is. *)
Definition waits (t : tcp) (tape : bytes) : bool :=
  match read_inbound_handshake secrets listen_domain (set_in (t_in t ++ [0]) t) tape with
  | Done (_, t, _) => match t_in t with [] => true | _ :: _ => false end
  | Panic | OutOfFuel => false
  end.

(** At the instant [d] the handshake future is ready. *)
Definition ready (c : client) (t : tcp) (tape : bytes) (d : Z) : bool :=
  closed_by d c || negb (waits (set_in (arrived d c) t) tape).

(** [tokio::time::timeout(limit, read_inbound_handshake(..)).await]: the instant
    it returns, and the handshake or [Err(Elapsed)], which is [None]. *)
Definition timeout_handshake (limit : Z) (c : client) (t : tcp) (tape : bytes)
  : run (Z * option (option (bytes * PendingData) * tcp * bytes)) :=
  match List.find (ready c t tape) (instants c) with
  | Some d =>
      if d <=? limit then
        let! r := read_inbound_handshake secrets listen_domain (set_in (arrived d c) t) tape in
        Done (d, Some r)
      else Done (limit, None)
  | None => Done (limit, None)
  end.

(** Steps 2 to 4, at the instant [d]: what the client sends later is still to
    be read from its socket. *)
Definition resume (c : client) (d : Z) (r : option (bytes * PendingData) * tcp * bytes) : run (setup * bytes) :=
  let '(handshake, t, tape) := r in
  after_handshake secrets listen_domain handshake (set_in (t_in t ++ later d c) t) tape.

(** Steps 1 to 4 on a clock: when the handshake was over, and what came of it;
    [None] is the handshake timeout. *)
Definition timed_setup (limit : Z) (c : client) (t : tcp) (tape : bytes) : run (Z * option setup) :=
  let! (d, handshake) := timeout_handshake limit c t tape in
  match handshake with
  | Some r => let! (s, _) := resume c d r in Done (d, Some s)
  | None => Done (d, None)
  end.

(** The instant the client's task ends and gives its permit back.  A rejected
    client is drained until it closes; [session_end] is when the routing and
    the bridge of an accepted one are over; a task that panics is gone at once.
    [None]: never. *)
Definition task_end (session_end : prepared -> option Z) (limit : Z) (c : client) (t : tcp) (tape : bytes)
  : option Z :=
  match timeout_handshake limit c t tape with
  | Done (d, Some r) =>
      match resume c d r with
      | Done (NoHandshake _, _) => Some d
      | Done (Drained _ _, _) => match cl_close c with Some z => Some (Z.max d z) | None => None end
      | Done (Ready p, _) => session_end p
      | Panic | OutOfFuel => Some d
      end
  | Done (d, None) => Some d
  | Panic | OutOfFuel => Some 0
  end.
End timed.

(** ** The accept loop on the clock

    The connections of a process, numbered as [Server] numbers them: how the
    client behaves, its socket, and the random bytes its task will draw. *)
Record connection : Type := mkConnection {
  cn_client : client;
  cn_tcp : tcp;
  cn_tape : bytes;
}.

Record clocked : Type := mkClocked {
  ck_loop : accept_loop;
  ck_now : Z;
  ck_started : list Z;
}.

Section clocked.
Context {C : Crypto} (secrets : list bytes) (listen_domain : option text).
Context (session_end : prepared -> option Z) (limit : Z) (verdict : option bool).
Context (conn : nat -> connection).

(** How long the task of connection [n] runs. *)
Definition lasts (n : nat) : option Z :=
  task_end secrets listen_domain session_end limit (cn_client (conn n)) (cn_tcp (conn n)) (cn_tape (conn n)).

(** The task of connection [n] runs until this instant. *)
Definition over_at (started : list Z) (n : nat) (z : Z) : Prop :=
  exists s e, started !! n = Some s /\ lasts n = Some e /\ z = s + e.

(** The loop steps at an instant, and ends a task only when it is over; time
    passes, but not beyond the end of a task that still runs. *)
Inductive clock_step : clocked -> clocked -> Prop :=
| clock_loop l l' now started :
    loop_step verdict l l' ->
    (forall n, n ∈ al_tasks l -> n ∉ al_tasks l' -> exists z, over_at started n z /\ z <= now) ->
    clock_step (mkClocked l now started)
      (mkClocked l' now (if (al_accepted l' =? al_accepted l)%nat then started else started ++ [now]))
| clock_tick l now now' started :
    now <= now' -> (forall n z, n ∈ al_tasks l -> over_at started n z -> now' <= z) ->
    clock_step (mkClocked l now started) (mkClocked l now' started).

Definition clock_start (max_connections : Z) : clocked := mkClocked (loop_start max_connections) 0 [].

Definition clock_reachable (max_connections : Z) : clocked -> Prop := rtc clock_step (clock_start max_connections).
End clocked.

(** ** Lemmas: schedules *)
Lemma filter_split {A} (time : A -> Z) d l :
  StronglySorted (fun a b => time a <= time b) l ->
  List.filter (fun e => time e <=? d) l ++ List.filter (fun e => d <? time e) l = l.
Proof.
  induction l as [|e l IH]; [done|]. intros Hs. apply StronglySorted_inv in Hs as [Hs Hall]. cbn [List.filter].
  destruct (time e <=? d) eqn:E; boolify.
  - rewrite (proj2 (Z.ltb_ge _ _)) by lia. cbn [app]. by rewrite IH.
  - rewrite (proj2 (Z.ltb_lt _ _)) by lia. specialize (IH Hs).
    assert (List.filter (fun e => time e <=? d) l = []) as E0; [|by rewrite E0 in *; cbn in *; rewrite IH].
    clear IH Hs. induction Hall as [|b l Hb Hall IH]; [done|]. cbn. rewrite (proj2 (Z.leb_gt _ _)) by lia. done.
Qed.

Lemma arrived_later d c : schedule_ok c -> arrived d c ++ later d c = stream_of c.
Proof.
  intros (Hs & _). unfold arrived, later, stream_of. rewrite <- concat_app, <- map_app. by rewrite (filter_split fst).
Qed.

(** Once the connection is closed nothing more arrives. *)
Lemma closed_later d c : schedule_ok c -> closed_by d c = true -> later d c = [].
Proof.
  intros (_ & _ & Hc). unfold closed_by, later. destruct (cl_close c) as [z|]; [|done]. intros Hz. boolify.
  destruct (Hc z eq_refl) as [_ Hall]. clear Hc. induction Hall as [|e l He Hall IH]; [done|].
  cbn. by rewrite (proj2 (Z.ltb_ge _ _)) by lia.
Qed.

Lemma later_arrived d d' c : schedule_ok c -> d <= d' -> exists more, arrived d' c = arrived d c ++ more.
Proof.
  intros (Hs & _) Hd. unfold arrived.
  exists (concat (map snd (List.filter (fun e => (e.1 <=? d') && (d <? e.1)) (cl_arrivals c)))).
  rewrite <- concat_app, <- map_app. do 2 f_equal.
  rewrite <- (filter_split fst d (cl_arrivals c)) at 1 by done. rewrite List.filter_app. f_equal.
  - clear Hs. induction (cl_arrivals c) as [|e l IH]; [done|]. cbn. destruct (e.1 <=? d) eqn:E; [|done].
    cbn. boolify. by rewrite (proj2 (Z.leb_le _ _)), IH by lia.
  - clear Hs. induction (cl_arrivals c) as [|e l IH]; [done|]. cbn. destruct (d <? e.1); cbn.
    + rewrite andb_true_r. case_match; by rewrite IH.
    + by rewrite andb_false_r.
Qed.

(** ** Lemmas: reading a prefix of the stream

    [settled f fail a]: one more byte tells whether [f] has returned on [a].
    Either it leaves that byte alone, and then it does the same on every
    continuation of [a] and leaves that continuation; or it takes it, and then
    on [a] alone it runs into the end of the stream and fails. *)
Definition settled {R} (f : bytes -> run (R * bytes)) (failed : R -> Prop) (a : bytes) : Prop :=
  forall x res rest, f (a ++ [x]) = Done (res, rest) ->
    (exists r0, rest = r0 ++ [x] /\ forall m, f (a ++ m) = Done (res, r0 ++ m)) \/
    (rest = [] /\ exists e, f a = Done (e, []) /\ failed e).

Lemma read_exact_cut n a x :
  (exists d r0, a = d ++ r0 /\ length d = n /\ forall m, read_exact n (a ++ m) = Some (d, r0 ++ m)) \/
  ((length a < n)%nat /\ read_exact n a = None /\
   forall d rest, read_exact n (a ++ [x]) = Some (d, rest) -> rest = []).
Proof.
  destruct (decide (n <= length a)%nat) as [H|H].
  - left. exists (take n a), (drop n a). rewrite take_drop. split_and!; [done|len|]. intros m.
    unfold read_exact. rewrite (proj2 (Nat.leb_le _ _)) by len.
    by rewrite take_app_le, drop_app_le by lia.
  - right. split; [lia|]. split; [unfold read_exact; by rewrite (proj2 (Nat.leb_gt _ _)) by lia|].
    intros d rest E. apply read_exact_Some in E as [E L]. apply (f_equal length) in E.
    rewrite !length_app in E. simpl in E. destruct rest; [done|simpl in E; lia].
Qed.

Definition no_record (r : io_result (option bytes)) : Prop := forall record, r <> Ok (Some record).

Lemma record_settled a : settled (fun r => Done (read_tls_record_bytes MAX_INBOUND_PAYLOAD r)) no_record a.
Proof.
  intros x res rest [= H]. destruct (read_exact_cut 5 a x) as [(h & a1 & -> & Lh & Eh)|(L & En & Hs)].
  - assert (forall m, read_tls_record_bytes MAX_INBOUND_PAYLOAD ((h ++ a1) ++ m) =
      if MAX_INBOUND_PAYLOAD <? header_len h then (Ok None, a1 ++ m)
      else match read_exact (Z.to_nat (header_len h)) (a1 ++ m) with
           | None => (Err, []) | Some (payload, r) => (Ok (Some (h ++ payload)), r) end) as Em
      by (intros m; unfold read_tls_record_bytes; by rewrite Eh).
    rewrite Em in H. case_test.
    { left. exists a1. simplify_eq. split; [done|]. intros m. by rewrite Em. }
    destruct (read_exact_cut (Z.to_nat (header_len h)) a1 x) as [(p & a2 & -> & _ & Ep)|(_ & En & Hs)].
    + rewrite Ep in H. simplify_eq. left. exists a2. split; [done|]. intros m. by rewrite Em, Ep.
    + right. destruct (read_exact _ (a1 ++ [x])) as [[p r]|] eqn:E; simplify_eq;
        (split; [try done; by eapply Hs|]); exists Err; (split; [|by intros ?]);
        specialize (Em []); rewrite !app_nil_r in Em; by rewrite Em, En.
  - right. unfold read_tls_record_bytes in H. split.
    + destruct (read_exact 5 (a ++ [x])) as [[h r]|] eqn:E; [|by simplify_eq].
      rewrite (Hs _ _ eq_refl) in H. case_test; [by simplify_eq|].
      destruct (read_exact _ []) as [[p r']|] eqn:E'; [|by simplify_eq].
      apply read_exact_Some in E' as [E' _]. symmetry in E'. apply app_eq_nil in E' as [_ ->]. by simplify_eq.
    + exists (Ok None). split; [unfold read_tls_record_bytes; by rewrite En|by intros ?].
Qed.

Lemma record_shrinks reader record rest :
  read_tls_record_bytes MAX_INBOUND_PAYLOAD reader = (Ok (Some record), rest) -> (length rest < length reader)%nat.
Proof.
  unfold read_tls_record_bytes. intros H. destruct (read_exact 5 reader) as [[h r]|] eqn:E; [|done]. case_test; [done|].
  destruct (read_exact _ r) as [[p r']|] eqn:E'; simplify_eq.
  apply read_exact_Some in E as [-> L]. apply read_exact_Some in E' as [-> _]. len.
Qed.

(** What one record does to the loop that collects the init: its result, or
    the buffer and the count to go on with. *)
Definition init_record (buf : bytes) (filled : nat) (record : bytes)
  : run (option (bytes * PendingData) + bytes * nat) :=
  run_bind (index record 0) (fun ty =>
  run_bind (usize_sub (Z.of_nat (length record)) 5) (fun n =>
  if ty =? TLS_RECORD_CHANGE_CIPHER_SPEC then Done (inr (buf, filled))
  else if negb (ty =? TLS_RECORD_APPLICATION_DATA) || (Z.to_nat n =? 0)%nat then Done (inl None)
  else
    let take := Nat.min (Z.to_nat n) (length buf - filled) in
    run_bind (slice_run 5 (5 + take) record) (fun part =>
    run_bind (splice_run filled part buf) (fun buf =>
    if negb (take =? Z.to_nat n)%nat then Done (inl (Some (buf, mkPendingData record (5 + take))))
    else Done (inr (buf, (filled + take)%nat)))))).

Lemma init_loop_S fuel buf filled reader :
  (filled < length buf)%nat ->
  init_loop (S fuel) buf filled reader =
    match read_tls_record_bytes MAX_INBOUND_PAYLOAD reader with
    | (Ok (Some record), reader) =>
        run_bind (init_record buf filled record) (fun r =>
          match r with inl res => Done (res, reader) | inr (buf, filled) => init_loop fuel buf filled reader end)
    | (_, reader) => Done (None, reader)
    end.
Proof.
  intros Hf. cbn [init_loop]. rewrite (proj2 (Nat.ltb_lt _ _)) by done.
  destruct (read_tls_record_bytes _ _) as [[[record|]|] reader']; [|done..]. unfold init_record.
  repeat (match goal with
          | |- run_bind ?m _ = run_bind (run_bind ?m _) _ => destruct m; cbn [run_bind]; [|done..]
          | |- context [if ?b then _ else _] => destruct b; cbn [run_bind]; try done
          end; cbv zeta).
Qed.

Lemma init_loop_full fuel buf filled reader :
  ~ (filled < length buf)%nat -> init_loop fuel buf filled reader = Done (Some (buf, pending_default), reader).
Proof. intros Hf. destruct fuel; cbn [init_loop]; by rewrite (proj2 (Nat.ltb_ge _ _)) by lia. Qed.

Lemma init_loop_nil fuel buf filled res rest : init_loop fuel buf filled [] = Done (res, rest) -> rest = [].
Proof.
  destruct (decide (filled < length buf)%nat) as [Hf|Hf]; [|rewrite init_loop_full by done; by intros [= _ <-]].
  destruct fuel as [|fuel]; [cbn [init_loop]; by rewrite (proj2 (Nat.ltb_lt _ _)) by done|].
  rewrite init_loop_S by done. by intros [= _ <-].
Qed.

(** The loop that collects the 64-byte init, with any fuel that covers its input. *)
Lemma init_loop_cut fuel buf filled a x res rest :
  init_loop fuel buf filled (a ++ [x]) = Done (res, rest) ->
  (exists r0, rest = r0 ++ [x] /\
     forall m fuel', (length (a ++ m) < fuel')%nat -> init_loop fuel' buf filled (a ++ m) = Done (res, r0 ++ m)) \/
  (rest = [] /\ forall fuel', (length a < fuel')%nat -> init_loop fuel' buf filled a = Done (None, [])).
Proof.
  revert buf filled a. induction fuel as [|fuel IH]; intros buf filled a H;
    (destruct (decide (filled < length buf)%nat) as [Hf|Hf];
      [|rewrite init_loop_full in H by done; simplify_eq; left; exists a; split; [done|]; intros; by apply init_loop_full]).
  { cbn [init_loop] in H. by rewrite (proj2 (Nat.ltb_lt _ _)) in H. }
  rewrite init_loop_S in H by done.
  destruct (read_tls_record_bytes MAX_INBOUND_PAYLOAD (a ++ [x])) as [r reader] eqn:Er.
  destruct (record_settled a x r reader) as [(a1 & -> & Em)|(-> & e & Ee & He)]; [by rewrite Er| |].
  - assert (forall m, read_tls_record_bytes MAX_INBOUND_PAYLOAD (a ++ m) = (r, a1 ++ m)) as Em'
      by (intros m; specialize (Em m); by injection Em). clear Em Er.
    destruct r as [[record|]|]; [|simplify_eq; left; exists a1; split; [done|]; intros m [|fuel'] Hl;
      [lia|]; by rewrite init_loop_S, Em'..].
    apply run_bind_Done in H as (o & Eo & H). destruct o as [o|[buf' filled']].
    { simplify_eq. left. exists a1. split; [done|]. intros m [|fuel'] Hl; [lia|].
      by rewrite init_loop_S, Em', Eo. }
    destruct (IH buf' filled' a1 H) as [(r0 & -> & E)|(-> & E)]; [left|right].
    + exists r0. split; [done|]. intros m [|fuel'] Hl; [lia|]. rewrite init_loop_S, Em', Eo by done. cbn [run_bind].
      apply E. specialize (record_shrinks _ _ _ (Em' m)). lia.
    + split; [done|]. intros [|fuel'] Hl; [lia|]. specialize (Em' []). rewrite !app_nil_r in Em'.
      rewrite init_loop_S, Em', Eo by done. cbn [run_bind]. apply E. specialize (record_shrinks _ _ _ Em'). lia.
  - right. injection Ee as Ee. split.
    + destruct r as [[record|]|]; [|by simplify_eq..]. apply run_bind_Done in H as (o & _ & H).
      destruct o as [o|[buf' filled']]; [by simplify_eq|by eapply init_loop_nil].
    + intros [|fuel'] Hl; [lia|]. rewrite init_loop_S, Ee by done.
      destruct e as [[record|]|]; [by destruct (He record)|done..].
Qed.

Section prefixes.
Context {C : Crypto}.

(** Everything but the bytes to come is independent of them. *)
Lemma write_set_in r t data : tcp_write_all (set_in r t) data = set_in r <$> tcp_write_all t data.
Proof. unfold tcp_write_all. cbn [set_in t_room]. by destruct (length data <=? t_room t)%nat. Qed.

(** What the ClientHello decides before anything after it is read: failure, or
    the answer to write. *)
Definition hello_answer (secrets : list bytes) (domain : text) (record tape : bytes) : run (option bytes * bytes) :=
  run_bind (index record 0) (fun ty =>
  run_bind (slice_run 1 3 record) (fun version =>
  if negb (ty =? TLS_RECORD_HANDSHAKE) || negb (bool_decide (version = [0x03; 0x01])) then Done (None, tape)
  else
    run_bind (find_hello record secrets) (fun found =>
    match found with
    | None => Done (None, tape)
    | Some (hello, matched_secret) =>
        if negb (bool_decide (ch_hostname hello = Some domain)) then Done (None, tape)
        else
          run_bind (build_faketls_server_hello matched_secret hello tape) (fun '(server_hello, tape) =>
          Done (Some server_hello, tape))
    end))).

Lemma accept_unfold secrets domain reader t tape :
  accept_inbound_faketls secrets domain (set_in reader t) tape =
    match read_tls_record_bytes MAX_INBOUND_PAYLOAD reader with
    | (Ok (Some record), reader) =>
        run_bind (hello_answer secrets domain record tape) (fun '(answer, tape) =>
          match answer ≫= tcp_write_all t with
          | Some t1 =>
              run_bind (init_loop (S (length reader)) (replicate 64 0) 0 reader) (fun '(r, reader) =>
                Done (r, set_in reader t1, tape))
          | None => Done (None, set_in reader t, tape)
          end)
    | (_, reader) => Done (None, set_in reader t, tape)
    end.
Proof.
  unfold accept_inbound_faketls, hello_answer. cbn [set_in t_in].
  destruct (read_tls_record_bytes _ _) as [[[record|]|] rest]; [|done..].
  repeat (match goal with
          | |- run_bind ?m _ = run_bind (run_bind ?m _) _ => destruct m; cbn [run_bind]; [|done..]
          | |- context [if ?b then _ else _] => destruct b; cbn [run_bind]; [done|]
          | |- context [match ?o with Some _ => _ | None => _ end] => is_var o; destruct o as [[??]|]; cbn [run_bind]; [|done]
          end).
  match goal with p : (bytes * bytes)%type |- _ => destruct p as [sh tape'] end. cbn [run_bind mbind option_bind].
  change (set_in rest (set_in reader t)) with (set_in rest t). rewrite write_set_in.
  by destruct (tcp_write_all t sh).
Qed.

Lemma accept_cut secrets domain a x t tape res t' tape' :
  accept_inbound_faketls secrets domain (set_in (a ++ [x]) t) tape = Done (res, t', tape') ->
  (exists r0, t_in t' = r0 ++ [x] /\
     forall m, accept_inbound_faketls secrets domain (set_in (a ++ m) t) tape = Done (res, set_in (r0 ++ m) t', tape')) \/
  (t_in t' = [] /\ exists t1 tape1, accept_inbound_faketls secrets domain (set_in a t) tape = Done (None, t1, tape1)).
Proof.
  rewrite accept_unfold. intros H.
  destruct (read_tls_record_bytes MAX_INBOUND_PAYLOAD (a ++ [x])) as [r reader] eqn:Er.
  destruct (record_settled a x r reader) as [(a1 & -> & Em)|(-> & e & Ee & He)]; [by rewrite Er| |].
  - assert (forall m, read_tls_record_bytes MAX_INBOUND_PAYLOAD (a ++ m) = (r, a1 ++ m)) as Em'
      by (intros m; specialize (Em m); by injection Em). clear Em Er.
    destruct r as [[record|]|];
      [|simplify_eq; left; exists a1; split; [done|]; intros m; by rewrite accept_unfold, Em'..].
    apply run_bind_Done in H as ([answer tape1] & Ea & H).
    destruct (answer ≫= tcp_write_all t) as [t1|] eqn:Et;
      [|simplify_eq; left; exists a1; split; [done|]; intros m; rewrite accept_unfold, Em', Ea; cbn [run_bind]; by rewrite Et].
    apply run_bind_Done in H as ([o rest] & Ei & H). simplify_eq.
    destruct (init_loop_cut _ _ _ _ _ _ _ Ei) as [(r0 & -> & E)|(-> & E)]; [left|right].
    + exists r0. split; [done|]. intros m. rewrite accept_unfold, Em', Ea. cbn [run_bind]. by rewrite Et, E by lia.
    + split; [done|]. eexists _, _. specialize (Em' []). rewrite !app_nil_r in Em'.
      rewrite accept_unfold, Em', Ea. cbn [run_bind]. by rewrite Et, E by lia.
  - right. injection Ee as Ee. split.
    + destruct r as [[record|]|]; [|by simplify_eq..]. apply run_bind_Done in H as ([answer tape1] & _ & H).
      destruct (answer ≫= _); [|by simplify_eq]. apply run_bind_Done in H as ([o rest] & Ei & H). simplify_eq.
      cbn [set_in t_in]. by eapply init_loop_nil.
    + eexists _, _. rewrite accept_unfold, Ee. destruct e as [[record|]|]; [by destruct (He record)|done..].
Qed.

Lemma read_inbound_cut secrets domain a x t tape res t' tape' :
  read_inbound_handshake secrets domain (set_in (a ++ [x]) t) tape = Done (res, t', tape') ->
  (exists r0, t_in t' = r0 ++ [x] /\
     forall m, read_inbound_handshake secrets domain (set_in (a ++ m) t) tape = Done (res, set_in (r0 ++ m) t', tape')) \/
  (t_in t' = [] /\ exists t1 tape1, read_inbound_handshake secrets domain (set_in a t) tape = Done (None, t1, tape1)).
Proof.
  unfold read_inbound_handshake. destruct domain as [domain|]; [apply accept_cut|]. cbn [set_in t_in]. intros H.
  destruct (read_exact_cut 64 a x) as [(h & a1 & -> & Lh & Eh)|(L & En & Hs)].
  - rewrite Eh in H. simplify_eq. left. exists a1. split; [done|]. intros m. by rewrite Eh.
  - right. rewrite En. split; [|by eexists _, _].
    destruct (read_exact 64 (a ++ [x])) as [[h r]|] eqn:E; simplify_eq; [by eapply Hs|done].
Qed.

Context `{!CryptoLaws C} (secrets : list bytes) (listen_domain : option text) (t : tcp) (tape : bytes).
Context (Htape : tape_ok tape).
Abbreviation reads := (fun a => read_inbound_handshake secrets listen_domain (set_in a t) tape).
Abbreviation waiting := (fun a => waits secrets listen_domain (set_in a t) tape).

Lemma handshake_read_total a : bytes_ok a -> exists res t' tape', reads a = Done (res, t', tape').
Proof.
  intros Hb. destruct (read_inbound_total secrets listen_domain (set_in a t) tape Hb Htape)
    as (res & t' & tape' & E & _). by exists res, t', tape'.
Qed.

(** A read that has returned does the same on every continuation. *)
Lemma waits_false a :
  bytes_ok a -> waiting a = false ->
  exists res t' tape', reads a = Done (res, t', tape') /\
    forall m, reads (a ++ m) = Done (res, set_in (t_in t' ++ m) t', tape').
Proof.
  intros Hb Hw. destruct (handshake_read_total (a ++ [0])) as (res & t' & tape' & E).
  { apply Forall_app. split; [done|]. by apply Forall_singleton. }
  unfold waits in Hw. cbn [set_in t_in] in Hw. change (set_in _ (set_in a t)) with (set_in (a ++ [0]) t) in Hw.
  rewrite E in Hw. destruct (read_inbound_cut _ _ _ _ _ _ _ _ _ E) as [(r0 & Er & Em)|(Er & _)]; [|by rewrite Er in Hw].
  exists res, (set_in r0 t'), tape'. split; [|exact Em]. specialize (Em []). by rewrite !app_nil_r in Em.
Qed.

(** One that has not would fail if the connection were closed now. *)
Lemma waits_true a : bytes_ok a -> waiting a = true -> exists t' tape', reads a = Done (None, t', tape').
Proof.
  intros Hb Hw. destruct (handshake_read_total (a ++ [0])) as (res & t' & tape' & E).
  { apply Forall_app. split; [done|]. by apply Forall_singleton. }
  unfold waits in Hw. cbn [set_in t_in] in Hw. change (set_in _ (set_in a t)) with (set_in (a ++ [0]) t) in Hw.
  rewrite E in Hw. destruct (read_inbound_cut _ _ _ _ _ _ _ _ _ E) as [(r0 & Er & Em)|(Er & H)]; [|done].
  rewrite Er in Hw. by destruct r0.
Qed.

Lemma waits_nothing : waiting [] = true.
Proof. unfold waits, read_inbound_handshake. by destruct listen_domain. Qed.
End prefixes.

(** ** Lemmas: the first instant at which the handshake is over *)
Lemma find_first f l x :
  StronglySorted Z.le l -> x ∈ l -> f x = true -> exists d, List.find f l = Some d /\ d <= x.
Proof.
  intros Hs Hx Hf. induction Hs as [|y l Hs IH Hall]; [by apply not_elem_of_nil in Hx|]. cbn [List.find].
  destruct (f y) eqn:E.
  - exists y. split; [done|]. apply elem_of_cons in Hx as [->|Hx]; [lia|].
    by apply (proj1 (list.Forall_forall _ _) Hall x).
  - apply elem_of_cons in Hx as [->|Hx]; [congruence|]. by apply IH.
Qed.

Lemma instants_sorted c : schedule_ok c -> StronglySorted Z.le (instants c) /\ Forall (fun d => 0 <= d) (instants c).
Proof.
  intros (Hs & Hp & Hc). unfold instants. destruct (cl_close c) as [z|].
  - destruct (Hc z eq_refl) as [Hz Hall]. clear Hc. split.
    + induction Hs as [|e l Hs IH He]; [repeat constructor|]. cbn [map app].
      apply list.Forall_cons in Hp as [_ Hp]. apply list.Forall_cons in Hall as [Hez Hall]. constructor; [by apply IH|].
      apply Forall_app. split; [|by repeat constructor]. by apply Forall_map.
    + apply Forall_app. split; [by apply Forall_map|by repeat constructor].
  - rewrite app_nil_r. split; [|by apply Forall_map]. clear Hc Hp. induction Hs as [|e l Hs IH He]; [constructor|].
    cbn. constructor; [done|]. by apply Forall_map.
Qed.

Lemma latest {A} (time : A -> Z) (l : list A) : l <> [] -> exists e, e ∈ l /\ forall x, x ∈ l -> time x <= time e.
Proof.
  induction l as [|a l IH]; [done|]. intros _. destruct (decide (l = [])) as [->|Hl].
  { exists a. split; [set_solver|]. intros x Hx. apply list_elem_of_singleton in Hx as ->. lia. }
  destruct (IH Hl) as (e & He & Hmax). destruct (decide (time e <= time a)).
  - exists a. split; [set_solver|]. intros x Hx. apply elem_of_cons in Hx as [->|Hx]; [lia|]. specialize (Hmax x Hx). lia.
  - exists e. split; [set_solver|]. intros x Hx. apply elem_of_cons in Hx as [->|Hx]; [lia|]. by apply Hmax.
Qed.

(** What has arrived changes only at the instants of the schedule. *)
Lemma arrived_instant limit c :
  arrived limit c <> [] -> exists d, d ∈ instants c /\ d <= limit /\ arrived d c = arrived limit c.
Proof.
  unfold arrived. intros Hne.
  set (l := List.filter (fun e => e.1 <=? limit) (cl_arrivals c)) in *.
  destruct (latest fst l) as (e & He & Hmax); [by intros E; rewrite E in Hne|].
  apply list_elem_of_In, List.filter_In in He as [He Hel]. boolify. exists e.1. split_and!; [|done|].
  - unfold instants. apply elem_of_app. left. apply list_elem_of_In. by apply in_map.
  - do 2 f_equal. apply filter_ext_in. intros x Hx. apply Z.leb_le in Hel as Hel'.
    destruct (x.1 <=? limit) eqn:Ex; boolify; [apply Z.leb_le|apply Z.leb_gt; lia].
    apply Hmax. apply list_elem_of_In, List.filter_In. split; [done|]. by apply Z.leb_le.
Qed.

Lemma stream_bytes d c : schedule_ok c -> bytes_ok (stream_of c) -> bytes_ok (arrived d c).
Proof. intros Hc. rewrite <- (arrived_later d c) by done. rewrite Forall_app. by intros [? _]. Qed.

Section deadline.
Context {C : Crypto} `{!CryptoLaws C} (secrets : list bytes) (listen_domain : option text) (c : client) (t : tcp) (tape : bytes).
Context (Hc : schedule_ok c) (Hb : bytes_ok (stream_of c)) (Htape : tape_ok tape).
Abbreviation is_ready := (ready secrets listen_domain c t tape).

(** The handshake cannot be over between two events of the socket. *)
Lemma ready_instant limit :
  is_ready limit = true -> exists d, List.find is_ready (instants c) = Some d /\ d <= limit.
Proof.
  intros Hr. destruct (instants_sorted c Hc) as [Hs _].
  enough (exists d, d ∈ instants c /\ d <= limit /\ is_ready d = true) as (d & Hd & Hl & E).
  { destruct (find_first _ _ _ Hs Hd E) as (d' & ? & ?). exists d'. split; [done|lia]. }
  unfold ready in *. apply orb_true_iff in Hr as [Hr|Hr].
  - unfold closed_by, instants in *. destruct (cl_close c) as [z|]; [|done]. boolify. exists z. split_and!; [|done|].
    + set_solver.
    + by rewrite (proj2 (Z.leb_le _ _)).
  - destruct (arrived_instant limit c) as (d & Hd & Hl & E); [|exists d; by rewrite E, Hr, orb_true_r].
    intros E. by rewrite E, waits_nothing in Hr.
Qed.

(** Reading ends at one of the events up to the limit, or at the limit. *)
Lemma timeout_handshake_cases limit :
  0 <= limit ->
  (timeout_handshake secrets listen_domain limit c t tape = Done (limit, None) /\ is_ready limit = false) \/
  (exists d r, timeout_handshake secrets listen_domain limit c t tape = Done (d, Some r) /\
     0 <= d <= limit /\ is_ready d = true /\
     read_inbound_handshake secrets listen_domain (set_in (arrived d c) t) tape = Done r).
Proof.
  intros Hl. unfold timeout_handshake. destruct (List.find is_ready (instants c)) as [d|] eqn:Ef.
  - destruct (find_some _ _ Ef) as [Hin Hr]. destruct (instants_sorted c Hc) as [_ Hp].
    apply list_elem_of_In, (proj1 (list.Forall_forall _ _) Hp) in Hin. case_test; boolify.
    + right. destruct (handshake_read_total secrets listen_domain t tape Htape (arrived d c)) as (res & t' & tape' & E);
        [by apply stream_bytes|]. exists d, (res, t', tape'). by rewrite E.
    + left. split; [done|]. destruct (is_ready limit) eqn:E; [|done].
      apply ready_instant in E as (d' & E & Hd). rewrite Ef in E. simplify_eq. lia.
  - left. split; [done|]. destruct (is_ready limit) eqn:E; [|done].
    apply ready_instant in E as (d' & E & Hd). by rewrite Ef in E.
Qed.

(** Steps 2 to 4 see what they would see with the whole stream at hand. *)
Lemma resume_setup d r :
  is_ready d = true -> read_inbound_handshake secrets listen_domain (set_in (arrived d c) t) tape = Done r ->
  resume secrets listen_domain c d r = client_setup secrets listen_domain (set_in (stream_of c) t) tape.
Proof.
  intros Hr Er. unfold ready in Hr. unfold client_setup, resume. rewrite <- (arrived_later d c) by done.
  destruct r as [[res t'] tape']. apply orb_true_iff in Hr as [Hr|Hr].
  - rewrite (closed_later d c), !app_nil_r, Er by done. cbn [run_bind]. by destruct t'.
  - apply negb_true_iff in Hr.
    destruct (waits_false secrets listen_domain t tape Htape _ (stream_bytes d c Hc Hb) Hr)
      as (res' & t1 & tape1 & E & Em). rewrite E in Er. simplify_eq. by rewrite Em.
Qed.

(** What is still unfinished at the deadline is no handshake. *)
Lemma unready_setup d :
  is_ready d = false -> closed_by d c = false /\
  exists t' rest, client_setup secrets listen_domain (set_in (arrived d c) t) tape = Done (NoHandshake t', rest).
Proof.
  intros Hr. unfold ready in Hr. apply orb_false_iff in Hr as [Hr Hw]. apply negb_false_iff in Hw. split; [done|].
  destruct (waits_true secrets listen_domain t tape Htape _ (stream_bytes d c Hc Hb) Hw) as (t' & rest & E).
  exists t', rest. unfold client_setup. by rewrite E.
Qed.

(** A reading that is over at [d] gave what it would give at any later instant. *)
Lemma ready_later d limit r :
  is_ready d = true -> d <= limit ->
  read_inbound_handshake secrets listen_domain (set_in (arrived d c) t) tape = Done r ->
  exists t' tape', read_inbound_handshake secrets listen_domain (set_in (arrived limit c) t) tape
    = Done (r.1.1, t', tape').
Proof.
  intros Hr Hd Er. destruct (later_arrived d limit c Hc Hd) as [more Em]. unfold ready in Hr.
  destruct r as [[res t'] tape']. apply orb_true_iff in Hr as [Hr|Hr].
  - assert (arrived limit c = arrived d c) as ->; [|by rewrite Er; eexists _, _].
    apply (closed_later d c Hc) in Hr as H0. pose proof (arrived_later d c Hc) as E1. rewrite H0, app_nil_r in E1.
    pose proof (arrived_later limit c Hc) as E2. rewrite <- E1, Em, <- app_assoc in E2.
    rewrite <- (app_nil_r (arrived d c)) in E2 at 2. apply app_inv_head, app_eq_nil in E2 as [-> _].
    by rewrite Em, app_nil_r.
  - apply negb_true_iff in Hr.
    destruct (waits_false secrets listen_domain t tape Htape _ (stream_bytes d c Hc Hb) Hr)
      as (res' & t1 & tape1 & E & Emm). rewrite E in Er. simplify_eq. rewrite Em, Emm. by eexists _, _.
Qed.

Lemma timed_setup_outcome limit :
  0 <= limit ->
  (exists d s, timed_setup secrets listen_domain limit c t tape = Done (d, s) /\ 0 <= d <= limit /\
     match s with
     | Some s => exists rest, client_setup secrets listen_domain (set_in (stream_of c) t) tape = Done (s, rest)
     | None => d = limit /\ closed_by limit c = false /\
         exists t' rest, client_setup secrets listen_domain (set_in (arrived limit c) t) tape = Done (NoHandshake t', rest)
     end) \/
  (timed_setup secrets listen_domain limit c t tape = Panic /\
   asks_for_min secrets listen_domain (set_in (stream_of c) t) tape).
Proof.
  intros Hl. unfold timed_setup. destruct (timeout_handshake_cases limit Hl) as [(-> & Hr)|(d & r & -> & Hd & Hr & Er)].
  - left. exists limit, None. split; [done|]. split; [lia|]. split; [done|]. by apply unready_setup.
  - cbn [run_bind]. rewrite (resume_setup d r Hr Er).
    destruct (client_setup_total secrets listen_domain (set_in (stream_of c) t) tape Hb Htape)
      as [(s & rest & -> & _)|[-> Hm]]; [left|by right].
    exists d, (Some s). split; [done|]. split; [done|]. by exists rest.
Qed.

(** Without a handshake by the deadline, the task is over by the deadline. *)
Lemma silent_task_end session_end limit t' rest :
  0 <= limit ->
  client_setup secrets listen_domain (set_in (arrived limit c) t) tape = Done (NoHandshake t', rest) ->
  exists e, task_end secrets listen_domain session_end limit c t tape = Some e /\ 0 <= e <= limit.
Proof.
  intros Hl Hs. unfold task_end.
  destruct (timeout_handshake_cases limit Hl) as [(-> & Hr)|(d & r & -> & Hd & Hr & Er)].
  { exists limit. split; [done|lia]. }
  destruct (ready_later d limit r Hr ltac:(lia) Er) as (t1 & tape1 & E1). unfold client_setup in Hs. rewrite E1 in Hs.
  cbn [run_bind] in Hs. exists d. split; [|done]. destruct r as [[[[hs p]|] t2] tape2]; cbn [fst] in Hs; [|done].
  exfalso. unfold after_handshake in Hs. destruct listen_domain; cbn in Hs;
    (apply run_bind_Done in Hs as ([[info secret]|] & _ & Hs); [|done]);
    apply run_bind_Done in Hs as (? & _ & Hs); apply run_bind_Done in Hs as ([??] & _ & Hs);
    apply run_bind_Done in Hs as (? & _ & Hs); done.
Qed.

(** A rejected client that keeps its connection open keeps its task running. *)
Lemma rejected_task_end session_end limit d t' w :
  0 <= limit -> timed_setup secrets listen_domain limit c t tape = Done (d, Some (Drained t' w)) ->
  task_end secrets listen_domain session_end limit c t tape =
    match cl_close c with Some z => Some (Z.max d z) | None => None end.
Proof.
  intros Hl. unfold timed_setup, task_end.
  destruct (timeout_handshake_cases limit Hl) as [(-> & Hr)|(d1 & r & -> & _)]; [done|]. cbn [run_bind].
  intros H. apply run_bind_Done in H as ([s rest] & -> & H). by simplify_eq.
Qed.
End deadline.

(** ** Lemmas: slots *)
Section slots.
Context {C : Crypto} (secrets : list bytes) (listen_domain : option text).
Context (session_end : prepared -> option Z) (limit : Z) (verdict : option bool).
Context (conn : nat -> connection).
Abbreviation cstep := (clock_step secrets listen_domain session_end limit verdict conn).
Abbreviation last_of := (lasts secrets listen_domain session_end limit conn).
Abbreviation over := (over_at secrets listen_domain session_end limit conn).

(** Every task was started in the past, and no task outlives its end. *)
Record clock_inv (st : clocked) : Prop := {
  ci_started : length (ck_started st) = al_accepted (ck_loop st);
  ci_past : Forall (fun s => s <= ck_now st) (ck_started st);
  ci_known : Forall (fun n => (n < al_accepted (ck_loop st))%nat) (al_tasks (ck_loop st));
  ci_alive n s e : n ∈ al_tasks (ck_loop st) -> ck_started st !! n = Some s -> last_of n = Some e -> 0 <= e ->
    ck_now st <= s + e;
}.

(** A step of the loop keeps its tasks, or adds the next connection to them. *)
Lemma loop_step_tasks l l' :
  loop_step verdict l l' ->
  (al_accepted l' = al_accepted l /\ forall n, n ∈ al_tasks l' -> n ∈ al_tasks l) \/
  (al_accepted l' = S (al_accepted l) /\ al_tasks l' = al_tasks l ++ [al_accepted l]).
Proof. destruct 1; cbn; try (left; split; [done|]; set_solver). by right. Qed.

Lemma clock_step_inv st st' : clock_inv st -> cstep st st' -> clock_inv st'.
Proof.
  intros [H1 H2 H3 H4] Hs. destruct Hs as [l l' now started Hs _|l now now' started Hle Hn]; cbn in *.
  - destruct (loop_step_tasks l l' Hs) as [[Ea Ht]|[Ea Et]].
    + rewrite Ea, Nat.eqb_refl. split; cbn; [congruence|done| |].
      * rewrite list.Forall_forall in *. intros n Hn. rewrite Ea. by apply H3, Ht.
      * intros n s e Hn. apply H4. by apply Ht.
    + rewrite Ea, (proj2 (Nat.eqb_neq _ _)) by lia. split; cbn.
      * rewrite length_app. simpl. lia.
      * apply Forall_app. split; [done|]. apply Forall_singleton. lia.
      * rewrite Et, Ea. apply Forall_app. split; [|apply Forall_singleton; lia].
        eapply Forall_impl; [|exact H3]. cbn. lia.
      * intros n s e Hn Hst Hl He. rewrite Et in Hn. apply elem_of_app in Hn as [Hn|Hn].
        -- rewrite lookup_app_l in Hst; [by eapply H4|]. rewrite H1. by apply (proj1 (list.Forall_forall _ _) H3).
        -- apply list_elem_of_singleton in Hn as ->. rewrite <- H1, list_lookup_middle in Hst by done. simplify_eq. lia.
  - split; cbn; [done| |done|].
    + eapply Forall_impl; [|exact H2]. cbn. lia.
    + intros n s e Hin Hst Hl He. eapply Hn; [done|]. by exists s, e.
Qed.

Lemma clock_reachable_inv max st :
  clock_reachable secrets listen_domain session_end limit verdict conn max st -> clock_inv st.
Proof.
  intros Hr. refine (rtc_ind_r clock_inv _ _ _ _ Hr); [|intros; by eapply clock_step_inv].
  split; cbn; [done|constructor|constructor|]. set_solver.
Qed.

Lemma task_gives_permit_back st n z :
  n ∈ al_tasks (ck_loop st) -> NoDup (al_tasks (ck_loop st)) -> over (ck_started st) n z -> z <= ck_now st ->
  exists st', cstep st st' /\ al_permits (ck_loop st') = S (al_permits (ck_loop st)) /\ (n ∉ al_tasks (ck_loop st')) /\
    ck_now st' = ck_now st.
Proof.
  destruct st as [[p ph tasks acc] now started]. cbn. intros Hn Hd Ho Hz.
  apply list_elem_of_split in Hn as (before & after & ->).
  eexists (mkClocked (mkAcceptLoop (S p) ph (before ++ after) acc) now _). split_and!; [|done| |done].
  - apply clock_loop; [apply step_task_ends|]. cbn. intros m Hm Hm'.
    assert (m = n) as -> by set_solver. by exists z.
  - cbn. rewrite <- Permutation_middle in Hd. by apply list.NoDup_cons in Hd as [? _].
Qed.

Lemma clock_acquire p tasks n now started :
  cstep (mkClocked (mkAcceptLoop (S p) Acquiring tasks n) now started)
    (mkClocked (mkAcceptLoop p Accepting tasks n) now started).
Proof.
  pose proof (clock_loop secrets listen_domain session_end limit verdict conn _ _ now started
    (step_acquire verdict p tasks n)) as H. cbn [al_accepted al_tasks] in H. rewrite Nat.eqb_refl in H. by apply H.
Qed.

Lemma clock_accept p tasks n now started :
  cstep (mkClocked (mkAcceptLoop p Accepting tasks n) now started)
    (mkClocked (mkAcceptLoop p Acquiring (tasks ++ [n]) (S n)) now (started ++ [now])).
Proof.
  pose proof (clock_loop secrets listen_domain session_end limit verdict conn _ _ now started
    (step_accept verdict p tasks n)) as H. cbn [al_accepted al_tasks] in H.
  rewrite (proj2 (Nat.eqb_neq (S n) n)) in H by lia. apply H. set_solver.
Qed.

(** The loop of [clock_step] is that of [loop_step]. *)
Lemma clock_reachable_loop max st :
  clock_reachable secrets listen_domain session_end limit verdict conn max st ->
  loop_reachable verdict max (ck_loop st).
Proof.
  intros Hr. refine (rtc_ind_r (fun st => loop_reachable verdict max (ck_loop st)) _ _ _ _ Hr); [apply rtc_refl|].
  intros x y _ Hs IH. destruct Hs as [l l' now started Hs _|l now now' started _ _]; cbn in *; [|done].
  by eapply rtc_r.
Qed.

(** ** Lemmas: connections that never end *)
Section starved.
Context (m : nat) (Hnever : forall n, (n < m)%nat -> last_of n = None).

Definition starved (st : clocked) : Prop :=
  al_permits (ck_loop st) = 0%nat /\ al_tasks (ck_loop st) = seq 0 m /\ al_accepted (ck_loop st) = m /\
  (al_phase (ck_loop st) = Acquiring \/ exists ok, al_phase (ck_loop st) = Broken ok).

Lemma never_over started n z : (n < m)%nat -> ~ over started n z.
Proof. intros Hn (s & e & _ & He & _). by rewrite Hnever in He. Qed.

Lemma starved_step st st' : starved st -> cstep st st' -> starved st'.
Proof.
  intros (Hp & Ht & Ha & Hph) Hs. destruct Hs as [l l' now started Hs Hend|l now now' started _ _]; cbn in *; [|by split_and!].
  destruct Hs; cbn in *; try lia; try (by destruct Hph as [|[]]); try (split_and!; cbn; by eauto).
  exfalso. destruct (Hend t) as (z & Hz & _); [set_solver| |].
  - assert (NoDup (before ++ t :: after)) as Hd by (rewrite Ht; apply NoDup_seq).
    rewrite <- Permutation_middle in Hd. by apply list.NoDup_cons in Hd as [? _].
  - apply (never_over started t z); [|done]. assert (t ∈ seq 0 m) as Hin by (rewrite <- Ht; set_solver).
    apply elem_of_seq in Hin. lia.
Qed.

(** Accepting [k] of them, one after the other, at the first instant. *)
Lemma accepts_first k :
  (k <= m)%nat ->
  clock_reachable secrets listen_domain session_end limit verdict conn (Z.of_nat m)
    (mkClocked (mkAcceptLoop (m - k) Acquiring (seq 0 k) k) 0 (replicate k 0)).
Proof.
  induction k as [|k IH]; intros Hk.
  { rewrite Nat.sub_0_r. unfold clock_reachable, clock_start, loop_start. rewrite Nat2Z.id. apply rtc_refl. }
  rewrite seq_S, replicate_S_end. eapply rtc_r; [eapply rtc_r; [apply IH; lia|]|].
  - replace (m - k)%nat with (S (m - S k)) by lia. apply clock_acquire.
  - apply clock_accept.
Qed.
End starved.
End slots.

(** ** Properties *)
Section timed_properties.
Context {C : Crypto} `{!CryptoLaws C} (secrets : list bytes) (listen_domain : option text).
Context (session_end : prepared -> option Z) (limit : Z) (Hlimit : 0 <= limit).

(** C6. The handshake against the clock, for a client that sends its bytes at
    any pace, in any pieces, and may never close: waiting for the handshake is
    over by the timeout.  If it ended in time, the client gets exactly what the
    handler makes of its whole stream, so neither the pace nor the pieces
    matter, and nothing it sends later is lost; if the timeout struck, the
    connection was still open and what had arrived is no handshake; the one
    panic is the DC index -32768 asked for by a client that knows a secret. *)
Theorem handshake_deadline c t tape :
  schedule_ok c -> bytes_ok (stream_of c) -> tape_ok tape ->
  (exists d s, timed_setup secrets listen_domain limit c t tape = Done (d, s) /\ 0 <= d <= limit /\
     match s with
     | Some s => exists rest, client_setup secrets listen_domain (set_in (stream_of c) t) tape = Done (s, rest)
     | None => d = limit /\ closed_by limit c = false /\
         exists t' rest, client_setup secrets listen_domain (set_in (arrived limit c) t) tape = Done (NoHandshake t', rest)
     end) \/
  (timed_setup secrets listen_domain limit c t tape = Panic /\
   asks_for_min secrets listen_domain (set_in (stream_of c) t) tape).
Proof. intros. by apply timed_setup_outcome. Qed.

(** C19. A slot taken without a handshake comes back: in every state the accept
    loop reaches on the clock, a client that has no complete handshake on its
    socket when the timeout strikes holds its permit for at most the handshake
    timeout, and at that instant the loop can take the permit back. *)
Theorem handshake_slot_returned verdict conn max st n :
  clock_reachable secrets listen_domain session_end limit verdict conn max st -> 0 <= max ->
  n ∈ al_tasks (ck_loop st) ->
  schedule_ok (cn_client (conn n)) -> bytes_ok (stream_of (cn_client (conn n))) -> tape_ok (cn_tape (conn n)) ->
  (exists t' rest, client_setup secrets listen_domain (set_in (arrived limit (cn_client (conn n))) (cn_tcp (conn n)))
     (cn_tape (conn n)) = Done (NoHandshake t', rest)) ->
  exists s e, ck_started st !! n = Some s /\ 0 <= e <= limit /\ s <= ck_now st <= s + e /\
    (ck_now st = s + e -> exists st', clock_step secrets listen_domain session_end limit verdict conn st st' /\
       al_permits (ck_loop st') = S (al_permits (ck_loop st)) /\ (n ∉ al_tasks (ck_loop st')) /\ ck_now st' = ck_now st).
Proof.
  intros Hr Hm Hn Hc Hb Ht (t' & rest & Hs).
  destruct (silent_task_end secrets listen_domain _ (cn_tcp (conn n)) _ Hc Hb Ht session_end limit t' rest Hlimit Hs)
    as (e & He & Hle).
  destruct (clock_reachable_inv _ _ _ _ _ _ _ _ Hr) as [H1 H2 H3 H4].
  apply clock_reachable_loop in Hr. destruct (loop_reachable_inv _ _ _ Hm Hr) as [_ Hd _].
  pose proof (proj1 (list.Forall_forall _ _) H3 n Hn) as Hlt. cbn in Hlt. rewrite <- H1 in Hlt.
  apply lookup_lt_is_Some in Hlt as [s Es]. exists s, e.
  assert (s <= ck_now st) by (by apply (Forall_lookup_1 _ _ _ _ H2 Es)).
  specialize (H4 n s e Hn Es He ltac:(lia)). split_and!; try done; try lia. intros Hnow.
  eapply (task_gives_permit_back _ _ _ _ _ _ st n (s + e)); [done|done|by exists s, e|lia].
Qed.

(** C36. The drain has no timeout: clients that send a handshake no secret opens
    and then keep the connection open hold their permits for good.  As many of
    them as there are permits, none of whom has to know a secret, and the
    accept loop never accepts another client, however much time passes. *)
Theorem rejected_clients_starve verdict conn (max : nat) :
  (forall n, (n < max)%nat -> schedule_ok (cn_client (conn n)) /\ bytes_ok (stream_of (cn_client (conn n))) /\
     tape_ok (cn_tape (conn n)) /\ cl_close (cn_client (conn n)) = None /\
     exists d t' w, timed_setup secrets listen_domain limit (cn_client (conn n)) (cn_tcp (conn n)) (cn_tape (conn n))
       = Done (d, Some (Drained t' w))) ->
  exists st, clock_reachable secrets listen_domain session_end limit verdict conn (Z.of_nat max) st /\
    (forall st', rtc (clock_step secrets listen_domain session_end limit verdict conn) st st' ->
       al_accepted (ck_loop st') = max /\ al_tasks (ck_loop st') = seq 0 max /\ al_permits (ck_loop st') = 0%nat) /\
    (forall later, ck_now st <= later ->
       clock_step secrets listen_domain session_end limit verdict conn st (mkClocked (ck_loop st) later (ck_started st))).
Proof.
  intros Hall.
  assert (forall n, (n < max)%nat -> lasts secrets listen_domain session_end limit conn n = None) as Hnever.
  { intros n Hn. destruct (Hall n Hn) as (Hc & Hb & Ht & Hcl & d & t' & w & Hs). unfold lasts.
    by rewrite (rejected_task_end _ _ _ _ _ Hc Hb Ht session_end limit d t' w Hlimit Hs), Hcl. }
  eexists. split; [by apply (accepts_first _ _ _ _ _ _ max max)|]. split.
  - intros st' Hr. rewrite Nat.sub_diag in Hr.
    assert (starved max st') as (Hp & Ht & Ha & _); [|by split_and!].
    refine (rtc_ind_r (starved max) _ _ _ _ Hr); [split_and!; cbn; by eauto|].
    intros x y _ Hxy Hx. by eapply starved_step.
  - intros z Hz. apply clock_tick; [done|]. cbn. intros n z' Hn Ho. apply elem_of_seq in Hn.
    by destruct (never_over secrets listen_domain session_end limit conn max Hnever (replicate max 0) n z' ltac:(lia)).
Qed.
End timed_properties.

(** *** Witnesses *)

(** A client whose init arrives in two pieces and who then stays connected. *)
Definition demo_slow_client : client :=
  mkClient [(1, take 30 (t_in demo_client_tcp)); (7, drop 30 (t_in demo_client_tcp))] None.

Lemma demo_slow_ok : schedule_ok demo_slow_client.
Proof.
  split; [|split; [|by intros z Hz]].
  - constructor; [constructor; constructor|]. apply Forall_singleton. cbn. lia.
  - constructor; [cbn; lia|]. apply Forall_singleton. cbn. lia.
Qed.

Definition demo_socket : tcp := mkTcp [] [] [] 0.

Definition demo_silent : connection := mkConnection (mkClient [] None) demo_socket demo_long_tape.

(** 64 zero bytes, which no secret opens, and then nothing. *)
Definition demo_scanner : connection :=
  mkConnection (mkClient [(2, replicate 64 0)] None) demo_socket demo_long_tape.

Lemma handshake_deadline_witness :
  exists d p, timed_setup (C := toy_crypto) [demo_secret] None 10 demo_slow_client demo_client_tcp demo_long_tape
    = Done (d, Some (Ready p)) /\ d <= 10.
Proof.
  destruct (handshake_deadline (C := toy_crypto) (CryptoLaws0 := toy_crypto_laws) [demo_secret] None 10 ltac:(lia)
    demo_slow_client demo_client_tcp demo_long_tape) as [(d & s & E & Hd & Hs)|[E _]].
  - exact demo_slow_ok.
  - apply (bool_decide_unpack (bytes_ok (stream_of demo_slow_client))). vm_compute. exact I.
  - exact demo_long_tape_ok.
  - assert (match s with Some (Ready _) => true | _ => false end = true) as Hr.
    { assert (match timed_setup (C := toy_crypto) [demo_secret] None 10 demo_slow_client demo_client_tcp demo_long_tape with
              | Done (_, Some (Ready _)) => true | _ => false end = true) as H by (vm_compute; reflexivity).
      rewrite E in H. exact H. }
    destruct s as [[| |p]|]; try discriminate Hr. exists d, p. split; [exact E|lia].
  - exfalso. assert (match timed_setup (C := toy_crypto) [demo_secret] None 10 demo_slow_client demo_client_tcp demo_long_tape with
                     | Panic => false | _ => true end = true) as H by (vm_compute; reflexivity).
    rewrite E in H. discriminate H.
Defined.

(** The silent client is the only one, three ticks after it was accepted. *)
Lemma handshake_slot_returned_witness :
  exists s e, [0] !! 0%nat = Some s /\ 0 <= e <= 10 /\ s <= 3 <= s + e.
Proof.
  destruct (handshake_slot_returned (C := toy_crypto) (CryptoLaws0 := toy_crypto_laws) [demo_secret] None
    (fun _ => None) 10 ltac:(lia) None (fun _ => demo_silent) 1
    (mkClocked (mkAcceptLoop 0 Acquiring [0%nat] 1) 3 [0]) 0%nat) as (s & e & H1 & H2 & H3 & _).
  - eapply rtc_l; [apply (clock_acquire _ _ _ _ _ _ 0 [] 0 0 [])|].
    eapply rtc_l; [apply (clock_accept _ _ _ _ _ _ 0 [] 0 0 [])|]. apply rtc_once. apply clock_tick; [lia|].
    cbn. intros n z Hn (s & e & Hs & He & ->). apply list_elem_of_singleton in Hn as ->.
    vm_compute in He. injection Hs as <-. injection He as <-. lia.
  - lia.
  - apply list_elem_of_singleton. reflexivity.
  - split_and!; [constructor|constructor|by intros z Hz].
  - constructor.
  - exact demo_long_tape_ok.
  - exists demo_socket, demo_long_tape. reflexivity.
  - exists s, e. split; [exact H1|]. split; [exact H2|exact H3].
Defined.

Lemma rejected_clients_starve_witness :
  exists st, clock_reachable (C := toy_crypto) [demo_secret] None (fun _ => None) 10 None (fun _ => demo_scanner)
      (Z.of_nat 2) st /\
    forall st', rtc (clock_step (C := toy_crypto) [demo_secret] None (fun _ => None) 10 None (fun _ => demo_scanner)) st st' ->
      al_accepted (ck_loop st') = 2%nat.
Proof.
  destruct (rejected_clients_starve (C := toy_crypto) (CryptoLaws0 := toy_crypto_laws) [demo_secret] None
    (fun _ => None) 10 ltac:(lia) None (fun _ => demo_scanner) 2) as (st & H1 & H2 & _).
  - intros n _. split_and!.
    + split; [repeat constructor|]. split; [|by intros z Hz]. apply Forall_singleton. cbn. lia.
    + apply (bool_decide_unpack (bytes_ok (stream_of (cn_client demo_scanner)))). vm_compute. exact I.
    + exact demo_long_tape_ok.
    + reflexivity.
    + exists 2, demo_socket, (PlainWriter demo_socket). reflexivity.
  - exists st. split; [exact H1|]. intros st' Hst. apply (H2 st' Hst).
Defined.
