(* ===== verification/Banner.v ===== *)
(** * server.rs: the start-up banner

    The log lines of [run_with_listen] around the bind: the warnings about
    pinned tiers and the connection limit, and the banner with the proxy links.
    A line is its level and its text. *)
From Stdlib Require Import String.
From stdpp Require Import gmap sorting.
From S2P Require Import Prelude Text Ip Outbound CryptoApi Crypto Config Limits WsClient Pool Check Server.

Local Open Scope string_scope.
Local Open Scope list_scope.
Local Open Scope Z_scope.

Inductive level : Set :=
| INFO
| WARN.

Definition line : Type := level * text.
Abbreviation info s := (INFO, s).
Abbreviation warn s := (WARN, s).

(** [.collect::<Vec<_>>().join(",")]. *)
Fixpoint join_comma (l : list text) : text :=
  match l with
  | [] => []
  | [s] => s
  | s :: l => s ++ txt "," ++ join_comma l
  end.

Definition tier_names (tiers : list UpstreamTier) : text := join_comma (map tier_name tiers).

(** ** The warnings *)

(** [tiers.iter().position(|t| *t == UpstreamTier::Tcp)] and what follows it. *)
Fixpoint after_tcp (tiers : list UpstreamTier) : option (list UpstreamTier) :=
  match tiers with
  | [] => None
  | Tcp :: rest => Some rest
  | _ :: rest => after_tcp rest
  end.

Definition pin_warning (flag : string) (tiers : list UpstreamTier) : list line :=
  match after_tcp tiers with
  | None | Some [] => []
  | Some unreached =>
      [warn (txt flag ++ txt ": tcp is a terminal tier — everything listed after it (" ++ tier_names unreached
             ++ txt ") is never reached")]
  end.

Definition pin_warnings (c : Config) : list line :=
  pin_warning "--pinned-upstream" (c_pinned_upstreams c) ++
  pin_warning "--pinned-media-upstream" (c_pinned_media_upstreams c).

Definition limit_warning (usize_max fd_limit : Z) (c : Config) : list line :=
  let dc_buckets := Z.of_nat (size (dc_redirects c)) * 2 in
  match c_max_connections c with
  | Some n =>
      let safe := auto_max_connections usize_max fd_limit (c_pool_size c) dc_buckets in
      if safe <? n then
        [warn (txt "max-connections=" ++ dec n ++ txt " may exceed the safe limit for this system's FD budget (fd-limit="
               ++ dec fd_limit ++ txt ", recommended ≤" ++ dec safe
               ++ txt "). Consider raising `ulimit -n` or reducing --max-connections.")]
      else []
  | None => []
  end.

(** ** The banner *)
Section banner.
Context {U : OutboundCrates}.

Definition CARGO_PKG_VERSION : text := txt "2.5.4".
Definition rule : line := info (concat (replicate 60 (txt "="))).

Definition head_lines (bind_host : text) (listen_port : Z) (secret : text) (listen_domain : option text) : list line :=
  [rule;
   info (txt "  Telegram MTProto WS Bridge Proxy  (tg-ws-proxy-rs v" ++ CARGO_PKG_VERSION ++ txt ")");
   info (txt "  Listening on   " ++ bind_host ++ txt ":" ++ dec listen_port);
   info (txt "  Secret:        " ++ secret);
   match listen_domain with
   | Some domain => info (txt "  Inbound mode:   FakeTLS ee (SNI: " ++ domain ++ txt ")")
   | None => info (txt "  Inbound mode:   padded MTProto dd")
   end].

(** [dcs.sort_by_key(|(k, _)| *k)]. *)
Definition key_le (a b : Z * text) : Prop := a.1 <= b.1.
#[export] Instance key_le_dec : RelDecision key_le := fun a b => Z_le_dec a.1 b.1.

Definition sorted_dcs (c : Config) : list (Z * text) := merge_sort key_le (map_to_list (dc_redirects c)).

Definition dc_lines (c : Config) : list line :=
  info (txt "  Target DC IPs:") ::
  map (fun kv => info (txt "    DC" ++ dec kv.1 ++ txt ": " ++ kv.2)) (sorted_dcs c).

Definition tls_lines (c : Config) : list line :=
  if c_skip_tls_verify c then [info (txt "  ⚠  TLS certificate verification DISABLED")] else [].

Definition is_empty {A} (l : list A) : bool := match l with [] => true | _ => false end.

Definition cf_lines (c : Config) : list line :=
  (if is_empty (c_cf_domains c) then []
   else
     info (txt "  Cloudflare proxy domain(s):") ::
     map (fun d => info (txt "    " ++ d ++ txt " (kws{N}." ++ d ++ txt " subdomains)")) (c_cf_domains c) ++
     (if c_cf_balance c && (1 <? length (c_cf_domains c))%nat
      then [info (txt "    ⚖  CF balance mode: connections are round-robin'd across domains")] else [])) ++
  (if is_empty (c_cf_worker_domains c) then []
   else
     info (txt "  Cloudflare Worker domain(s):") ::
     map (fun d => info (txt "    " ++ d)) (c_cf_worker_domains c)) ++
  (if c_cf_disable_tls c && (negb (is_empty (c_cf_domains c)) || negb (is_empty (c_cf_worker_domains c)))
   then [warn (txt "  ⚠  CF transport: plaintext ws:// on port 80 — the obfuscated MTProto stream is "
               ++ txt "on the wire in the clear: every frame's auth_key_id is readable and the "
               ++ txt "obfuscation is recoverable from captured bytes (#123), so connections are "
               ++ txt "identifiable. Route media through these tiers, not text.")]
   else []).

Definition pin_lines (c : Config) : list line :=
  let p := c_pinned_upstreams c in
  let m := c_pinned_media_upstreams c in
  if negb (is_empty p) || negb (is_empty m) then
    info (txt "  Pinned upstream order (default ladder is used for the rest):") ::
    (if is_empty p then [] else [info (txt "    non-media: " ++ tier_names p)]) ++
    (if is_empty m then if is_empty p then [] else [info (txt "    media: inherits non-media pin above")]
     else [info (txt "    media: " ++ tier_names m)])
  else [].

Definition cf_ip_lines (c : Config) : list line :=
  if is_empty (c_cf_ips c) then []
  else
    info (txt "  Cloudflare preferred IP(s): " ++ join_comma (c_cf_ips c)) ::
    (if is_empty (c_cf_domains c) && is_empty (c_cf_worker_domains c)
     then [warn (txt "  ⚠  --cf-ip has no effect: no --cf-domain, --default-domains, "
                 ++ txt "or --cf-worker-domain route is configured")]
     else []).

Definition proxy_lines (c : Config) : list line :=
  if is_empty (c_mtproto_proxies c) then []
  else
    info (txt "  Upstream MTProto proxies (WS fallback):") ::
    map (fun p => info (txt "    " ++ mp_host p ++ txt ":" ++ dec (mp_port p))) (c_mtproto_proxies c).

(** [OutboundConnector::summary]. *)
Definition outbound_summary (outbound : OutboundConfig) : option text := option_map summary (oc_proxy outbound).

Definition outbound_lines (outbound : OutboundConfig) : list line :=
  match outbound_summary outbound with
  | Some summary => [info (txt "  Outbound proxy: " ++ summary)]
  | None => []
  end.

Definition fronting_lines (rt : Runtime) (c : Config) : list line :=
  match rt_fronting_domain rt with
  | Some domain =>
      if bool_decide (dc_redirects c = ∅) then
        [warn (txt "  ⚠  --fronting-domain " ++ domain ++ txt " has no effect: no --dc-ip is configured. "
               ++ txt "Fronting only applies to a direct connection to a DC's real IP "
               ++ txt "(matching upstream tg-ws-proxy) — it is never used for CF proxy, "
               ++ txt "CF Worker, or upstream MTProto proxy connections.")]
      else [info (txt "  Domain fronting: always (SNI " ++ domain ++ txt ")")]
  | None => []
  end.

Definition link_lines (tg_link : text) (user_links : list text) (link_host bind_host : text) : list line :=
  [rule; info (txt "  Telegram proxy link (use this on all devices):"); info (txt "    " ++ tg_link)] ++
  (if is_empty user_links then []
   else info (txt "  Additional per-user proxy links:") :: map (fun l => info (txt "    " ++ l)) user_links) ++
  (if teq link_host bind_host then
     if teq bind_host (txt "127.0.0.1") || teq bind_host (txt "::1") then
       [warn (txt "  ⚠  Link shows " ++ bind_host ++ txt " — only the local machine can use this link. "
              ++ txt "Run with --host 0.0.0.0 (or --link-ip <router-LAN-IP>) "
              ++ txt "so other devices on the network can connect.")]
     else []
   else [info (txt "  ℹ  Link uses auto-detected IP " ++ link_host ++ txt ". Use --link-ip <IP> to override.")]) ++
  [rule].

(** The banner of a serving process. *)
Definition banner {HO : Host} (usize_max : Z) (listen_domain : option text) (s : serving) : list line :=
  let c := sv_config s in
  head_lines (bind_host lan_ip c) (sa_port (sv_addr s)) (primary_secret c) listen_domain ++ dc_lines c ++ tls_lines c
  ++ cf_lines c ++ pin_lines c ++ cf_ip_lines c ++ proxy_lines c ++ outbound_lines (sv_outbound s)
  ++ fronting_lines (sv_runtime s) c
  ++ [info (txt "  Max connections: " ++ dec (sv_max_connections s) ++ txt " (fd-limit: "
            ++ dec (soft_nofile_limit usize_max limits_file) ++ txt ")")]
  ++ link_lines (sv_tg_link s) (sv_user_links s) (link_host lan_ip c) (bind_host lan_ip c).
End banner.

(** ** Properties *)

(** A configuration, an outbound proxy and a serving process with the
    credentials of other people's proxies struck out. *)
Definition strike_proxy (p : MtProtoProxy) : MtProtoProxy := mkMtProtoProxy (mp_host p) (mp_port p) [] [] None.

Definition strike_config (c : Config) : Config :=
  mkConfig (c_host c) (c_link_ip c) (c_check c) (c_check_listener c) (c_secrets c)
    (c_listen_faketls_domain c) (c_dc_ip c) (c_skip_tls_verify c) (c_cf_domains c)
    (c_default_domains c) (c_cf_worker_domains c) (c_cf_priority c) (c_cf_balance c)
    (c_cf_disable_tls c) (map strike_proxy (c_mtproto_proxies c)) (c_pinned_upstreams c) (c_pinned_media_upstreams c)
    (c_ws_connect_timeout c) (c_ws_fail_probe_timeout c) (c_ws_fail_cooldown c)
    (c_ws_redirect_cooldown c) (c_ip_fail_cooldown c) (c_handshake_timeout c)
    (c_tcp_fallback_timeout c) (c_upstream_connect_timeout c) (c_upstream_fail_cooldown c)
    (c_cf_connect_timeout c) (c_cf_fail_cooldown c) (c_port c) (c_pool_size c) (c_pool_max_age c)
    (c_max_connections c) (c_cf_ips c) (c_fronting_domain c) None
    (c_no_outbound_proxy c) (c_no_proxy c) (c_quiet c) (c_verbose c)
    (c_log_file c) (c_buf_kb c) (c_fronting_cooldown c) (c_fronting_fail_cooldown c).

Section banner_properties.
Context {U : OutboundCrates} {HO : Host} (usize_max : Z).

Definition strike_outbound (o : OutboundConfig) : OutboundConfig :=
  mkOutboundConfig (option_map (fun p => mkProxyConfig (px_kind p) (px_host p) (px_port p)
    (option_map (fun _ => []) (px_username p)) None) (oc_proxy o)) (oc_no_proxy o).

Definition strike (s : serving) : serving :=
  mkServing (strike_config (sv_config s)) [] None (strike_outbound (sv_outbound s)) (sv_runtime s) (sv_addr s)
    (sv_tg_link s) (sv_user_links s) (sv_max_connections s).

Lemma proxy_lines_strike c : proxy_lines (strike_config c) = proxy_lines c.
Proof.
  unfold proxy_lines. cbn [strike_config c_mtproto_proxies]. rewrite map_map.
  by destruct (c_mtproto_proxies c).
Qed.

Lemma outbound_lines_strike o : outbound_lines (strike_outbound o) = outbound_lines o.
Proof. destruct o as [[[]|] ?]; [|done]. unfold outbound_lines, outbound_summary, summary. cbn. by repeat case_match. Qed.

Lemma banner_strike domain s : banner usize_max domain (strike s) = banner usize_max domain s.
Proof. unfold banner. cbn [strike sv_config sv_outbound]. by rewrite proxy_lines_strike, outbound_lines_strike. Qed.

(** C39. The banner gives away no credential of a proxy that belongs to someone
    else: two processes that differ only in the secrets of their upstream
    MTProto proxies and in the user name and password of their outbound proxy
    log the same banner.  It does list the DCs it dials, each once, in order,
    with the address routing uses, and the link that was announced. *)
Theorem banner_hides_credentials domain s1 s2 :
  strike s1 = strike s2 ->
  banner usize_max domain s1 = banner usize_max domain s2 /\
  dc_lines (sv_config s1) ⊆ banner usize_max domain s1 /\
  (forall dc ip, (dc, ip) ∈ sorted_dcs (sv_config s1) <-> dc_target_ip (sv_config s1) dc = Some ip) /\
  NoDup (sorted_dcs (sv_config s1)).*1 /\ Sorted key_le (sorted_dcs (sv_config s1)) /\
  info (txt "    " ++ sv_tg_link s1) ∈ banner usize_max domain s1.
Proof.
  intros E. rewrite <- (banner_strike domain s2), <- E, banner_strike. split; [done|].
  split_and!.
  - unfold banner. cbv zeta. set_solver.
  - intros dc ip. unfold sorted_dcs. rewrite merge_sort_Permutation, elem_of_map_to_list. by destruct (dc_lookups_agree (sv_config s1) dc) as [-> _].
  - unfold sorted_dcs. rewrite merge_sort_Permutation. apply NoDup_fst_map_to_list.
  - apply Sorted_merge_sort. intros a b. unfold key_le. lia.
  - unfold banner, link_lines. cbv zeta. set_solver.
Qed.
End banner_properties.

(** *** A witness *)
Definition demo_serving (secret key user password : text) : serving (U := demo_crates) :=
  mkServing
    (mkConfig None None false false [txt "00112233445566778899aabbccddeeff"] None
       [(4, txt "149.154.167.91"); (2, txt "149.154.167.51"); (2, txt "149.154.167.220")] false [] false [] false false false
       [mkMtProtoProxy (txt "proxy.example") 8443 secret key None] [] []
       10 2 30 300 3600 10 10 5 60 10 60 1443 4 120 None [] None None false None false false None 256 1800 60)
    demo_secret_keys None (mkOutboundConfig (Some (mkProxyConfig Http (txt "gate.example") 3128 (Some user) (Some password))) None)
    runtime_new (mkSocketAddr (V4 [127; 0; 0; 1]) 1443) (txt "tg://proxy") [] 447.

Example demo_banner_dcs : sorted_dcs (sv_config (demo_serving [] [] [] [])) =
  [(2, txt "149.154.167.220"); (4, txt "149.154.167.91")].
Proof. vm_compute. reflexivity. Qed.

Lemma banner_hides_credentials_witness :
  banner (HO := demo_host) (2 ^ 64 - 1) None (demo_serving (txt "dd00") [0] (txt "alice") (txt "s3cret")) =
  banner (HO := demo_host) (2 ^ 64 - 1) None (demo_serving (txt "ff11") [9] (txt "bob") (txt "hunter2")).
Proof.
  apply (banner_hides_credentials (U := demo_crates) (HO := demo_host) (2 ^ 64 - 1) None
    (demo_serving (txt "dd00") [0] (txt "alice") (txt "s3cret")) (demo_serving (txt "ff11") [9] (txt "bob") (txt "hunter2"))).
  vm_compute. reflexivity.
Defined.
