(* ===== verification/Main.v ===== *)
(** * main.rs: the binary

    The process from its argument vector on: the command line, the log set-up,
    start-up, and the exit codes.  The shutdown future of the binary never
    completes.  What the log set-up asks of the system is the class [LogHost]. *)
From Stdlib Require Import String.
From stdpp Require Import gmap.
From S2P Require Import Prelude Text Ip Outbound Http Domains CryptoApi Crypto FakeTls Config Cli Limits WsClient Pool Session Bridge Routing Handler Check Server.

Local Open Scope string_scope.
Local Open Scope list_scope.
Local Open Scope Z_scope.
Local Open Scope run_scope.

Class LogHost : Type := {
  (** [EnvFilter::try_from_default_env]: the directives of [RUST_LOG], when it is set and valid. *)
  rust_log : option text;
  (** [OpenOptions::new().create(true).append(true).open(path)] succeeds. *)
  opens_append : text -> bool;
  stderr_is_terminal : bool;
  windows : bool;
}.

(** Where the log goes and how it looks. *)
Record logging : Type := mkLogging {
  lo_filter : text;
  lo_ansi : bool;
  lo_file : option text;
}.

Definition init_logging {L : LogHost} (c : Config) : run logging :=
  let env_filter := default (log_level c) rust_log in
  match c_log_file c with
  | Some path => if opens_append path then Done (mkLogging env_filter false (Some path)) else Panic
  | None =>
      let use_ansi := stderr_is_terminal && negb windows in
      Done (mkLogging env_filter use_ansi None)
  end.

Section main.
Context {A : Clap} {L : LogHost}.
Context {C : Crypto} {U : OutboundCrates} {N : Network} {K : Sockets} {T : TlsClient} {P : HttpParser} {H : Hex}.
Context {I : ProbeIO} {HO : Host} (usize_max : Z).

(** How far the process gets: clap ended it, it ended with an exit code and a
    line on stderr, or it serves. *)
Inductive process : Type :=
| UsageExit (e : text)
| Exits (code : Z) (stderr : option text)
| ServesAs (log : logging) (s : serving).

(** The arms of [main]'s match on what [server::run] returned. *)
Definition main_stderr (r : unit + RunError) : option text :=
  match r with
  | inl _ => None
  | inr CheckFailed => None
  | inr (InvalidOutbound e) => Some (txt "invalid outbound proxy config: " ++ e)
  | inr e => Some (run_error_text e)
  end.

Definition main (random16 : bytes) (args : list text) (st : probing) : run process :=
  let! parsed := from_args usize_max env_value random16 args in
  match parsed with
  | Failure e => Done (UsageExit e)
  | Success nc =>
      let '(c, _, _) := nc in
      let! log := init_logging c in
      let! r := startup usize_max nc st in
      let '(r, _) := r in
      match r with
      | Ended r => Done (Exits (exit_code r) (main_stderr r))
      | Serves s => Done (ServesAs log s)
      end
  end.
End main.

(** ** Lemmas *)
Section main_lemmas.
Context {C : Crypto} {U : OutboundCrates} {N : Network} {K : Sockets} {T : TlsClient} {P : HttpParser} {H : Hex}.
Context {I : ProbeIO} {HO : Host} (usize_max : Z).

(** A [--check] run without the listener: the settings are good, and the probes
    of the configuration, with whatever default domains it fetched, end with
    the verdict [ok]. *)
Definition checked (c : Config) (secrets : list bytes) (domain : option text) (st : probing) (ok : bool) : Prop :=
  c_check c = true /\ c_check_listener c = false /\
  exists outbound fetched events lines sum st',
    outbound_connector c = Done (Success outbound) /\
    fetch_stage usize_max c outbound = Done (Some (extend_cf_domains fetched c, events)) /\
    validate_pinned_upstreams (extend_cf_domains fetched c) = None /\
    run_check_with_outbound usize_max (extend_cf_domains fetched c) (secret_bytes secrets) domain outbound None st
      = Done (ok, lines, sum, st').

(** Why start-up ends, with the fact each reason reports. *)
Definition end_reason (c : Config) (secrets : list bytes) (domain : option text) (st : probing) (r : unit + RunError) : Prop :=
  match r with
  | inl _ => checked c secrets domain st true
  | inr CheckFailed => checked c secrets domain st false
  | inr (InvalidOutbound e) => outbound_connector c = Done (Failure e)
  | inr (InvalidPin e) => exists fetched pin,
      validate_pinned_upstreams (extend_cf_domains fetched c) = Some pin /\ e = pin_error pin
  | inr (InvalidListenAddress a) =>
      a = bind_host lan_ip c ++ txt ":" ++ dec (c_port c) /\ parse_socket_addr a = None
  | inr (BindError addr e) => tcp_bind addr = Failure e
  end.

(** Binding ends for one of two reasons. *)
Lemma bind_stage_end c secrets domain outbound events r events' :
  bind_stage usize_max c secrets domain outbound events = Done (Ended r, events') ->
  (exists a, r = inr (InvalidListenAddress a) /\ a = bind_host lan_ip c ++ txt ":" ++ dec (c_port c) /\
     parse_socket_addr a = None) \/
  (exists addr e, r = inr (BindError addr e) /\ tcp_bind addr = Failure e).
Proof.
  unfold bind_stage. destruct (parse_socket_addr _) as [addr|] eqn:Ep; [|intros [= <- <-]; left; eauto].
  destruct (tcp_bind addr) as [local|e] eqn:Eb; [|intros [= <- <-]; right; eauto].
  intros (secret & _ & (links & _ & HR)%run_bind_Done)%run_bind_Done. by case_match.
Qed.

Lemma startup_end c secrets domain st r events :
  (forall at_, stops_first at_ = false) ->
  startup usize_max (c, secrets, domain) st = Done (Ended r, events) -> end_reason c secrets domain st r.
Proof.
  intros Hs. unfold startup. intros (out & Ho & HS)%run_bind_Done.
  destruct out as [outbound|e]; [|by injection HS as <- <-].
  apply run_bind_Done in HS as (f & Hf & HS).
  assert (exists fetched ev, f = Some (extend_cf_domains fetched c, ev)) as (fetched & ev & ->).
  { revert Hf. unfold fetch_stage. rewrite Hs. destruct (c_default_domains c).
    - intros (fetched & _ & Hf)%run_bind_Done. injection Hf as <-. eauto.
    - intros [= <-]. exists [], []. by rewrite extend_nil. }
  destruct (validate_pinned_upstreams _) as [pin|] eqn:Ev; [injection HS as <- <-; by exists fetched, pin|].
  cbn [extend_cf_domains c_check c_check_listener] in HS.
  destruct (c_check c && negb (c_check_listener c)) eqn:Ec.
  - apply andb_prop in Ec as [Hc Hl%negb_true_iff]. rewrite Hs in HS.
    apply run_bind_Done in HS as ([[[ok lines] sum] st'] & Er & HS). injection HS as <- <-.
    assert (checked c secrets domain st ok) by (split; [done|]; split; [done|]; by eexists _, _, _, _, _, _).
    by destruct ok.
  - apply bind_stage_end in HS as [(a & -> & ? & ?)|(addr & e & -> & ?)]; done.
Qed.
End main_lemmas.

(** ** Properties *)
Section main_properties.
Context {A : Clap} {L : LogHost}.
Context {C : Crypto} `{!CryptoLaws C} {U : OutboundCrates} {N : Network} {K : Sockets} {T : TlsClient}.
Context {P : HttpParser} {H : Hex} {I : ProbeIO} `{!ProbeIOLaws I} {HO : Host}.
Context (usize_max : Z) (Husize : 2 ^ 32 - 1 <= usize_max).

(** The binary's shutdown future never completes. *)
Definition no_shutdown : Prop := forall at_, stops_first at_ = false.

(** What the user meets of an exit: 0 without a word from a check that passed, 2
    with the parse error of the outbound settings, 1 without a word from a check
    that failed, and 1 with the reason for anything else. *)
Definition exit_explained (c : Config) (secrets : list bytes) (domain : option text) (st : probing) (code : Z)
    (stderr : option text) : Prop :=
  (code = 0 /\ stderr = None /\ checked usize_max c secrets domain st true) \/
  (code = 2 /\ exists e, stderr = Some (txt "invalid outbound proxy config: " ++ e) /\
     outbound_connector c = Done (Failure e)) \/
  (code = 1 /\ stderr = None /\ checked usize_max c secrets domain st false) \/
  (code = 1 /\ exists e, stderr = Some (run_error_text e) /\ end_reason usize_max c secrets domain st (inr e) /\
     e <> CheckFailed /\ forall o, e <> InvalidOutbound o).

Lemma end_explained c secrets domain st r :
  end_reason usize_max c secrets domain st r -> exit_explained c secrets domain st (exit_code r) (main_stderr r).
Proof.
  unfold exit_explained. destruct r as [[]|e]; [by left|].
  destruct e; intros HR; cbn [exit_code main_stderr].
  - right. left. eauto.
  - right. right. right. split; [done|]. by exists (InvalidPin e).
  - right. right. right. split; [done|]. by exists (InvalidListenAddress addr).
  - right. right. right. split; [done|]. by exists (BindError addr source).
  - right. right. by left.
Qed.

(** The ways a parsed command line can panic are ruled out: every secret is
    hexadecimal, the FakeTLS host names of the upstream proxies fit a
    ClientHello, the log file opens, and a semaphore holds the limit. *)
Definition starts_clean (random16 : bytes) (c0 : Config) : Prop :=
  exists c secrets domain, with_defaults random16 c0 = Done (c, secrets, domain) /\ hostnames_ok c /\
    (forall path, c_log_file c = Some path -> opens_append path = true) /\
    max_connections_of usize_max c <= MAX_PERMITS usize_max.

Lemma init_logging_returns c :
  (forall path, c_log_file c = Some path -> opens_append path = true) -> exists log, init_logging c = Done log /\
    lo_file log = c_log_file c /\ (lo_ansi log = true -> lo_file log = None /\ windows = false).
Proof.
  unfold init_logging. destruct (c_log_file c) as [path|]; intros Hp.
  - rewrite Hp by done. by eexists.
  - eexists. split; [done|]. split; [done|]. cbn. intros [? ?%negb_true_iff]%andb_prop. done.
Qed.

(** C21. The whole binary, from the argument vector: on every command line it
    ends at clap's usage message, or reaches one of the documented exit codes
    with the documented message, or serves.  It does not panic as long as every
    secret is hexadecimal, the FakeTLS host names of the upstream proxies have
    at most 65000 bytes, the log file opens and the connection limit fits a
    semaphore.  Exit code 0 comes from a [--check] whose probes passed and from
    nothing else; exit code 1 without a message from one whose probes failed;
    2 means that the outbound proxy settings do not parse; any other reason is
    printed with code 1.  A process that serves runs on the decoded secrets and
    the inbound domain of its settings, which have the types [config_ok]
    states, and never colours a log file. *)
Theorem main_outcomes `{!ClapLaws A} random16 args st :
  no_shutdown ->
  (forall c0, try_parse_from usize_max env_value args = Success c0 -> starts_clean random16 c0) ->
  exists p, main usize_max random16 args st = Done p /\
    match p with
    | UsageExit e => try_parse_from usize_max env_value args = Failure e
    | Exits code stderr => exists c0 c secrets domain,
        try_parse_from usize_max env_value args = Success c0 /\
        with_defaults random16 c0 = Done (c, secrets, domain) /\ exit_explained c secrets domain st code stderr
    | ServesAs log s => exists c0 c fetched,
        try_parse_from usize_max env_value args = Success c0 /\ config_ok usize_max c0 /\
        with_defaults random16 c0 = Done (c, sv_secrets s, sv_listen_domain s) /\
        sv_config s = extend_cf_domains fetched c /\ validate_pinned_upstreams (sv_config s) = None /\
        (exists addr local, parse_socket_addr (bind_host lan_ip c ++ txt ":" ++ dec (c_port c)) = Some addr /\
           tcp_bind addr = Success local /\ sv_addr s = default addr local) /\
        lo_file log = c_log_file c /\ (lo_ansi log = true -> lo_file log = None)
    end.
Proof.
  intros Hs Hclean. unfold main, from_args.
  destruct (try_parse_from usize_max env_value args) as [c0|e] eqn:Ep; [|by eexists].
  destruct (Hclean c0 eq_refl) as (c & secrets & domain & Ed & Hh & Hlog & Hmax). rewrite Ed. cbn [run_bind].
  destruct (init_logging_returns c Hlog) as (log & -> & Hf & Ha). cbn [run_bind].
  destruct (startup_spec usize_max Husize random16 c0 c secrets domain st Ed Hh Hmax) as (r & events & E & HS & _).
  rewrite E. cbn [run_bind]. destruct r as [r|s].
  - eexists. split; [done|]. exists c0, c, secrets, domain. split_and!; [done..|].
    apply end_explained. by eapply startup_end.
  - destruct (HS s eq_refl) as (fetched & Hc & Hsec & Hdom & _ & _ & Hv & _ & Hb & _). eexists. split; [done|].
    exists c0, c, fetched. rewrite Hsec, Hdom. split_and!; try done; first [by eapply cli_config_typed_ok|by intros [? _]%Ha].
Qed.

(** A serving process that was not asked for a check never ends by itself; with
    [--check-listener] it ends with exactly the verdict of the check against its
    own listener, 0 when everything passed and 1 otherwise. *)
Theorem listener_check_exit s st l ok :
  hostnames_ok (sv_config s) -> reply_fits (sv_config s) (Some (sv_addr s)) ->
  loop_reachable (check_verdict (listener_check usize_max s st)) (sv_max_connections s) l ->
  al_phase l = Broken (Some ok) ->
  c_check (sv_config s) = true /\
  (exists lines sum st', run_check_with_outbound usize_max (sv_config s) (secret_bytes (sv_secrets s)) (sv_listen_domain s) (sv_outbound s)
     (Some (sv_addr s)) st = Done (ok, lines, sum, st')) /\
  exit_code (loop_result (Some ok)) = (if ok then 0 else 1).
Proof.
  intros Hh Hfit Hr Hp. pose proof (loop_verdict _ _ _ _ Hr Hp) as Hv. revert Hv. unfold listener_check.
  destruct (c_check (sv_config s)); [|done].
  destruct (run_check_returns usize_max (sv_config s) (secret_bytes (sv_secrets s)) (sv_listen_domain s) (sv_outbound s)
    (Some (sv_addr s)) st Hh Hfit)
    as (ok' & lines & sum & st' & ->). cbn. intros [= ->]. split; [done|]. split; [by eexists _, _, _|by destruct ok].
Qed.

(** The configuration the binary runs with when nothing is given. *)
Definition bare_config (random16 : bytes) : Config :=
  set_normalized false [] [hex_encode random16] DEFAULT_DC_IP_TARGETS default_config.

(** Where it listens: on every interface once a LAN address is known. *)
Definition bare_addr : SocketAddr :=
  mkSocketAddr (V4 (match lan_ip with Some _ => [0; 0; 0; 0] | None => [127; 0; 0; 1] end)) 1443.

Lemma bare_defaults `{!HexLaws H} random16 : bytes_ok random16 -> length random16 = 16%nat ->
  with_defaults random16 default_config = Done (bare_config random16, [random16], None).
Proof.
  intros Hb Hl. unfold with_defaults. cbn [c_secrets default_config set_normalized decode_secrets].
  unfold decode_secret_key. rewrite hex_decode_encode by done. cbn [run_bind].
  rewrite plain_secret_key by done. unfold derive_listen_faketls_domain, primary_secret.
  cbn [set_normalized default_config c_listen_faketls_domain c_secrets]. rewrite hex_decode_encode by done.
  unfold faketls_hostname. by rewrite Hl.
Qed.

Lemma auto_max_bound fd pool dcs : 0 <= pool -> 0 <= dcs -> fd <= MAX_PERMITS usize_max ->
  auto_max_connections usize_max fd pool dcs <= MAX_PERMITS usize_max.
Proof.
  unfold MAX_PERMITS. rewrite Z.shiftr_div_pow2 by lia. intros Hp Hd Hf.
  assert (512 <= usize_max / 2 ^ 3) by (apply Z.div_le_lower_bound; lia).
  unfold auto_max_connections. case_test; [done|]. cbv zeta. apply Z.max_lub; [|unfold MIN_MAX_CONNECTIONS; lia].
  apply Z.div_le_upper_bound; [done|]. unfold saturating_sub, saturating_add, saturating_mul, FDS_PER_CONNECTION,
    RUNTIME_RESERVED_FDS, FDS_PER_POOL_SLOT. assert (0 <= pool * dcs) by nia. lia.
Qed.

Lemma bare_target random16 :
  parse_socket_addr (bind_host lan_ip (bare_config random16) ++ txt ":" ++ dec (c_port (bare_config random16)))
  = Some bare_addr.
Proof. unfold bind_host, bare_addr. cbn [c_host c_port bare_config set_normalized default_config]. by destruct lan_ip. Qed.

Lemma bare_startup random16 st : (forall v, env_value v = None) ->
  startup usize_max (bare_config random16, [random16], None) st
  = bind_stage usize_max (bare_config random16) [random16] None (mkOutboundConfig None None) [].
Proof.
  intros He. unfold startup, outbound_connector, from_sources, select_proxy.
  cbn [c_outbound_proxy c_no_outbound_proxy bare_config set_normalized default_config negb].
  assert (select_env_proxy (map (fun name => (name, env_value name)) PROXY_VARIABLES) = Success None) as ->.
  { unfold PROXY_VARIABLES. cbn [map]. by rewrite !He. }
  done.
Qed.

Lemma bare_main `{!ClapLaws A} `{!HexLaws H} random16 argv0 st local :
  (forall v, env_value v = None) -> bytes_ok random16 -> length random16 = 16%nat ->
  soft_nofile_limit usize_max limits_file <= MAX_PERMITS usize_max -> tcp_bind bare_addr = Success local ->
  exists log s link, main usize_max random16 [argv0] st = Done (ServesAs log s) /\
    sv_config s = bare_config random16 /\ sv_secrets s = [random16] /\ sv_listen_domain s = None /\
    sv_addr s = default bare_addr local /\
    sv_outbound s = mkOutboundConfig None None /\ lo_file log = None /\
    sv_tg_link s = tg_link (default (txt "127.0.0.1") lan_ip) (sa_port (sv_addr s)) link /\
    decode_secret_key link = Done random16.
Proof.
  intros He Hb Hl Hfd Ht. unfold main, from_args.
  rewrite cli_defaults by (done || lia). rewrite bare_defaults by done. cbn [run_bind].
  unfold init_logging. cbn [c_log_file bare_config set_normalized default_config run_bind].
  rewrite bare_startup by done.
  destruct (link_secret_same_key None (hex_encode random16) random16) as (link & El & Ek & _);
    [by apply hex_decode_encode|done|by left|].
  unfold bind_stage. rewrite bare_target, Ht. unfold link_secret, primary_secret.
  cbn [c_secrets bare_config set_normalized]. rewrite El. cbn [run_bind drop user_links].
  rewrite (proj2 (Z.ltb_ge _ _)) by (apply auto_max_bound; [done|lia|done]). cbn [run_bind].
  eexists _, _, link. split; [done|]. cbn. split_and!; try done.
  - unfold link_host. cbn. unfold bind_host. cbn. by destruct lan_ip.
  - rewrite Ek. unfold decode_secret_key. rewrite hex_decode_encode by done. by rewrite plain_secret_key.
Qed.

(** The binary started with no argument and no variable in its environment
    serves: it listens on port 1443, on every interface when a LAN address is
    found and on the loopback address otherwise, dials Telegram directly with
    the built-in addresses of DC 2 and DC 4, has drawn one random secret, and
    announces a link whose secret decodes to exactly that key. *)
Theorem bare_start_serves `{!ClapLaws A} `{!HexLaws H} random16 argv0 st local :
  (forall v, env_value v = None) -> bytes_ok random16 -> length random16 = 16%nat ->
  soft_nofile_limit usize_max limits_file <= MAX_PERMITS usize_max ->
  tcp_bind bare_addr = Success local ->
  exists log s link, main usize_max random16 [argv0] st = Done (ServesAs log s) /\
    sv_addr s = default bare_addr local /\ oc_proxy (sv_outbound s) = None /\
    c_secrets (sv_config s) = [hex_encode random16] /\
    (forall dc, dc_redirects (sv_config s) !! dc =
       if bool_decide (dc = 2 \/ dc = 4) then Some (txt "149.154.167.220") else None) /\
    c_check (sv_config s) = false /\ lo_file log = None /\
    sv_tg_link s = tg_link (default (txt "127.0.0.1") lan_ip) (sa_port (sv_addr s)) link /\
    decode_secret_key link = Done random16.
Proof.
  intros He Hb Hl Hfd Ht.
  destruct (bare_main random16 argv0 st local He Hb Hl Hfd Ht) as (log & s & link & E & Hc & _ & _ & Ha & Ho & Hf & Htg & Hk).
  exists log, s, link. rewrite Hc, Ho. split_and!; try done.
  intros dc. unfold dc_redirects. cbn. rewrite !lookup_insert, lookup_empty.
  repeat case_decide; repeat case_bool_decide; naive_solver.
Qed.
End main_properties.

(** ** Empty secrets *)
Section empty_secret.
Context {A : Clap} {C : Crypto} `{!CryptoLaws C} {H : Hex} `{!HexLaws H}.

Lemma decode_secrets_elem ss ks s :
  decode_secrets ss = Done ks -> s ∈ ss -> exists k, decode_secret_key s = Done k /\ k ∈ ks.
Proof.
  revert ks. induction ss as [|s' ss IH]; intros ks; cbn [decode_secrets]; [set_solver|].
  intros (k & Hk & (ks' & Hks & [= <-])%run_bind_Done)%run_bind_Done [<-|Hs]%elem_of_cons; [set_solver|].
  destruct (IH ks' Hks Hs) as (k' & ? & ?). set_solver.
Qed.

Lemma decode_empty : decode_secret_key [] = Done [].
Proof.
  assert (hex_encode [] = []) as E.
  { apply length_zero_iff_nil. by rewrite (hex_decode_length _ [] (hex_decode_encode [] ltac:(constructor))). }
  unfold decode_secret_key. rewrite <- E at 1. by rewrite hex_decode_encode by constructor.
Qed.

Lemma cli_secrets usize_max given env c : config_of usize_max given env = Success c ->
  c_secrets c = flat_map (split 44) (default [] (raw_values given env "secret" (Some "TG_SECRET") None)).
Proof.
  unfold config_of. intros HC. inv_results. simplify_eq. cbn [assemble c_secrets].
  match goal with HL : listen_args _ _ _ = _ |- _ => unfold listen_args in HL; inv_results; simplify_eq end.
  cbn [ls_secrets]. match goal with HS : values _ _ _ _ "secret" _ = _ |- _ =>
    unfold values in HS; rewrite parse_all_text in HS; by injection HS as <- end.
Qed.

(** C35. An empty entry among the secrets, from a stray comma or a variable set
    to nothing, is not dropped: it decodes to the empty key, which joins the
    keys the proxy accepts, so every handshake made with no secret at all is
    accepted, for any DC and transport. *)
Theorem empty_secret_accepts usize_max env args given random16 c0 c secrets domain :
  given_values args = Success given ->
  [] ∈ flat_map (split 44) (default [] (raw_values given env "secret" (Some "TG_SECRET") None)) ->
  try_parse_from usize_max env args = Success c0 -> with_defaults random16 c0 = Done (c, secrets, domain) ->
  [] ∈ secrets /\
  forall dc_idx proto tape hs enc dec tape', i16_ok dc_idx ->
    generate_client_handshake [] dc_idx proto tape = Done (hs, enc, dec, tape') ->
    exists info secret, secret ∈ secrets /\ find_handshake hs secrets = Done (Some (info, secret)).
Proof.
  intros Hg He Hp Hd. unfold try_parse_from in Hp. rewrite Hg in Hp. cbn [result_bind] in Hp.
  apply cli_secrets in Hp. rewrite <- Hp in He. unfold with_defaults in Hd.
  apply run_bind_Done in Hd as (ks & Hks & Hd). cbn [c_secrets set_normalized] in Hks.
  assert (secrets = ks) as -> by (by injection Hd as _ <- _).
  destruct (decode_secrets_elem _ ks [] Hks) as (k & Hk & Hin); [by destruct (c_secrets c0); [set_solver|]|].
  rewrite decode_empty in Hk. injection Hk as <-. split; [done|].
  intros dc_idx proto tape hs enc dec tape' Hdc HG.
  destruct (client_handshake_fields_parse [] dc_idx proto tape hs enc dec tape' Hdc HG) as [Lh Hparse].
  by eapply find_handshake_accepts.
Qed.
End empty_secret.

(** ** Witnesses *)
Definition demo_log : LogHost := {|
  rust_log := None;
  opens_append _ := true;
  stderr_is_terminal := true;
  windows := false;
|}.

Definition demo_main (args : list text) : run process :=
  main (A := plain_clap) (L := demo_log) (C := toy_crypto) (U := demo_crates) (N := demo_network) (K := demo_sockets)
    (T := demo_tls) (P := demo_parser) (H := plain_hex) (I := demo_probes) (HO := demo_host) (2 ^ 64 - 1)
    (seqZ 1 16) args demo_probing.

(** Command lines that end every way. *)
Example demo_endings :
  demo_main [txt "tg-ws-proxy"; txt "--port=http"] = Done (UsageExit (txt "invalid value for --port")) /\
  demo_main [txt "tg-ws-proxy"; txt "--host=::"] = Done (Exits 1 (Some (txt "invalid listen address: :::1443"))) /\
  demo_main [txt "tg-ws-proxy"; txt "--outbound-proxy=gopher"] <> demo_main [txt "tg-ws-proxy"] /\
  demo_main [txt "tg-ws-proxy"; txt "--secret=xyz"] = Panic.
Proof. split_and!; try (vm_compute; reflexivity). vm_compute. discriminate. Qed.

(** A check of one Cloudflare domain that passes. *)
Definition demo_check_args : list text := [txt "tg-ws-proxy"; txt "--check"; txt "--cf-domain=cf.example"].

Example demo_check_exit : demo_main demo_check_args = Done (Exits 0 None).
Proof. vm_compute. reflexivity. Qed.

Lemma main_outcomes_witness : exists c secrets domain,
  checked (C := toy_crypto) (U := demo_crates) (N := demo_network) (K := demo_sockets) (T := demo_tls) (P := demo_parser)
    (I := demo_probes) (HO := demo_host) (2 ^ 64 - 1) c secrets domain demo_probing true.
Proof.
  destruct (@main_outcomes plain_clap demo_log toy_crypto toy_crypto_laws demo_crates demo_network demo_sockets demo_tls
    demo_parser plain_hex demo_probes demo_probes_laws demo_host (2 ^ 64 - 1) ltac:(lia) plain_clap_laws
    (seqZ 1 16) demo_check_args demo_probing) as (p & E & HP).
  - intros at_. reflexivity.
  - intros c0 Hc. vm_compute in Hc. injection Hc as <-. eexists _, _, _. split; [vm_compute; reflexivity|].
    split_and!; [constructor|discriminate|apply Z.leb_le; vm_compute; reflexivity].
  - pose proof demo_check_exit as HX. unfold demo_main in HX. rewrite E in HX. injection HX as ->.
    destruct HP as (c0 & c & secrets & domain & _ & _ & HP). exists c, secrets, domain.
    destruct HP as [(_ & _ & HC)|[(H2 & _)|[(H1 & _)|(H1 & _)]]]; [exact HC|discriminate..].
Defined.

Lemma bare_start_serves_witness : exists log s,
  demo_main [txt "tg-ws-proxy"] = Done (ServesAs log s) /\ sa_port (sv_addr s) = 1443.
Proof.
  destruct (@bare_start_serves plain_clap demo_log toy_crypto demo_crates demo_network demo_sockets demo_tls
    demo_parser plain_hex demo_probes demo_host (2 ^ 64 - 1) ltac:(lia) plain_clap_laws plain_hex_laws
    (seqZ 1 16) (txt "tg-ws-proxy") demo_probing None) as (log & s & link & E & Ha & _).
  - reflexivity.
  - repeat constructor; lia.
  - reflexivity.
  - apply Z.leb_le. vm_compute. reflexivity.
  - reflexivity.
  - exists log, s. rewrite Ha. split; [exact E|reflexivity].
Defined.

(** [TG_SECRET] ends in a comma. *)
Definition comma_env (v : text) : option text :=
  if teq v (txt "TG_SECRET") then Some (txt "00112233445566778899aabbccddeeff,") else None.

Lemma empty_secret_accepts_witness : exists info secret, secret ∈ demo_secret_keys ++ [[]] /\
  find_handshake (C := toy_crypto)
    (match generate_client_handshake (C := toy_crypto) [] 2 Intermediate demo_tape with
     | Done (hs, _, _, _) => hs | _ => [] end) (demo_secret_keys ++ [[]]) = Done (Some (info, secret)).
Proof.
  destruct (@empty_secret_accepts plain_clap toy_crypto toy_crypto_laws plain_hex plain_hex_laws (2 ^ 64 - 1) comma_env
    [txt "tg-ws-proxy"] (plain_given []) (seqZ 1 16)
    (match try_parse_from (K := plain_clap) (H := plain_hex) (2 ^ 64 - 1) comma_env [txt "tg-ws-proxy"] with
     | Success c => c | Failure _ => demo_config end)
    (match with_defaults (H := plain_hex) (seqZ 1 16)
       (match try_parse_from (K := plain_clap) (H := plain_hex) (2 ^ 64 - 1) comma_env [txt "tg-ws-proxy"] with
        | Success c => c | Failure _ => demo_config end) with
     | Done (c, _, _) => c | _ => demo_config end)
    (demo_secret_keys ++ [[]]) None) as [_ HG].
  - reflexivity.
  - vm_compute. right. left.
  - vm_compute. reflexivity.
  - vm_compute. reflexivity.
  - eapply (HG 2 Intermediate demo_tape); [split; [lia|reflexivity]|vm_compute; reflexivity].
Defined.
