(* ===== verification/System.v ===== *)
(** * The process: all clients over one shared state

    [Routing] and [Handler] follow one client and let the others change the
    shared state around every await.  Here the circle is closed.  [proc_step] is
    what a task may do to that state in one uninterrupted piece.  It is a
    specification: [client_guarantees] proves of [handle_client] that a client
    whose environment moves by such steps moves by such steps itself, so what
    holds along them holds for any number of clients.  [system_step] puts the
    accept loop of [Server] over the state: a connection task gives its permit
    back when its run of [handle_client] is over, and not before. *)
From Stdlib Require Import String.
From stdpp Require Import gmap relations.
From S2P Require Import Prelude Text Ip Outbound CryptoApi Crypto Splitter FakeTls Config Limits WsClient Pool.
From S2P Require Import Session Bridge Routing Handler Check Server.

Local Open Scope Z_scope.

(** A dial takes time, never gives it back. *)
Class NetworkLaws (N : Network) : Prop := dial_time_nonneg n d : 0 <= dial_time n d.

(** ** Steps of the shared state *)
Section steps.
Context {C : Crypto} {N : Network} (usize_max : Z) (has_message : stream -> Z -> bool) (rt : Runtime) (config : Config).

Definition timeouts : Timeouts := timeouts_from_config config.

(** The dialling state: a dial, a turn of the edge rotation, and what the
    outcome of a dial does to the edge's cooldown. *)
Inductive net_step : net -> net -> Prop :=
| ns_dial d spent n : 0 <= spent -> net_step n (after_dial d spent n)
| ns_rotate r n : net_step n (set_rotation r n)
| ns_edge_clear b ip n : net_step n (set_edge_fail b (cooldown_clear ip (edge_fail b n)) n)
| ns_edge_cool b ip n :
    net_step n (set_edge_fail b (cooldown_set (n_now n) ip (to_cf_fail_cooldown timeouts) (edge_fail b n)) n).

(** A cooldown map: an entry set for one of the configured times, or cleared. *)
Inductive cooled {K} `{Countable K} (times : list Z) (now : Z) : CooldownMap K -> CooldownMap K -> Prop :=
| cooled_set k t m : t ∈ times -> cooled times now m (cooldown_set now k t m)
| cooled_clear k m : cooled times now m (cooldown_clear k m).

Definition ws_times : list Z := [to_ws_redirect_cooldown timeouts; to_ws_fail_cooldown timeouts].

Inductive proc_step : world -> world -> Prop :=
| ps_pool w p : pool_step usize_max has_message rt (cf_asked config) (w_pool w) p -> proc_step w (set_pool p w)
| ps_net w n : net_step (w_net w) n -> proc_step w (set_net n w)
| ps_ws_fail w m : cooled ws_times (now w) (w_ws_fail w) m -> proc_step w (set_ws_fail m w)
| ps_ip_fail w m : cooled [to_ip_fail_cooldown timeouts] (now w) (w_ip_fail w) m -> proc_step w (set_ip_fail m w)
| ps_upstream_fail w m :
    cooled [to_upstream_fail_cooldown timeouts] (now w) (w_upstream_fail w) m -> proc_step w (set_upstream_fail m w)
| ps_worker_fail w m :
    cooled [to_cf_fail_cooldown timeouts] (now w) (w_cf_worker_fail w) m -> proc_step w (set_cf_worker_fail m w)
| ps_balance w n : proc_step w (set_cf_balance n w)
| ps_worker_balance w n : proc_step w (set_cf_worker_balance n w)
| ps_await w :
    proc_step w (mkWorld (w_net w) (w_pool w) (w_ws_fail w) (w_ip_fail w) (w_upstream_fail w) (w_cf_worker_fail w)
                   (w_cf_balance w) (w_cf_worker_balance w) (S (w_tick w))).

(** The process before its first client. *)
Definition world_init (pool_size : nat) (max_age now : Z) : world :=
  mkWorld (mkNet now [] 0 None None) (pool_init pool_size max_age config) None None None None 0 0 0.

(** The other tasks of the process, seen from one client. *)
Class ProcessOutside (O : Outside) : Prop := {
  others_steps n w : rtc proc_step w (others n w);
  process_random n : random_ok 32 (up_random n);
}.
End steps.

(** ** Lemmas: dialling *)
Section dialling.
Context {N : Network} `{!NetworkLaws N} (usize_max : Z) (config : Config).
Abbreviation cd := (to_cf_fail_cooldown (timeouts config)).

Lemma path_steps ip domain path binary skip timeout sni disable_tls w r w' :
  connect_ws_with_path ip domain path binary skip timeout sni disable_tls w = (r, w') -> rtc (net_step config) w w'.
Proof. rewrite connect_ws_outcome. intros. simplify_eq. apply rtc_once, ns_dial, dial_time_nonneg. Qed.

Lemma domains_steps domains ip skip timeout sni a u k w r w' :
  ws_domain_loop domains ip skip timeout sni a u k w = (r, w') -> rtc (net_step config) w w'.
Proof.
  revert a u k w. induction domains as [|domain domains IH]; intros a u k w; cbn [ws_domain_loop]; intros H.
  { simplify_eq. apply rtc_refl. }
  destruct (connect_ws_with_path _ _ _ _ _ _ _ _ w) as [x w1] eqn:E. apply path_steps in E.
  destruct x; [simplify_eq; exact E|by etrans; [exact E|eapply IH]..].
Qed.

Lemma edges_steps attempts domain path binary skip timeout opts lnr lr w r w' :
  o_fail_cooldown opts = cd ->
  cf_edge_loop attempts domain path binary skip timeout opts lnr lr w = Done (r, w') -> rtc (net_step config) w w'.
Proof.
  intros Hcd. revert lnr lr w. induction attempts as [|ip attempts IH]; intros lnr lr w; cbn [cf_edge_loop]; intros H.
  { repeat case_match; simplify_eq; apply rtc_refl. }
  destruct (connect_ws_with_path _ _ _ _ _ _ _ _ w) as [x w1] eqn:E. apply path_steps in E.
  etrans; [exact E|]. destruct x; [simplify_eq; apply rtc_once, ns_edge_clear|..];
    apply IH in H; (etrans; [|exact H]).
  1, 2, 4: apply rtc_once, ns_edge_clear.
  rewrite Hcd. destruct (connects_directly _ _); [apply rtc_once, ns_edge_cool|apply rtc_refl].
Qed.

Lemma cf_path_steps domain path binary skip timeout opts w r w' :
  o_fail_cooldown opts = cd ->
  connect_cf_with_path usize_max domain path binary skip timeout opts w = Done (r, w') -> rtc (net_step config) w w'.
Proof.
  intros Hcd. unfold connect_cf_with_path. destruct (o_cf_ips opts) as [|ip ips].
  { intros [= H]. by eapply path_steps. }
  destruct (cf_ip_start usize_max (ip :: ips) w) as [first w0] eqn:Es. intros H.
  apply edges_steps in H; [|done]. etrans; [|exact H].
  unfold cf_ip_start in Es. case_match; simplify_eq; [apply rtc_refl|apply rtc_once, ns_rotate].
Qed.

Lemma cf_domains_steps fuel a skip timeout opts ar w r w' :
  o_fail_cooldown opts = cd ->
  cf_domain_loop usize_max fuel a skip timeout opts ar w = Done (r, w') -> rtc (net_step config) w w'.
Proof.
  intros Hcd. revert a ar w. induction fuel as [|fuel IH]; intros a ar w H; cbn [cf_domain_loop] in H;
    (destruct (next_domain a) as [[host|] a1]; [|simplify_eq; apply rtc_refl]); [done|].
  apply run_bind_Done in H as ([x w1] & E & H). apply cf_path_steps in E; [|done].
  etrans; [exact E|]. destruct x; [simplify_eq; apply rtc_refl|by eapply IH..].
Qed.
End dialling.

(** ** Lemmas: a client's own steps *)
Section guarantee.
Context {C : Crypto} {N : Network} `{!NetworkLaws N} (usize_max : Z) (has_message : stream -> Z -> bool) (rt : Runtime)
  (config : Config) {O : Outside} `{!ProcessOutside usize_max has_message rt config O}.
Abbreviation step := (proc_step usize_max has_message rt config).

(** Every run of [m] is a sequence of steps of the process. *)
Definition guarantees {A} (m : world -> run (A * world)) : Prop :=
  forall w a w', m w = Done (a, w') -> rtc step w w'.

(** The client belongs to this process. *)
Definition route_ok (r : Route) : Prop := r_config r = config /\ r_timeouts r = timeouts config.

(** Where its DC is, and so what its Cloudflare tiers dial. *)
Abbreviation dc_target r := (dc_target_ip config (r_dc r)).

Lemma route_ok_asks r : route_ok r -> route_asks (cf_asked config) r (dc_target r).
Proof. intros [<- _]. apply route_asks_config. Qed.

Lemma yield_steps w : rtc step w (yield w).
Proof. eapply rtc_l; [apply ps_await|]. unfold yield. by apply (others_steps usize_max has_message rt config). Qed.

Lemma net_steps w n : rtc (net_step config) (w_net w) n -> rtc step w (set_net n w).
Proof.
  intros H. remember (w_net w) as n0 eqn:E. revert w E. induction H as [n0|n0 n1 n2 H1 _ IH]; intros w ->.
  { destruct w. apply rtc_refl. }
  eapply rtc_l; [by apply ps_net|]. specialize (IH (set_net n1 w) eq_refl). exact IH.
Qed.

Lemma await_net_guarantees {A} (f : net -> run (A * net)) :
  (forall n a n', f n = Done (a, n') -> rtc (net_step config) n n') -> guarantees (await_net f).
Proof.
  intros Hf w a w' H. unfold await_net in H. apply run_bind_Done in H as ([x n] & E & H). simplify_eq.
  etrans; [apply yield_steps|]. etrans; [apply net_steps, (Hf _ _ _ E)|]. apply yield_steps.
Qed.

Lemma await_pool_steps {A} (f : Z -> WsPool -> A * WsPool) w a w' :
  (forall t p, pool_step usize_max has_message rt (cf_asked config) p (f t p).2) -> await_pool f w = (a, w') -> rtc step w w'.
Proof.
  intros Hf. unfold await_pool. intros H. etrans; [apply yield_steps|].
  pose proof (Hf (now (yield w)) (w_pool (yield w))) as Hp. destruct (f _ _) as [x p]. simplify_eq.
  eapply rtc_l; [by apply ps_pool|]. apply yield_steps.
Qed.

(** One atomic step of the client's own code. *)
Lemma then_step w w1 w2 : step w w1 -> rtc step w1 w2 -> rtc step w w2.
Proof. apply rtc_l. Qed.

Lemma direct_ws_guarantees r target_ip : route_ok r -> guarantees (direct_ws rt r target_ip).
Proof.
  intros [_ Ht] w a w' H. unfold direct_ws in H. apply run_bind_Done in H as ([att w1] & E & H).
  assert (rtc step w w1) as H1.
  { eapply await_net_guarantees; [|exact E]. intros n x n' Hn. injection Hn as Hn. by eapply domains_steps. }
  etrans; [exact H1|]. destruct (at_ws att) as [ws|].
  - simplify_eq. eapply then_step; [apply ps_ws_fail, cooled_clear|].
    apply rtc_once, ps_ip_fail, cooled_clear.
  - injection H as _ <-. apply (then_step _ (cool_down_ws r (at_all_redirects att) w1)).
    + unfold cool_down_ws. apply ps_ws_fail, cooled_set. rewrite Ht. unfold ws_times. case_match; set_solver.
    + case_match; [|apply rtc_refl]. apply rtc_once. unfold cool_down_ip. apply ps_ip_fail, cooled_set.
      rewrite Ht. set_solver.
Qed.

Lemma direct_tier_guarantees r target_ip : route_ok r -> guarantees (direct_ws_tier has_message rt r target_ip).
Proof.
  intros Hr w a w' H. unfold direct_ws_tier in H.
  destruct (await_pool _ w) as [pooled w1] eqn:E. apply await_pool_steps in E; [|intros; apply step_get].
  etrans; [exact E|]. destruct pooled; [simplify_eq; apply rtc_refl|].
  apply run_bind_Done in H as ([ws w2] & E2 & H). simplify_eq. by eapply direct_ws_guarantees.
Qed.

Lemma worker_loop_guarantees r dst force domains :
  route_ok r -> pinned_dst r (dc_target r) = Some dst ->
  (forall d, d ∈ domains -> d ∈ c_cf_worker_domains (r_config r)) ->
  guarantees (cf_worker_loop usize_max rt r dst force domains).
Proof.
  intros Hr Hdst. pose proof (route_ok_asks r Hr) as [HA _]. destruct Hr as [Hc Ht].
  induction domains as [|d domains IH]; intros Hin w a w' H; cbn [cf_worker_loop] in H.
  { simplify_eq. apply rtc_refl. }
  assert (d ∈ c_cf_worker_domains (r_config r)) as Hd by (apply Hin; set_solver).
  assert (forall x, x ∈ domains -> x ∈ c_cf_worker_domains (r_config r)) as Hin' by (intros; apply Hin; set_solver).
  case_match; [by eapply IH|]. apply run_bind_Done in H as ([ws w1] & E & H).
  etrans; [eapply await_net_guarantees; [|exact E]|].
  { intros n x n' Hn. unfold connect_cf_worker_ws_for_dc_with_outbound_opts in Hn.
    apply run_bind_Done in Hn as ([y n1] & En & Hn).
    apply (cf_path_steps usize_max config) in En; [|cbn; by rewrite Ht]. destruct y; by simplify_eq. }
  destruct ws as [ws|].
  - set (w2 := set_cf_worker_fail _ w1) in H.
    destruct (cf_target_of usize_max r Worker dst d (c_cf_worker_domains (r_config r)) (w_cf_worker_balance w2)) as (d' & Et & Hd');
      [by intros En; rewrite En in Hd; apply not_elem_of_nil in Hd|].
    destruct (cf_target _ _ _ _ _ _ _) as [target counter]. cbn [fst] in Et. subst target. simplify_eq.
    eapply then_step; [apply ps_worker_fail, cooled_clear|].
    eapply then_step; [apply ps_worker_balance|]. apply rtc_once, ps_pool, step_cf_prefetch, HA; [|done].
    by destruct Hd' as [->|[_ ?]].
  - apply IH in H; [|done]. refine (then_step _ _ _ _ H). apply ps_worker_fail, cooled_set. rewrite Ht. set_solver.
Qed.

Lemma cf_worker_guarantees r dst force :
  route_ok r -> pinned_dst r (dc_target r) = Some (default dst (default_dc_ip (r_dc r))) ->
  guarantees (cf_worker usize_max has_message rt r dst force).
Proof.
  intros Hr Hdst w a w' H. unfold cf_worker in H. destruct (c_cf_worker_domains _) as [|d ds] eqn:Ed; [simplify_eq; apply rtc_refl|].
  destruct (await_pool _ w) as [hit w1] eqn:E. apply await_pool_steps in E; [|intros; apply step_cf_get].
  etrans; [exact E|]. destruct hit as [[ws domain]|]; [simplify_eq; apply rtc_refl|].
  destruct (balance_offset _ _ _ _) as [first counter]. apply worker_loop_guarantees in H; [|done|done|].
  - eapply then_step; [apply ps_worker_balance|exact H].
  - intros x Hx. rewrite Ed. by apply domain_order_elem in Hx.
Qed.

Lemma cf_proxy_guarantees r : route_ok r -> guarantees (cf_proxy usize_max has_message rt r).
Proof.
  intros Hr w a w' H. pose proof (route_ok_asks r Hr) as [_ HA]. unfold cf_proxy in H.
  destruct (c_cf_domains (r_config r)) as [|d ds] eqn:Ed; [simplify_eq; apply rtc_refl|].
  destruct (balance_offset _ _ _ _) as [first counter].
  destruct (await_pool _ _) as [hit w1] eqn:E. apply await_pool_steps in E; [|intros; apply step_cf_get].
  eapply then_step; [apply ps_balance|]. etrans; [exact E|].
  destruct hit as [[ws domain]|]; [simplify_eq; apply rtc_refl|].
  apply run_bind_Done in H as ([[[ws host] ar] w2] & E2 & H).
  etrans; [eapply await_net_guarantees; [|exact E2]|].
  { intros n x n' Hn. eapply cf_domains_steps; [|exact Hn]. cbn. by destruct Hr as [_ ->]. }
  destruct ws as [ws|], host as [host|]; try (simplify_eq; apply rtc_refl).
  assert (exists zone, zone ∈ d :: ds /\ host = kws_record (r_dc r) zone) as (zone & Hz & ->).
  { unfold await_net in E2. apply run_bind_Done in E2 as ([x n] & En & E2).
    injection E2 as -> _. rewrite cf_ordered_walk in En.
    match type of En with cf_walk ?a ?b ?c ?d ?e ?f ?g = _ =>
      destruct (cf_walk_connected a b c d e f g) as (o & h & ar' & n' & Ew & Hw) end.
    rewrite Ew in En. simplify_eq. destruct (Hw ws eq_refl) as (h' & [= <-] & Hh & _).
    apply list_elem_of_fmap in Hh as (zone & -> & Hz). exists zone. split; [|done].
    apply distinct_elem in Hz. by apply domain_order_elem in Hz. }
  destruct (HA zone Hz) as [HA1 _].
  destruct (cf_target_of usize_max r Proxy [] (kws_record (r_dc r) zone) (d :: ds) (w_cf_balance w2)) as (d' & Et & Hd'); [done|].
  destruct (cf_target _ _ _ _ _ _ _) as [target counter']. cbn [fst] in Et. subst target. simplify_eq.
  eapply then_step; [apply ps_balance|]. apply rtc_once, ps_pool, step_cf_prefetch.
  destruct Hd' as [->|[Hb Hd']]; [done|by apply HA].
Qed.

Lemma upstreams_guarantees r force proxies : route_ok r -> guarantees (upstream_loop r force proxies).
Proof.
  intros [_ Ht]. induction proxies as [|p proxies IH]; intros w a w' H; cbn [upstream_loop] in H.
  { simplify_eq. apply rtc_refl. }
  case_match; [by eapply IH|]. apply run_bind_Done in H as ([conn w1] & E & H).
  unfold await_upstream in E. apply run_bind_Done in E as ([x tape] & _ & E). simplify_eq.
  etrans; [apply yield_steps|]. etrans; [apply yield_steps|]. destruct conn as [conn|].
  - simplify_eq. apply rtc_once, ps_upstream_fail, cooled_clear.
  - apply IH in H. refine (then_step _ _ _ _ H). apply ps_upstream_fail, cooled_set. rewrite Ht. set_solver.
Qed.

Lemma fallback_guarantees r dst :
  route_ok r -> pinned_dst r (dc_target r) = Some (default dst (default_dc_ip (r_dc r))) ->
  guarantees (fallback_chain usize_max has_message rt r dst).
Proof.
  intros Hr Hdst w a w' H. unfold fallback_chain, cf_tiers in H. apply run_bind_Done in H as ([up w1] & E & H).
  apply run_bind_Done in E as ([ws w2] & E2 & E). apply cf_worker_guarantees in E2; [|done..].
  etrans; [exact E2|]. destruct ws; [simplify_eq; apply rtc_refl|].
  apply run_bind_Done in E as ([ws w3] & E3 & E). apply cf_proxy_guarantees in E3; [|done]. simplify_eq.
  etrans; [exact E3|]. destruct ws; [simplify_eq; apply rtc_refl|].
  apply run_bind_Done in H as ([conn w4] & E4 & H). apply upstreams_guarantees in E4; [|done]. by simplify_eq.
Qed.

Lemma pinned_guarantees r tiers :
  route_ok r -> guarantees (pinned_ladder usize_max has_message rt r tiers (dc_target r)).
Proof.
  intros Hr. set (target_ip := dc_target r). induction tiers as [|tier tiers IH]; intros w a w' H; cbn [pinned_ladder] in H.
  { simplify_eq. apply rtc_refl. }
  apply run_bind_Done in H as ([up w1] & E & H).
  assert (rtc step w w1) as H1.
  { destruct tier; cbn [pinned_tier] in E.
    - destruct target_ip; [by eapply direct_tier_guarantees|simplify_eq; apply rtc_refl].
    - destruct (pinned_dst _ _) as [dst|] eqn:Ed; [|simplify_eq; apply rtc_refl].
      apply run_bind_Done in E as ([ws w2] & E & H2). simplify_eq. eapply cf_worker_guarantees; [done| |done].
      fold target_ip. rewrite Ed. unfold pinned_dst in Ed. destruct (default_dc_ip (r_dc r)); by simplify_eq.
    - apply run_bind_Done in E as ([ws w2] & E & H2). simplify_eq. by eapply cf_proxy_guarantees.
    - apply run_bind_Done in E as ([conn w2] & E & H2). simplify_eq. by eapply upstreams_guarantees.
    - destruct (pinned_dst _ _); simplify_eq; apply rtc_refl. }
  etrans; [exact H1|]. destruct up; [simplify_eq; apply rtc_refl|by eapply IH].
Qed.

Lemma select_guarantees r : route_ok r -> guarantees (select_upstream usize_max has_message rt r (dc_target r)).
Proof.
  intros Hr w a w' H. unfold select_upstream in H.
  destruct (forced_upstreams _ _) as [tiers|]; [by eapply pinned_guarantees|].
  assert (forall dst, (dc_target r = Some dst \/ (dc_target r = None /\ default_dc_ip (r_dc r) = Some dst)) ->
    pinned_dst r (dc_target r) = Some (default dst (default_dc_ip (r_dc r)))) as Hdst
    by (unfold pinned_dst; intros dst [->|[-> ->]]; [by destruct (default_dc_ip (r_dc r))|done]).
  destruct (dc_target r) as [ip|] eqn:Et; rewrite <- Et in Hdst.
  - apply run_bind_Done in H as ([up w1] & E & H).
    set (cooling := cooldown_active _ _ _ && _) in E, H.
    assert (rtc step w w1) as H1 by (destruct cooling; [eapply fallback_guarantees; [done|apply Hdst; by left|done]|simplify_eq; apply rtc_refl]).
    etrans; [exact H1|]. destruct up; [simplify_eq; apply rtc_refl|].
    apply run_bind_Done in H as ([up w2] & E2 & H). apply direct_tier_guarantees in E2; [|done].
    etrans; [exact E2|]. destruct up; [simplify_eq; apply rtc_refl|].
    destruct cooling; [simplify_eq; apply rtc_refl|].
    apply run_bind_Done in H as ([up w3] & E3 & H). apply fallback_guarantees in E3; [|done|apply Hdst; by left]. by simplify_eq.
  - destruct (default_dc_ip (r_dc r)) as [fb|] eqn:Ed; [|simplify_eq; apply rtc_refl].
    apply run_bind_Done in H as ([up w1] & E & H). simplify_eq. eapply fallback_guarantees; [done| |done].
    rewrite Ed. apply Hdst. by right.
Qed.

Lemma client_guarantees ws_ends tcp_dial secrets listen_domain tcp tape w s e w' :
  handle_client usize_max has_message rt ws_ends tcp_dial config secrets listen_domain tcp tape w = Done (s, e, w') ->
  rtc step w w'.
Proof.
  intros H. unfold handle_client in H. apply run_bind_Done in H as ([st rest] & _ & H).
  destruct st as [t'|t' wr|p]; [simplify_eq; apply rtc_refl..|].
  apply run_bind_Done in H as ([up w1] & E & H).
  apply (select_guarantees (route_of config p)) in E; [|done]. etrans; [exact E|]. destruct up; [|simplify_eq; apply rtc_refl].
  apply run_bind_Done in H as (x & _ & H). simplify_eq. apply rtc_refl.
Qed.
End guarantee.

(** ** Lemmas: what holds along the steps *)
Section process_invariant.
Context {N : Network} (usize_max : Z) (has_message : stream -> Z -> bool) (rt : Runtime) (config : Config).
Abbreviation step := (proc_step usize_max has_message rt config).

(** No entry of the map reaches further than [limit] into the future. *)
Definition ends_within {K} `{Countable K} (limit now : Z) (m : CooldownMap K) : Prop :=
  forall k until, default empty m !! k = Some until -> until <= now + limit.

Lemma ends_within_later {K} `{Countable K} limit t t' (m : CooldownMap K) :
  t <= t' -> ends_within limit t m -> ends_within limit t' m.
Proof. intros Ht Hm k until Hk. specialize (Hm k until Hk). lia. Qed.

Lemma cooled_ends_within {K} `{Countable K} times limit now (m m' : CooldownMap K) :
  Forall (fun t => t <= limit) times -> cooled times now m m' -> ends_within limit now m -> ends_within limit now m'.
Proof.
  intros Ht Hc Hm. destruct Hc as [k t m Hin|k m]; intros k' until.
  - cbn. rewrite lookup_insert_Some. intros [[_ <-]|[_ Hk]]; [|by eapply Hm].
    apply (proj1 (list.Forall_forall _ _) Ht) in Hin. lia.
  - destruct m as [m|]; [|by eapply Hm]. cbn. rewrite lookup_delete_Some. intros [_ Hk]. by eapply Hm.
Qed.

Lemma active_ends_within {K} `{Countable K} limit now (m : CooldownMap K) k :
  ends_within limit now m -> cooldown_active (now + limit) k m = false.
Proof.
  intros Hm. destruct m as [m|]; [|done]. cbn. destruct (m !! k) as [until|] eqn:E; [|done].
  apply Z.ltb_ge. by apply (Hm k).
Qed.

Record world_inv (ps : nat) (w : world) : Prop := {
  wi_pool : pool_inv rt ps (w_pool w);
  wi_asked : spares_asked (cf_asked config) (w_pool w);
  wi_ws : ends_within (Z.max (to_ws_redirect_cooldown (timeouts config)) (to_ws_fail_cooldown (timeouts config)))
            (now w) (w_ws_fail w);
  wi_ip : ends_within (to_ip_fail_cooldown (timeouts config)) (now w) (w_ip_fail w);
  wi_upstream : ends_within (to_upstream_fail_cooldown (timeouts config)) (now w) (w_upstream_fail w);
  wi_worker : ends_within (to_cf_fail_cooldown (timeouts config)) (now w) (w_cf_worker_fail w);
  wi_edges b : ends_within (to_cf_fail_cooldown (timeouts config)) (now w) (edge_fail b (w_net w));
}.

(** Time does not run backwards and the log of dials only grows. *)
Definition goes_on (w w' : world) : Prop := now w <= now w' /\ n_dials (w_net w) `prefix_of` n_dials (w_net w').

#[local] Instance goes_on_preorder : PreOrder goes_on.
Proof. split; [by intros w; split|]. intros w1 w2 w3 [] []. split; [lia|by etrans]. Qed.

Lemma net_step_goes_on n n' :
  net_step config n n' ->
  n_now n <= n_now n' /\ n_dials n `prefix_of` n_dials n' /\
  forall b, ends_within (to_cf_fail_cooldown (timeouts config)) (n_now n) (edge_fail b n) ->
            ends_within (to_cf_fail_cooldown (timeouts config)) (n_now n') (edge_fail b n').
Proof.
  assert (forall b b' n m, edge_fail b (set_edge_fail b' m n) = if Bool.eqb b b' then m else edge_fail b n) as Hset
    by by intros [] [].
  assert (forall b m n, n_now (set_edge_fail b m n) = n_now n) as Hnow by by intros [].
  assert (forall b m n, n_dials (set_edge_fail b m n) = n_dials n) as Hd by by intros [].
  destruct 1 as [d spent n Hs|r n|b ip n|b ip n]; rewrite ?Hnow, ?Hd.
  - split_and!; [simpl; lia|by exists [d]|]. intros b. apply ends_within_later. simpl; lia.
  - split_and!; [done..|]. by intros b.
  - split_and!; [done..|]. intros b'. rewrite Hset. destruct (Bool.eqb b' b) eqn:E; [|done].
    apply Bool.eqb_prop in E as ->. by apply (cooled_ends_within []), cooled_clear.
  - split_and!; [done..|]. intros b'. rewrite Hset. destruct (Bool.eqb b' b) eqn:E; [|done].
    apply Bool.eqb_prop in E as ->. intros Hm.
    eapply (cooled_ends_within [to_cf_fail_cooldown (timeouts config)]); [|apply cooled_set; set_solver|exact Hm].
    by repeat constructor.
Qed.

Lemma world_inv_step ps w w' : world_inv ps w -> step w w' -> world_inv ps w' /\ goes_on w w'.
Proof.
  intros [Hp Ha Hws Hip Hup Hwk He] Hs.
  destruct Hs as [w p Hs|w n Hs|w m Hs|w m Hs|w m Hs|w m Hs|w n|w n|w];
    try (split; [|by split]); try (by split).
  - split; try done; [by eapply inv_step|by eapply asked_step].
  - destruct (net_step_goes_on _ _ Hs) as (Ht & Hd & Hb).
    split; [|by split]. split; try (by eapply ends_within_later); [done|done|]. intros b. apply Hb, He.
  - split; try done. eapply cooled_ends_within; [|exact Hs|done]. unfold ws_times. repeat constructor; lia.
  - split; try done. eapply cooled_ends_within; [|exact Hs|done]. by repeat constructor.
  - split; try done. eapply cooled_ends_within; [|exact Hs|done]. by repeat constructor.
  - split; try done. eapply cooled_ends_within; [|exact Hs|done]. by repeat constructor.
Qed.

Lemma world_inv_steps ps w w' : world_inv ps w -> rtc step w w' -> world_inv ps w' /\ goes_on w w'.
Proof.
  intros Hw H. induction H as [w|w w1 w2 H1 _ IH]; [by split|].
  destruct (world_inv_step _ _ _ Hw H1) as [Hw1 G1]. destruct (IH Hw1) as [Hw2 G2]. split; [done|by etrans].
Qed.

Lemma world_inv_init ps max_age now : world_inv ps (world_init config ps max_age now).
Proof.
  split; try (by intros k until H; apply (lookup_empty_Some k until) in H).
  - apply inv_init.
  - split; [constructor|]. intros k. unfold cf_bucket_of. simpl. by rewrite lookup_empty.
  - intros [] k until H; by apply (lookup_empty_Some k until) in H.
Qed.

(** The pool part of a run of the process. *)
Lemma pool_steps w w' : rtc step w w' -> rtc (pool_step usize_max has_message rt (cf_asked config)) (w_pool w) (w_pool w').
Proof.
  intros H. induction H as [w|w w1 w2 H1 _ IH]; [apply rtc_refl|].
  destruct H1; try exact IH. by eapply rtc_l.
Qed.

Lemma process_outside_laws {O : Outside (N := N)} :
  ProcessOutside usize_max has_message rt config O -> OutsideLaws usize_max has_message rt (cf_asked config) O.
Proof. intros [H1 H2]. split; [|exact H2]. intros n w. by apply pool_steps. Qed.

Lemma process_outside_any {O : Outside (N := N)} :
  ProcessOutside usize_max has_message rt config O -> OutsideLaws usize_max has_message rt any_target O.
Proof.
  intros [H1 H2]. split; [|exact H2]. intros n w. specialize (H1 n w). apply pool_steps in H1.
  induction H1 as [p|p p1 p2 Hs _ IH]; [apply rtc_refl|]. eapply rtc_l; [|exact IH]. by eapply pool_step_mono.
Qed.
End process_invariant.

(** ** The whole process *)
Section system.
Context {C : Crypto} {N : Network} {HO : Host} (usize_max : Z) (has_message : stream -> Z -> bool) (rt : Runtime)
  (config : Config) (secrets : list bytes) (listen_domain : option text) (verdict : option bool).
(** Every connection the process accepts, by number: its socket, whose client
    ends its stream sooner or later, and the random bytes its task draws. *)
Context (conn : nat -> tcp * bytes).

Record system : Type := mkSystem {
  sy_loop : accept_loop;
  sy_world : world;
}.

(** The accept loop and the tasks, the clients' among them, in any order.  The
    task of a connection is its run of [handle_client], the other tasks moving
    the state around its awaits; its permit comes back when that run returns,
    or panics. *)
Inductive system_step : system -> system -> Prop :=
| sys_loop l l' w :
    loop_step verdict l l' -> al_tasks l ⊆ al_tasks l' -> system_step (mkSystem l w) (mkSystem l' w)
| sys_task l w w' : proc_step usize_max has_message rt config w w' -> system_step (mkSystem l w) (mkSystem l w')
| sys_client_returns p ph before id after n w ws_ends tcp_dial {O : Outside} s e w' :
    ProcessOutside usize_max has_message rt config O ->
    handle_client usize_max has_message rt ws_ends tcp_dial config secrets listen_domain (conn id).1 (conn id).2 w
      = Done (s, e, w') ->
    system_step (mkSystem (mkAcceptLoop p ph (before ++ id :: after) n) w)
      (mkSystem (mkAcceptLoop (S p) ph (before ++ after) n) w')
| sys_client_panics p ph before id after n w ws_ends tcp_dial {O : Outside} :
    ProcessOutside usize_max has_message rt config O ->
    handle_client usize_max has_message rt ws_ends tcp_dial config secrets listen_domain (conn id).1 (conn id).2 w = Panic ->
    system_step (mkSystem (mkAcceptLoop p ph (before ++ id :: after) n) w)
      (mkSystem (mkAcceptLoop (S p) ph (before ++ after) n) w).

Definition system_init (max_age t0 : Z) : system :=
  mkSystem (loop_start (max_connections_of usize_max config))
    (world_init config (Z.to_nat (c_pool_size config)) max_age t0).

(** Every run of the process is one of its accept loop and steps of its state. *)
Lemma system_runs `{!NetworkLaws N} max_age t0 s :
  rtc system_step (system_init max_age t0) s ->
  loop_reachable verdict (max_connections_of usize_max config) (sy_loop s) /\
  rtc (proc_step usize_max has_message rt config)
    (world_init config (Z.to_nat (c_pool_size config)) max_age t0) (sy_world s).
Proof.
  assert (forall a b, rtc system_step a b ->
    rtc (loop_step verdict) (sy_loop a) (sy_loop b) /\
    rtc (proc_step usize_max has_message rt config) (sy_world a) (sy_world b)) as H; [|apply H].
  intros a b H. induction H as [a|a b c Hab _ [IH1 IH2]]; [by split; apply rtc_refl|].
  destruct Hab; cbn [sy_loop sy_world] in *; (split; [first [done|by eapply rtc_l|eapply rtc_l; [apply step_task_ends|done]]|]);
    try done; [by eapply rtc_l|].
  etrans; [by eapply client_guarantees|done].
Qed.

Lemma system_inv `{!NetworkLaws N} max_age t0 s :
  rtc system_step (system_init max_age t0) s -> world_inv rt config (Z.to_nat (c_pool_size config)) (sy_world s).
Proof.
  intros [_ Hw]%system_runs.
  by apply (world_inv_steps usize_max has_message rt config _ _ _ (world_inv_init rt config _ max_age t0)) in Hw as [? _].
Qed.
End system.

(** ** Properties *)
Section system_properties.
Context {C : Crypto} `{!CryptoLaws C} {N : Network} `{!NetworkLaws N} {HO : Host} (usize_max : Z)
  (Husize : 2 ^ 32 - 1 <= usize_max) (has_message : stream -> Z -> bool) (rt : Runtime) (config : Config)
  (secrets : list bytes) (listen_domain : option text) (verdict : option bool) (conn : nat -> tcp * bytes).
Abbreviation runs := (rtc (system_step usize_max has_message rt config secrets listen_domain verdict conn)).

(** A run of the handler keeps the invariant of the shared state. *)
Lemma client_run_inv ps ws_ends tcp_dial t tape w s e w' {O : Outside} `{!ProcessOutside usize_max has_message rt config O} :
  world_inv rt config ps w ->
  handle_client usize_max has_message rt ws_ends tcp_dial config secrets listen_domain t tape w = Done (s, e, w') ->
  world_inv rt config ps w' /\ goes_on w w'.
Proof.
  intros Hinv E. eapply (world_inv_steps usize_max has_message rt config); [exact Hinv|]. by eapply client_guarantees.
Qed.


(** No entry of any cooldown map outlives its setting. *)
Definition cooldowns_bounded (w : world) : Prop :=
  let limits := timeouts_from_config config in
  (forall k, cooldown_active (now w + Z.max (to_ws_redirect_cooldown limits) (to_ws_fail_cooldown limits)) k (w_ws_fail w) = false) /\
  (forall k, cooldown_active (now w + to_ip_fail_cooldown limits) k (w_ip_fail w) = false) /\
  (forall k, cooldown_active (now w + to_upstream_fail_cooldown limits) k (w_upstream_fail w) = false) /\
  (forall k, cooldown_active (now w + to_cf_fail_cooldown limits) k (w_cf_worker_fail w) = false) /\
  (forall b k, cooldown_active (now w + to_cf_fail_cooldown limits) k (edge_fail b (w_net w)) = false).

Lemma world_inv_bounded ps w : world_inv rt config ps w -> cooldowns_bounded w.
Proof. intros [_ _ H1 H2 H3 H4 H5]. split_and!; intros; by apply active_ends_within. Qed.

(** C9. No cooldown outlives its setting.  From every state the process can
    reach, by any number of earlier runs of the handler, a further run of it
    under any interleaving leaves every cooldown map so that after the
    configured time without a new failure every DC, address, upstream proxy,
    Worker and Cloudflare edge is tried again; the state before it is bounded
    in the same way. *)
Theorem cooldowns_end max_age t0 l w ws_ends tcp_dial t tape s e w' {O : Outside}
    `{!ProcessOutside usize_max has_message rt config O} :
  runs (system_init usize_max config max_age t0) (mkSystem l w) ->
  handle_client usize_max has_message rt ws_ends tcp_dial config secrets listen_domain t tape w = Done (s, e, w') ->
  cooldowns_bounded w /\ cooldowns_bounded w'.
Proof.
  intros Hr E. pose proof (system_inv _ _ _ _ _ _ _ _ _ _ _ Hr) as Hinv. cbn [sy_world] in Hinv.
  split; [by eapply world_inv_bounded|].
  eapply world_inv_bounded. by eapply client_run_inv.
Qed.

(** C20. The descriptor budget of the whole process, with the automatic limit and
    a soft limit that leaves room for the minimum: in every state it can reach,
    the listener, the runtime's reserve, two descriptors for every admitted
    client and one for every connection the direct pool buckets hold or are
    opening stay within the soft limit.  The Cloudflare spares come on top: at
    most one idle and one being dialled for each bucket in use, and none at all
    when no Cloudflare domain or Worker is configured. *)
Theorem process_within_limits max_age t0 s :
  let fd_limit := soft_nofile_limit usize_max limits_file in
  let reserved := 1 + c_pool_size config * (Z.of_nat (size (dc_redirects config)) * 2) * FDS_PER_POOL_SLOT
                  + RUNTIME_RESERVED_FDS in
  let pool := w_pool (sy_world s) in
  c_max_connections config = None -> 0 <= c_pool_size config -> 0 <= fd_limit < usize_max ->
  reserved + MIN_MAX_CONNECTIONS * FDS_PER_CONNECTION <= fd_limit ->
  runs (system_init usize_max config max_age t0) s ->
  1 + RUNTIME_RESERVED_FDS + FDS_PER_CONNECTION * Z.of_nat (length (al_tasks (sy_loop s)) + held (al_phase (sy_loop s)))
  + Z.of_nat (pool_load (Z.to_nat (c_pool_size config)) pool (bucket_keys config)) <= fd_limit /\
  (cf_load pool <= size (p_cf_idle pool) + size (p_cf_refilling pool))%nat /\
  (c_cf_domains config = [] -> c_cf_worker_domains config = [] -> cf_load pool = 0%nat).
Proof.
  cbv zeta. intros H1 H2 H3 H4 Hr. pose proof (system_inv _ _ _ _ _ _ _ _ _ _ _ Hr) as [Hp Ha _ _ _ _ _].
  apply system_runs in Hr as [Hl _]; [|done]. split_and!.
  - by eapply (descriptors_fit usize_max verdict _ rt).
  - by eapply cf_load_bound.
  - intros Hd Hw. eapply cf_load_none; [|exact Ha]. intros t (_ & _ & HA). rewrite Hd, Hw in HA.
    destruct (tg_tier t); [destruct HA as [HA _]|destruct HA as (z & HA & _)]; by apply not_elem_of_nil in HA.
Qed.
End system_properties.

(** *** Witnesses: a process with one client, over the always-answering network *)
Lemma demo_network_laws : NetworkLaws demo_network.
Proof. intros n d. vm_compute. discriminate. Qed.

Lemma demo_process_outside rt c :
  ProcessOutside (N := demo_network) (2 ^ 64 - 1) (fun _ _ => false) rt c demo_outside.
Proof. split; [intros; apply rtc_refl|intros; exact demo_random]. Qed.

Definition demo_conn (_ : nat) : tcp * bytes := (demo_client_tcp, demo_long_tape).

Definition demo_system : system (N := demo_network) :=
  let s := system_init (N := demo_network) (HO := demo_host) (2 ^ 64 - 1) demo_check_config 120000 0 in
  mkSystem (mkAcceptLoop (al_permits (sy_loop s) - 1) Acquiring [0%nat] 1) (sy_world s).

Lemma demo_system_reachable :
  rtc (system_step (C := toy_crypto) (N := demo_network) (2 ^ 64 - 1) (fun _ _ => false) demo_runtime demo_check_config
         [demo_secret] None None demo_conn)
    (system_init (N := demo_network) (HO := demo_host) (2 ^ 64 - 1) demo_check_config 120000 0) demo_system.
Proof.
  unfold demo_system, system_init. cbn [sy_loop sy_world al_permits loop_start].
  assert (0 < max_connections_of (HO := demo_host) (2 ^ 64 - 1) demo_check_config)%Z as Hpos
    by (apply Z.ltb_lt; vm_compute; reflexivity).
  destruct (Z.to_nat (max_connections_of (HO := demo_host) (2 ^ 64 - 1) demo_check_config)) as [|p] eqn:E; [lia|].
  replace (S p - 1)%nat with p by lia. unfold loop_start. rewrite E.
  eapply rtc_l; [apply sys_loop; [apply step_acquire|done]|].
  eapply rtc_l; [apply sys_loop; [apply step_accept|set_solver]|]. apply rtc_refl.
Qed.


(** A network on which every connect times out. *)
Definition silent_network : Network := {|
  stream := nat * Dial;
  tcp_connect _ _ := TcpTimedOut (txt "timed out");
  bad_url _ := None;
  upgrade _ _ := UpgradeElapsed;
  dial_time _ _ := 20;
  connects_directly _ _ := true;
|}.

Definition silent_outside : Outside (N := silent_network) := {|
  others := fun _ w => w;
  up_connect := fun _ _ _ _ => None;
  up_random := fun _ => demo_tape;
  wall_clock := fun _ => 1700000000;
|}.

Lemma silent_network_laws : NetworkLaws silent_network.
Proof. intros n d. vm_compute. discriminate. Qed.

Lemma silent_process_outside rt c :
  ProcessOutside (N := silent_network) (2 ^ 64 - 1) (fun _ _ => false) rt c silent_outside.
Proof. split; [intros; apply rtc_refl|intros; exact demo_random]. Qed.

Definition silent_start : system (N := silent_network) :=
  system_init (N := silent_network) (HO := demo_host) (2 ^ 64 - 1) demo_check_config 120000 0.

(** The client's media connection to DC 2 starts a cooldown. *)
Lemma silent_run : exists s e w',
  handle_client (C := toy_crypto) (N := silent_network) (O := silent_outside) (2 ^ 64 - 1) (fun _ _ => false)
    demo_runtime (fun _ => (demo_sink, demo_source)) (fun _ _ => None) demo_check_config [demo_secret] None
    demo_client_tcp demo_long_tape (sy_world silent_start) = Done (s, e, w') /\
  cooldown_active (now w') (2, true) (w_ws_fail w') = true.
Proof.
  match goal with |- exists s e w', ?x = _ /\ _ =>
    assert (match x with Done (_, _, w) => cooldown_active (now w) (2, true) (w_ws_fail w) | _ => false end = true) as HR
      by (vm_compute; reflexivity);
    destruct x as [[[s e] w']| |]; [|discriminate HR..] end.
  by exists s, e, w'.
Qed.

Lemma cooldowns_end_witness : exists w' : world (N := silent_network),
  cooldown_active (now w') (2, true) (w_ws_fail w') = true /\
  cooldown_active (now w' + 300000) (2, true) (w_ws_fail w') = false.
Proof.
  destruct silent_run as (s & e & w' & E & Ha).
  destruct (cooldowns_end (C := toy_crypto) (N := silent_network) (NetworkLaws0 := silent_network_laws) (HO := demo_host)
    (2 ^ 64 - 1) (fun _ _ => false) demo_runtime demo_check_config [demo_secret] None None demo_conn 120000 0
    (sy_loop silent_start) (sy_world silent_start) (fun _ => (demo_sink, demo_source)) (fun _ _ => None) demo_client_tcp
    demo_long_tape s e w' (O := silent_outside)
    (ProcessOutside0 := silent_process_outside demo_runtime demo_check_config)) as [_ [Hw _]].
  - apply rtc_refl.
  - exact E.
  - exists w'. split; [exact Ha|exact (Hw (2, true))].
Defined.

Lemma process_within_limits_witness :
  1 + RUNTIME_RESERVED_FDS + FDS_PER_CONNECTION * 1
  + Z.of_nat (pool_load (N := demo_network) 4 (w_pool (sy_world demo_system)) (bucket_keys demo_check_config)) <= 1024.
Proof.
  apply (process_within_limits (C := toy_crypto) (N := demo_network) (NetworkLaws0 := demo_network_laws)
    (HO := demo_host) (2 ^ 64 - 1) (fun _ _ => false) demo_runtime
    demo_check_config [demo_secret] None None demo_conn 120000 0 demo_system).
  - reflexivity.
  - apply Z.leb_le. reflexivity.
  - split; [apply Z.leb_le|apply Z.ltb_lt]; vm_compute; reflexivity.
  - apply Z.leb_le. vm_compute. reflexivity.
  - exact demo_system_reachable.
Defined.
