(* ===== verification/EndToEnd.v ===== *)
(** * The program as its user meets it

    The binary, its announced link, the process it becomes and a client that
    uses the link, composed: [Main], [System] and [Handler] meet here. *)
From Stdlib Require Import String.
From stdpp Require Import gmap relations.
From S2P Require Import Prelude Text Ip Outbound Http Domains CryptoApi Crypto Splitter FakeTls Config Cli Limits WsClient.
From S2P Require Import Pool Session Bridge Routing Handler Check Server Main System.

Local Open Scope string_scope.
Local Open Scope list_scope.
Local Open Scope Z_scope.

Section end_to_end.
Context {A : Clap} `{!ClapLaws A} {L : LogHost} {C : Crypto} `{!CryptoLaws C} {U : OutboundCrates} {N : Network}.
Context `{!NetworkLaws N} {K : Sockets} {T : TlsClient} {P : HttpParser} {H : Hex} `{!HexLaws H} {I : ProbeIO} {HO : Host}.
Context (usize_max : Z) (Husize : 2 ^ 32 - 1 <= usize_max) (has_message : stream -> Z -> bool).

(** The configuration of the bare binary: it has a target for no DC without a
    built-in address, pins nothing and has no upstream proxy. *)
Lemma bare_config_targets random16 dc :
  worker_dst (bare_config random16) dc = default_dc_ip dc.
Proof.
  unfold worker_dst. destruct (default_dc_ip dc) as [ip|] eqn:E; [done|].
  unfold dc_target_ip, bare_config, DEFAULT_DC_IP_TARGETS. cbn [c_dc_ip set_normalized default_config].
  unfold default_dc_ip, DEFAULT_DC_IPS in E. cbn in *. repeat case_match; done.
Qed.

Lemma bare_config_unpinned random16 is_media : forced_upstreams (bare_config random16) is_media = None.
Proof. by destruct is_media. Qed.

(** A DC without any address: the ladder gives up at once. *)
Lemma bare_no_address {O : Outside} rt r w random16 :
  r_config r = bare_config random16 -> default_dc_ip (r_dc r) = None ->
  select_upstream usize_max has_message rt r (dc_target_ip (r_config r) (r_dc r)) w = Done (None, w).
Proof.
  intros Hc Hn. pose proof (bare_config_targets random16 (r_dc r)) as Ht. unfold worker_dst in Ht. rewrite Hn in Ht.
  unfold select_upstream. by rewrite Hc, bare_config_unpinned, Ht, Hn.
Qed.

(** What a client of the bare process gets when it asks for [dc]: with a
    built-in address, the bridge over an upstream of the ladder, which carries
    nothing only when the TCP connect to that address was refused; without one,
    nothing, and the state is untouched. *)
Definition dc_served (s : serving) ws_ends tcp_dial (dc : Z) (p : prepared) (e : option session_end) (w w' : world) : Prop :=
  let timeout := to_tcp_fallback (timeouts_from_config (sv_config s)) in
  match default_dc_ip dc with
  | Some ip => exists e' up tier, e = Some e' /\
      bridge_selected usize_max ws_ends tcp_dial p up timeout = Done e' /\
      rung_promise (sv_runtime s) (route_of (sv_config s) p) tier up /\
      (e' = TcpSession None -> tcp_refused tcp_dial p ip timeout)
  | None => e = None /\ w' = w
  end.

(** C2. The link works.  The binary started with nothing announces a link.  A
    client that decodes its secret and asks for any DC index but -32768, in any
    transport, over any bytes, is recognised by the process with the keys and
    the mode it decoded from its own settings, whatever the other clients have
    done and do meanwhile: it gets that DC, class and transport, with the
    ciphers of its own and of Telegram's end.  For a DC with a built-in address
    it is bridged over an upstream that the ladder promises for that DC and
    class, and the session is void only when the last resort's TCP connect to
    that address, or the relay init on it, failed; for any other DC it gets
    none. *)
Theorem announced_link_works random16 argv0 st local :
  (forall v, env_value v = None) -> bytes_ok random16 -> length random16 = 16%nat ->
  soft_nofile_limit usize_max limits_file <= MAX_PERMITS usize_max -> tcp_bind bare_addr = Success local ->
  exists log s link, main usize_max random16 [argv0] st = Done (ServesAs log s) /\
    sv_tg_link s = tg_link (default (txt "127.0.0.1") lan_ip) (sa_port (sv_addr s)) link /\
    decode_secret_key link = Done random16 /\
    forall dc_idx proto ctape hs enc dec ctape' plain t tape max_age t0 verdict conn sys ws_ends tcp_dial
        (O : Outside) (_ : ProcessOutside usize_max has_message (sv_runtime s) (sv_config s) O),
      i16_ok dc_idx -> dc_idx <> - 2 ^ 15 ->
      generate_client_handshake random16 dc_idx proto ctape = Done (hs, enc, dec, ctape') ->
      t_in t = hs ++ encrypt enc plain -> bytes_ok (t_in t) -> tape_ok tape ->
      rtc (system_step usize_max has_message (sv_runtime s) (sv_config s) (sv_secrets s) (sv_listen_domain s) verdict conn)
        (system_init usize_max (sv_config s) max_age t0) sys ->
      exists p e w', handle_client usize_max has_message (sv_runtime s) ws_ends tcp_dial (sv_config s) (sv_secrets s)
          (sv_listen_domain s) t tape (sy_world sys) = Done (Ready p, e, w') /\
        hi_dc_id (pr_info p) = Z.abs dc_idx /\ hi_is_media (pr_info p) = (dc_idx <? 0) /\ hi_proto (pr_info p) = proto /\
        init_fields (slice 8 40 (pr_relay_init p)) (pr_relay_init p) = Some (proto, dc_idx) /\
        (exists rx tx, session random16 (pr_relay_init p) enc dec rx tx (pr_ciphers p)) /\
        client_sends (pr_reader p) (encrypt enc plain) /\
        dc_served s ws_ends tcp_dial (Z.abs dc_idx) p e (sy_world sys) w'.
Proof.
  intros He Hr Hl Hfd Ht.
  destruct (bare_main usize_max Husize random16 argv0 st local He Hr Hl Hfd Ht)
    as (log & s & link & E & Hc & Hsec & Hdom & _ & _ & _ & Htg & Hk).
  exists log, s, link. split; [done|]. split; [done|]. split; [done|].
  intros dc_idx proto ctape hs enc dec ctape' plain t tape max_age t0 verdict conn sys ws_ends tcp_dial O HP
    Hdc Hmin Hg Hin Hb Htape Hruns.
  pose proof (Htape 0%nat ltac:(lia)) as Hrand. rewrite drop_0 in Hrand.
  destruct (client_setup_genuine random16 [] dc_idx proto ctape hs enc dec ctape' plain t tape Hdc Hmin Hg Hin Hrand)
    as (p & rest & rx & tx & Ec & Hid & Hmedia & Hproto & _ & _ & Hinit & _ & Hses & Hsends & _).
  destruct (client_setup_total [random16] None t tape Hb Htape) as [(s0 & rest0 & E0 & Hs0)|[E0 _]];
    rewrite Ec in E0; [injection E0 as <- <-|done].
  pose proof (process_outside_laws usize_max has_message (sv_runtime s) (sv_config s) HP) as HL.
  pose proof (system_inv _ _ _ _ _ _ _ _ _ _ _ Hruns) as Hinv. rewrite Hsec, Hdom.
  destruct (ready_served usize_max has_message (sv_runtime s) (cf_asked (sv_config s)) ws_ends tcp_dial (sv_config s)
    [random16] None t tape p rest _ (sy_world sys) Husize ltac:(rewrite Hc; constructor)
    (conj (wi_pool _ _ _ _ Hinv) (wi_asked _ _ _ _ Hinv)) (route_asks_config (route_of (sv_config s) p)) Ec Hs0)
    as (e & w' & Eh & _ & Hsv & He').
  exists p, e, w'. split_and!; try done; [by exists rx, tx|].
  pose proof (bare_config_targets random16 (hi_dc_id (pr_info p))) as Hdst.
  unfold dc_served. rewrite <- Hid. destruct (default_dc_ip (hi_dc_id (pr_info p))) as [ip|] eqn:Eip.
  - destruct He' as [e' ->].
    + rewrite Hc. by exists ip.
    + intros tiers. by rewrite Hc, bare_config_unpinned.
    + destruct (Hsv e' eq_refl) as [(up & tier & Eb & Htr & _) Hnone]. exists e', up, tier. split_and!; try done.
      * by apply tier_result_promise.
      * intros ->. destruct (Hnone eq_refl) as (dst & Hd & Href). rewrite Hc in Hd.
        change (worker_dst (bare_config random16) (hi_dc_id (pr_info p)) = Some dst) in Hd. by simplify_eq.
  - unfold handle_client in Eh. rewrite Ec in Eh. cbn [run_bind] in Eh. cbv zeta in Eh.
    rewrite (bare_no_address (sv_runtime s) (route_of (sv_config s) p) (sy_world sys) random16 Hc Eip) in Eh.
    by simplify_eq/=.
Qed.
End end_to_end.

(** *** A witness: the demo client over the announced link *)
Lemma announced_link_works_witness : exists p e w' s,
  handle_client (C := toy_crypto) (N := demo_network) (O := demo_outside) (2 ^ 64 - 1) (fun _ _ => false) (sv_runtime s)
    (fun _ => (demo_sink, demo_source)) (fun _ _ => None) (sv_config (U := demo_crates) s) (sv_secrets s)
    (sv_listen_domain s) demo_client_tcp demo_long_tape
    (sy_world (system_init (N := demo_network) (HO := demo_host) (2 ^ 64 - 1) (sv_config (U := demo_crates) s) 55000 0))
  = Done (Ready p, Some e, w').
Proof.
  destruct (announced_link_works (A := plain_clap) (ClapLaws0 := plain_clap_laws) (L := demo_log) (C := toy_crypto)
    (CryptoLaws0 := toy_crypto_laws) (U := demo_crates) (N := demo_network) (NetworkLaws0 := demo_network_laws)
    (K := demo_sockets) (T := demo_tls) (P := demo_parser) (H := plain_hex) (HexLaws0 := plain_hex_laws)
    (I := demo_probes) (HO := demo_host)
    (2 ^ 64 - 1) ltac:(lia) (fun _ _ => false) demo_secret (txt "tg-ws-proxy") demo_probing None)
    as (log & s & link & _ & _ & _ & HC).
  - reflexivity.
  - repeat constructor; lia.
  - reflexivity.
  - apply Z.leb_le. vm_compute. reflexivity.
  - reflexivity.
  - destruct (HC (-2) Abridged demo_tape demo_handshake.1.1.1 demo_enc demo_dec demo_handshake.2 demo_stream demo_client_tcp
      demo_long_tape 55000 0 None demo_conn
      (system_init (N := demo_network) (HO := demo_host) (2 ^ 64 - 1) (sv_config (U := demo_crates) s) 55000 0)
      (fun _ => (demo_sink, demo_source)) (fun _ _ => None) demo_outside (demo_process_outside (sv_runtime s) (sv_config s)))
      as (p & e & w' & Eh & _ & _ & _ & _ & _ & _ & HS).
    + split; [discriminate|reflexivity].
    + discriminate.
    + vm_compute. reflexivity.
    + reflexivity.
    + apply (bool_decide_unpack (bytes_ok (t_in demo_client_tcp))). vm_compute. exact I.
    + exact demo_long_tape_ok.
    + apply rtc_refl.
    + destruct HS as (e' & up & tier & -> & _). exists p, e', w', s. exact Eh.
Defined.
