(* ===== verification/Android.v ===== *)
(** * android.rs: the Android shim

    [nativeStart], [nativeStop] and [nativeIsRunning] over the shared state with
    its mutex, the worker threads, and the log writer that forwards whole lines.
    The JNI calls themselves are outside. *)
From Stdlib Require Import String.
From stdpp Require Import gmap relations.
From S2P Require Import Prelude Text CryptoApi Crypto Config.

Local Open Scope Z_scope.
Local Open Scope run_scope.

(** ** The state *)

(** A worker and its shutdown channel are named by the worker's number. *)
Record ProxyState : Type := mkProxyState {
  ps_shutdown : option nat;
  ps_thread : option nat;
  ps_stopping : bool;
}.

(** A worker thread: whether [true] was sent on its channel, and whether the
    thread is over. *)
Record worker : Type := mkWorker {
  wk_told : bool;
  wk_finished : bool;
}.

Record android : Type := mkAndroid {
  an_state : ProxyState;
  an_poisoned : bool;
  an_workers : list worker;
}.

Definition android_init : android := mkAndroid (mkProxyState None None false) false [].

(** [thread.as_ref().is_some_and(|t| t.is_finished())]. *)
Definition thread_finished (a : android) : bool :=
  match ps_thread (an_state a) with
  | Some id => match an_workers a !! id with Some w => wk_finished w | None => true end
  | None => false
  end.

Definition set_proxy_state (s : ProxyState) (a : android) : android :=
  mkAndroid s (an_poisoned a) (an_workers a).

(** How a call of [start_proxy] ends: it returns, or it panics and poisons the
    lock it holds. *)
Inductive call_outcome : Type :=
| Returned (r : result unit)
| Panicked.

Definition reap (a : android) : android :=
  if thread_finished a then set_proxy_state (mkProxyState (ps_shutdown (an_state a)) None false) a else a.

(** [Outcome] of the jni crate and [OutcomeValue::into_value]: an error or a
    panic becomes the default value. *)
Inductive Outcome (A : Type) : Type :=
| OutcomeOk (a : A)
| OutcomeErr
| OutcomePanic.
Arguments OutcomeOk {A} a.
Arguments OutcomeErr {A}.
Arguments OutcomePanic {A}.

Definition into_value {A} (default : A) (o : Outcome A) : A :=
  match o with OutcomeOk a => a | OutcomeErr | OutcomePanic => default end.

Section shim.
(** [jstring_new]: whether the JVM makes a string of a text. *)
Context {H : Hex} (clap : list text -> result Config) (jstring_new : text -> bool).

(** [spawned]: the error of the thread builder, if any. *)
Definition start_proxy (random16 : bytes) (args : text) (spawned : option text) (a : android)
  : call_outcome * android :=
  if an_poisoned a then (Returned (Failure (txt "proxy state lock poisoned")), a)
  else
    let a := reap a in
    match ps_thread (an_state a) with
    | Some _ =>
        (Returned (Failure (if ps_stopping (an_state a)
                            then txt "proxy is still stopping, try again in a moment"
                            else txt "proxy is already running")), a)
    | None =>
        match try_from_cli_line clap random16 args with
        | Done (Success _) =>
            match spawned with
            | Some e => (Returned (Failure (txt "failed to spawn proxy thread: " ++ e)), a)
            | None =>
                let id := length (an_workers a) in
                (Returned (Success tt),
                 mkAndroid (mkProxyState (Some id) (Some id) false) false (an_workers a ++ [mkWorker false false]))
            end
        | Done (Failure e) => (Returned (Failure e), a)
        | Panic | OutOfFuel => (Panicked, mkAndroid (an_state a) true (an_workers a))
        end
    end.

Definition stop_proxy (a : android) : android :=
  if an_poisoned a then a
  else
    let workers :=
      match ps_shutdown (an_state a) with
      | Some id => alter (fun w => mkWorker true (wk_finished w)) id (an_workers a)
      | None => an_workers a
      end in
    mkAndroid (mkProxyState None (ps_thread (an_state a)) true) false workers.

Definition nativeIsRunning (a : android) : bool :=
  if an_poisoned a then false
  else
    negb (ps_stopping (an_state a))
    && match ps_thread (an_state a) with Some _ => negb (thread_finished a) | None => false end.

(** [throw_string]: the message as a Java string, or null when it cannot be made. *)
Definition throw_string (msg : text) : option text := if jstring_new msg then Some msg else None.

(** [args]: the argument read from Kotlin, or the error of reading it.  What
    Kotlin gets: [None] is the null that means success. *)
Definition nativeStart (random16 : bytes) (args : result text) (spawned : option text) (a : android)
  : option text * android :=
  match args with
  | Failure e => (into_value None (OutcomeOk (throw_string (txt "invalid arguments: " ++ e))), a)
  | Success args =>
      let '(r, a) := start_proxy random16 args spawned a in
      (into_value None
         (match r with
          | Returned (Success _) => OutcomeOk None
          | Returned (Failure e) => OutcomeOk (throw_string e)
          | Panicked => OutcomePanic
          end), a)
  end.

(** The calls from the application and the ends of the workers, in any order. *)
Inductive android_step : android -> android -> Prop :=
| step_start random16 args spawned a : android_step a (nativeStart random16 args spawned a).2
| step_stop a : android_step a (stop_proxy a)
| step_worker_ends id w a :
    an_workers a !! id = Some w ->
    android_step a (mkAndroid (an_state a) (an_poisoned a) (<[id := mkWorker (wk_told w) true]> (an_workers a))).

Definition android_reachable : android -> Prop := rtc android_step android_init.
End shim.

(** ** Logging *)
Definition android_log_level (c : Config) : text :=
  if c_quiet c then txt "off" else if c_verbose c then txt "debug,jni=off" else txt "info".

Section writer.
(** [String::from_utf8_lossy] of a line. *)
Context (lossy : bytes -> text).

(** [drain_lines]: the lines forwarded and the buffer left. *)
Fixpoint drain_lines (fuel : nat) (buf : bytes) : list text * bytes :=
  match fuel, split_once 10 buf with
  | S fuel, Some (line, rest) =>
      let line := strip_cr line in
      let '(lines, buf) := drain_lines fuel rest in
      (if bool_decide (line = []) then lines else lossy line :: lines, buf)
  | _, _ => ([], buf)
  end.

(** [AndroidWriter::write]. *)
Definition writer_write (data buf : bytes) : list text * bytes :=
  let buf := buf ++ data in drain_lines (length buf) buf.

(** [flush], also run by [Drop]. *)
Definition writer_flush (buf : bytes) : list text := match buf with [] => [] | _ => [lossy buf] end.

(** A writer's life: made empty, written to, dropped. *)
Fixpoint writer_run (chunks : list bytes) (buf : bytes) : list text :=
  match chunks with
  | [] => writer_flush buf
  | data :: chunks => let '(lines, buf) := writer_write data buf in lines ++ writer_run chunks buf
  end.
End writer.

(** ** Lemmas: the workers *)
Record android_inv (a : android) : Prop := {
  ai_thread id : ps_thread (an_state a) = Some id -> (id < length (an_workers a))%nat;
  ai_live id w : an_workers a !! id = Some w -> wk_finished w = false ->
    ps_thread (an_state a) = Some id /\
    ((ps_shutdown (an_state a) = Some id /\ ps_stopping (an_state a) = false) \/
     (wk_told w = true /\ ps_stopping (an_state a) = true));
  ai_poisoned : an_poisoned a = true -> ps_thread (an_state a) = None;
}.

Lemma reap_inv a : android_inv a -> android_inv (reap a).
Proof.
  intros [H1 H2 H3]. unfold reap, thread_finished. destruct (ps_thread (an_state a)) as [id|] eqn:Et; [|by split; rewrite ?Et].
  destruct (an_workers a !! id) as [w|] eqn:Ew; [destruct (wk_finished w) eqn:Ef|]; [|by split; rewrite ?Et|]; split; cbn; try done.
  - intros id' w' Hw' Hf. destruct (H2 _ _ Hw' Hf) as [[= <-] _]. congruence.
  - intros id' w' Hw' Hf. destruct (H2 _ _ Hw' Hf) as [[= <-] _]. congruence.
Qed.

Section shim_lemmas.
Context {H : Hex} (clap : list text -> result Config) (jstring_new : text -> bool).

Lemma start_inv random16 args spawned a :
  android_inv a -> android_inv (nativeStart clap jstring_new random16 args spawned a).2.
Proof.
  intros Ha. destruct args as [args|e]; [|exact Ha]. unfold nativeStart, start_proxy.
  destruct (an_poisoned a); [by split; apply Ha|].
  apply reap_inv in Ha as [H1 H2 H3]. set (b := reap a) in *.
  destruct (ps_thread (an_state b)) as [id|] eqn:Et; [split; cbn; rewrite ?Et; done|].
  destruct (try_from_cli_line _ _ _) as [[nc|e]| |]; cbn; try (split; cbn; rewrite ?Et; done).
  destruct spawned as [e|]; [split; cbn; rewrite ?Et; done|]. split; cbn; [|intros id w Hw Hf|done].
  - intros id [= <-]. rewrite length_app. simpl. lia.
  - apply lookup_app_Some in Hw as [Hw|[Hl Hw]]; [by destruct (H2 _ _ Hw Hf)|].
    apply list_lookup_singleton_Some in Hw as [Hi <-]. replace id with (length (an_workers b)) by lia. auto.
Qed.

Lemma stop_inv a : android_inv a -> android_inv (stop_proxy a).
Proof.
  intros Ha. pose proof Ha as [H1 H2 H3]. unfold stop_proxy. destruct (an_poisoned a); [done|].
  destruct (ps_shutdown (an_state a)) as [k|] eqn:Es; split; cbn; try done.
  - intros id Hid. rewrite length_alter. auto.
  - intros id w Hw Hf. rewrite list_lookup_alter in Hw. case_decide as Hk; [subst k|].
    + destruct (an_workers a !! id) as [w0|] eqn:E0; simplify_eq/=. destruct (H2 _ _ E0 Hf) as [? _]. auto.
    + destruct (H2 _ _ Hw Hf) as [? [[??]|[? _]]]; [congruence|auto].
  - intros id w Hw Hf. destruct (H2 _ _ Hw Hf) as [? [[? _]|[? _]]]; [congruence|auto].
Qed.

Lemma step_inv a a' : android_inv a -> android_step clap jstring_new a a' -> android_inv a'.
Proof.
  intros Ha Hs. destruct Hs as [r args sp a|a|id w a Hw]; [by apply start_inv|by apply stop_inv|].
  destruct Ha as [H1 H2 H3]. split; cbn; [intros; rewrite length_insert; auto| |done].
  intros id' w' Hw' Hf. apply list_lookup_insert_Some in Hw' as [(<- & <- & _)|[_ Hw']]; [done|eauto].
Qed.

Lemma android_reachable_inv a : android_reachable clap jstring_new a -> android_inv a.
Proof.
  intros Hr. refine (rtc_ind_l (fun x => android_inv x -> android_inv _) _ _ _ _ Hr _); [done| |].
  - intros x y Hs _ IH Hx. apply IH. by eapply step_inv.
  - by split.
Qed.

Lemma poisoned_forever a a' : an_poisoned a = true -> rtc (android_step clap jstring_new) a a' -> an_poisoned a' = true.
Proof.
  intros Hp Hr. induction Hr as [a|a b c Hs _ IH]; [done|]. apply IH.
  destruct Hs as [r [args|e] sp a|a|]; unfold nativeStart, start_proxy, stop_proxy; rewrite ?Hp; done.
Qed.
End shim_lemmas.

(** A configuration with a secret that is not hexadecimal panics. *)
Lemma decode_secrets_bad {H : Hex} ss s : s ∈ ss -> hex_decode s = None -> decode_secrets ss = Panic.
Proof.
  induction ss as [|x ss IH]; [by intros ?%elem_of_nil|]. intros [->|Hs]%elem_of_cons Hx; cbn [decode_secrets].
  - unfold decode_secret_key. by rewrite Hx.
  - unfold decode_secret_key. destruct (hex_decode x); [|done]. cbn [run_bind]. by rewrite IH.
Qed.

(** ** Lemmas: the writer *)
Section writer_lemmas.
Context (lossy : bytes -> text).

Definition forwarded (ls : list bytes) : list text := map lossy (List.filter (fun l => negb (bool_decide (l = []))) ls).

(** Draining forwards the complete lines and keeps the last incomplete one. *)
Lemma drain_lines_spec fuel buf rest :
  (length buf <= fuel)%nat ->
  (10 ∉ (drain_lines lossy fuel buf).2) /\
  forwarded (lines (buf ++ rest)) = (drain_lines lossy fuel buf).1 ++ forwarded (lines ((drain_lines lossy fuel buf).2 ++ rest)).
Proof.
  revert buf. induction fuel as [|fuel IH]; intros buf Hf.
  - destruct buf; [|simpl in Hf; lia]. cbn. split; [apply not_elem_of_nil|done].
  - cbn [drain_lines]. destruct (split_once 10 buf) as [[line tl]|] eqn:E; [|apply split_once_None in E; by split].
    apply split_once_Some in E as [-> Hl]. rewrite length_app in Hf. simpl in Hf.
    destruct (IH tl) as [HN HE]; [lia|]. destruct (drain_lines lossy fuel tl) as [ls b]. cbn [fst snd] in *.
    split; [done|]. rewrite <- app_assoc. cbn [app]. unfold lines at 1. rewrite lines_loop_app by done.
    fold (lines (tl ++ rest)). change ([] ++ line) with line.
    unfold forwarded in HE |- *. cbn [List.filter]. case_bool_decide; cbn [negb map]; by rewrite HE.
Qed.

Lemma writer_run_lines chunks buf :
  10 ∉ buf -> writer_run lossy chunks buf = forwarded (lines (buf ++ concat chunks)).
Proof.
  revert buf. induction chunks as [|data chunks IH]; intros buf Hb; cbn [writer_run concat].
  - rewrite app_nil_r. unfold lines. rewrite lines_loop_none by done. cbn [app]. by destruct buf.
  - unfold writer_write. destruct (drain_lines_spec (length (buf ++ data)) (buf ++ data) (concat chunks)) as [HN HE]; [done|].
    destruct (drain_lines _ _ _) as [ls b]. cbn [fst snd] in *. rewrite IH by done. by rewrite app_assoc.
Qed.
End writer_lemmas.

(** ** Properties *)
Section android_properties.
Context {H : Hex} (clap : list text -> result Config) (jstring_new : text -> bool).

(** C34. One worker at a time: in every interleaving of starts, stops and worker
    exits at most one worker thread is alive, and it is the one the state holds;
    [nativeIsRunning] answers true only for a live worker that can still be told
    to stop; and after a stop it answers false, with every live worker told. *)
Theorem android_single_worker a :
  android_reachable clap jstring_new a ->
  (forall i j wi wj, an_workers a !! i = Some wi -> an_workers a !! j = Some wj ->
     wk_finished wi = false -> wk_finished wj = false -> i = j) /\
  (nativeIsRunning a = true -> exists id w, ps_thread (an_state a) = Some id /\ ps_shutdown (an_state a) = Some id /\
     an_workers a !! id = Some w /\ wk_finished w = false) /\
  nativeIsRunning (stop_proxy a) = false /\
  (forall id w, an_workers (stop_proxy a) !! id = Some w -> wk_finished w = false -> wk_told w = true).
Proof.
  intros Ha%android_reachable_inv. pose proof Ha as [H1 H2 H3]. split_and!.
  - intros i j wi wj Hi Hj Fi Fj. destruct (H2 _ _ Hi Fi) as [Ei _], (H2 _ _ Hj Fj) as [Ej _]. congruence.
  - unfold nativeIsRunning, thread_finished. destruct (an_poisoned a); [done|].
    intros [Hs Ht]%andb_true_iff. apply negb_true_iff in Hs. destruct (ps_thread (an_state a)) as [id|] eqn:Et; [|done].
    destruct (an_workers a !! id) as [w|] eqn:Ew; [|done]. apply negb_true_iff in Ht.
    destruct (H2 _ _ Ew Ht) as [_ [[? _]|[_ ?]]]; [|congruence]. by exists id, w.
  - unfold nativeIsRunning, stop_proxy. by destruct (an_poisoned a) eqn:Ep; [rewrite Ep|].
  - intros id w Hw Hf. destruct (an_poisoned a) eqn:Ep.
    + unfold stop_proxy in Hw. rewrite Ep in Hw. destruct (H2 _ _ Hw Hf) as [E _]. rewrite (H3 eq_refl) in E. done.
    + destruct (ai_live _ (stop_inv a Ha) _ _ Hw Hf) as [_ [[_ E]|[? _]]]; [|done].
      unfold stop_proxy in E. by rewrite Ep in E.
Qed.

(** C38. A secret that is not hexadecimal breaks the shim for good: the start
    panics while it holds the state lock, the application is told it succeeded
    although no worker was started, and from then on every start is refused,
    whatever its arguments. *)
Theorem android_bad_secret random16 args tokens spawned a c s :
  an_poisoned a = false -> ps_thread (an_state (reap a)) = None ->
  split_cli_args (trim args) = Some tokens ->
  clap (match tokens with first :: _ => if starts_with (txt "-") first then txt "tg-ws-proxy" :: tokens else tokens
        | [] => [txt "tg-ws-proxy"] end) = Success c ->
  s ∈ c_secrets c -> hex_decode s = None ->
  let '(r, b) := nativeStart clap jstring_new random16 (Success args) spawned a in
  r = None /\ length (an_workers b) = length (an_workers a) /\ nativeIsRunning b = false /\
  forall b' random' args' spawned', rtc (android_step clap jstring_new) b b' ->
    nativeStart clap jstring_new random' (Success args') spawned' b'
    = (throw_string jstring_new (txt "proxy state lock poisoned"), b').
Proof.
  intros Hp Hn Ht Hc Hs Hx. unfold nativeStart at 1, start_proxy at 1. rewrite Hp, Hn.
  assert (try_from_cli_line clap random16 args = Panic) as ->.
  { unfold try_from_cli_line. rewrite Ht, Hc. unfold with_defaults.
    assert (match c_secrets c with [] => [hex_encode random16] | l => l end = c_secrets c) as Es
      by (destruct (c_secrets c); [by apply elem_of_nil in Hs|done]).
    cbv zeta. cbn [c_secrets set_normalized]. rewrite Es, (decode_secrets_bad _ s) by done. done. }
  cbn. split_and!; [done| |done|].
  - unfold reap. by destruct (thread_finished a).
  - intros b' r' args' sp' Hr. apply (poisoned_forever clap jstring_new) in Hr; [|done].
    unfold nativeStart, start_proxy. by rewrite Hr.
Qed.
End android_properties.

(** The log writer forwards the lines of the stream, however the writes cut
    it: every complete line without its line ending, blank ones left out, and
    at the end the incomplete rest. *)
Theorem log_lines_cut_independent lossy chunks :
  writer_run lossy chunks [] = map lossy (List.filter (fun l => negb (bool_decide (l = []))) (lines (concat chunks))).
Proof. rewrite writer_run_lines by apply not_elem_of_nil. reflexivity. Qed.

(** *** Witnesses *)
Definition demo_clap (args : list text) : result Config :=
  Success (set_normalized false [] (if bool_decide (txt "--secret" ∈ args) then [txt "zz"] else []) [] demo_config).

Definition demo_android : android :=
  (nativeStart (H := plain_hex) demo_clap (fun _ => true) (replicate 16 7) (Success (txt "--quiet")) None android_init).2.

Lemma demo_android_reachable : android_reachable (H := plain_hex) demo_clap (fun _ => true) demo_android.
Proof. eapply rtc_l; [apply step_start|apply rtc_refl]. Qed.

Lemma android_single_worker_witness :
  nativeIsRunning demo_android = true /\ nativeIsRunning (stop_proxy demo_android) = false.
Proof.
  split; [vm_compute; reflexivity|].
  exact (proj1 (proj2 (proj2 (android_single_worker (H := plain_hex) demo_clap (fun _ => true) demo_android demo_android_reachable)))).
Defined.

Lemma android_bad_secret_witness :
  fst (nativeStart (H := plain_hex) demo_clap (fun _ => true) [] (Success (txt "--secret zz")) None android_init) = None.
Proof.
  pose proof (android_bad_secret (H := plain_hex) demo_clap (fun _ => true) [] (txt "--secret zz") [txt "--secret"; txt "zz"] None
    android_init (set_normalized false [] [txt "zz"] [] demo_config) (txt "zz")) as HB.
  destruct (nativeStart demo_clap (fun _ => true) [] (Success (txt "--secret zz")) None android_init) as [r b].
  apply HB.
  - reflexivity.
  - reflexivity.
  - vm_compute. reflexivity.
  - vm_compute. reflexivity.
  - left.
  - vm_compute. reflexivity.
Defined.
