(* ===== verification/AndroidJni.v ===== *)
(** * android.rs: callbacks into Kotlin, logging, and the worker's reports

    A log line goes to logcat and, through JNI, to the application; the jni
    crate itself logs when a thread attaches or detaches, and those records come
    back through the same path.  [IN_JNI_CALL] breaks the circle.  What a thread
    does is the trace of its [jni_event]s.  The jni crate and the JVM are the
    class [Jni]. *)
From Stdlib Require Import String.
From stdpp Require Import base list.
From S2P Require Import Prelude Text Ip Outbound Config WsClient Pool Check Server Android.

Local Open Scope string_scope.
Local Open Scope list_scope.
Local Open Scope Z_scope.
Local Open Scope run_scope.

Class Jni : Type := {
  (** The log records of the crate when it attaches a thread that is not yet
      attached, and when it detaches one, as they reach the log writer. *)
  attach_records : list text;
  detach_records : list text;
  (** Whether a thread that is not yet attached can be, and whether the JVM has
      room for a string. *)
  attach_ok : bool;
  new_string_ok : text -> bool;
  (** Whether a callback ends without a pending exception. *)
  callback_ok : text -> option text -> bool;
  (** [env.new_global_ref], and [env.find_class] of [NativeProxy]. *)
  global_ref_ok : bool;
  class_found : bool;
}.

Inductive jni_event : Type :=
| Logcat (line : text)
| Attached
| DetachBegins
| DetachEnds
| Kotlin (method : text) (arg : option text)
| ExceptionCleared.

(** The process-wide [JVM] and [NATIVE_CLASS], set at most once. *)
Record jni_globals : Type := mkGlobals {
  JVM : bool;
  NATIVE_CLASS : bool;
}.

(** A thread: its [IN_JNI_CALL], [None] once the thread-local is destroyed, and
    whether it is attached to the JVM. *)
Record jthread : Type := mkThread {
  IN_JNI_CALL : option bool;
  th_attached : bool;
}.

Section jni.
Context {J : Jni} (g : jni_globals).

(** *** The guard *)

(** [JniReentryGuard::acquire]; [Drop] is [release]. *)
Definition acquire (th : jthread) : option jthread :=
  match IN_JNI_CALL th with
  | Some false => Some (mkThread (Some true) (th_attached th))
  | Some true | None => None
  end.

Definition release (th : jthread) : jthread :=
  match IN_JNI_CALL th with
  | Some _ => mkThread (Some false) (th_attached th)
  | None => th
  end.

(** *** Log lines *)

(** The text handed to [__android_log_write]. *)
Definition logcat (line : text) : list jni_event := [Logcat (List.filter (fun b => negb (b =? 0)) line)].

Definition tracing (A : Type) : Type := run (A * list jni_event).

(** The records of the crate, one by one, each forwarded like any log line. *)
Fixpoint forward_all (emit_log : text -> jthread -> tracing jthread) (records : list text) (th : jthread)
  : tracing jthread :=
  match records with
  | [] => Done (th, [])
  | r :: records =>
      let! (th, ev) := emit_log r th in
      let! (th, evs) := forward_all emit_log records th in
      Done (th, logcat r ++ ev ++ evs)
  end.

Definition set_attached (b : bool) (th : jthread) : jthread := mkThread (IN_JNI_CALL th) b.

(** [vm.attach_current_thread] up to the callback it runs, and whether it runs it. *)
Definition attach_current_thread (emit_log : text -> jthread -> tracing jthread) (th : jthread)
  : tracing (jthread * bool) :=
  if th_attached th then Done (th, true, [])
  else if attach_ok then
    let! (th, ev) := forward_all emit_log attach_records (set_attached true th) in
    Done (th, true, Attached :: ev)
  else Done (th, false, []).

(** [vm.detach_current_thread]: its records are logged while it is at work. *)
Definition detach_current_thread (emit_log : text -> jthread -> tracing jthread) (th : jthread) : tracing jthread :=
  if th_attached th then
    let! (th, ev) := forward_all emit_log detach_records th in
    Done (set_attached false th, DetachBegins :: ev ++ [DetachEnds])
  else Done (th, []).

(** The closures of [call_static] and [call_static_void]: the argument becomes a
    Java string before the method is called. *)
Definition static_call (method : text) (arg : option text) : list jni_event * bool :=
  if match arg with Some a => new_string_ok a | None => true end
  then ([Kotlin method arg], callback_ok method arg)
  else ([], false).

(** [call_static_impl] with the call of [method]; the nesting of calls is
    bounded by [fuel]. *)
Fixpoint call_static_impl (fuel : nat) (method : text) (arg : option text) (th : jthread) : tracing jthread :=
  match fuel with
  | O => OutOfFuel
  | S fuel =>
      match acquire th with
      | None => Done (th, [])
      | Some th =>
          if JVM g then
            if NATIVE_CLASS g then
              let emit_log := fun line => call_static_impl fuel (txt "onNativeLog") (Some line) in
              let! (r, ev) := attach_current_thread emit_log th in
              let '(th, runs) := r in
              let '(call, ok) := if runs then static_call method arg else ([], true) in
              Done (release th, ev ++ call ++ if ok then [] else [ExceptionCleared])
            else Done (release th, [])
          else Done (release th, [])
      end
  end.

(** Two levels are all there ever are: a call, and the records it causes. *)
Definition call_static (method : string) (arg : text) (th : jthread) : tracing jthread :=
  call_static_impl 2 (txt method) (Some arg) th.

Definition call_static_void (method : string) (th : jthread) : tracing jthread :=
  call_static_impl 2 (txt method) None th.

Definition emit_log (line : text) (th : jthread) : tracing jthread := call_static "onNativeLog" line th.

Definition forward_line (line : text) (th : jthread) : tracing jthread :=
  let! (th, ev) := emit_log line th in
  Done (th, logcat line ++ ev).

Definition emit_error (line : text) (th : jthread) : tracing jthread :=
  let! (th, ev) := call_static "onNativeError" line th in
  Done (th, logcat line ++ ev).

Definition emit_listening (link : text) (th : jthread) : tracing jthread := call_static "onNativeListening" link th.

Definition emit_stopped (th : jthread) : tracing jthread := call_static_void "onNativeStopped" th.

(** *** Runtime threads *)
Definition attach_runtime_thread (th : jthread) : tracing jthread :=
  match acquire th with
  | None => Done (th, [])
  | Some th =>
      if JVM g then
        let! (r, ev) := attach_current_thread emit_log th in
        Done (release r.1, ev)
      else Done (release th, [])
  end.

Definition detach_runtime_thread (th : jthread) : tracing jthread :=
  match acquire th with
  | None => Done (th, [])
  | Some th =>
      if JVM g then
        let! (th, ev) := detach_current_thread emit_log th in
        Done (release th, ev)
      else Done (release th, [])
  end.
End jni.

(** ** The class of the callbacks *)
Section class_cache.
Context {J : Jni}.

Definition cache_native_class (g : jni_globals) : jni_globals :=
  if NATIVE_CLASS g then g
  else if global_ref_ok then mkGlobals (JVM g) true else g.

Definition cache_native_class_by_name (g : jni_globals) : jni_globals :=
  if NATIVE_CLASS g then g
  else if class_found then cache_native_class g else g.

Definition JNI_OnLoad (g : jni_globals) : jni_globals :=
  let g := cache_native_class_by_name g in mkGlobals true (NATIVE_CLASS g).
End class_cache.

(** ** The log filter *)

(** The process-wide subscriber: none, one whose filter [LOG_FILTER] can swap,
    or somebody else's. *)
Inductive subscriber : Type :=
| NoSubscriber
| Reloadable (filter : text)
| Foreign.

(** [rust_log]: the directives of [RUST_LOG], when it is set and valid. *)
Definition install_logging (rust_log : option text) (c : Config) (s : subscriber) : subscriber :=
  let env_filter := default (android_log_level c) rust_log in
  match s with
  | Reloadable _ => Reloadable env_filter
  | NoSubscriber => Reloadable env_filter
  | Foreign => Foreign
  end.

(** ** The worker thread *)
Section worker.
Context {J : Jni} (g : jni_globals).

(** The body of the thread [start_proxy] spawns: [built] is the error of the
    runtime builder, [listening] the link the listen callback got, [result] what
    [run_with_listen] returned. *)
Definition worker_body (built : option text) (listening : option text) (result : unit + RunError) (th : jthread)
  : tracing jthread :=
  match built with
  | Some e => emit_error g (txt "failed to start runtime: " ++ e) th
  | None =>
      let! (th, ev) := match listening with Some link => emit_listening g link th | None => Done (th, []) end in
      let! (th, ev') :=
        match result with
        | inl _ => emit_stopped g th
        | inr e => emit_error g (txt "proxy failed: " ++ run_error_text e) th
        end in
      Done (th, ev ++ ev')
  end.

(** The shutdown future over the values of the watch channel still to be seen:
    [None] is the drop of the sender.  Whether it completes. *)
Fixpoint shutdown_future (values : list (option bool)) : bool :=
  match values with
  | [] => false
  | None :: _ => true
  | Some v :: values => if v then true else shutdown_future values
  end.
End worker.

(** ** Lemmas *)
Definition clean (line : text) : text := List.filter (fun b => negb (b =? 0)) line.

Definition logcat_lines (ev : list jni_event) : list text :=
  omap (fun e => match e with Logcat l => Some l | _ => None end) ev.

Definition kotlin_calls (ev : list jni_event) : list (text * option text) :=
  omap (fun e => match e with Kotlin m a => Some (m, a) | _ => None end) ev.

Section jni_lemmas.
Context {J : Jni} (g : jni_globals).

Lemma acquire_blocked th : IN_JNI_CALL th <> Some false -> acquire th = None.
Proof. unfold acquire. by destruct (IN_JNI_CALL th) as [[]|]. Qed.

(** Inside a call, a record goes to logcat and no further. *)
Lemma nested_call fuel method arg th :
  IN_JNI_CALL th <> Some false -> call_static_impl g (S fuel) method arg th = Done (th, []).
Proof. intros Hb. cbn [call_static_impl]. by rewrite acquire_blocked. Qed.

Lemma forward_all_nested emit records th :
  (forall line, emit line th = Done (th, [])) ->
  forward_all emit records th = Done (th, map (fun r => Logcat (clean r)) records).
Proof.
  intros He. induction records as [|r records IH]; [done|]. cbn [forward_all]. rewrite He. cbn [run_bind].
  by rewrite IH.
Qed.

Lemma logcat_of_records rs : logcat_lines (map (fun r => Logcat (clean r)) rs) = map clean rs.
Proof. unfold logcat_lines. induction rs as [|r rs IH]; [done|]. cbn. by rewrite IH. Qed.

Lemma kotlin_of_records rs : kotlin_calls (map (fun r => Logcat (clean r)) rs) = [].
Proof. unfold kotlin_calls. by induction rs. Qed.

Lemma kotlin_app ev ev' : kotlin_calls (ev ++ ev') = kotlin_calls ev ++ kotlin_calls ev'.
Proof. apply omap_app. Qed.

Lemma logcat_app ev ev' : logcat_lines (ev ++ ev') = logcat_lines ev ++ logcat_lines ev'.
Proof. apply omap_app. Qed.

Lemma attached_silent ev : kotlin_calls (Attached :: ev) = kotlin_calls ev.
Proof. done. Qed.

Lemma attached_unlogged ev : logcat_lines (Attached :: ev) = logcat_lines ev.
Proof. done. Qed.

(** Whether a call gets as far as the JVM, and whether its argument does. *)
Definition reaches (th : jthread) : bool :=
  bool_decide (IN_JNI_CALL th = Some false) && (JVM g && NATIVE_CLASS g) && (th_attached th || attach_ok).

Definition arg_made (arg : option text) : bool := match arg with Some a => new_string_ok a | None => true end.

(** The records a call leaves in logcat. *)
Definition attach_noise (th : jthread) : list text :=
  if reaches th && negb (th_attached th) then map clean attach_records else [].

(** One callback, complete. *)
Lemma call_spec fuel method arg th :
  exists th' ev, call_static_impl g (S (S fuel)) method arg th = Done (th', ev) /\
    IN_JNI_CALL th' = IN_JNI_CALL th /\
    kotlin_calls ev = (if reaches th && arg_made arg then [(method, arg)] else []) /\
    logcat_lines ev = attach_noise th.
Proof.
  unfold attach_noise, reaches. destruct (decide (IN_JNI_CALL th = Some false)) as [Hf|Hf].
  2:{ rewrite nested_call by done. rewrite bool_decide_eq_false_2 by done. by eexists _, _. }
  rewrite bool_decide_eq_true_2 by done. remember (S fuel) as f eqn:Ef. cbn [call_static_impl].
  unfold acquire. rewrite Hf. destruct (JVM g), (NATIVE_CLASS g); try by (eexists _, _; split; [done|]).
  unfold attach_current_thread. cbn [th_attached]. destruct (th_attached th) eqn:Ea; cbn [run_bind orb andb].
  { unfold static_call. fold (arg_made arg). destruct (arg_made arg); eexists _, _; (split; [done|]); cbn;
      split_and!; try done; by destruct (callback_ok method arg). }
  destruct attach_ok; cbn [run_bind]; [|by (eexists _, _; split; [done|])].
  rewrite forward_all_nested by (intros; subst f; by apply nested_call). cbn [run_bind].
  unfold static_call. fold (arg_made arg). destruct (arg_made arg); eexists _, _; (split; [done|]);
    rewrite kotlin_app, logcat_app, attached_silent, attached_unlogged, kotlin_of_records, logcat_of_records;
    cbn; split_and!; try done; destruct (callback_ok method arg); cbn; by rewrite ?app_nil_r.
Qed.

Lemma detach_trace rs :
  let ev := DetachBegins :: map (fun r => Logcat (clean r)) rs ++ [DetachEnds] in
  kotlin_calls ev = [] /\ (Attached ∉ ev) /\ logcat_lines ev = map clean rs.
Proof.
  cbv zeta. split_and!.
  - change (kotlin_calls (map (fun r => Logcat (clean r)) rs ++ [DetachEnds]) = []).
    by rewrite kotlin_app, kotlin_of_records.
  - rewrite elem_of_cons, elem_of_app, list_elem_of_fmap, list_elem_of_singleton. naive_solver.
  - change (logcat_lines (map (fun r => Logcat (clean r)) rs ++ [DetachEnds]) = map clean rs).
    by rewrite logcat_app, logcat_of_records, app_nil_r.
Qed.

Lemma attach_spec th :
  exists th' ev, attach_runtime_thread g th = Done (th', ev) /\ IN_JNI_CALL th' = IN_JNI_CALL th /\
    kotlin_calls ev = [] /\
    (IN_JNI_CALL th = Some false -> JVM g = true -> th_attached th' = th_attached th || attach_ok).
Proof.
  unfold attach_runtime_thread, acquire.
  destruct (IN_JNI_CALL th) as [[]|] eqn:Ei; try by (eexists _, _; split; [done|]; rewrite ?Ei).
  destruct (JVM g); [|by eexists _, _]. unfold attach_current_thread. cbn [th_attached].
  destruct (th_attached th) eqn:Ea; cbn [run_bind]; [eexists _, _; split; [done|]; cbn; by rewrite ?Ea|].
  destruct attach_ok; [|by (eexists _, _; split; [done|])].
  rewrite forward_all_nested by (intros; by apply nested_call). cbn [run_bind].
  eexists _, _. split; [done|]. by rewrite attached_silent, kotlin_of_records.
Qed.

Lemma detach_spec th :
  exists th' ev, detach_runtime_thread g th = Done (th', ev) /\ IN_JNI_CALL th' = IN_JNI_CALL th /\
    kotlin_calls ev = [] /\ (Attached ∉ ev) /\
    (IN_JNI_CALL th = Some false -> JVM g = true ->
     th_attached th' = false /\ logcat_lines ev = (if th_attached th then map clean detach_records else [])).
Proof.
  unfold detach_runtime_thread, acquire.
  assert ((Attached ∉ [])) as Hnil by apply not_elem_of_nil.
  destruct (IN_JNI_CALL th) as [[]|] eqn:Ei; try by (eexists _, _; split; [done|]; rewrite ?Ei).
  destruct (JVM g); [|by eexists _, _]. unfold detach_current_thread. cbn [th_attached].
  destruct (th_attached th) eqn:Ea; cbn [run_bind]; [|eexists _, _; split; [done|]; cbn; by rewrite ?Ea].
  rewrite forward_all_nested by (intros; by apply nested_call). cbn [run_bind].
  destruct (detach_trace detach_records) as (Hk & Ha & Hl). by eexists _, _.
Qed.
End jni_lemmas.

(** ** Properties *)
Section jni_properties.
Context {J : Jni} (g : jni_globals).

(** C37. Forwarding a log line never re-enters itself, although attaching and
    detaching a thread log records of their own: on every thread, in whatever
    state its guard is, it ends after at most one nested call, leaves the guard
    as it found it, puts the line in logcat (and every record the attach caused),
    and calls Kotlin once, with the line, exactly when the thread is not already
    inside a call, the JVM and the class are known, the thread is attached or can
    be, and the JVM makes a string of the line.  A runtime thread that starts is
    attached when it can be.  A thread that is being
    detached is never attached again by the records of the detach, and calls
    nothing. *)
Theorem jni_forwarding_safe line th :
  (exists th1 ev1, forward_line g line th = Done (th1, ev1) /\ IN_JNI_CALL th1 = IN_JNI_CALL th /\
     logcat_lines ev1 = clean line :: attach_noise g th /\
     kotlin_calls ev1 = (if reaches g th && new_string_ok line then [(txt "onNativeLog", Some line)] else [])) /\
  (exists th2 ev2, attach_runtime_thread g th = Done (th2, ev2) /\ IN_JNI_CALL th2 = IN_JNI_CALL th /\
     kotlin_calls ev2 = [] /\
     (IN_JNI_CALL th = Some false -> JVM g = true -> th_attached th2 = th_attached th || attach_ok)) /\
  (exists th3 ev3, detach_runtime_thread g th = Done (th3, ev3) /\ IN_JNI_CALL th3 = IN_JNI_CALL th /\
     kotlin_calls ev3 = [] /\ (Attached ∉ ev3) /\
     (IN_JNI_CALL th = Some false -> JVM g = true ->
      th_attached th3 = false /\ logcat_lines ev3 = (if th_attached th then map clean detach_records else []))).
Proof.
  split_and!; [|apply attach_spec|apply detach_spec]. unfold forward_line, emit_log, call_static.
  destruct (call_spec g 0 (txt "onNativeLog") (Some line) th) as (th' & ev & -> & Hf & Hk & Hl). cbn [run_bind].
  eexists _, _. split; [done|]. by rewrite kotlin_app, logcat_app, Hk, Hl.
Qed.

(** What the application hears of a worker whose thread can be attached: nothing more than one listening
    report with the link, and then, as the last thing, exactly one report that
    the worker stopped or that it failed and why; a failure is also in logcat. *)
Theorem worker_reports_once built listening result attached :
  JVM g = true -> NATIVE_CLASS g = true -> attach_ok = true -> (forall line, new_string_ok line = true) ->
  exists th' ev, worker_body g built listening result (mkThread (Some false) attached) = Done (th', ev) /\
    IN_JNI_CALL th' = Some false /\
    kotlin_calls ev =
      match built with
      | Some e => [(txt "onNativeError", Some (txt "failed to start runtime: " ++ e))]
      | None =>
          match listening with Some link => [(txt "onNativeListening", Some link)] | None => [] end ++
          match result with
          | inl _ => [(txt "onNativeStopped", None)]
          | inr e => [(txt "onNativeError", Some (txt "proxy failed: " ++ run_error_text e))]
          end
      end.
Proof.
  intros HJ HN HA HS.
  assert (forall th, IN_JNI_CALL th = Some false -> reaches g th = true) as HR.
  { intros th Hth. unfold reaches. by rewrite Hth, HJ, HN, HA, orb_true_r. }
  assert (forall arg, arg_made arg = true) as HM by (intros [line|]; [apply HS|done]).
  assert (forall method arg th, IN_JNI_CALL th = Some false ->
    exists th' ev, call_static_impl g 2 method arg th = Done (th', ev) /\ IN_JNI_CALL th' = Some false /\
      kotlin_calls ev = [(method, arg)]) as HC.
  { intros method arg th Hth. destruct (call_spec g 0 method arg th) as (th' & ev & E & Hf & Hk & _).
    exists th', ev. by rewrite Hf, Hk, HR, HM. }
  assert (forall line th, IN_JNI_CALL th = Some false ->
    exists th' ev, emit_error g line th = Done (th', ev) /\ IN_JNI_CALL th' = Some false /\
      kotlin_calls ev = [(txt "onNativeError", Some line)]) as HE.
  { intros line th Hth. unfold emit_error, call_static.
    destruct (HC (txt "onNativeError") (Some line) th Hth) as (th' & ev & -> & Hf & Hk). cbn [run_bind].
    eexists _, _. split; [done|]. by rewrite kotlin_app, Hk. }
  unfold worker_body. destruct built as [e|]; [by apply HE|].
  match goal with |- context [run_bind ?m _] => assert (exists th1 ev1, m = Done (th1, ev1) /\ IN_JNI_CALL th1 = Some false /\
    kotlin_calls ev1 = match listening with Some link => [(txt "onNativeListening", Some link)] | None => [] end)
    as (th1 & ev1 & -> & Hf1 & Hk1) end.
  { destruct listening as [link|]; [by apply HC|by eexists _, _]. }
  cbn [run_bind]. destruct result as [[]|e].
  - destruct (HC (txt "onNativeStopped") None th1 Hf1) as (th2 & ev2 & E & Hf2 & Hk2).
    unfold emit_stopped, call_static_void. rewrite E. cbn [run_bind]. eexists _, _. split; [done|].
    by rewrite kotlin_app, Hk1, Hk2.
  - destruct (HE (txt "proxy failed: " ++ run_error_text e) th1 Hf1) as (th2 & ev2 & -> & Hf2 & Hk2). cbn [run_bind].
    eexists _, _. split; [done|]. by rewrite kotlin_app, Hk1, Hk2.
Qed.
End jni_properties.

(** The filter in force is the one of the last start, however many came before. *)
Theorem log_filter_follows rust_log starts c :
  fold_left (fun s c => install_logging rust_log c s) (starts ++ [c]) NoSubscriber
  = Reloadable (default (android_log_level c) rust_log).
Proof.
  rewrite fold_left_app. cbn. assert (forall s, s <> Foreign ->
    fold_left (fun s c => install_logging rust_log c s) starts s <> Foreign) as HF.
  { induction starts as [|c0 starts IH]; [done|]. intros s Hs. cbn. apply IH. by destruct s. }
  specialize (HF NoSubscriber ltac:(done)). by destruct (fold_left _ _ _).
Qed.

(** The shutdown future completes exactly when [true] is sent or the sender is
    dropped. *)
Lemma shutdown_future_spec values : shutdown_future values = true <-> Some true ∈ values \/ None ∈ values.
Proof.
  induction values as [|[[]|] values IH]; cbn [shutdown_future].
  - split; [done|]. intros [[]%elem_of_nil|[]%elem_of_nil].
  - split; [|done]. intros _. left. apply elem_of_cons. by left.
  - rewrite IH, !elem_of_cons. naive_solver.
  - split; [|done]. intros _. right. apply elem_of_cons. by left.
Qed.

(** *** A witness *)
Definition demo_jni : Jni := {|
  attach_records := [txt "Attached thread tg-ws-proxy"];
  detach_records := [txt "Detached thread tg-ws-proxy"];
  attach_ok := true;
  new_string_ok _ := true;
  callback_ok _ _ := true;
  global_ref_ok := true;
  class_found := true;
|}.

Definition demo_globals : jni_globals := JNI_OnLoad (J := demo_jni) (mkGlobals false false).

Lemma worker_reports_once_witness : exists th' ev,
  worker_body (J := demo_jni) demo_globals None (Some (txt "tg://proxy")) (inr CheckFailed) (mkThread (Some false) false)
    = Done (th', ev) /\
  kotlin_calls ev = [(txt "onNativeListening", Some (txt "tg://proxy"));
                     (txt "onNativeError", Some (txt "proxy failed: connectivity check failed"))].
Proof.
  destruct (worker_reports_once (J := demo_jni) demo_globals None (Some (txt "tg://proxy")) (inr CheckFailed) false)
    as (th' & ev & E & _ & Hk); [reflexivity..|].
  exists th', ev. split; [exact E|exact Hk].
Defined.
